(* ===== verification/_CoqProject ===== *)
-Q . S2P
Prelude.v
GoStrings.v
Encoding.v
Domain.v
Http.v
Url.v
Mux.v
Markup.v
Json.v
PubSub.v
Schema.v
Platform.v
Effects.v
Pool.v
Interfaces.v
RepoLinks.v
RepoUsers.v
RepoSessions.v
RepoGuests.v
RepoLogs.v
Registry.v
Policy.v
Blacklist.v
Limiter.v
Links.v
Enforcement.v
Crypto.v
Import.v
Injector.v
Auth.v
Tables.v
Director.v
Cookies.v
Proxy.v
LogWriter.v
Middleware.v
Templates.v
Rest.v
Bodies.v
Ownership.v
Confidentiality.v
Feed.v
Grpc.v
WebUI.v
EventSource.v
Router.v
Config.v
System.v
EndToEnd.v
Lifecycle.v
