(* ===== verification/Prelude.v ===== *)
(** * SessionProxy: a verification library

    SessionProxy lets the owner of an account on a target site give guests
    access to it through links of the form /r/token/...; the guest's requests
    are forwarded with the owner's credentials, under request, traffic, time and
    violation limits and a blacklist of paths.  Owners work through a REST
    interface, a dashboard and gRPC.  This library models the Go code of
    [app/internal] and of [app/cmd/server] and proves what makes it correct.
    Source names below are relative to src/app/internal.

    ** Parts and files

    - Foundations: this file (machine integers, tactics, lists and maps);
      [GoStrings] (package strings); [Encoding] (base64, hex); [Http] (headers,
      cookies, requests of net/http); [Url] (net/url: escaping, request targets,
      queries); [Mux] (net/http's ServeMux and StripPrefix, and what chi
      promises); [Markup] (html.EscapeString, and HTML as a browser reads it);
      [Json] (encoding/json: the reader and the writer of texts).
    - Data: [Domain] (domain/domain.go); [Schema] (the tables, as maps from
      primary keys, with the checks of migrations/); [Interfaces] (the
      repository interfaces, as type classes).
    - World: [Platform] (Redis, uuid, the clock, randomness, failures);
      [Effects] (programs, the shared world, sequential runs and interleaving);
      [Pool] (repository/pgx/pool.go, querier.go).
    - Repositories: [RepoUsers], [RepoSessions], [RepoLinks], [RepoGuests],
      [RepoLogs] (repository/pgx/*.go), the instances of [Interfaces];
      [Registry] (registry.go) collects them.
    - Limits: [Limiter] (limiter/counter_store.go, limiter/sync_worker.go);
      [Policy] (service/policy_resolver.go); [Blacklist]
      (service/blacklist_service.go); [Enforcement]
      (service/enforcement_service.go), which composes the three with [Links]
      and [PubSub].
    - Links: [Links] (service/link_service.go).
    - Credentials: [Crypto] (crypto/aesgcm.go), [Import]
      (service/session_import.go), [Injector] (proxy/injector.go).
    - Owners: [Auth] (service/auth_service.go).
    - Writes: [Tables] has a rule per SQL write of the running program, and
      what no sequence of them breaks.
    - Data plane: [Director] (proxy/director.go, stripper.go, bodycounter.go and
      the ServeHTTP of net/http/httputil around them); [Cookies] (the Cookie
      header from AddCookie to its reader); [Proxy] (proxy/handler.go);
      [LogWriter] (proxy/logwriter.go).
    - Control plane: [Middleware] (transport/http/middleware), [Rest]
      (transport/http/*.go), with [Bodies] (decodeJSON on the request types of
      handlers_*.go), [Ownership] (what a request changes) and [Confidentiality]
      (what it is answered).
    - Events: [PubSub] (pubsub/hub.go), [Feed] (the loop that writes events to
      a client), [Grpc] (transport/grpc/*.go), [WebUI]
      (transport/webui/handlers.go), [EventSource] (the stream of the dashboard's
      feed, from json.Marshal to the browser's messages).
    - Pages and routes: [Templates] (the components of
      transport/webui/templates/*_templ.go, write by write, and the documents
      they stand for); [Router] (the tables of routes of main.go,
      transport/http/server.go and transport/webui/handlers.go, and the way of a
      request through ServeMux, StripPrefix and chi).
    - Process: [Config] (config/config.go); [System] (cmd/server/main.go: the
      wiring, the start-up, the handler of the HTTP server, the operations that
      run concurrently); [EndToEnd] (an import from its POST to the requests of
      the guests); [Lifecycle] (main.go: servers, workers, signal and
      shutdown up to the exit).

    A Go function f of a type T is the definition T_f (or f where the name is
    unique); a repository method is a term over the class of its interface, and
    a field F of a struct S is the projection S_F.

    ** State and effects

    A handler is a term of [Effects.prog]: a tree of atomic interactions with the
    world, each with its continuation.  The world [World] holds the database
    [Schema.DB], Redis, the hub, the channel of the access log, the requests
    sent to targets, and a tick that every interaction advances.  An interaction
    is one SQL statement, one command of a Redis pipeline, one reading of the
    clock, one draw of random bytes, one operation of the hub or of the log
    channel, or one round trip to the target.  [run] executes a program alone; [pool_step] interleaves
    the interactions of any number of programs.

    The platform decides at each tick whether a statement fails before it is
    executed, fails after (its reply is lost), or succeeds; theorems that say
    "whatever fails" hold for every such platform, those that say "without
    failures" assume [NoFaults].  The clock, the identifiers and the random
    bytes are functions of the tick; what the theorems need of them, and of
    Redis and uuid, is [PlatformLaws] (Redis writes and reads decimal integers,
    adds them as int64 and refuses a sum that does not fit, uuid.Parse inverts
    String).

    Machine integers are [Z] with [wrap64] at the operations that can overflow;
    the columns of type int have the check [in_int32b].  The loops of the
    program are over lists, and the endless ones (the flush worker, the log
    writer) are functions of the list of events they receive; only the reader of
    JSON has fuel, of which the length of the text is enough ([Json.read_fuel],
    [Json.read_write]).

    ** What the theorems show

    - Enforcement: [BeforeProxy] refines the specification [judge] on every
      branch, and admits only what it admits under any failure; [AfterProxy]
      counts exactly; a link's request limit bounds the requests admitted in
      any sequence; end to end, ServeHTTP forwards only admitted requests of
      open links, and counts what the guest received.
    - Links: creation and termination change exactly what they should, for their
      owner only; the expiry is exact up to the overflow of the duration.
    - Counters: the operations of the counter store on Redis refine those of a
      store of int64 counters with a set of links to flush, overflow included;
      flushing, warm loading and a restart of Redis lose nothing that was
      flushed.
    - Credentials: what an owner imports is what the target receives, encrypted
      in between, and from the JSON text posted to the headers sent, whatever runs
      at the same time ([EndToEnd], which says what reading a Cookie line does to
      a value); a tampered value does not decrypt; the header of the final
      response never holds the identity headers - interim responses and trailers
      are relayed without the filter -, and the guest's own credentials are not
      forwarded.
    - The proxy: the request the target gets, header by header (end-to-end
      headers as the guest wrote them, connection headers removed, the owner's
      added); the response the guest gets for every answer of the target, interim
      responses, upgrades and trailers included.
    - Owners: JWT and API key authentication are sound and complete; revocation
      and expiry are final.
    - Policies and rules: resolution is the least limit, in any order; rule
      matching is its specification, and fails closed.
    - Logs and events: order, no invention, and when nothing is lost; the hub
      never panics nor blocks, and drops what a full subscriber cannot take; a
      feed shows its user's events only, and the browser reads one message per
      event sent whatever its texts hold.
    - Control plane: a request changes nothing of another owner and shows
      nothing of another owner, and a foreign resource that an address names is
      answered as one that does not exist, but for the routes without an
      ownership check (below); the gRPC import is the REST import; a login leads to
      the pages until its token expires; what a client writes as JSON is what the
      handler gets, whatever follows it.
    - Pages: what a component writes is read by a browser as the document of its
      page whatever the data, and a page cut short is reported; every link, form
      and button of a page reaches the handler meant, with the values typed.
    - Routes: every endpoint of the REST interface is reached by its address;
      a request without credentials is turned away on every row that needs them;
      a click on the terminate button closes the link for good.
    - The process ([Lifecycle]): what exit status 0 means, and that the shutdown
      can always be completed; its steps keep the database well formed.
    - The whole program ([System]): any number of its operations, interleaved
      interaction by interaction and with any failures, keep the database well
      formed and the credentials sealed, never reopen a link or a key and never
      rewrite the audit trail.
    - Some lemmas exhibit behaviour the comments of the code do not describe:
      [Limiter.lost_update], [Links.double_termination],
      [Links.unrecorded_termination], [Enforcement.over_admission],
      [Director.trailer_not_stripped], [Director.interim_not_stripped],
      [Director.upgrade_not_counted],
      [LogWriter.shutdown_loses_entries], [Import.known_domain_keeps_url],
      [Blacklist.dot_segments_pass], [Cookies.quoted_value_altered],
      [Bodies.misspelt_field_ignored], [Bodies.elements_reused],
      [Ownership.foreign_key_revoked], [Ownership.foreign_device_deleted],
      [Ownership.foreign_rule_attached], [Ownership.create_link_tells_sessions],
      [Ownership.site_rule_hits_foreign_links],
      [Confidentiality.guests_of_others_listed],
      [Rest.ttl_overflow], [Config.zero_interval_panics],
      [Router.encoded_dots_reach_proxy], [Router.encoded_slash_decoded],
      [System.link_stats_stay_empty], [Lifecycle.late_request_unlogged].

    ** Parameters

    Code outside the repository is a parameter with its documented laws:
    regexp (class [RegexpLib], no law), AES-256-GCM ([AEAD]), bcrypt, SHA-256,
    the JWT library ([Auth]), url.Parse ([URLLib]), time.ParseDuration
    ([Durations]), multipart bodies, the metadata of a gRPC call and the target sites ([Transport]); chi
    ([Chi]: the row it finds is one that matches, and it finds one when one
    does); the functions of the templ runtime and the local time zone ([Templ]);
    GracefulStop ([Graceful]); what pgxpool.New, redis.ParseURL, Ping and
    net.Listen answer at the start ([System.Outside]).  Each law has a concrete
    instance, used by the witnesses.  The handlers take the decoder of
    bodies as a parameter too ([JSONDecoder]), so that their theorems hold for any;
    [Bodies.encoding_json] is the code's.

    ** Not modelled

    Logging with slog; the constructors that only store their arguments;
    validation of text by Postgres (UTF-8, NUL bytes); the quoting of %q in
    error texts; URL.RawPath, request body streaming and response buffering of
    net/http, and the headers it writes itself in place of those of the request
    or the response (Host, Content-Length, Transfer-Encoding, Trailer of the
    request; Date and framing of the response); context cancellation within a
    request;
    the JSON of replies other than the feed's events; the isolation of concurrent transactions (WithTx, modelled alone, is called by
    nothing); patterns of ServeMux with a host or a method, of which there are
    none; connections as such (listeners, keep-alive, read timeouts) and the
    handlers of the debug server; what a browser does with CR and NUL in a page;
    generated code (domain/mocks, transport/grpc/pb). *)

From stdpp Require Export base tactics list strings gmap sets sorting.
From Stdlib Require Export ZArith Lia.

(** ** Machine integers of Go *)

Declare Scope go_scope.
Delimit Scope go_scope with go.

Definition two63 : Z := 9223372036854775808.
Definition two64 : Z := 18446744073709551616.

(** Two's complement wrap-around of a 64-bit signed integer (Go's [int64],
    [int] on the supported platforms and [time.Duration]). *)
Definition wrap64 (z : Z) : Z := (z + two63) mod two64 - two63.

Definition in_int64 (z : Z) : Prop := (- two63 <= z < two63)%Z.
Definition in_int64b (z : Z) : bool := ((- two63 <=? z) && (z <? two63))%Z.

(** Postgres [int] (int4). *)
Definition in_int32b (z : Z) : bool := ((-2147483648 <=? z) && (z <? 2147483648))%Z.

Notation "a '+64' b" := (wrap64 (a + b)) (at level 50, left associativity) : go_scope.
Notation "a '*64' b" := (wrap64 (a * b)) (at level 40, left associativity) : go_scope.

(** ** Automation *)

(** Case analysis on every match scrutinee of the goal and of a hypothesis. *)
Ltac split_match :=
  match goal with
  | |- context [match ?x with _ => _ end] => destruct x eqn:?
  end.

Ltac split_match_in H :=
  match type of H with
  | context [match ?x with _ => _ end] => destruct x eqn:?
  end.

(** The update function of one field of a record, from the record's eta
    expansion and the field's projection. *)
Ltac field_setter eta get :=
  let b := eval unfold eta in eta in
  lazymatch eval pattern get in b with
  | ?g _ => let u := eval cbv beta in (fun f => g (fun r => f (get r))) in exact u
  end.

Create HintDb go discriminated.
Create Rewrite HintDb go_rw.

(** ** Integers *)

Lemma wrap64_id z : in_int64 z → wrap64 z = z.
Proof.
  unfold in_int64, wrap64, two63, two64. intros H.
  rewrite Z.mod_small; lia.
Qed.

Lemma wrap64_range z : in_int64 (wrap64 z).
Proof.
  unfold in_int64, wrap64, two63, two64.
  pose proof (Z.mod_pos_bound (z + 9223372036854775808) 18446744073709551616). lia.
Qed.

Lemma in_int64b_spec z : in_int64b z = true ↔ in_int64 z.
Proof. unfold in_int64b, in_int64. rewrite andb_true_iff, Z.leb_le, Z.ltb_lt. done. Qed.

#[export] Hint Resolve wrap64_range : go.
#[export] Hint Rewrite wrap64_id using assumption : go_rw.

(** ** Lists *)

Lemma sublist_fmap {A B} (f : A → B) l k : sublist l k → sublist (f <$> l) (f <$> k).
Proof. induction 1; [constructor|by apply sublist_skip|by apply sublist_cons]. Qed.

Lemma filter_all {A} (P : A → Prop) `{∀ x, Decision (P x)} (l : list A) :
  Forall P l → filter P l = l.
Proof. induction 1; [done|]. rewrite filter_cons_True by done. by f_equal. Qed.

Section find.
Context {A : Type} (P : A → bool).

(** First element satisfying a boolean predicate. *)
Fixpoint find_first (l : list A) : option A :=
  match l with
  | [] => None
  | x :: l' => if P x then Some x else find_first l'
  end.

Lemma find_first_Some l x :
  find_first l = Some x → x ∈ l ∧ P x = true.
Proof.
  induction l as [|y l IH]; simpl; [done|].
  destruct (P y) eqn:HP; intros H.
  - simplify_eq. split; [left|done].
  - destruct (IH H). split; [by right|done].
Qed.

Lemma find_first_None l :
  find_first l = None ↔ ∀ x, x ∈ l → P x = false.
Proof.
  induction l as [|y l IH]; simpl.
  - split; [intros _ x Hx; by apply not_elem_of_nil in Hx | done].
  - destruct (P y) eqn:HP.
    + split; [done|]. intros H. rewrite (H y) in HP; [done|left].
    + rewrite IH. split.
      * intros H x [->|Hx]%elem_of_cons; eauto.
      * intros H x Hx. apply H. by right.
Qed.

Lemma find_first_is_Some l :
  is_Some (find_first l) ↔ ∃ x, x ∈ l ∧ P x = true.
Proof.
  split.
  - intros [x Hx]. eauto using find_first_Some.
  - intros (x & Hx & HP). destruct (find_first l) eqn:E; [eauto|].
    rewrite find_first_None in E. rewrite E in HP; done.
Qed.

End find.

(** ** Sequences of steps *)

Section steps.
Context {S : Type} (R : S → S → Prop) (I : S → Prop).

(** Rule induction over a run: an invariant of every step is one of every run. *)
Lemma rtc_invariant s s' :
  (∀ a b, R a b → I a → I b) → rtc R s s' → I s → I s'.
Proof. intros Hstep Hr. induction Hr; eauto. Qed.

End steps.
