(* ===== verification/GoStrings.v ===== *)
(** * Package [strings] and the byte strings of Go

    A Go [string] is a sequence of bytes; here it is Rocq's [string], whose
    characters are the 256 bytes.  This file holds the functions of package
    [strings] that the program calls, with the lemmas that relate them. *)

From Stdlib Require Import Ascii.
From Stdlib Require String.
From S2P Require Import Prelude.

(** The list of bytes of a string, and back. *)
Fixpoint bytes (s : string) : list ascii :=
  match s with
  | EmptyString => []
  | String c s' => c :: bytes s'
  end.

Fixpoint of_bytes (l : list ascii) : string :=
  match l with
  | [] => EmptyString
  | c :: l' => String c (of_bytes l')
  end.

(** [strings.HasPrefix(s, prefix)] *)
Fixpoint HasPrefix (s prefix : string) : bool :=
  match prefix with
  | EmptyString => true
  | String p prefix' =>
      match s with
      | EmptyString => false
      | String c s' => if decide (c = p) then HasPrefix s' prefix' else false
      end
  end.

(** [s[n:]] for [n <= len s]. *)
Fixpoint drop_string (n : nat) (s : string) : string :=
  match n, s with
  | O, _ => s
  | S n', String _ s' => drop_string n' s'
  | S _, EmptyString => EmptyString
  end.

(** [s[:n]] for [n <= len s]. *)
Fixpoint take_string (n : nat) (s : string) : string :=
  match n, s with
  | O, _ => EmptyString
  | S n', String c s' => String c (take_string n' s')
  | S _, EmptyString => EmptyString
  end.

(** [strings.TrimPrefix(s, prefix)] *)
Definition TrimPrefix (s prefix : string) : string :=
  if HasPrefix s prefix then drop_string (String.length prefix) s else s.

(** [strings.HasSuffix(s, suffix)] *)
Definition HasSuffix (s suffix : string) : bool :=
  (String.length suffix <=? String.length s) &&
  bool_decide (drop_string (String.length s - String.length suffix) s = suffix).

(** [strings.IndexByte(s, c)]; [None] stands for -1. *)
Fixpoint IndexByte (s : string) (c : ascii) : option nat :=
  match s with
  | EmptyString => None
  | String x s' => if decide (x = c) then Some O else S <$> IndexByte s' c
  end.

Definition is_upper (c : ascii) : bool :=
  let n := N_of_ascii c in ((65 <=? n) && (n <=? 90))%N.

Definition to_lower (c : ascii) : ascii :=
  if is_upper c then ascii_of_N (N_of_ascii c + 32) else c.

Definition is_lower (c : ascii) : bool :=
  let n := N_of_ascii c in ((97 <=? n) && (n <=? 122))%N.

Definition to_upper (c : ascii) : ascii :=
  if is_lower c then ascii_of_N (N_of_ascii c - 32) else c.

(** The representative of a string under simple case folding, exact whenever
    one of the two strings compared is ASCII: ASCII letters fold to lower case,
    and the only other runes that fold to ASCII letters are U+017F (bytes C5 BF,
    folds to s) and the Kelvin sign U+212A (bytes E2 84 AA, folds to k). *)
Fixpoint fold_key (l : list ascii) : list ascii :=
  match l with
  | "197"%char :: "191"%char :: l' => "s"%char :: fold_key l'
  | "226"%char :: "132"%char :: "170"%char :: l' => "k"%char :: fold_key l'
  | c :: l' => to_lower c :: fold_key l'
  | [] => []
  end.

(** [strings.EqualFold(s, t)] for [t] an ASCII string (an HTTP method). *)
Definition EqualFold (s t : string) : bool :=
  bool_decide (fold_key (bytes s) = fold_key (bytes t)).

Definition is_ascii (s : string) : Prop := Forall (λ c, N_of_ascii c < 128)%N (bytes s).

(** Length in characters (runes) of a UTF-8 string: continuation bytes do not
    count.  This is the unit of Postgres's varchar(n). *)
Definition rune_count (s : string) : nat :=
  length (filter (λ c, ¬ (128 ≤ N_of_ascii c < 192)%N) (bytes s)).

Definition is_digit (c : ascii) : bool :=
  let n := N_of_ascii c in ((48 <=? n) && (n <=? 57))%N.

(** [strconv.Atoi] *)
Fixpoint parse_digits (l : list ascii) (acc : Z) : option Z :=
  match l with
  | [] => Some acc
  | c :: l' => if is_digit c then parse_digits l' (acc * 10 + Z.of_N (N_of_ascii c - 48)) else None
  end.

Definition Atoi (s : string) : option Z :=
  let '(negative, ds) := match bytes s with
    | "-"%char :: ds => (true, ds)
    | "+"%char :: ds => (false, ds)
    | ds => (false, ds)
    end in
  n ← (if decide (ds = []) then None else parse_digits ds 0);
  let n := if negative then (- n)%Z else n in
  if in_int64b n then Some n else None.

(** ** Lemmas *)

Lemma of_bytes_bytes s : of_bytes (bytes s) = s.
Proof. induction s; by f_equal/=. Qed.

Lemma bytes_of_bytes l : bytes (of_bytes l) = l.
Proof. induction l; by f_equal/=. Qed.

Lemma bytes_inj s t : bytes s = bytes t → s = t.
Proof. intros H. by rewrite <-(of_bytes_bytes s), <-(of_bytes_bytes t), H. Qed.

Lemma bytes_app s t : bytes (s +:+ t) = bytes s ++ bytes t.
Proof. induction s as [|c s IH]; [done|]. simpl. by rewrite <-IH. Qed.

Lemma length_bytes s : length (bytes s) = String.length s.
Proof. induction s; by f_equal/=. Qed.

Lemma length_of_bytes l : String.length (of_bytes l) = length l.
Proof. induction l; by f_equal/=. Qed.

Lemma string_app_cons c s t : String c s +:+ t = String c (s +:+ t).
Proof. done. Qed.

Lemma string_app_nil_l s : EmptyString +:+ s = s.
Proof. done. Qed.

Lemma string_app_assoc s t u : (s +:+ t) +:+ u = s +:+ (t +:+ u).
Proof. apply bytes_inj. by rewrite !bytes_app, app_assoc. Qed.

Lemma string_length_app s t :
  String.length (s +:+ t) = String.length s + String.length t.
Proof. by rewrite <-!length_bytes, bytes_app, length_app. Qed.

Lemma drop_string_app s t : drop_string (String.length s) (s +:+ t) = t.
Proof. induction s as [|c s IH]; [done|]. rewrite string_app_cons. apply IH. Qed.

Lemma take_string_app s t : take_string (String.length s) (s +:+ t) = s.
Proof. induction s as [|c s IH]; [done|]. rewrite string_app_cons. simpl. by rewrite IH. Qed.

Lemma take_drop_string n s : take_string n s +:+ drop_string n s = s.
Proof.
  revert s. induction n as [|n IH]; intros [|c s]; try done.
  simpl. rewrite string_app_cons. by rewrite IH.
Qed.

Lemma take_string_length n s : n <= String.length s → String.length (take_string n s) = n.
Proof.
  revert s. induction n as [|n IH]; intros [|c s]; simpl; intros; try lia. rewrite IH; lia.
Qed.

Lemma take_string_all n s : String.length s <= n → take_string n s = s.
Proof.
  revert n. induction s as [|c s IH]; intros [|n]; simpl; intros; try done || lia. by rewrite IH by lia.
Qed.

Lemma take_string_app_ge n s t :
  String.length s <= n → take_string n (s +:+ t) = s +:+ take_string (n - String.length s) t.
Proof.
  revert n. induction s as [|c s IH]; intros n; simpl; intros Hn; [by rewrite Nat.sub_0_r|].
  destruct n as [|n]; [lia|]. rewrite !string_app_cons. simpl. by rewrite IH by lia.
Qed.

Lemma take_string_app_le n s t : n <= String.length s → take_string n (s +:+ t) = take_string n s.
Proof.
  revert n. induction s as [|c s IH]; intros n Hn; simpl in Hn.
  - by replace n with 0 by lia.
  - destruct n as [|n]; [done|]. rewrite string_app_cons. simpl. by rewrite IH by lia.
Qed.

(** The bytes of a sequence of chunks. *)
Definition concat_strings (l : list string) : string := foldr String.append EmptyString l.

Lemma concat_strings_app l k : concat_strings (l ++ k) = concat_strings l +:+ concat_strings k.
Proof.
  induction l as [|s l IH]; [done|]. cbn [app concat_strings foldr]. fold (concat_strings (l ++ k)) (concat_strings l).
  by rewrite IH, string_app_assoc.
Qed.

Lemma concat_strings_one s : concat_strings [s] = s.
Proof. apply bytes_inj. cbn [concat_strings foldr]. by rewrite bytes_app, app_nil_r. Qed.

Lemma HasPrefix_app s t : HasPrefix (s +:+ t) s = true.
Proof.
  induction s as [|c s IH]; [by destruct t|]. rewrite string_app_cons. simpl.
  by rewrite decide_True.
Qed.

Lemma HasPrefix_spec s p : HasPrefix s p = true ↔ ∃ t, s = p +:+ t.
Proof.
  split.
  - revert s. induction p as [|c p IH]; intros s H; [by exists s|].
    destruct s as [|d s]; simpl in H; [done|].
    case_decide; [|done]. subst. destruct (IH _ H) as [t ->]. by exists t.
  - intros [t ->]. apply HasPrefix_app.
Qed.

Lemma TrimPrefix_app s t : TrimPrefix (s +:+ t) s = t.
Proof. unfold TrimPrefix. by rewrite HasPrefix_app, drop_string_app. Qed.

Lemma HasSuffix_app s t : HasSuffix (s +:+ t) t = true.
Proof.
  unfold HasSuffix. rewrite string_length_app, Nat.add_sub.
  rewrite drop_string_app, bool_decide_true by done.
  rewrite andb_true_r. apply Nat.leb_le. lia.
Qed.

Lemma HasSuffix_spec s t : HasSuffix s t = true ↔ ∃ u, s = u +:+ t.
Proof.
  split.
  - unfold HasSuffix. intros [_ H%bool_decide_eq_true]%andb_true_iff.
    exists (take_string (String.length s - String.length t) s).
    pose proof (take_drop_string (String.length s - String.length t) s) as E.
    by rewrite H in E.
  - intros [u ->]. apply HasSuffix_app.
Qed.

Lemma IndexByte_app s c t :
  c ∉ bytes s → IndexByte (s +:+ String c t) c = Some (String.length s).
Proof.
  induction s as [|d s IH]; intros Hn.
  - simpl. by rewrite decide_True.
  - rewrite string_app_cons. simpl in *. apply not_elem_of_cons in Hn as [Hc Hn].
    rewrite decide_False by congruence. by rewrite IH.
Qed.

Lemma IndexByte_None s c : c ∉ bytes s → IndexByte s c = None.
Proof.
  induction s as [|d s IH]; intros Hn; [done|]. simpl in *.
  apply not_elem_of_cons in Hn as [Hc Hn]. rewrite decide_False by congruence.
  by rewrite IH.
Qed.

Lemma IndexByte_None_inv s c : IndexByte s c = None → c ∉ bytes s.
Proof.
  induction s as [|d s IH]; simpl; intros H; [apply not_elem_of_nil|].
  case_decide; [done|]. apply fmap_None in H. apply not_elem_of_cons. split; [congruence|auto].
Qed.

Lemma IndexByte_Some s c i :
  IndexByte s c = Some i →
  i < String.length s ∧ c ∉ bytes (take_string i s) ∧ ∃ t, drop_string i s = String c t.
Proof.
  revert i. induction s as [|d s IH]; simpl; intros i H; [done|]. case_decide as Hd; simplify_eq/=.
  - split_and!; [lia|apply not_elem_of_nil|by eexists].
  - apply fmap_Some in H as (j & Hj & ->). destruct (IH j Hj) as (? & ? & t & Ht).
    split_and!; [lia|apply not_elem_of_cons; split; [congruence|done]|by exists t].
Qed.

Lemma EqualFold_refl s : EqualFold s s = true.
Proof. by apply bool_decide_eq_true. Qed.

#[export] Hint Rewrite bytes_app string_length_app bytes_of_bytes of_bytes_bytes
  drop_string_app take_string_app TrimPrefix_app HasPrefix_app HasSuffix_app : go_rw.

Lemma Atoi_int64 s n : Atoi s = Some n → in_int64 n.
Proof.
  unfold Atoi. destruct (match bytes s with [] => _ | _ => _ end) as [negative ds].
  intros (m & _ & Hm)%bind_Some. cbv zeta in Hm. case_match eqn:E; [|done]. injection Hm as <-.
  by apply in_int64b_spec.
Qed.

