(* ===== verification/Encoding.v ===== *)
(** * Packages [encoding/base64] and [encoding/hex]

    The encoders and the decoder the program calls:
    [base64.StdEncoding] (crypto/aesgcm.go, config/config.go),
    [base64.RawURLEncoding] (link tokens and API keys) and
    [hex.EncodeToString] (API key hashes).  Byte strings are [string]s. *)

From Stdlib Require Import Ascii.
From Stdlib Require String.
From S2P Require Import Prelude GoStrings.

Definition alphabet_std : list ascii :=
  bytes "ABCDEFGHIJKLMNOPQRSTUVWXYZabcdefghijklmnopqrstuvwxyz0123456789+/".

Definition alphabet_url : list ascii :=
  bytes "ABCDEFGHIJKLMNOPQRSTUVWXYZabcdefghijklmnopqrstuvwxyz0123456789-_".

Definition pad_char : ascii := "=".

(** [enc.encode[i & 0x3F]] *)
Definition enc_char (alphabet : list ascii) (i : N) : ascii :=
  default "A"%char (alphabet !! N.to_nat (i mod 64)%N).

(** [enc.decodeMap[c]]; [None] is 0xFF. *)
Fixpoint index_of (c : ascii) (alphabet : list ascii) : option N :=
  match alphabet with
  | [] => None
  | d :: l => if decide (c = d) then Some 0%N else N.succ <$> index_of c l
  end.

(** The three bytes of a quantum as one number:
    [uint(src[0])<<16 | uint(src[1])<<8 | uint(src[2])]. *)
Definition pack3 (a b c : N) : N := (a * 65536 + b * 256 + c)%N.

(** [Encoding.Encode]; [pad] tells whether the encoding pads. *)
Fixpoint b64_encode (alphabet : list ascii) (pad : bool) (l : list ascii) : list ascii :=
  match l with
  | a :: b :: c :: l' =>
      let v := pack3 (N_of_ascii a) (N_of_ascii b) (N_of_ascii c) in
      enc_char alphabet (v / 262144) :: enc_char alphabet (v / 4096) ::
      enc_char alphabet (v / 64) :: enc_char alphabet v ::
      b64_encode alphabet pad l'
  | [a; b] =>
      let v := pack3 (N_of_ascii a) (N_of_ascii b) 0 in
      enc_char alphabet (v / 262144) :: enc_char alphabet (v / 4096) ::
      enc_char alphabet (v / 64) :: (if pad then [pad_char] else [])
  | [a] =>
      let v := pack3 (N_of_ascii a) 0 0 in
      enc_char alphabet (v / 262144) :: enc_char alphabet (v / 4096) ::
      (if pad then [pad_char; pad_char] else [])
  | [] => []
  end.

Definition unpack (v k : N) : ascii := ascii_of_N ((v / k) mod 256).

(** [Encoding.decodeQuantum] over the input without its line breaks, for an
    encoding with padding; bits left over in the last quantum are ignored (the
    encodings are not [Strict()]). *)
Fixpoint b64_decode_quanta (alphabet : list ascii) (l : list ascii) : option (list ascii) :=
  match l with
  | [] => Some []
  | c0 :: c1 :: c2 :: c3 :: l' =>
      match index_of c0 alphabet, index_of c1 alphabet with
      | Some i0, Some i1 =>
          match index_of c2 alphabet with
          | Some i2 =>
              match index_of c3 alphabet with
              | Some i3 =>
                  let v := (i0 * 262144 + i1 * 4096 + i2 * 64 + i3)%N in
                  app [unpack v 65536; unpack v 256; unpack v 1]
                    <$> b64_decode_quanta alphabet l'
              | None =>
                  if decide (c3 = pad_char ∧ l' = []) then
                    let v := (i0 * 262144 + i1 * 4096 + i2 * 64)%N in
                    Some [unpack v 65536; unpack v 256]
                  else None
              end
          | None =>
              if decide (c2 = pad_char ∧ c3 = pad_char ∧ l' = []) then
                let v := (i0 * 262144 + i1 * 4096)%N in
                Some [unpack v 65536]
              else None
          end
      | _, _ => None
      end
  | _ => None
  end.

Definition not_newline (c : ascii) : Prop := c ≠ "010"%char ∧ c ≠ "013"%char.

#[export] Instance not_newline_dec c : Decision (not_newline c) := _.

(** [base64.StdEncoding.EncodeToString] *)
Definition StdEncoding_EncodeToString (src : string) : string :=
  of_bytes (b64_encode alphabet_std true (bytes src)).

(** [base64.StdEncoding.DecodeString]; [None] is a CorruptInputError. *)
Definition StdEncoding_DecodeString (s : string) : option string :=
  of_bytes <$> b64_decode_quanta alphabet_std (filter not_newline (bytes s)).

(** [base64.RawURLEncoding.EncodeToString] *)
Definition RawURLEncoding_EncodeToString (src : string) : string :=
  of_bytes (b64_encode alphabet_url false (bytes src)).

Definition hex_digits : list ascii := bytes "0123456789abcdef".

Definition hex_digit (n : N) : ascii := default "0"%char (hex_digits !! N.to_nat (n mod 16)%N).

(** [hex.EncodeToString] *)
Definition hex_EncodeToString (src : string) : string :=
  of_bytes (bytes src ≫= λ c, [hex_digit (N_of_ascii c / 16); hex_digit (N_of_ascii c)]).

(** ** Lemmas *)

Lemma ascii_bound c : (N_of_ascii c < 256)%N.
Proof. by apply N_ascii_bounded. Qed.

(** The 64 values of a 6-bit digit, for checks by evaluation. *)
Lemma six_bits (P : N → Prop) :
  Forall (λ n, P (N.of_nat n)) (seq 0 64) → ∀ i, (i < 64)%N → P i.
Proof.
  intros H i Hi. rewrite Forall_forall in H.
  rewrite <-(N2Nat.id i). apply H, elem_of_seq. lia.
Qed.

Lemma index_enc_char i : (i < 64)%N → index_of (enc_char alphabet_std i) alphabet_std = Some i.
Proof. revert i. apply six_bits. by repeat (constructor; [vm_compute; reflexivity|]). Qed.

Lemma enc_char_mod al i : enc_char al (i mod 64) = enc_char al i.
Proof. unfold enc_char. by rewrite N.Div0.mod_mod. Qed.

Lemma enc_char_elem (al : list ascii) i : length al = 64%nat → enc_char al i ∈ al.
Proof.
  intros Hl. unfold enc_char.
  assert (i mod 64 < 64)%N by (by apply N.mod_lt).
  destruct (lookup_lt_is_Some_2 al (N.to_nat (i mod 64))) as [c Hc]; [lia|].
  rewrite Hc. by eapply list_elem_of_lookup_2.
Qed.

Lemma index_enc i : index_of (enc_char alphabet_std i) alphabet_std = Some (i mod 64)%N.
Proof. rewrite <-enc_char_mod. apply index_enc_char. by apply N.mod_lt. Qed.

Lemma index_pad : index_of pad_char alphabet_std = None.
Proof. reflexivity. Qed.

(** Splitting 24 bits in four 6-bit digits and putting them back together. *)
Lemma digits_pack v :
  (v < 16777216)%N →
  (((v / 262144) mod 64) * 262144 + ((v / 4096) mod 64) * 4096
   + ((v / 64) mod 64) * 64 + v mod 64 = v)%N.
Proof. intros H. zify. Z.to_euclidean_division_equations. lia. Qed.

Lemma unpack_pack3 a b c :
  (a < 256)%N → (b < 256)%N → (c < 256)%N →
  unpack (pack3 a b c) 65536 = ascii_of_N a ∧
  unpack (pack3 a b c) 256 = ascii_of_N b ∧
  unpack (pack3 a b c) 1 = ascii_of_N c.
Proof.
  intros. unfold unpack, pack3. repeat split; f_equal;
    zify; Z.to_euclidean_division_equations; lia.
Qed.

Lemma pack3_bound a b c :
  (a < 256)%N → (b < 256)%N → (c < 256)%N → (pack3 a b c < 16777216)%N.
Proof. unfold pack3. lia. Qed.

(** Induction on a byte list three bytes at a time, as the encoder walks it. *)
Lemma list_ind3 {A} (P : list A → Prop) :
  P [] → (∀ a, P [a]) → (∀ a b, P [a; b]) →
  (∀ a b c l, P l → P (a :: b :: c :: l)) → ∀ l, P l.
Proof.
  intros H0 H1 H2 H3. fix IH 1. intros [|a [|b [|c l]]]; [done|auto|auto|].
  apply H3, IH.
Qed.

Lemma b64_decode_encode l :
  b64_decode_quanta alphabet_std (b64_encode alphabet_std true l) = Some l.
Proof.
  induction l as [|a|a b|a b c l IH] using list_ind3; [done|..];
    try pose proof (ascii_bound a); try pose proof (ascii_bound b);
    try pose proof (ascii_bound c).
  - cbn [b64_encode b64_decode_quanta]. rewrite !index_enc, index_pad, decide_True by done.
    pose proof (unpack_pack3 (N_of_ascii a) 0 0) as [U _]; [lia..|].
    set (v := pack3 _ _ _) in *. do 2 f_equal. rewrite ascii_N_embedding in U.
    rewrite <-U. unfold unpack. do 2 f_equal. subst v. unfold pack3.
    zify; Z.to_euclidean_division_equations; lia.
  - cbn [b64_encode b64_decode_quanta]. rewrite !index_enc, index_pad, decide_True by done.
    pose proof (unpack_pack3 (N_of_ascii a) (N_of_ascii b) 0) as (U1 & U2 & _); [lia..|].
    rewrite !ascii_N_embedding in U1, U2.
    pose proof (digits_pack (pack3 (N_of_ascii a) (N_of_ascii b) 0)) as D.
    pose proof (pack3_bound (N_of_ascii a) (N_of_ascii b) 0).
    assert (pack3 (N_of_ascii a) (N_of_ascii b) 0 mod 64 = 0)%N as Hz.
    { unfold pack3. zify; Z.to_euclidean_division_equations; lia. }
    rewrite Hz, N.add_0_r in D. rewrite D by lia. by rewrite U1, U2.
  - cbn [b64_encode b64_decode_quanta]. rewrite !index_enc, IH.
    pose proof (unpack_pack3 (N_of_ascii a) (N_of_ascii b) (N_of_ascii c)) as (U1 & U2 & U3);
      [done..|]. rewrite !ascii_N_embedding in U1, U2, U3.
    rewrite digits_pack by (by apply pack3_bound). by rewrite U1, U2, U3.
Qed.

(** Every byte the encoder writes is in its alphabet or is padding. *)
Lemma b64_encode_elem al pad l c :
  length al = 64%nat → c ∈ b64_encode al pad l → c ∈ al ∨ (pad = true ∧ c = pad_char).
Proof.
  intros Hl. induction l as [|a|a b|a b d l IH] using list_ind3; cbn [b64_encode].
  - by intros ?%not_elem_of_nil.
  - destruct pad; rewrite !elem_of_cons, ?elem_of_nil; naive_solver eauto using enc_char_elem.
  - destruct pad; rewrite !elem_of_cons, ?elem_of_nil; naive_solver eauto using enc_char_elem.
  - rewrite !elem_of_cons. naive_solver eauto using enc_char_elem.
Qed.

Lemma b64_encode_raw_length al l k :
  length l = (3 * k)%nat → length (b64_encode al false l) = (4 * k)%nat.
Proof.
  revert k. induction l as [|a|a b|a b c l IH] using list_ind3; intros k Hk;
    cbn [b64_encode length] in *; try lia.
  rewrite (IH (k - 1)%nat); lia.
Qed.

Lemma b64_raw_length al l : length (b64_encode al false l) = ((4 * length l + 2) / 3)%nat.
Proof.
  induction l as [|a|a b|a b c l IH] using list_ind3; [done..|]. cbn [b64_encode length]. rewrite IH.
  pose proof (Nat.div_add (4 * length l + 2) 4 3). replace (4 * S (S (S (length l))) + 2)%nat
    with (4 * length l + 2 + 4 * 3)%nat by lia. lia.
Qed.

Lemma RawURLEncoding_raw_length s :
  String.length (RawURLEncoding_EncodeToString s) = ((4 * String.length s + 2) / 3)%nat.
Proof.
  unfold RawURLEncoding_EncodeToString. rewrite length_of_bytes, b64_raw_length. by rewrite length_bytes.
Qed.

Lemma alphabet_std_no_newline : Forall not_newline (pad_char :: alphabet_std).
Proof. by repeat constructor. Qed.

Lemma b64_std_no_newline l : Forall not_newline (b64_encode alphabet_std true l).
Proof.
  apply Forall_forall. intros c Hc.
  pose proof alphabet_std_no_newline as Hal. rewrite Forall_forall in Hal.
  apply Hal. apply b64_encode_elem in Hc as [?|[_ ->]]; [by right|left|done].
Qed.

(** Decoding what [StdEncoding] encoded gives the bytes back. *)
Lemma StdEncoding_roundtrip s :
  StdEncoding_DecodeString (StdEncoding_EncodeToString s) = Some s.
Proof.
  unfold StdEncoding_DecodeString, StdEncoding_EncodeToString.
  rewrite bytes_of_bytes, filter_all by apply b64_std_no_newline.
  rewrite b64_decode_encode. simpl. by rewrite of_bytes_bytes.
Qed.

Lemma StdEncoding_EncodeToString_inj s t :
  StdEncoding_EncodeToString s = StdEncoding_EncodeToString t → s = t.
Proof. intros H. apply (f_equal StdEncoding_DecodeString) in H. rewrite !StdEncoding_roundtrip in H. congruence. Qed.

(** A byte outside the URL-safe alphabet never occurs in a raw URL encoding. *)
Lemma RawURLEncoding_elem s c :
  c ∈ bytes (RawURLEncoding_EncodeToString s) → c ∈ alphabet_url.
Proof.
  unfold RawURLEncoding_EncodeToString. rewrite bytes_of_bytes. intros H.
  apply b64_encode_elem in H as [?|[? _]]; done.
Qed.

Lemma RawURLEncoding_length s k :
  String.length s = (3 * k)%nat →
  String.length (RawURLEncoding_EncodeToString s) = (4 * k)%nat.
Proof.
  intros H. unfold RawURLEncoding_EncodeToString. rewrite length_of_bytes.
  apply b64_encode_raw_length. by rewrite length_bytes.
Qed.

Lemma hex_length s : String.length (hex_EncodeToString s) = (2 * String.length s)%nat.
Proof.
  unfold hex_EncodeToString. rewrite length_of_bytes, <-length_bytes.
  induction (bytes s) as [|c l IH]; [done|]. cbn. rewrite IH. lia.
Qed.

#[export] Hint Rewrite StdEncoding_roundtrip hex_length : go_rw.
