(* ===== verification/Domain.v ===== *)
(** * internal/domain: data types

    The plain data types of [domain.go], one record per struct and one
    constant per [const].  Pointers to scalars (nullable columns) are options;
    [time.Time] is nanoseconds since the Unix epoch; [uuid.UUID] is an opaque
    number, [uuid.Nil] being 0. *)

From S2P Require Import Prelude.

Notation UUID := N (only parsing).
Definition uuid_Nil : UUID := 0%N.

(** [time.Time], in nanoseconds. *)
Notation GoTime := Z (only parsing).

(** ** Group 1: users, devices, api keys *)

Record User := mkUser {
  User_ID : UUID;
  User_Email : string;
  User_PasswordHash : string;
  User_DisplayName : option string;
  User_CreatedAt : GoTime;
  User_UpdatedAt : GoTime }.

Record Device := mkDevice {
  Device_ID : UUID;
  Device_UserID : UUID;
  Device_Name : option string;
  Device_Fingerprint : option string;
  Device_LastSeenAt : option GoTime;
  Device_CreatedAt : GoTime }.

Record APIKey := mkAPIKey {
  APIKey_ID : UUID;
  APIKey_UserID : UUID;
  APIKey_DeviceID : option UUID;
  APIKey_KeyHash : string;
  APIKey_Label : option string;
  APIKey_RevokedAt : option GoTime;
  APIKey_ExpiresAt : option GoTime;
  APIKey_CreatedAt : GoTime }.

(** ** Group 2: target sites and owner sessions *)

Record TargetSite := mkTargetSite {
  TargetSite_ID : UUID;
  TargetSite_BaseDomain : string;
  TargetSite_Name : string;
  TargetSite_BaseURL : string;
  TargetSite_CreatedAt : GoTime }.

Definition SessionStatusActive : string := "active".
Definition SessionStatusRevoked : string := "revoked".
Definition SessionStatusExpired : string := "expired".
Definition LinkStatusActive : string := "active".
Definition LinkStatusTerminated : string := "terminated".
Definition GuestSessionActive : string := "active".
Definition GuestSessionTerminated : string := "terminated".

Record OriginalSession := mkOriginalSession {
  OriginalSession_ID : UUID;
  OriginalSession_UserID : UUID;
  OriginalSession_TargetSiteID : UUID;
  OriginalSession_DeviceID : option UUID;
  OriginalSession_Status : string;
  OriginalSession_Label : option string;
  OriginalSession_ImportedAt : GoTime;
  OriginalSession_ExpiresAt : option GoTime }.

Record SessionCookie := mkSessionCookie {
  SessionCookie_ID : UUID;
  SessionCookie_OriginalSessionID : UUID;
  SessionCookie_Name : string;
  SessionCookie_ValueEncrypted : string;
  SessionCookie_Domain : option string;
  SessionCookie_Path : string;
  SessionCookie_Secure : bool;
  SessionCookie_HTTPOnly : bool;
  SessionCookie_SameSite : option string;
  SessionCookie_ExpiresAt : option GoTime;
  SessionCookie_CreatedAt : GoTime }.

Record SessionToken := mkSessionToken {
  SessionToken_ID : UUID;
  SessionToken_OriginalSessionID : UUID;
  SessionToken_TokenType : option string;
  SessionToken_HeaderName : option string;
  SessionToken_ValueEncrypted : string;
  SessionToken_ExpiresAt : option GoTime;
  SessionToken_CreatedAt : GoTime }.

(** ** Group 3: shared links, policies, blacklists *)

Record SharedLink := mkSharedLink {
  SharedLink_ID : UUID;
  SharedLink_OriginalSessionID : UUID;
  SharedLink_Token : string;
  SharedLink_Status : string;
  SharedLink_Label : option string;
  SharedLink_CreatedAt : GoTime;
  SharedLink_ExpiresAt : option GoTime }.

Record AccessPolicy := mkAccessPolicy {
  AccessPolicy_ID : UUID;
  AccessPolicy_UserID : UUID;
  AccessPolicy_Name : string;
  AccessPolicy_MaxRequests : option Z;
  AccessPolicy_MaxBytesTransferred : option Z;
  AccessPolicy_MaxTTLSeconds : option Z;
  AccessPolicy_MaxViolationCount : option Z;
  AccessPolicy_CreatedAt : GoTime }.

Definition DefaultMaxViolationCount : Z := 3.

Definition PatternTypePrefix : string := "prefix".
Definition PatternTypeRegex : string := "regex".

(** [BlockedMethods] empty means every method is blocked. *)
Record BlacklistedEndpoint := mkBlacklistedEndpoint {
  BlacklistedEndpoint_ID : UUID;
  BlacklistedEndpoint_UserID : UUID;
  BlacklistedEndpoint_Pattern : string;
  BlacklistedEndpoint_PatternType : string;
  BlacklistedEndpoint_Description : option string;
  BlacklistedEndpoint_CreatedAt : GoTime;
  BlacklistedEndpoint_BlockedMethods : list string }.

(** ** Group 4: guests, guest sessions, usage counters *)

Record Guest := mkGuest {
  Guest_ID : UUID;
  Guest_IPAddress : option string;
  Guest_UserAgent : option string;
  Guest_BrowserFingerprint : option string;
  Guest_FirstSeenAt : GoTime;
  Guest_LastSeenAt : option GoTime }.

Record GuestSession := mkGuestSession {
  GuestSession_ID : UUID;
  GuestSession_SharedLinkID : UUID;
  GuestSession_GuestID : option UUID;
  GuestSession_Status : string;
  GuestSession_StartedAt : GoTime;
  GuestSession_LastRequestAt : option GoTime;
  GuestSession_TerminatedAt : option GoTime }.

Record UsageCounters := mkUsageCounters {
  UsageCounters_ID : UUID;
  UsageCounters_SharedLinkID : UUID;
  UsageCounters_RequestCount : Z;
  UsageCounters_BytesTransferred : Z;
  UsageCounters_ViolationCount : Z;
  UsageCounters_UpdatedAt : GoTime }.

(** ** Group 5: logs and security *)

Record ProxyAccessLog := mkProxyAccessLog {
  ProxyAccessLog_ID : Z;
  ProxyAccessLog_GuestSessionID : option UUID;
  ProxyAccessLog_SharedLinkID : UUID;
  ProxyAccessLog_TargetURL : string;
  ProxyAccessLog_HTTPMethod : string;
  ProxyAccessLog_ResponseStatus : option Z;
  ProxyAccessLog_BytesTransferred : option Z;
  ProxyAccessLog_ResponseTimeMs : option Z;
  (** [None] is the zero time. *)
  ProxyAccessLog_RequestedAt : option GoTime }.

Definition ReasonTTLExpired : string := "ttl_expired".
Definition ReasonRequestLimit : string := "request_limit".
Definition ReasonTrafficLimit : string := "traffic_limit".
Definition ReasonViolationLimit : string := "violation_limit".
Definition ReasonManual : string := "manual".

Record LinkTermination := mkLinkTermination {
  LinkTermination_ID : UUID;
  LinkTermination_SharedLinkID : UUID;
  LinkTermination_ReasonCode : string;
  LinkTermination_TerminatedBy : option UUID;
  LinkTermination_Notes : option string;
  LinkTermination_TerminatedAt : GoTime }.

Record RevocationReason := mkRevocationReason {
  RevocationReason_Code : string;
  RevocationReason_Description : option string }.

Definition EventBlacklistViolation : string := "blacklist_violation".
Definition EventRateLimitExceeded : string := "rate_limit_exceeded".
Definition EventTrafficLimitExceeded : string := "traffic_limit_exceeded".

(** [Details] is the JSON text of the map; the program never sets it. *)
Record SecurityEvent := mkSecurityEvent {
  SecurityEvent_ID : Z;
  SecurityEvent_GuestSessionID : option UUID;
  SecurityEvent_SharedLinkID : UUID;
  SecurityEvent_EventType : string;
  SecurityEvent_TargetURL : option string;
  SecurityEvent_HTTPMethod : option string;
  SecurityEvent_Details : option string;
  SecurityEvent_OccurredAt : GoTime }.

Record EffectivePolicy := mkEffectivePolicy {
  EffectivePolicy_MaxRequests : option Z;
  EffectivePolicy_MaxBytesTransferred : option Z;
  EffectivePolicy_MaxTTLSeconds : option Z;
  EffectivePolicy_MaxViolationCount : Z }.

Record LinkWithSession := mkLinkWithSession {
  LinkWithSession_Link : SharedLink;
  LinkWithSession_OriginalSession : OriginalSession;
  LinkWithSession_TargetSite : TargetSite;
  LinkWithSession_OwnerUserID : UUID }.

(** A row of the materialized view mv_link_stats; [AvgResponseMs] as the sum
    and the number of the response times it averages. *)
Record LinkStats := mkLinkStats {
  LinkStats_TargetSiteID : UUID;
  LinkStats_SiteName : string;
  LinkStats_BaseDomain : string;
  LinkStats_SharedLinkID : UUID;
  LinkStats_TotalRequests : Z;
  LinkStats_TotalBytes : Z;
  LinkStats_AvgResponseMs : Z * Z;
  LinkStats_FirstRequestAt : option GoTime;
  LinkStats_LastRequestAt : option GoTime }.
