(* ===== verification/Http.v ===== *)
(** * Package [net/http]: headers, cookies, requests and responses

    The part of [net/http] (and [net/textproto], [net/url]) the program uses:
    canonical header keys, the header map, [Request.AddCookie] with its
    sanitizers, and the request and response values. *)

From Stdlib Require Import Ascii.
From Stdlib Require String.
From S2P Require Import Prelude GoStrings.

(** ** Headers *)

(** [textproto.validHeaderFieldByte]: the token bytes of RFC 7230. *)
Definition validHeaderFieldByte (c : ascii) : bool :=
  is_upper c || is_lower c || is_digit c ||
  bool_decide (c ∈ bytes "!#$%&'*+-.^_`|~").

(** One pass over a valid key: upper case at the start and after a hyphen,
    lower case elsewhere. *)
Fixpoint canonical_bytes (upper : bool) (l : list ascii) : list ascii :=
  match l with
  | [] => []
  | c :: l' =>
      (if upper then to_upper c else to_lower c) ::
      canonical_bytes (bool_decide (c = "-"%char)) l'
  end.

(** [http.CanonicalHeaderKey]: keys with an invalid byte are left as they are. *)
Definition CanonicalHeaderKey (s : string) : string :=
  if forallb validHeaderFieldByte (bytes s)
  then of_bytes (canonical_bytes true (bytes s)) else s.

(** [http.Header]: a map from keys to value lists. *)
Notation Header := (gmap string (list string)) (only parsing).

Definition Header_Add (h : Header) (key value : string) : Header :=
  let k := CanonicalHeaderKey key in <[k := default [] (h !! k) ++ [value]]> h.

Definition Header_Set (h : Header) (key value : string) : Header :=
  <[CanonicalHeaderKey key := [value]]> h.

(** [Header.Get]: the first value, or the empty string. *)
Definition Header_Get (h : Header) (key : string) : string :=
  default EmptyString (head (default [] (h !! CanonicalHeaderKey key))).

Definition Header_Del (h : Header) (key : string) : Header :=
  delete (CanonicalHeaderKey key) h.

(** ** Text of header values *)

(** [strings.Split(s, sep)] for a separator of one byte. *)
Fixpoint split_on (sep : ascii) (s : string) : list string :=
  match s with
  | EmptyString => [EmptyString]
  | String c s' =>
      if decide (c = sep) then EmptyString :: split_on sep s'
      else match split_on sep s' with
           | [] => [String c EmptyString]
           | t :: ts => String c t :: ts
           end
  end.

(** [strings.Cut(s, sep)] for a separator of one byte: before and after. *)
Definition Cut (s : string) (sep : ascii) : string * string :=
  match IndexByte s sep with
  | Some i => (take_string i s, drop_string (S i) s)
  | None => (s, EmptyString)
  end.

Definition is_space (c : ascii) : bool := bool_decide (c ∈ [" "; "009"; "010"; "013"]%char).

Fixpoint trim_left (l : list ascii) : list ascii :=
  match l with
  | c :: l' => if is_space c then trim_left l' else l
  | [] => []
  end.

(** [textproto.TrimString] *)
Definition TrimString (s : string) : string :=
  of_bytes (rev (trim_left (rev (trim_left (bytes s))))).

(** ** Cookies *)

Record Cookie := mkCookie { Cookie_Name : string; Cookie_Value : string }.

(** [sanitizeCookieName]: line breaks become hyphens. *)
Definition sanitizeCookieName (n : string) : string :=
  of_bytes ((λ c, if decide (c = "010"%char ∨ c = "013"%char) then "-"%char else c) <$> bytes n).

Definition validCookieValueByte (c : ascii) : bool :=
  let n := N_of_ascii c in
  ((32 <=? n) && (n <? 127))%N &&
  negb (bool_decide (c = "034"%char ∨ c = ";"%char ∨ c = "\"%char)).

(** [sanitizeCookieValue(v, false)]: invalid bytes are dropped; a value with a
    space or a comma is quoted. *)
Definition sanitizeCookieValue (v : string) : string :=
  let v' := of_bytes (filter (λ c, validCookieValueByte c = true) (bytes v)) in
  if decide (v' = EmptyString) then v'
  else if bool_decide (" "%char ∈ bytes v' ∨ ","%char ∈ bytes v')
  then String "034" v' +:+ String "034" EmptyString
  else v'.

(** [Request.AddCookie] on the request's header. *)
Definition AddCookie (h : Header) (c : Cookie) : Header :=
  let s := sanitizeCookieName (Cookie_Name c) +:+ "=" +:+ sanitizeCookieValue (Cookie_Value c) in
  let cur := Header_Get h "Cookie" in
  if decide (cur = EmptyString) then Header_Set h "Cookie" s
  else Header_Set h "Cookie" (cur +:+ "; " +:+ s).

(** [isToken] *)
Definition isToken (v : string) : bool :=
  negb (bool_decide (v = EmptyString)) && forallb validHeaderFieldByte (bytes v).

Definition dquote : string := String "034" EmptyString.

(** [parseCookieValue(raw, true)]: a pair of quotes is stripped; [None] when a
    byte is not valid. *)
Definition parseCookieValue (raw : string) : option string :=
  let raw' :=
    if (1 <? String.length raw) && HasPrefix raw dquote && HasSuffix raw dquote
    then take_string (String.length raw - 2) (drop_string 1 raw) else raw in
  if forallb validCookieValueByte (bytes raw') then Some raw' else None.

(** One part of a Cookie line in [readCookies]. *)
Definition read_cookie (name part : string) : option Cookie :=
  let '(n, v) := Cut (TrimString part) "=" in
  let n' := TrimString n in
  if isToken n' && bool_decide (n' = name) then mkCookie n' <$> parseCookieValue v else None.

Definition readCookies (h : gmap string (list string)) (name : string) : list Cookie :=
  default [] (h !! "Cookie") ≫= λ line, omap (read_cookie name) (split_on ";" (TrimString line)).

(** ** URLs, requests and responses *)

Record URL := mkURL {
  URL_Scheme : string; URL_Host : string; URL_Path : string; URL_RawQuery : string }.

Record Request := mkRequest {
  Request_Method : string;
  Request_URL : URL;
  Request_Header : gmap string (list string);
  Request_Host : string;
  Request_RemoteAddr : string;
  Request_Body : string }.

(** A response as the transport delivers it: the body is the sequence of
    chunks its reader returns, and whether reading ends in an error; the names
    of the announced trailers come with the header (in the order a range over
    the map has them), the trailers are known when the body has been read. *)
Record Response := mkResponse {
  Response_StatusCode : Z;
  Response_Header : gmap string (list string);
  Response_Body : list string;
  Response_BodyFails : bool;
  Response_Announced : list string;
  Response_Trailer : gmap string (list string) }.

Definition StatusSwitchingProtocols : Z := 101.
Definition StatusOK : Z := 200.
Definition StatusCreated : Z := 201.
Definition StatusNoContent : Z := 204.
Definition StatusMovedPermanently : Z := 301.
Definition StatusSeeOther : Z := 303.
Definition StatusBadRequest : Z := 400.
Definition StatusUnauthorized : Z := 401.
Definition StatusMethodNotAllowed : Z := 405.
Definition StatusConflict : Z := 409.
Definition StatusForbidden : Z := 403.
Definition StatusNotFound : Z := 404.
Definition StatusGone : Z := 410.
Definition StatusInternalServerError : Z := 500.
Definition StatusBadGateway : Z := 502.
Definition StatusServiceUnavailable : Z := 503.

(** [http.Request.UserAgent] *)
Definition Request_UserAgent (r : Request) : string :=
  Header_Get (Request_Header r) "User-Agent".

(** [http.Request.Cookie] for a name that is not empty; [None] is
    [http.ErrNoCookie]. *)
Definition Request_Cookie (r : Request) (name : string) : option Cookie :=
  head (readCookies (Request_Header r) name).

(** ** Lemmas *)

Lemma Header_Add_lookup h k v :
  Header_Add h k v !! CanonicalHeaderKey k =
  Some (default [] (h !! CanonicalHeaderKey k) ++ [v]).
Proof. unfold Header_Add. by rewrite lookup_insert_eq. Qed.

Lemma Header_Add_lookup_ne h k v k' :
  k' ≠ CanonicalHeaderKey k → Header_Add h k v !! k' = h !! k'.
Proof. intros. unfold Header_Add. by rewrite lookup_insert_ne. Qed.

Lemma Header_Del_lookup h k : Header_Del h k !! CanonicalHeaderKey k = None.
Proof. apply lookup_delete_eq. Qed.

Lemma Header_Del_lookup_ne h k k' :
  k' ≠ CanonicalHeaderKey k → Header_Del h k !! k' = h !! k'.
Proof. intros. by apply lookup_delete_ne. Qed.

Lemma Header_Set_lookup h k v : Header_Set h k v !! CanonicalHeaderKey k = Some [v].
Proof. apply lookup_insert_eq. Qed.

Lemma Header_Set_lookup_ne h k v k' :
  k' ≠ CanonicalHeaderKey k → Header_Set h k v !! k' = h !! k'.
Proof. intros. by apply lookup_insert_ne. Qed.

Lemma AddCookie_lookup_ne h c k :
  k ≠ "Cookie" → AddCookie h c !! k = h !! k.
Proof.
  intros Hk. unfold AddCookie. case_decide; by rewrite Header_Set_lookup_ne.
Qed.

(** *** Splitting *)

Lemma split_on_none sep s : sep ∉ bytes s → split_on sep s = [s].
Proof.
  induction s as [|c s IH]; simpl; [done|]. intros [Hc Hs]%not_elem_of_cons.
  rewrite decide_False by congruence. by rewrite IH.
Qed.

Lemma split_on_app sep s t : sep ∉ bytes s → split_on sep (s +:+ String sep t) = s :: split_on sep t.
Proof.
  induction s as [|c s IH]; [by intros; simpl; rewrite decide_True|].
  intros [Hc Hs]%not_elem_of_cons. rewrite string_app_cons. simpl.
  rewrite decide_False by congruence. by rewrite IH.
Qed.

Lemma Cut_app s c t : c ∉ bytes s → Cut (s +:+ String c t) c = (s, t).
Proof.
  intros Hc. unfold Cut. rewrite IndexByte_app by done. rewrite take_string_app. f_equal.
  replace (s +:+ String c t) with ((s +:+ String c EmptyString) +:+ t) by by rewrite string_app_assoc.
  replace (S (String.length s)) with (String.length (s +:+ String c EmptyString)).
  - apply drop_string_app.
  - rewrite string_length_app. simpl. lia.
Qed.
