(* ===== verification/Url.v ===== *)
(** * Packages [net/url] and [path]

    The path and the query of a request as the HTTP server reads them:
    percent-encoding, [URL.EscapedPath], [url.ParseQuery] and [path.Clean]. *)

From Stdlib Require Import Ascii.
From Stdlib Require String.
From S2P Require Import Prelude GoStrings Http.

(** ** Definitions *)

(** *** Percent-encoding *)

Inductive encoding : Type := encodePath | encodeQueryComponent.

#[export] Instance encoding_eq_dec : EqDecision encoding.
Proof. solve_decision. Defined.

Definition is_alnum (c : ascii) : bool := is_upper c || is_lower c || is_digit c.

(** [url.shouldEscape] *)
Definition shouldEscape (c : ascii) (mode : encoding) : bool :=
  if is_alnum c || bool_decide (c ∈ bytes "-_.~") then false
  else if bool_decide (c ∈ bytes "$&+,/:;=?@") then
    match mode with encodePath => bool_decide (c = "?"%char) | encodeQueryComponent => true end
  else true.

Definition upperhex (n : N) : ascii := default "0"%char (bytes "0123456789ABCDEF" !! N.to_nat n).

Definition unhex (c : ascii) : option N :=
  let n := N_of_ascii c in
  if is_digit c then Some (n - 48)%N
  else if ((97 <=? n) && (n <=? 102))%N then Some (n - 87)%N
  else if ((65 <=? n) && (n <=? 70))%N then Some (n - 55)%N
  else None.

(** [url.escape] *)
Definition escape_byte (mode : encoding) (c : ascii) : string :=
  if bool_decide (c = " "%char ∧ mode = encodeQueryComponent) then "+"
  else if shouldEscape c mode then
    String "%" (String (upperhex (N_of_ascii c / 16)) (String (upperhex (N_of_ascii c mod 16)) EmptyString))
  else String c EmptyString.

Fixpoint escape (mode : encoding) (s : string) : string :=
  match s with
  | EmptyString => EmptyString
  | String c s' => escape_byte mode c +:+ escape mode s'
  end.

(** [url.unescape]; [None] for a bad escape. *)
Fixpoint unescape (mode : encoding) (s : string) : option string :=
  match s with
  | EmptyString => Some EmptyString
  | String "%" s' =>
      match s' with
      | String a (String b s'') =>
          match unhex a, unhex b with
          | Some x, Some y => String (ascii_of_N (x * 16 + y)) <$> unescape mode s''
          | _, _ => None
          end
      | _ => None
      end
  | String c s' =>
      String (if bool_decide (c = "+"%char ∧ mode = encodeQueryComponent) then " "%char else c) <$> unescape mode s'
  end.

(** [url.validEncoded(s, encodePath)] *)
Definition validEncoded (s : string) : bool :=
  forallb (λ c, bool_decide (c ∈ bytes "!$&'()*+,;=:@[]%") || negb (shouldEscape c encodePath)) (bytes s).

(** *** The target of a request *)

(** The fields of [url.URL] that [url.ParseRequestURI] fills for a target that
    begins with a slash. *)
Record Target := mkTarget { Target_Path : string; Target_RawPath : string; Target_RawQuery : string }.

(** [URL.setPath] *)
Definition setPath (p query : string) : option Target :=
  path ← unescape encodePath p;
  Some (mkTarget path (if decide (escape encodePath path = p) then EmptyString else p) query).

Definition is_ctl (c : ascii) : bool := let n := N_of_ascii c in ((n <? 32) || (n =? 127))%N.

Definition ParseRequestURI (target : string) : option Target :=
  if existsb is_ctl (bytes target) || negb (HasPrefix target "/") then None
  else let '(p, query) := Cut target "?" in setPath p query.

(** [URL.EscapedPath] *)
Definition EscapedPath (u : Target) : string :=
  if bool_decide (Target_RawPath u ≠ EmptyString) && validEncoded (Target_RawPath u) &&
     bool_decide (unescape encodePath (Target_RawPath u) = Some (Target_Path u))
  then Target_RawPath u else escape encodePath (Target_Path u).

(** The query in [URL.String]. *)
Definition query_part (u : Target) : string :=
  if decide (Target_RawQuery u = EmptyString) then EmptyString else "?" +:+ Target_RawQuery u.

(** *** Queries *)

(** One part of the query in [url.parseQuery]: skipped when it is empty, has a
    semicolon or a bad escape. *)
Definition parse_pair (part : string) : option (string * string) :=
  if decide (";"%char ∈ bytes part ∨ part = EmptyString) then None
  else
    let '(key, value) := Cut part "=" in
    k ← unescape encodeQueryComponent key;
    v ← unescape encodeQueryComponent value;
    Some (k, v).

(** [url.ParseQuery], its error ignored: the pairs in order. *)
Definition ParseQuery (query : string) : list (string * string) := omap parse_pair (split_on "&" query).

(** [Values.Get] *)
Definition Values_Get (vs : list (string * string)) (key : string) : string :=
  default EmptyString (snd <$> find_first (λ p, bool_decide (p.1 = key)) vs).

(** *** Package [path] *)

Fixpoint join (sep : ascii) (l : list string) : string :=
  match l with
  | [] => EmptyString
  | [s] => s
  | s :: l' => s +:+ String sep (join sep l')
  end.

(** The elements kept, the last one first. *)
Definition clean_step (kept : list string) (seg : string) : list string :=
  if decide (seg = EmptyString ∨ seg = ".") then kept
  else if decide (seg = "..") then tail kept
  else seg :: kept.

Definition clean_segments (segs : list string) : list string := rev (foldl clean_step [] segs).

(** [path.Clean] for a path that begins with a slash. *)
Definition Clean (p : string) : string := "/" +:+ join "/" (clean_segments (split_on "/" p)).

(** ** Lemmas *)

Lemma is_digit_hex n : (n < 16)%N → unhex (upperhex n) = Some n.
Proof.
  intros Hn. assert (∀ k, k < 16 → unhex (upperhex (N.of_nat k)) = Some (N.of_nat k)) as H.
  { intros k Hk. do 16 (destruct k as [|k]; [done|]). lia. }
  specialize (H (N.to_nat n)). rewrite N2Nat.id in H. apply H. lia.
Qed.

Lemma shouldEscape_percent mode : shouldEscape "%" mode = true.
Proof. by destruct mode. Qed.

(** An escaped byte is not a plus sign read as a space. *)
Lemma unescape_escape_byte mode c s :
  unescape mode (escape_byte mode c +:+ s) = String c <$> unescape mode s.
Proof.
  unfold escape_byte. case_bool_decide as Hsp.
  { destruct Hsp as [-> ->]. done. }
  destruct (shouldEscape c mode) eqn:E.
  - rewrite !string_app_cons, string_app_nil_l. cbn [unescape].
    assert (N_of_ascii c < 256)%N by apply N_ascii_bounded.
    rewrite !is_digit_hex by (apply N.mod_lt || apply N.Div0.div_lt_upper_bound; lia).
    rewrite N.mul_comm, <-N.div_mod by lia. by rewrite ascii_N_embedding.
  - rewrite string_app_cons, string_app_nil_l.
    assert (c ≠ "%"%char) as Hp by (intros ->; by rewrite shouldEscape_percent in E).
    assert (¬ (c = "+"%char ∧ mode = encodeQueryComponent)) as Hq by (by intros [-> ->]).
    transitivity (String (if bool_decide (c = "+"%char ∧ mode = encodeQueryComponent) then " "%char else c)
      <$> unescape mode s); [|by rewrite bool_decide_eq_false_2].
    destruct c as [[] [] [] [] [] [] [] []]; done.
Qed.

(** Escaping is undone. *)
Lemma unescape_escape mode s : unescape mode (escape mode s) = Some s.
Proof. induction s as [|c s IH]; [done|]. cbn [escape]. by rewrite unescape_escape_byte, IH. Qed.

(** The bytes of an escaped text. *)
Lemma escape_bytes mode (P : ascii → Prop) s :
  (∀ c, shouldEscape c mode = false → P c) → (mode = encodeQueryComponent → P "+"%char) → P "%"%char →
  Forall P (bytes "0123456789ABCDEF") → Forall P (bytes (escape mode s)).
Proof.
  intros Hc Hplus Hpct Hhex.
  assert (∀ n, P (upperhex n)) as Hup.
  { intros n. unfold upperhex. destruct (bytes _ !! N.to_nat n) as [d|] eqn:E; cbn [default].
    - by eapply Forall_lookup_1.
    - by apply (Forall_inv Hhex). }
  induction s as [|c s IH]; [constructor|]. cbn [escape]. rewrite bytes_app. apply Forall_app. split; [|done].
  unfold escape_byte. case_bool_decide as Hsp; [|destruct (shouldEscape c mode) eqn:E]; repeat constructor; auto.
  apply Hplus, Hsp.
Qed.

Lemma escape_not_in mode c s :
  shouldEscape c mode = true → ¬ (c = "+"%char ∧ mode = encodeQueryComponent) →
  c ∉ bytes "%0123456789ABCDEF" → c ∉ bytes (escape mode s).
Proof.
  intros Hc Hplus Hn Hin. assert (Forall (c ≠.) (bytes (escape mode s))) as HF.
  { apply escape_bytes.
    - intros d Hd ->. congruence.
    - intros -> ->. by apply Hplus.
    - intros ->. apply Hn. by left.
    - apply Forall_forall. intros d Hd ->. apply Hn. by right. }
  rewrite Forall_forall in HF. by apply (HF c).
Qed.

(** *** Splitting and joining *)

Lemma join_cons sep s l : l ≠ [] → join sep (s :: l) = s +:+ String sep (join sep l).
Proof. by destruct l. Qed.

Lemma split_join sep l : l ≠ [] → Forall (λ s, sep ∉ bytes s) l → split_on sep (join sep l) = l.
Proof.
  intros Hl HF. induction HF as [|s l Hs HF IH]; [done|]. destruct (decide (l = [])) as [->|Hne].
  - by apply split_on_none.
  - rewrite join_cons, split_on_app by done. by rewrite IH.
Qed.

Lemma split_on_no_sep sep s : Forall (λ t, sep ∉ bytes t) (split_on sep s).
Proof.
  induction s as [|c s IH]; cbn [split_on]; [repeat constructor; set_solver|]. case_decide as Hc.
  - constructor; [set_solver|done].
  - destruct (split_on sep s) as [|t ts]; inversion_clear IH; repeat constructor; try done; set_solver.
Qed.

Lemma split_on_not_nil sep s : split_on sep s ≠ [].
Proof. destruct s as [|c s]; [done|]. cbn [split_on]. case_decide; [done|]. by destruct (split_on sep s). Qed.

Lemma join_split sep s : join sep (split_on sep s) = s.
Proof.
  induction s as [|c s IH]; [done|]. cbn [split_on]. pose proof (split_on_not_nil sep s). case_decide as Hc.
  - subst. by rewrite join_cons, IH by done.
  - destruct (split_on sep s) as [|t ts]; [done|]. destruct ts as [|t' ts]; cbn [join] in *; by rewrite <-IH.
Qed.

(** Two texts with the same parts are equal. *)
Lemma split_on_inj sep s t : split_on sep s = split_on sep t → s = t.
Proof. intros H. by rewrite <-(join_split sep s), H, join_split. Qed.

(** *** Queries *)

(** The body of a form, as a browser encodes it. *)
Definition encode_pair (p : string * string) : string :=
  escape encodeQueryComponent p.1 +:+ "=" +:+ escape encodeQueryComponent p.2.
Definition encode_values (vs : list (string * string)) : string := join "&" (encode_pair <$> vs).

(** A byte that is always escaped. *)
Ltac not_escaped :=
  apply escape_not_in; [reflexivity|by intros [? ?]|eapply bool_decide_eq_false_1; vm_compute; reflexivity].

Lemma encode_pair_not_in c p :
  c ∈ [";"; "&"]%char → c ∉ bytes (encode_pair p).
Proof.
  intros Hc. unfold encode_pair. rewrite !bytes_app.
  assert (∀ s, c ∉ bytes (escape encodeQueryComponent s)) as Hs.
  { intros s. repeat (apply elem_of_cons in Hc as [->|Hc]; [not_escaped|]). by apply not_elem_of_nil in Hc. }
  assert (c ≠ "="%char) by (intros ->; set_solver). cbn [bytes]. set_solver.
Qed.

Lemma parse_encode_pair p : parse_pair (encode_pair p) = Some p.
Proof.
  unfold parse_pair. rewrite decide_False.
  - unfold encode_pair. rewrite (string_app_cons _ EmptyString), string_app_nil_l, Cut_app.
    + cbn [mbind option_bind]. rewrite !unescape_escape. by destruct p.
    + not_escaped.
  - intros [Hc|He].
    + by apply (encode_pair_not_in ";" p); [set_solver|].
    + apply (f_equal bytes) in He. unfold encode_pair in He. rewrite !bytes_app in He. by destruct (bytes (escape _ p.1)).
Qed.

(** What a browser encodes is what the server decodes. *)
Lemma ParseQuery_encode vs : ParseQuery (encode_values vs) = vs.
Proof.
  destruct vs as [|p vs]; [done|]. unfold ParseQuery, encode_values. rewrite split_join; [|done|].
  - generalize (p :: vs). intros l. induction l as [|q l IH]; [done|]. cbn [fmap list_fmap omap list_omap].
    by rewrite parse_encode_pair, IH.
  - apply Forall_fmap, Forall_true. intros q. apply encode_pair_not_in. set_solver.
Qed.

(** *** Cleaned paths *)

(** The elements of a cleaned path. *)
Definition proper (seg : string) : Prop := seg ≠ EmptyString ∧ seg ≠ "." ∧ seg ≠ "..".

#[export] Instance proper_dec seg : Decision (proper seg).
Proof. unfold proper. apply _. Defined.

Lemma clean_step_proper kept seg : Forall proper kept → Forall proper (clean_step kept seg).
Proof.
  intros Hk. unfold clean_step. repeat case_decide; [done| |].
  - destruct kept; [done|]. by inversion Hk.
  - constructor; [unfold proper; naive_solver|done].
Qed.

Lemma clean_segments_proper segs : Forall proper (clean_segments segs).
Proof.
  unfold clean_segments. apply Forall_rev. assert (Forall proper []) as H by constructor. revert H. generalize (@nil string).
  induction segs as [|seg segs IH]; intros kept Hk; [done|]. apply IH, clean_step_proper, Hk.
Qed.

Lemma clean_segments_id segs : Forall proper segs → clean_segments segs = segs.
Proof.
  intros Hs. unfold clean_segments. enough (∀ kept, foldl clean_step kept segs = rev segs ++ kept) as ->
    by (by rewrite app_nil_r, rev_involutive).
  induction Hs as [|seg segs (H1 & H2 & H3) Hs IH]; intros kept; [done|]. cbn [foldl rev]. rewrite IH.
  unfold clean_step. rewrite !decide_False by naive_solver. by rewrite <-app_assoc.
Qed.

Lemma clean_segments_empty segs : clean_segments (EmptyString :: segs) = clean_segments segs.
Proof. reflexivity. Qed.

Lemma clean_step_subset (P : string → Prop) kept seg : Forall P kept → P seg → Forall P (clean_step kept seg).
Proof.
  intros Hk Hp. unfold clean_step. repeat case_decide; [done| |by constructor].
  destruct kept; [done|]. by inversion Hk.
Qed.

Lemma clean_segments_Forall (P : string → Prop) segs : Forall P segs → Forall P (clean_segments segs).
Proof.
  intros Hs. unfold clean_segments. apply Forall_rev. assert (Forall P []) as H by constructor. revert H. generalize (@nil string).
  induction Hs as [|seg segs Hseg Hs IH]; intros kept Hk; [done|]. apply IH. by apply clean_step_subset.
Qed.
