(* ===== verification/Mux.v ===== *)
(** * Dispatching requests: [http.ServeMux], [http.StripPrefix] and chi

    The multiplexer of net/http as the program uses it, with patterns of literal
    segments; the prefix stripper; and go-chi/chi, outside the repository, as a
    class with its documented matching laws. *)

From Stdlib Require Import Ascii.
From Stdlib Require String.
From S2P Require Import Prelude GoStrings Http Url.

(** ** Definitions *)

(** *** [http.ServeMux] *)

(** A pattern without a method, a host or wildcards: its literal segments, and
    whether it ends in a slash and so matches a subtree. *)
Record mux_pattern := mkPattern { pattern_segments : list string; pattern_multi : bool }.

(** The segments after the first slash. *)
Definition path_segments (p : string) : list string := tail (split_on "/" p).

Definition parsePattern (s : string) : mux_pattern :=
  let segs := path_segments s in
  if bool_decide (last segs = Some EmptyString) then mkPattern (take (length segs - 1) segs) true
  else mkPattern segs false.

(** [pathUnescape] *)
Definition pathUnescape (seg : string) : string := default seg (unescape encodePath seg).

Definition pattern_matches (p : mux_pattern) (segs : list string) : bool :=
  if pattern_multi p
  then bool_decide (take (length (pattern_segments p)) segs = pattern_segments p) &&
       (length (pattern_segments p) <? length segs)
  else bool_decide (segs = pattern_segments p).

Section mux.
Context {H : Type}.

(** [mux.tree.match]: the most specific of the patterns that match. *)
Fixpoint tree_match (mux : list (mux_pattern * H)) (segs : list string) : option (mux_pattern * H) :=
  match mux with
  | [] => None
  | (p, h) :: mux' =>
      let rest := tree_match mux' segs in
      if pattern_matches p segs then
        match rest with
        | Some (q, h') =>
            if length (pattern_segments p) <=? length (pattern_segments q) then Some (q, h') else Some (p, h)
        | None => Some (p, h)
        end
      else rest
  end.

Definition mux_match (mux : list (mux_pattern * H)) (path : string) : option (mux_pattern * H) :=
  tree_match mux (pathUnescape <$> path_segments path).

(** [exactMatch]: the pattern's segments, the one of a subtree included, against
    the slashes of the path. *)
Definition exactMatch (n : option (mux_pattern * H)) (path : string) : bool :=
  match n with
  | None => false
  | Some (p, _) =>
      negb (pattern_multi p) ||
      (HasSuffix path "/" && bool_decide (length (pattern_segments p) + 1 = length (path_segments path)))
  end.

(** [cleanPath] *)
Definition cleanPath (p : string) : string :=
  if decide (p = EmptyString) then "/"
  else
    let p' := if HasPrefix p "/" then p else "/" +:+ p in
    let np := Clean p' in
    if HasSuffix p' "/" && negb (bool_decide (np = "/")) then np +:+ "/" else np.

Definition matchOrRedirect (mux : list (mux_pattern * H)) (path : string) (u : option Target)
    : option (mux_pattern * H) * option Target :=
  let n := mux_match mux path in
  match u with
  | None => (n, None)
  | Some u =>
      if negb (exactMatch n path) && negb (HasSuffix path "/") && bool_decide (path ≠ EmptyString) then
        let path' := path +:+ "/" in
        let n2 := mux_match mux path' in
        if exactMatch n2 path'
        then (n2, Some (mkTarget (cleanPath (Target_Path u) +:+ "/") EmptyString (Target_RawQuery u)))
        else (n, None)
      else (n, None)
  end.

(** [http.Redirect] to [u.String()], for a URL whose path begins with a slash:
    the path is cleaned, but for a last slash. *)
Definition redirect_location (u : Target) : string := cleanPath (EscapedPath u) +:+ query_part u.

Inductive mux_result : Type :=
| MuxHandler (h : H)
| MuxRedirect (url : string)
| MuxNotFound.

Definition found (n : option (mux_pattern * H)) : mux_result :=
  match n with Some (_, h) => MuxHandler h | None => MuxNotFound end.

(** [mux.findHandler] *)
Definition findHandler (mux : list (mux_pattern * H)) (method : string) (url : Target) : mux_result :=
  let escapedPath := EscapedPath url in
  if decide (method = "CONNECT") then
    match matchOrRedirect mux escapedPath (Some url) with
    | (_, Some u) => MuxRedirect (redirect_location u)
    | _ => found (matchOrRedirect mux escapedPath None).1
    end
  else
    let path := cleanPath escapedPath in
    match matchOrRedirect mux path (Some url) with
    | (_, Some u) => MuxRedirect (redirect_location u)
    | (n, None) =>
        if decide (path ≠ escapedPath) then MuxRedirect (redirect_location (mkTarget path EmptyString (Target_RawQuery url)))
        else found n
    end.

End mux.

Arguments mux_result : clear implicits.

(** [http.StripPrefix]: [None] is [http.NotFound]. *)
Definition StripPrefix (prefix : string) (u : Target) : option Target :=
  let p := TrimPrefix (Target_Path u) prefix in
  let rp := TrimPrefix (Target_RawPath u) prefix in
  if (String.length p <? String.length (Target_Path u)) &&
     (bool_decide (Target_RawPath u = EmptyString) || (String.length rp <? String.length (Target_RawPath u)))
  then Some (mkTarget p rp (Target_RawQuery u)) else None.

(** *** chi *)

(** The method and the pattern of a row of a table of routes. *)
Definition chi_row : Type := string * string.

Inductive chi_result : Type :=
| ChiMatched (i : nat) (params : list (string * string))
| ChiMethodNotAllowed
| ChiNotFound.

(** go-chi/chi: the row of the table, the groups and mounted routers flattened,
    that serves a method and a path. *)
Class Chi := chi_Match : list chi_row → string → string → chi_result.

(** The path that chi matches. *)
Definition routePath (u : Target) : string :=
  let p := if decide (Target_RawPath u ≠ EmptyString) then Target_RawPath u else Target_Path u in
  if decide (p = EmptyString) then "/" else p.

(** [{name}] stands for a parameter. *)
Definition param_name (seg : string) : option string :=
  if HasPrefix seg "{" && HasSuffix seg "}" then Some (take_string (String.length seg - 2) (drop_string 1 seg))
  else None.

(** Segments of a pattern against those of a path: a parameter takes any text
    without a slash. *)
Fixpoint chi_segments (pattern path : list string) : option (list (string * string)) :=
  match pattern, path with
  | [], [] => Some []
  | p :: pattern', s :: path' =>
      match param_name p with
      | Some name => cons (name, s) <$> chi_segments pattern' path'
      | None => if decide (p = s) then chi_segments pattern' path' else None
      end
  | _, _ => None
  end.

Definition chi_matches (pattern path : string) : option (list (string * string)) :=
  chi_segments (split_on "/" pattern) (split_on "/" path).

(** Documented behaviour: the row chosen has the method and matches the path;
    and when a row does, with a text for every parameter, some row is chosen. *)
Class ChiLaws (C : Chi) : Prop := {
  chi_sound t m p i params : chi_Match t m p = ChiMatched i params →
    ∃ pattern, t !! i = Some (m, pattern) ∧ chi_matches pattern p = Some params;
  chi_complete t m p i pattern params : t !! i = Some (m, pattern) → chi_matches pattern p = Some params →
    Forall (λ a, a.2 ≠ EmptyString) params → ∃ j params', chi_Match t m p = ChiMatched j params' }.

(** [chi.URLParam] *)
Definition URLParam (params : list (string * string)) (key : string) : string := Values_Get params key.

(** ** Lemmas *)

(** *** Cleaned paths *)

(** A clean path: a slash and proper segments, the last of which may be empty. *)
Definition clean_path (p : string) : Prop :=
  ∃ segs, Forall proper segs ∧ Forall (λ s, "/"%char ∉ bytes s) segs ∧
    (p = "/" +:+ join "/" segs ∨ (segs ≠ [] ∧ p = "/" +:+ join "/" segs +:+ "/")).

Lemma split_rooted p : split_on "/" ("/" +:+ p) = EmptyString :: split_on "/" p.
Proof. reflexivity. Qed.

Lemma split_last_empty s : split_on "/" (s +:+ "/") = split_on "/" s ++ [EmptyString].
Proof.
  induction s as [|c s IH]; [done|]. rewrite string_app_cons. cbn [split_on]. rewrite IH. case_decide; [done|].
  pose proof (split_on_not_nil "/" s). by destruct (split_on "/" s).
Qed.

Lemma clean_segments_snoc_empty segs : clean_segments (segs ++ [EmptyString]) = clean_segments segs.
Proof. unfold clean_segments. by rewrite foldl_app. Qed.

Lemma cleanPath_clean p : clean_path (cleanPath p).
Proof.
  unfold cleanPath. case_decide; [by exists []; split_and!; [constructor..|left]|]. cbv zeta.
  set (p' := if HasPrefix p "/" then p else _). unfold Clean.
  set (segs := clean_segments (split_on "/" p')).
  assert (Forall proper segs) as Hp by apply clean_segments_proper.
  assert (Forall (λ s, "/"%char ∉ bytes s) segs) as Hs by apply clean_segments_Forall, split_on_no_sep.
  exists segs. split_and!; [done..|]. destruct (_ && _) eqn:E; [right|by left].
  apply andb_prop in E as [_ E]. apply negb_true_iff, bool_decide_eq_false in E.
  split; [|by rewrite string_app_assoc]. intros Hnil. by rewrite Hnil in E.
Qed.

Lemma join_split_id segs :
  Forall proper segs → Forall (λ s, "/"%char ∉ bytes s) segs →
  clean_segments (split_on "/" ("/" +:+ join "/" segs)) = segs.
Proof.
  intros Hp Hs. rewrite split_rooted, clean_segments_empty. destruct (decide (segs = [])) as [->|Hne]; [done|].
  rewrite split_join by done. by apply clean_segments_id.
Qed.

Lemma join_no_suffix segs :
  Forall proper segs → Forall (λ s, "/"%char ∉ bytes s) segs → segs ≠ [] →
  HasSuffix ("/" +:+ join "/" segs) "/" = false.
Proof.
  intros Hp Hs Hne. destruct (HasSuffix _ _) eqn:E; [|done]. apply HasSuffix_spec in E as [u Hu].
  apply (f_equal (split_on "/")) in Hu. rewrite split_rooted, split_join, split_last_empty in Hu by done.
  destruct (split_on "/" u) as [|x l] eqn:El; [by apply split_on_not_nil in El|].
  injection Hu as <- Hu. rewrite Hu, Forall_app in Hp. destruct Hp as [_ Hp]. apply Forall_inv in Hp as [Hx _]. by destruct Hx.
Qed.

(** Cleaning leaves a clean path as it is. *)
Lemma cleanPath_id p : clean_path p → cleanPath p = p.
Proof.
  intros (segs & Hp & Hs & Hor). unfold cleanPath, Clean. destruct Hor as [->|[Hne ->]].
  - rewrite decide_False by done. cbv zeta. rewrite HasPrefix_app, join_split_id by done.
    destruct (decide (segs = [])) as [->|Hne]; [done|]. by rewrite join_no_suffix.
  - rewrite decide_False by done. cbv zeta. rewrite HasPrefix_app.
    rewrite <-string_app_assoc, split_last_empty, clean_segments_snoc_empty, join_split_id by done.
    rewrite HasSuffix_app, bool_decide_eq_false_2; [done|]. intros E.
    apply (f_equal (split_on "/")) in E. rewrite split_rooted, split_join in E by done.
    injection E as E. rewrite E in Hp. apply Forall_inv in Hp as [Hx _]. by destruct Hx.
Qed.

(** *** Escaping and cleaning *)

Lemma escape_app mode s t : escape mode (s +:+ t) = escape mode s +:+ escape mode t.
Proof.
  induction s as [|c s IH]; [done|]. rewrite string_app_cons. cbn [escape]. by rewrite IH, string_app_assoc.
Qed.

Lemma escape_inj mode s t : escape mode s = escape mode t → s = t.
Proof. intros E. apply (f_equal (unescape mode)) in E. rewrite !unescape_escape in E. congruence. Qed.

Lemma escape_slash_notin s : "/"%char ∉ bytes s → "/"%char ∉ bytes (escape encodePath s).
Proof.
  induction s as [|c s IH]; [done|]. cbn [bytes escape]. intros [Hc Hs]%not_elem_of_cons. rewrite bytes_app.
  apply not_elem_of_app. split; [|by apply IH]. unfold escape_byte. rewrite bool_decide_eq_false_2 by (by intros []).
  destruct (shouldEscape c encodePath); [|by intros [?|?%not_elem_of_nil]%elem_of_cons]. cbn [bytes].
  assert (∀ n, upperhex n ≠ "/"%char) as Hup.
  { intros n. unfold upperhex. destruct (bytes _ !! N.to_nat n) as [d|] eqn:E; [|done].
    change (d ≠ "/"%char). intros ->.
    apply list_elem_of_lookup_2 in E. revert E. eapply bool_decide_eq_false_1. vm_compute. reflexivity. }
  intros Hin. apply elem_of_cons in Hin as [?|Hin]; [done|]. apply elem_of_cons in Hin as [?|Hin]; [by eapply Hup|].
  apply elem_of_cons in Hin as [?|Hin]; [by eapply Hup|]. by apply not_elem_of_nil in Hin.
Qed.

Lemma join_escape l : join "/" (escape encodePath <$> l) = escape encodePath (join "/" l).
Proof.
  induction l as [|s l IH]; [done|]. destruct l as [|t l]; [done|]. cbn [fmap list_fmap].
  change (escape encodePath s +:+ String "/" (join "/" (escape encodePath <$> t :: l)) =
    escape encodePath (s +:+ String "/" (join "/" (t :: l)))).
  rewrite IH, escape_app. reflexivity.
Qed.

Lemma split_escape s : split_on "/" (escape encodePath s) = escape encodePath <$> split_on "/" s.
Proof.
  rewrite <-(join_split "/" s) at 1. rewrite <-join_escape. apply split_join.
  - pose proof (split_on_not_nil "/" s). by destruct (split_on "/" s).
  - apply Forall_fmap. eapply Forall_impl; [apply split_on_no_sep|]. intros t. apply escape_slash_notin.
Qed.

Lemma clean_step_escape kept seg :
  clean_step (escape encodePath <$> kept) (escape encodePath seg) = escape encodePath <$> clean_step kept seg.
Proof.
  assert (∀ t, escape encodePath t = t → escape encodePath seg = t → seg = t) as Hinv.
  { intros t Ht. rewrite <-Ht at 1. apply escape_inj. }
  unfold clean_step. destruct (decide (seg = EmptyString ∨ seg = ".")) as [[->| ->]|Hn]; [done..|].
  rewrite decide_False by (intros [?%Hinv|?%Hinv]; naive_solver).
  destruct (decide (seg = "..")) as [->|Hd]; [by destruct kept|]. by rewrite decide_False by (intros ?%Hinv; naive_solver).
Qed.

Lemma clean_segments_escape segs :
  clean_segments (escape encodePath <$> segs) = escape encodePath <$> clean_segments segs.
Proof.
  unfold clean_segments. assert (∀ l : list string, rev l = reverse l) as E by (intros; apply rev_alt).
  rewrite !E, fmap_reverse. f_equal. change (@nil string) with (escape encodePath <$> []) at 1.
  generalize (@nil string). induction segs as [|seg segs IH]; intros kept; [done|].
  cbn [foldl fmap list_fmap]. rewrite <-IH. f_equal. apply clean_step_escape.
Qed.

Lemma Clean_escape p : Clean (escape encodePath p) = escape encodePath (Clean p).
Proof. unfold Clean. by rewrite split_escape, clean_segments_escape, join_escape, escape_app. Qed.

Lemma join_snoc_empty l : l ≠ [] → join "/" (l ++ [EmptyString]) = join "/" l +:+ "/".
Proof.
  intros Hl. induction l as [|s l IH]; [done|]. destruct (decide (l = [])) as [->|Hne]; [done|].
  cbn [app]. rewrite !join_cons, IH by (try done; by destruct l). by rewrite string_app_assoc.
Qed.

Lemma HasSuffix_slash p : HasSuffix p "/" = true ↔ ∃ l, l ≠ [] ∧ split_on "/" p = l ++ [EmptyString].
Proof.
  rewrite HasSuffix_spec. split.
  - intros [u ->]. exists (split_on "/" u). split; [apply split_on_not_nil|apply split_last_empty].
  - intros (l & Hl & E). exists (join "/" l). by rewrite <-(join_split "/" p), E, join_snoc_empty.
Qed.

Lemma HasSuffix_slash_escape p : HasSuffix (escape encodePath p) "/" = HasSuffix p "/".
Proof.
  apply eq_bool_prop_intro. rewrite !Is_true_true, !HasSuffix_slash, split_escape. split.
  - intros (l & Hl & E). apply fmap_app_inv in E as (l1 & l2 & -> & E2 & ->).
    destruct l2 as [|s [|]]; [done| |done]. injection E2 as E2. exists l1. split; [by destruct l1|].
    symmetry in E2. by apply (escape_inj encodePath s EmptyString) in E2 as ->.
  - intros (l & Hl & ->). exists (escape encodePath <$> l). split; [by destruct l|]. by rewrite fmap_app.
Qed.

(** Cleaning an escaped path is escaping the clean one. *)
Lemma cleanPath_escape p : HasPrefix p "/" = true → cleanPath (escape encodePath p) = escape encodePath (cleanPath p).
Proof.
  intros Hp. apply HasPrefix_spec in Hp as [u ->]. unfold cleanPath. rewrite escape_app.
  change (escape encodePath "/") with "/". rewrite !decide_False by done. cbv zeta. rewrite !HasPrefix_app.
  change ("/" +:+ escape encodePath u) with (escape encodePath ("/" +:+ u)).
  rewrite Clean_escape, HasSuffix_slash_escape.
  assert (bool_decide (escape encodePath (Clean ("/" +:+ u)) = "/") = bool_decide (Clean ("/" +:+ u) = "/")) as ->.
  { apply bool_decide_ext. split; [apply (escape_inj encodePath _ "/")|by intros ->]. }
  destruct (_ && _); [by rewrite escape_app|done].
Qed.

(** *** Redirects *)

Lemma clean_path_rooted p : clean_path p → HasPrefix p "/" = true.
Proof. intros (segs & _ & _ & [->|[_ ->]]); apply HasPrefix_app. Qed.

Lemma escape_ctl s : existsb is_ctl (bytes (escape encodePath s)) = false.
Proof.
  assert (Forall (λ c, is_ctl c = false) (bytes (escape encodePath s))) as HF.
  { apply escape_bytes; [intros [[] [] [] [] [] [] [] []]; done|done|done|repeat constructor]. }
  induction HF as [|c l Hc HF IH]; [done|]. cbn [existsb]. by rewrite Hc.
Qed.

Lemma escape_no_query s : "?"%char ∉ bytes (escape encodePath s).
Proof. apply escape_not_in; [reflexivity|by intros [? ?]|eapply bool_decide_eq_false_1; vm_compute; reflexivity]. Qed.

Definition good_query (q : string) : Prop := existsb is_ctl (bytes q) = false.

(** The server reads an escaped path as it was. *)
Lemma ParseRequestURI_escaped p q :
  HasPrefix p "/" = true → good_query q →
  ParseRequestURI (escape encodePath p +:+ query_part (mkTarget EmptyString EmptyString q)) =
    Some (mkTarget p EmptyString q).
Proof.
  intros Hp Hq. unfold ParseRequestURI, query_part. cbn [Target_RawQuery].
  assert (HasPrefix (escape encodePath p) "/" = true) as Hp'.
  { apply HasPrefix_spec in Hp as [u ->]. rewrite escape_app. apply HasPrefix_app. }
  assert (∀ t, HasPrefix (escape encodePath p +:+ t) "/" = true) as Ht.
  { intros t. apply HasPrefix_spec in Hp' as [u ->]. rewrite string_app_assoc. apply HasPrefix_app. }
  assert (∀ q, Cut (escape encodePath p +:+ String "?" q) "?" = (escape encodePath p, q)) as Hcut.
  { intros q'. apply Cut_app, escape_no_query. }
  assert (Cut (escape encodePath p) "?" = (escape encodePath p, EmptyString)) as Hcut0.
  { unfold Cut. by rewrite IndexByte_None by apply escape_no_query. }
  rewrite Ht, bytes_app, existsb_app, escape_ctl. cbn [negb orb]. rewrite orb_false_r.
  assert (setPath (escape encodePath p) q = Some (mkTarget p EmptyString q)) as Hset.
  { unfold setPath. rewrite unescape_escape. cbn [mbind option_bind]. by rewrite decide_True. }
  case_decide as Hq0.
  - subst q. replace (escape encodePath p +:+ EmptyString) with (escape encodePath p).
    + cbn [bytes existsb]. by rewrite Hcut0.
    + apply bytes_inj. by rewrite bytes_app, app_nil_r.
  - cbn [bytes existsb]. change (bytes ("?" +:+ q)) with ("?"%char :: bytes q). cbn [existsb]. unfold good_query in Hq.
    rewrite Hq. cbn. change ("?" +:+ q) with (String "?" q). by rewrite Hcut.
Qed.

Lemma cleanPath_slash p : HasPrefix p "/" = true → HasSuffix p "/" = true → HasSuffix (cleanPath p) "/" = true.
Proof.
  intros Hp Hs. unfold cleanPath. case_decide; [done|]. cbv zeta. rewrite Hp, Hs. cbn [andb].
  case_bool_decide as E; cbn [negb]; [by rewrite E|apply HasSuffix_app].
Qed.

Lemma pathUnescape_escape s : pathUnescape (escape encodePath s) = s.
Proof. unfold pathUnescape. by rewrite unescape_escape. Qed.

Lemma path_segments_escape p : path_segments (escape encodePath p) = escape encodePath <$> path_segments p.
Proof. unfold path_segments. rewrite split_escape. by destruct (split_on "/" p). Qed.

Lemma path_segments_slash p : HasPrefix p "/" = true → path_segments (p +:+ "/") = path_segments p ++ [EmptyString].
Proof.
  intros Hp. apply HasPrefix_spec in Hp as [u ->]. unfold path_segments.
  rewrite split_last_empty, split_rooted. done.
Qed.

Section redirects.
Context {H : Type} (mux : list (mux_pattern * H)).

(** The segments of the patterns have no percent sign. *)
Definition plain_patterns : Prop := Forall (λ r, Forall (λ s, pathUnescape s = s) (pattern_segments r.1)) mux.

Lemma mux_match_escape p : mux_match mux (escape encodePath p) = tree_match mux (path_segments p).
Proof.
  unfold mux_match. rewrite path_segments_escape, <-list_fmap_compose. f_equal.
  rewrite <-(list_fmap_id (path_segments p)) at 2. apply list_fmap_ext. intros i s _. apply pathUnescape_escape.
Qed.

Lemma tree_match_Some segs p h : tree_match mux segs = Some (p, h) → (p, h) ∈ mux ∧ pattern_matches p segs = true.
Proof.
  induction mux as [|[q k] mux' IH]; [done|]. cbn [tree_match]. cbv zeta.
  destruct (pattern_matches q segs) eqn:E.
  - destruct (tree_match mux' segs) as [[q' k']|]; [case_match|]; intros [= <- <-]; try (split; [left|done]).
    destruct (IH eq_refl). split; [by right|done].
  - intros Hm. destruct (IH Hm). split; [by right|done].
Qed.

Lemma exactMatch_escape (n : option (mux_pattern * H)) p : exactMatch n (escape encodePath p) = exactMatch n p.
Proof. unfold exactMatch. by rewrite HasSuffix_slash_escape, path_segments_escape, length_fmap. Qed.

(** A path that matches a subtree exactly has no escapes. *)
Lemma exact_plain p : plain_patterns → HasPrefix p "/" = true →
  exactMatch (tree_match mux (path_segments (p +:+ "/"))) (p +:+ "/") = true →
  pathUnescape <$> path_segments (p +:+ "/") = path_segments (p +:+ "/").
Proof.
  intros Hplain Hp Hex. unfold exactMatch in Hex.
  destruct (tree_match mux _) as [[pat h]|] eqn:E; [|done]. apply tree_match_Some in E as [Hin Hm].
  unfold plain_patterns in Hplain. rewrite Forall_forall in Hplain. specialize (Hplain _ Hin). cbn [fst] in Hplain.
  assert (∀ l : list string, Forall (λ s, pathUnescape s = s) l → pathUnescape <$> l = l) as Hid.
  { intros l. induction 1; f_equal/=; done. }
  apply Hid. unfold pattern_matches in Hm. destruct (pattern_multi pat).
  - cbn [negb orb] in Hex. apply andb_prop in Hex as [_ Hlen]. apply bool_decide_eq_true in Hlen.
    apply andb_prop in Hm as [Hm _]. apply bool_decide_eq_true in Hm. rewrite path_segments_slash in * by done.
    rewrite length_app in Hlen. rewrite take_app_le, take_ge in Hm by (simpl in Hlen; lia). rewrite Hm.
    apply Forall_app. split; [done|]. by repeat constructor.
  - apply bool_decide_eq_true in Hm. by rewrite Hm.
Qed.

(** A path that is not redirected to its subtree is not when it is escaped. *)
Lemma matchOrRedirect_escape p u u' : plain_patterns → HasPrefix p "/" = true →
  (matchOrRedirect mux p (Some u)).2 = None → (matchOrRedirect mux (escape encodePath p) (Some u')).2 = None.
Proof.
  intros Hplain Hp Hnone. unfold matchOrRedirect in *. cbv zeta in *.
  destruct (negb _ && negb _ && _) eqn:Ec in |- *; [|done].
  destruct (exactMatch (mux_match mux (escape encodePath p +:+ "/")) _) eqn:Ex in |- *; [exfalso|done].
  change "/" with (escape encodePath "/") in Ex at 1 2. rewrite <-escape_app, exactMatch_escape, mux_match_escape in Ex.
  pose proof (exact_plain p Hplain Hp Ex) as Hpl.
  assert (mux_match mux (p +:+ "/") = tree_match mux (path_segments (p +:+ "/"))) as E2 by (unfold mux_match; by rewrite Hpl).
  assert (mux_match mux p = mux_match mux (escape encodePath p)) as E1.
  { rewrite mux_match_escape. unfold mux_match. f_equal. rewrite path_segments_slash in Hpl by done.
    rewrite fmap_app in Hpl. by apply app_inj_tail in Hpl as [? _]. }
  rewrite <-E2 in Ex. rewrite E1, Ex in Hnone. rewrite HasSuffix_slash_escape, exactMatch_escape in Ec.
  apply andb_prop in Ec as [Ec _]. rewrite Ec, bool_decide_eq_true_2 in Hnone; [done|by intros ->].
Qed.

Lemma matchOrRedirect_slash p u : HasSuffix p "/" = true → (matchOrRedirect mux p (Some u)).2 = None.
Proof. intros Hs. unfold matchOrRedirect. cbv zeta. by rewrite Hs, andb_false_r. Qed.

Lemma found_no_redirect n loc : found (H := H) n ≠ MuxRedirect loc.
Proof. by destruct n as [[]|]. Qed.

Lemma findHandler_escaped method p q : method ≠ "CONNECT" → clean_path p →
  (∀ u, (matchOrRedirect mux (escape encodePath p) (Some u)).2 = None) →
  findHandler mux method (mkTarget p EmptyString q) = found (tree_match mux (path_segments p)).
Proof.
  intros Hm Hc Hnone. unfold findHandler, EscapedPath. cbn [Target_RawPath Target_Path Target_RawQuery]. cbv zeta.
  rewrite decide_False by done. rewrite bool_decide_eq_false_2 by auto. cbn [andb].
  rewrite cleanPath_escape, cleanPath_id by (try done; by apply clean_path_rooted).
  specialize (Hnone (mkTarget p EmptyString q)).
  destruct (matchOrRedirect mux _ _) as [n o] eqn:E. cbn [snd] in Hnone. subst o. rewrite decide_False by auto.
  unfold matchOrRedirect in E. cbv zeta in E. rewrite mux_match_escape in E. by repeat case_match; simplify_eq.
Qed.

(** The client that follows a redirect is served: its second request is read as
    the clean path, and dispatched by its segments. *)
Lemma follow_redirect method url loc : plain_patterns → method ≠ "CONNECT" → good_query (Target_RawQuery url) →
  findHandler mux method url = MuxRedirect loc →
  ∃ p, clean_path p ∧
    loc = escape encodePath p +:+ query_part (mkTarget EmptyString EmptyString (Target_RawQuery url)) ∧
    ParseRequestURI loc = Some (mkTarget p EmptyString (Target_RawQuery url)) ∧
    findHandler mux method (mkTarget p EmptyString (Target_RawQuery url)) = found (tree_match mux (path_segments p)).
Proof.
  intros Hplain Hm Hq Hf.
  assert (∀ P, HasPrefix P "/" = true → (∀ u, (matchOrRedirect mux (escape encodePath (cleanPath P)) (Some u)).2 = None) →
    loc = redirect_location (mkTarget P EmptyString (Target_RawQuery url)) → ∃ p, clean_path p ∧
    loc = escape encodePath p +:+ query_part (mkTarget EmptyString EmptyString (Target_RawQuery url)) ∧
    ParseRequestURI loc = Some (mkTarget p EmptyString (Target_RawQuery url)) ∧
    findHandler mux method (mkTarget p EmptyString (Target_RawQuery url)) = found (tree_match mux (path_segments p))) as Hgen.
  { intros P HP Hn ->. exists (cleanPath P). pose proof (cleanPath_clean P) as Hc.
    assert (redirect_location (mkTarget P EmptyString (Target_RawQuery url)) = escape encodePath (cleanPath P) +:+
      query_part (mkTarget EmptyString EmptyString (Target_RawQuery url))) as ->.
    { unfold redirect_location, EscapedPath. cbn [Target_RawPath Target_Path]. rewrite bool_decide_eq_false_2 by auto.
      cbn [andb]. by rewrite cleanPath_escape. }
    split_and!; [done|done| |by apply findHandler_escaped].
    apply ParseRequestURI_escaped; [by apply clean_path_rooted|done]. }
  unfold findHandler in Hf. cbv zeta in Hf. rewrite decide_False in Hf by done.
  pose proof (cleanPath_clean (EscapedPath url)) as Hc. pose proof (clean_path_rooted _ Hc) as HP.
  destruct (matchOrRedirect mux _ _) as [n [u|]] eqn:E.
  - injection Hf as Hf. unfold matchOrRedirect in E. cbv zeta in E. repeat case_match; simplify_eq.
    assert (HasPrefix (cleanPath (Target_Path url) +:+ "/") "/" = true) as Hr.
    { pose proof (clean_path_rooted _ (cleanPath_clean (Target_Path url))) as [t ->]%HasPrefix_spec.
      rewrite string_app_assoc. apply HasPrefix_app. }
    apply (Hgen _ Hr); [|done]. intros u'. apply matchOrRedirect_slash. rewrite HasSuffix_slash_escape.
    apply cleanPath_slash; [done|apply HasSuffix_app].
  - case_decide as Hne; [|by apply found_no_redirect in Hf]. injection Hf as Hf. apply (Hgen _ HP); [|done].
    intros u'. rewrite cleanPath_id by done. eapply matchOrRedirect_escape; [done|done|]. by rewrite E.
Qed.
End redirects.
