(* ===== verification/Markup.v ===== *)
(** * Package [html], and a reader of HTML

    [html.EscapeString], and what a page means to a browser: [scan] is the
    tokenizer of the HTML standard on the part of its input that the pages use,
    and gets stuck outside it; what the standard does to the bytes before the
    tokenizer (decoding, CR LF and CR to LF) and to a NUL is not modelled.  A
    [node] is an element, a text or a declaration of
    the document, and [tokens] lists what a reader meets in it. *)

From Stdlib Require Import Ascii.
From Stdlib Require String.
From S2P Require Import Prelude GoStrings Http.

(** ** Definitions *)

(** [html.EscapeString]: the replacer of the five special characters. *)
Definition escape_char (c : ascii) : string :=
  if decide (c = "&"%char) then "&amp;"
  else if decide (c = "'"%char) then "&#39;"
  else if decide (c = "<"%char) then "&lt;"
  else if decide (c = ">"%char) then "&gt;"
  else if decide (c = "034"%char) then "&#34;"
  else String c EmptyString.

Fixpoint html_EscapeString (s : string) : string :=
  match s with
  | EmptyString => EmptyString
  | String c s' => escape_char c +:+ html_EscapeString s'
  end.

(** ** Specification: documents and their reading *)

Inductive token : Type :=
| TDecl (s : string)
| TOpen (name : string) (attrs : list (string * string))
| TClose (name : string)
| TText (s : string).

#[export] Instance token_eq_dec : EqDecision token.
Proof. solve_decision. Defined.

(** The texts read so far are reversed. *)
Inductive lex : Type :=
| Data (text : list ascii)
| TagStart
| Decl (text : list ascii)
| OpenName (name : list ascii)
| InTag (name : string) (attrs : list (string * string))
| AttrName (name : string) (attrs : list (string * string)) (attr : list ascii)
| BeforeValue (name : string) (attrs : list (string * string)) (attr : string)
| AttrValue (name : string) (attrs : list (string * string)) (attr : string) (value : list ascii)
| AfterValue (name : string) (attrs : list (string * string))
| CloseName (name : list ascii)
| RawText (name : string) (text : list ascii)
| RawEnd (name : string) (expected : list ascii)
| Reference (back : lex) (name : list ascii)
| Stuck.

Definition rev_text (l : list ascii) : string := of_bytes (rev l).

Definition text_token (s : string) : list token :=
  if decide (s = EmptyString) then [] else [TText s].

Definition is_name (c : ascii) : bool := is_lower c || is_digit c.

(** The elements whose content is not markup. *)
Definition is_raw (name : string) : bool := bool_decide (name ∈ ["script"; "style"]).

(** A start tag is complete. *)
Definition opened (name : string) (attrs : list (string * string)) : lex * list token :=
  (if is_raw name then RawText name [] else Data [], [TOpen name attrs]).

Definition reference (name : string) : option ascii :=
  if decide (name = "lt") then Some "<"%char
  else if decide (name = "gt") then Some ">"%char
  else if decide (name = "amp") then Some "&"%char
  else if decide (name = "#39") then Some "'"%char
  else if decide (name = "#34") then Some "034"%char
  else None.

(** A character reference stands for a character of the text or the value. *)
Definition referred (back : lex) (c : ascii) : lex :=
  match back with
  | Data text => Data (c :: text)
  | AttrValue n l a v => AttrValue n l a (c :: v)
  | _ => Stuck
  end.

Definition step (st : lex) (c : ascii) : lex * list token :=
  match st with
  | Data text =>
      if decide (c = "<"%char) then (TagStart, text_token (rev_text text))
      else if decide (c = "&"%char) then (Reference st [], [])
      else (Data (c :: text), [])
  | TagStart =>
      if decide (c = "!"%char) then (Decl [], [])
      else if decide (c = "/"%char) then (CloseName [], [])
      else if is_lower c then (OpenName [c], []) else (Stuck, [])
  | Decl text =>
      if decide (c = ">"%char) then (Data [], [TDecl (rev_text text)]) else (Decl (c :: text), [])
  | OpenName name =>
      if decide (c = ">"%char) then opened (rev_text name) []
      else if decide (c = " "%char) then (InTag (rev_text name) [], [])
      else if is_name c then (OpenName (c :: name), []) else (Stuck, [])
  | InTag name attrs => if is_lower c then (AttrName name attrs [c], []) else (Stuck, [])
  | AttrName name attrs attr =>
      if decide (c = "="%char) then (BeforeValue name attrs (rev_text attr), [])
      else if decide (c = ">"%char) then opened name (attrs ++ [(rev_text attr, EmptyString)])
      else if decide (c = " "%char) then (InTag name (attrs ++ [(rev_text attr, EmptyString)]), [])
      else if is_name c || bool_decide (c = "-"%char) then (AttrName name attrs (c :: attr), [])
      else (Stuck, [])
  | BeforeValue name attrs attr =>
      if decide (c = "034"%char) then (AttrValue name attrs attr [], []) else (Stuck, [])
  | AttrValue name attrs attr value =>
      if decide (c = "034"%char) then (AfterValue name (attrs ++ [(attr, rev_text value)]), [])
      else if decide (c = "&"%char) then (Reference st [], [])
      else (AttrValue name attrs attr (c :: value), [])
  | AfterValue name attrs =>
      if decide (c = " "%char) then (InTag name attrs, [])
      else if decide (c = ">"%char) then opened name attrs else (Stuck, [])
  | CloseName name =>
      if decide (c = ">"%char) then (Data [], [TClose (rev_text name)])
      else if is_name c then (CloseName (c :: name), []) else (Stuck, [])
  | RawText name text =>
      if decide (c = "<"%char) then (RawEnd name (bytes ("/" +:+ name +:+ ">")), text_token (rev_text text))
      else (RawText name (c :: text), [])
  | RawEnd name expected =>
      match expected with
      | [d] => if decide (c = d) then (Data [], [TClose name]) else (Stuck, [])
      | d :: expected' => if decide (c = d) then (RawEnd name expected', []) else (Stuck, [])
      | [] => (Stuck, [])
      end
  | Reference back name =>
      if decide (c = ";"%char) then
        (match reference (rev_text name) with Some d => referred back d | None => Stuck end, [])
      else if is_name c || bool_decide (c = "#"%char) then (Reference back (c :: name), [])
      else (Stuck, [])
  | Stuck => (Stuck, [])
  end.

Fixpoint scan (st : lex) (s : string) : lex * list token :=
  match s with
  | EmptyString => (st, [])
  | String c s' => let '(st1, ts1) := step st c in let '(st2, ts2) := scan st1 s' in (st2, ts1 ++ ts2)
  end.

(** What a page says to the tokenizer, given the page as it is written: a CR is
    kept, which a browser would have made an LF beforehand.  [None] when the
    reader gets stuck or the page ends within a tag. *)
Definition read (s : string) : option (list token) :=
  match scan (Data []) s with
  | (Data text, ts) => Some (ts ++ text_token (rev_text text))
  | _ => None
  end.

(** A document; a [Void] element has no content and no end tag. *)
Inductive node : Type :=
| Declaration (s : string)
| El (name : string) (attrs : list (string * string)) (content : list node)
| Void (name : string) (attrs : list (string * string))
| Txt (s : string).

Fixpoint node_tokens (n : node) : list token :=
  match n with
  | Declaration s => [TDecl s]
  | El name attrs content => TOpen name attrs :: (content ≫= node_tokens) ++ [TClose name]
  | Void name attrs => [TOpen name attrs]
  | Txt s => text_token s
  end.

Definition tokens (d : list node) : list token := d ≫= node_tokens.

(** ** Lemmas *)

Lemma scan_app st s t :
  scan st (s +:+ t) =
  (let '(st1, ts1) := scan st s in let '(st2, ts2) := scan st1 t in (st2, ts1 ++ ts2)).
Proof.
  revert st. induction s as [|c s IH]; intros st.
  { rewrite string_app_nil_l. simpl. by destruct (scan st t). }
  rewrite string_app_cons. simpl. destruct (step st c) as [st1 ts1]. rewrite IH.
  destruct (scan st1 s) as [st2 ts2], (scan st2 t) as [st3 ts3]. by rewrite app_assoc.
Qed.

Lemma scan_then st s st1 ts1 t st2 ts2 :
  scan st s = (st1, ts1) → scan st1 t = (st2, ts2) → scan st (s +:+ t) = (st2, ts1 ++ ts2).
Proof. intros E1 E2. by rewrite scan_app, E1, E2. Qed.

Lemma rev_text_app s l : rev_text (rev (bytes s) ++ l) = rev_text l +:+ s.
Proof. unfold rev_text. apply bytes_inj. by rewrite bytes_app, !bytes_of_bytes, rev_app_distr, rev_involutive. Qed.

Lemma rev_text_rev s : rev_text (rev (bytes s)) = s.
Proof. unfold rev_text. by rewrite rev_involutive, of_bytes_bytes. Qed.

(** An escaped character is read back as itself, in a text and in a value. *)
Lemma scan_escape_char c :
  (∀ text, scan (Data text) (escape_char c) = (Data (c :: text), [])) ∧
  (∀ n l a v, scan (AttrValue n l a v) (escape_char c) = (AttrValue n l a (c :: v), [])).
Proof.
  unfold escape_char. split; intros; repeat (case_decide; [by subst|]); simpl; by repeat (case_decide; [done|]).
Qed.

Lemma scan_escaped s :
  (∀ text, scan (Data text) (html_EscapeString s) = (Data (rev (bytes s) ++ text), [])) ∧
  (∀ n l a v, scan (AttrValue n l a v) (html_EscapeString s) = (AttrValue n l a (rev (bytes s) ++ v), [])).
Proof.
  induction s as [|c s [IHd IHa]]; [done|]. destruct (scan_escape_char c) as [Ed Ea].
  cbn [html_EscapeString bytes rev]. split; intros; rewrite <-app_assoc.
  - by rewrite (scan_then _ _ _ _ _ _ _ (Ed _) (IHd _)).
  - by rewrite (scan_then _ _ _ _ _ _ _ (Ea _ _ _ _) (IHa _ _ _ _)).
Qed.

Lemma tokens_app d1 d2 : tokens (d1 ++ d2) = tokens d1 ++ tokens d2.
Proof. apply bind_app. Qed.

Lemma tokens_cons n d : tokens (n :: d) = node_tokens n ++ tokens d.
Proof. done. Qed.
