(* ===== verification/Json.v ===== *)
(** * Package [encoding/json]: reading and writing JSON texts

    [read_value] is the reader of [json.Decoder]: the grammar, strings with their
    escapes and the replacement of invalid UTF-8, numbers as their literals, and
    the bound on nesting.  [write] is [json.Marshal] with its escaping.  What was
    written is read back ([read_write]). *)

From Stdlib Require Import Ascii.
From Stdlib Require String.
From S2P Require Import Prelude GoStrings Http.

Open Scope go_scope.

(** ** Definitions *)

(** *** UTF-8 *)

Definition in_range (lo hi : N) (c : ascii) : bool := ((lo <=? N_of_ascii c) && (N_of_ascii c <=? hi))%N.

(** [utf8.DecodeRune]: the length of the valid rune at the front; [None] stands
    for RuneError of width one. *)
Definition rune_size (l : list ascii) : option nat :=
  match l with
  | [] => None
  | c0 :: l1 =>
      if in_range 0 127 c0 then Some 1
      else if in_range 194 223 c0 then
        match l1 with c1 :: _ => if in_range 128 191 c1 then Some 2 else None | _ => None end
      else if in_range 224 239 c0 then
        let lo := if in_range 224 224 c0 then 160%N else 128%N in
        let hi := if in_range 237 237 c0 then 159%N else 191%N in
        match l1 with
        | c1 :: c2 :: _ => if in_range lo hi c1 && in_range 128 191 c2 then Some 3 else None
        | _ => None
        end
      else if in_range 240 244 c0 then
        let lo := if in_range 240 240 c0 then 144%N else 128%N in
        let hi := if in_range 244 244 c0 then 143%N else 191%N in
        match l1 with
        | c1 :: c2 :: c3 :: _ =>
            if in_range lo hi c1 && in_range 128 191 c2 && in_range 128 191 c3 then Some 4 else None
        | _ => None
        end
      else None
  end.

(** U+FFFD *)
Definition rune_error : list ascii := ["239"; "191"; "189"]%char.

(** [utf8.EncodeRune], for the runes that a \u escape can name. *)
Definition encode_rune (r : N) : list ascii :=
  ascii_of_N <$>
  (if r <? 128 then [r]
   else if r <? 2048 then [192 + r / 64; 128 + r mod 64]
   else if r <? 65536 then [224 + r / 4096; 128 + r / 64 mod 64; 128 + r mod 64]
   else [240 + r / 262144; 128 + r / 4096 mod 64; 128 + r / 64 mod 64; 128 + r mod 64])%N.

(** *** Values *)

Inductive json : Type :=
| JsNull
| JsBool (b : bool)
| JsNum (literal : list ascii)
| JsStr (s : string)
| JsArr (l : list json)
| JsObj (l : list (string * json)).

(** *** Reading *)

Definition is_space (c : ascii) : bool := bool_decide (c ∈ [" "; "009"; "010"; "013"]%char).

Fixpoint skip_space (l : list ascii) : list ascii :=
  match l with c :: l' => if is_space c then skip_space l' else l | [] => [] end.

Definition hex_value (c : ascii) : option N :=
  if is_digit c then Some (N_of_ascii c - 48)%N
  else if in_range 97 102 c then Some (N_of_ascii c - 87)%N
  else if in_range 65 70 c then Some (N_of_ascii c - 55)%N
  else None.

(** [getu4], after the backslash and the u *)
Definition hex4 (a b c d : ascii) : option N :=
  a ← hex_value a; b ← hex_value b; c ← hex_value c; d ← hex_value d; Some (4096 * a + 256 * b + 16 * c + d)%N.

Definition is_surrogate (r : N) : bool := ((55296 <=? r) && (r <? 57344))%N.

(** [utf16.DecodeRune] of a pair. *)
Definition surrogate_pair (hi lo : N) : option N :=
  if ((55296 <=? hi) && (hi <? 56320) && (56320 <=? lo) && (lo <? 57344))%N
  then Some ((hi - 55296) * 1024 + (lo - 56320) + 65536)%N else None.

(** The one-letter escapes. *)
Definition unescape (c : ascii) : option ascii :=
  match c with
  | "034" => Some "034" | "\" => Some "\" | "/" => Some "/"
  | "b" => Some "008" | "f" => Some "012" | "n" => Some "010" | "r" => Some "013" | "t" => Some "009"
  | _ => None
  end%char.

Definition push (r : list ascii) (x : option (list ascii * list ascii)) : option (list ascii * list ascii) :=
  '(s, rest) ← x; Some (r ++ s, rest).

(** A string, after its opening quote, and what follows its closing one. *)
Fixpoint read_string (l : list ascii) : option (list ascii * list ascii) :=
  match l with
  | [] => None
  | c :: l1 =>
      if decide (c = "034"%char) then Some ([], l1)
      else if decide (c = "\"%char) then
        match l1 with
        | [] => None
        | e :: l2 =>
            match unescape e with
            | Some b => push [b] (read_string l2)
            | None =>
                if decide (e ≠ "u"%char) then None
                else
                  match l2 with
                  | h1 :: h2 :: h3 :: h4 :: l3 =>
                      match hex4 h1 h2 h3 h4 with
                      | None => None
                      | Some r =>
                          if is_surrogate r then
                            match l3 with
                            | "\"%char :: "u"%char :: g1 :: g2 :: g3 :: g4 :: l4 =>
                                match hex4 g1 g2 g3 g4 ≫= surrogate_pair r with
                                | Some r' => push (encode_rune r') (read_string l4)
                                | None => push rune_error (read_string l3)
                                end
                            | _ => push rune_error (read_string l3)
                            end
                          else push (encode_rune r) (read_string l3)
                      end
                  | _ => None
                  end
            end
        end
      else if in_range 0 31 c then None
      else
        match rune_size l, l1 with
        | Some 1, _ => push [c] (read_string l1)
        | Some 2, c1 :: l2 => push [c; c1] (read_string l2)
        | Some 3, c1 :: c2 :: l3 => push [c; c1; c2] (read_string l3)
        | Some 4, c1 :: c2 :: c3 :: l4 => push [c; c1; c2; c3] (read_string l4)
        | _, _ => push rune_error (read_string l1)
        end
  end.

Fixpoint take_digits (l : list ascii) : list ascii * list ascii :=
  match l with
  | c :: l' => if is_digit c then let '(ds, r) := take_digits l' in (c :: ds, r) else ([], l)
  | [] => ([], [])
  end.

(** Digits, of which there must be one. *)
Definition some_digits (l : list ascii) : option (list ascii * list ascii) :=
  let '(ds, r) := take_digits l in if decide (ds = []) then None else Some (ds, r).

Definition read_integer (l : list ascii) : option (list ascii * list ascii) :=
  match l with
  | "0"%char :: l' => Some (["0"%char], l')
  | _ => some_digits l
  end.

Definition read_fraction (l : list ascii) : option (list ascii * list ascii) :=
  match l with
  | "."%char :: l' => push ["."%char] (some_digits l')
  | _ => Some ([], l)
  end.

Definition read_exponent (l : list ascii) : option (list ascii * list ascii) :=
  match l with
  | ("e" | "E") as c :: l1 =>
      match l1 with
      | ("+" | "-") as s :: l2 => push [c; s] (some_digits l2)
      | _ => push [c] (some_digits l1)
      end
  | _ => Some ([], l)
  end%char.

(** A number: its literal, and the rest. *)
Definition read_number (l : list ascii) : option (list ascii * list ascii) :=
  let '(sign, l1) := match l with "-"%char :: l' => (["-"%char], l') | _ => ([], l) end in
  '(i, l2) ← read_integer l1; '(f, l3) ← read_fraction l2; '(e, l4) ← read_exponent l3;
  Some (sign ++ i ++ f ++ e, l4).

Fixpoint read_literal (word : list ascii) (l : list ascii) : option (list ascii) :=
  match word, l with
  | [], _ => Some l
  | c :: word', c' :: l' => if decide (c = c') then read_literal word' l' else None
  | _, [] => None
  end.

(** A byte after white space. *)
Definition eat (c : ascii) (l : list ascii) : option (list ascii) :=
  match skip_space l with c' :: l' => if decide (c' = c) then Some l' else None | [] => None end.

(** What the first byte of a value announces. *)
Inductive value_kind := KString | KArray | KObject | KNull | KTrue | KFalse | KNumber.

Definition kind_of (c : ascii) : value_kind :=
  match c with
  | "034" => KString | "[" => KArray | "{" => KObject | "n" => KNull | "t" => KTrue | "f" => KFalse | _ => KNumber
  end%char.

(** [depth] bounds the nesting, [fuel] the recursion (see [read_fuel]). *)
Fixpoint read_value (fuel : nat) (depth : N) (l : list ascii) : option (json * list ascii) :=
  match fuel, skip_space l with
  | S n, c :: l1 =>
      match kind_of c with
      | KString => '(s, r) ← read_string l1; Some (JsStr (of_bytes s), r)
      | KArray =>
          if (depth =? 0)%N then None
          else match eat "]" l1 with
               | Some r => Some (JsArr [], r)
               | None => '(x, r) ← read_elements n (depth - 1)%N l1; Some (JsArr x, r)
               end
      | KObject =>
          if (depth =? 0)%N then None
          else match eat "}" l1 with
               | Some r => Some (JsObj [], r)
               | None => '(x, r) ← read_members n (depth - 1)%N l1; Some (JsObj x, r)
               end
      | KNull => r ← read_literal (bytes "ull") l1; Some (JsNull, r)
      | KTrue => r ← read_literal (bytes "rue") l1; Some (JsBool true, r)
      | KFalse => r ← read_literal (bytes "alse") l1; Some (JsBool false, r)
      | KNumber => '(lit, r) ← read_number (c :: l1); Some (JsNum lit, r)
      end
  | _, _ => None
  end
with read_elements (fuel : nat) (depth : N) (l : list ascii) : option (list json * list ascii) :=
  match fuel with
  | O => None
  | S n =>
      '(v, r) ← read_value n depth l;
      match eat "," r with
      | Some r1 => '(vs, r2) ← read_elements n depth r1; Some (v :: vs, r2)
      | None => r1 ← eat "]" r; Some ([v], r1)
      end
  end
with read_members (fuel : nat) (depth : N) (l : list ascii) : option (list (string * json) * list ascii) :=
  match fuel with
  | O => None
  | S n =>
      l1 ← eat "034" l; '(k, l2) ← read_string l1; l3 ← eat ":" l2;
      '(v, r) ← read_value n depth l3;
      match eat "," r with
      | Some r1 => '(ms, r2) ← read_members n depth r1; Some ((of_bytes k, v) :: ms, r2)
      | None => r1 ← eat "}" r; Some ([(of_bytes k, v)], r1)
      end
  end.

(** maxNestingDepth *)
Definition max_depth : N := 10000.

(** The first value of a text, as [Decoder.Decode] reads it: what follows the
    value is not looked at. *)
Definition read_json (s : string) : option json :=
  fst <$> read_value (S (2 * String.length s)) max_depth (bytes s).

(** *** Writing *)

Definition lower_hex (n : N) : ascii := ascii_of_N (if n <? 10 then 48 + n else 87 + n)%N.

(** One ASCII byte in [appendString] with the escaping for HTML. *)
Definition escape_ascii (c : ascii) : list ascii :=
  match c with
  | "034" => bytes "\" ++ [c] | "\" => bytes "\\"
  | "008" => bytes "\b" | "012" => bytes "\f" | "010" => bytes "\n" | "013" => bytes "\r" | "009" => bytes "\t"
  | _ =>
      if in_range 0 31 c || bool_decide (c ∈ ["<"; ">"; "&"])
      then bytes "\u00" ++ [lower_hex (N_of_ascii c / 16); lower_hex (N_of_ascii c mod 16)]
      else [c]
  end%char.

Fixpoint escape (l : list ascii) : list ascii :=
  match l with
  | [] => []
  | c :: l1 =>
      match rune_size l, l1 with
      | Some 1, _ => escape_ascii c ++ escape l1
      | Some 2, c1 :: l2 => c :: c1 :: escape l2
      | Some 3, c1 :: c2 :: l3 =>
          (if decide ([c; c1; c2] = ["226"; "128"; "168"]%char) then bytes "\u2028"
           else if decide ([c; c1; c2] = ["226"; "128"; "169"]%char) then bytes "\u2029" else [c; c1; c2]) ++ escape l3
      | Some 4, c1 :: c2 :: c3 :: l4 => c :: c1 :: c2 :: c3 :: escape l4
      | _, _ => bytes "\ufffd" ++ escape l1
      end
  end.

Definition quote (s : string) : list ascii := "034"%char :: escape (bytes s) ++ ["034"%char].

(** Items and members separated by commas. *)
Fixpoint commas (l : list (list ascii)) : list ascii :=
  match l with
  | [] => []
  | [x] => x
  | x :: l' => x ++ ","%char :: commas l'
  end.

Fixpoint write (v : json) : list ascii :=
  match v with
  | JsNull => bytes "null"
  | JsBool b => bytes (if b then "true" else "false")
  | JsNum lit => lit
  | JsStr s => quote s
  | JsArr l => "["%char :: commas (write <$> l) ++ ["]"%char]
  | JsObj l => "{"%char :: commas ((λ m, quote m.1 ++ ":"%char :: write m.2) <$> l) ++ ["}"%char]
  end.

(** [strconv.FormatInt(n, 10)] *)
Fixpoint dec_digits (fuel : nat) (n : N) (acc : list ascii) : list ascii :=
  match fuel with
  | O => acc
  | S fuel' =>
      let acc' := ascii_of_N (48 + n mod 10) :: acc in
      if (n <? 10)%N then acc' else dec_digits fuel' (n / 10) acc'
  end.

Definition FormatInt (z : Z) : list ascii :=
  (if (z <? 0)%Z then ["-"%char] else []) ++ dec_digits (S (N.to_nat (N.log2 (Z.abs_N z)))) (Z.abs_N z) [].

(** ** Specification *)

(** One valid rune, and valid UTF-8. *)
Definition is_rune (r : list ascii) : Prop := rune_size r = Some (length r).

Inductive utf8 : list ascii → Prop :=
| utf8_nil : utf8 []
| utf8_rune r l : is_rune r → utf8 l → utf8 (r ++ l).

(** Values that can be written and read back: texts in UTF-8, numbers that are
    integers, and bounded nesting. *)
Inductive writable : N → json → Prop :=
| writable_null d : writable d JsNull
| writable_bool d b : writable d (JsBool b)
| writable_int d z : writable d (JsNum (FormatInt z))
| writable_str d s : utf8 (bytes s) → writable d (JsStr s)
| writable_arr d l : Forall (writable d) l → writable (1 + d) (JsArr l)
| writable_obj d l : Forall (λ m, utf8 (bytes m.1) ∧ writable d m.2) l → writable (1 + d) (JsObj l).

(** ** Lemmas *)

Lemma in_range_spec lo hi c : in_range lo hi c = true ↔ (lo <= N_of_ascii c <= hi)%N.
Proof. unfold in_range. rewrite andb_true_iff, !N.leb_le. done. Qed.

Lemma in_range_false lo hi c : in_range lo hi c = false ↔ ¬ (lo <= N_of_ascii c <= hi)%N.
Proof. rewrite <-in_range_spec. by destruct (in_range lo hi c). Qed.

(** *** Runes *)

(** What is at the front decides. *)
Lemma rune_size_app r l : is_rune r → rune_size (r ++ l) = Some (length r).
Proof.
  unfold is_rune. destruct r as [|c0 [|c1 [|c2 [|c3 [|c4 r]]]]]; cbn [rune_size app length]; [done|..];
    repeat case_match; try done; intros; simplify_eq; try done.
Qed.

(** The shapes of a rune. *)
Lemma is_rune_cases r : is_rune r →
  (∃ c, r = [c] ∧ in_range 0 127 c = true) ∨
  (∃ c0 c1 l, r = c0 :: c1 :: l ∧ (194 <= N_of_ascii c0)%N ∧ (length l <= 2)).
Proof.
  unfold is_rune. destruct r as [|c0 [|c1 l]]; cbn [rune_size length]; [done|..].
  - intros H. left. exists c0. split; [done|]. by repeat case_match.
  - intros H. right. exists c0, c1, l. split; [done|].
    destruct (in_range 0 127 c0); [by injection H|].
    repeat case_match; simplify_eq; rewrite ?andb_true_iff, ?in_range_spec in *; split; try lia;
      injection H as H; rewrite <-?H; simpl; lia.
Qed.

(** Reading back the escape of one rune. *)
Lemma read_escape_ascii c l : in_range 0 127 c = true → read_string (escape_ascii c ++ l) = push [c] (read_string l).
Proof.
  intros Hc. destruct c as [[] [] [] [] [] [] [] []]; try discriminate Hc; reflexivity.
Qed.

(** A rune of several bytes is read as it is. *)
Lemma read_long_rune r l : is_rune r → 1 < length r → read_string (r ++ l) = push r (read_string l).
Proof.
  intros Hr Hlen. destruct (is_rune_cases r Hr) as [(c & -> & _)|(c0 & c1 & t & -> & Hc & Ht)]; [simpl in Hlen; lia|].
  pose proof (rune_size_app _ l Hr) as Hs.
  assert (c0 ≠ "034"%char ∧ c0 ≠ "\"%char ∧ in_range 0 31 c0 = false) as (H1 & H2 & H3).
  { split_and!; [intros ->; by vm_compute in Hc..|]. apply in_range_false. lia. }
  rewrite <-app_comm_cons in *. cbn [read_string]. rewrite decide_False, decide_False, H3, Hs by done.
  destruct t as [|c2 [|c3 [|c4 t]]]; simpl in Ht; [reflexivity..|lia].
Qed.

Lemma escape_rune r : is_rune r →
  ∃ e, (∀ l, escape (r ++ l) = e ++ escape l) ∧ ∀ x, read_string (e ++ x) = push r (read_string x).
Proof.
  intros Hr. pose proof (λ l, rune_size_app r l Hr) as Hs.
  destruct (is_rune_cases r Hr) as [(c & -> & Hc)|(c0 & c1 & t & -> & _ & Ht)].
  - exists (escape_ascii c). split; [|by intros; apply read_escape_ascii]. intros l. specialize (Hs l).
    cbn [app escape] in *. by rewrite Hs.
  - destruct t as [|c2 [|c3 [|c4 t]]]; simpl in Ht; [| | |lia].
    + exists [c0; c1]. split; [|intros x; by apply read_long_rune; [|simpl; lia]]. intros l. specialize (Hs l).
      cbn [app escape] in *. by rewrite Hs.
    + destruct (decide ([c0; c1; c2] = ["226"; "128"; "168"]%char)) as [[= -> -> ->]|H1]; [by exists (bytes "\u2028")|].
      destruct (decide ([c0; c1; c2] = ["226"; "128"; "169"]%char)) as [[= -> -> ->]|H2]; [by exists (bytes "\u2029")|].
      exists [c0; c1; c2]. split; [|intros x; by apply read_long_rune; [|simpl; lia]]. intros l. specialize (Hs l).
      cbn [app escape length] in *. by rewrite Hs, decide_False, decide_False.
    + exists [c0; c1; c2; c3]. split; [|intros x; by apply read_long_rune; [|simpl; lia]]. intros l. specialize (Hs l).
      cbn [app escape] in *. by rewrite Hs.
Qed.

Lemma read_escape l rest : utf8 l → read_string (escape l ++ "034"%char :: rest) = Some (l, rest).
Proof.
  induction 1 as [|r l Hr Hl IH]; [done|]. destruct (escape_rune r Hr) as (e & He & Hread).
  by rewrite He, <-app_assoc, Hread, IH.
Qed.

Lemma ascii_utf8 s : is_ascii s → utf8 (bytes s).
Proof.
  unfold is_ascii. induction (bytes s) as [|c l IH]; intros Hs; [constructor|]. apply Forall_cons in Hs as [Hc Hl].
  apply (utf8_rune [c]); [|by apply IH]. unfold is_rune. cbn [rune_size length].
  by rewrite (proj2 (in_range_spec 0 127 c)) by lia.
Qed.

(** *** Numbers *)

(** What may follow a number. *)
Definition ends_number (l : list ascii) : Prop :=
  match l with [] => True | c :: _ => is_digit c = false ∧ c ∉ ["."; "e"; "E"]%char end.

Lemma take_digits_app ds l : Forall (λ c, is_digit c = true) ds →
  match l with c :: _ => is_digit c = false | [] => True end → take_digits (ds ++ l) = (ds, l).
Proof.
  induction 1 as [|c ds Hc Hds IH]; intros Hl; cbn [app take_digits].
  - destruct l as [|c l]; [done|]. cbn [take_digits]. by rewrite Hl.
  - by rewrite Hc, IH.
Qed.

Lemma is_digit_spec c : is_digit c = true ↔ (48 <= N_of_ascii c <= 57)%N.
Proof. unfold is_digit. rewrite andb_true_iff, !N.leb_le. done. Qed.

Lemma N_of_digit d : (d < 10)%N → N_of_ascii (ascii_of_N (48 + d)) = (48 + d)%N.
Proof. intros Hd. apply N_ascii_embedding. lia. Qed.

(** The digits of a number: none in front is zero, but for zero itself. *)
Lemma dec_digits_spec fuel n acc : (n < 2 ^ N.of_nat fuel)%N → fuel ≠ 0 →
  ∃ ds, dec_digits fuel n acc = ds ++ acc ∧ Forall (λ c, is_digit c = true) ds ∧
    (ds = ["0"%char] ∨ ∃ c t, ds = c :: t ∧ c ≠ "0"%char ∧ is_digit c = true) ∧
    ∀ rest a, parse_digits (ds ++ rest) a = parse_digits rest (a * 10 ^ Z.of_nat (length ds) + Z.of_N n)%Z.
Proof.
  revert n acc. induction fuel as [|fuel IH]; intros n acc Hn Hf; [done|]. cbn [dec_digits].
  pose proof (N.mod_lt n 10 ltac:(done)) as Hmod. pose proof (N.div_mod n 10 ltac:(done)) as Hdm.
  generalize dependent (n mod 10)%N. intros d Hmod Hdm. set (c := ascii_of_N (48 + d)).
  assert (N_of_ascii c = (48 + d)%N) as Hc by (by apply N_of_digit).
  assert (is_digit c = true) as Hd by (apply is_digit_spec; rewrite Hc; lia).
  clearbody c.
  destruct (N.ltb_spec n 10) as [Hlt|Hge].
  - exists [c]. assert (d = n) as -> by (rewrite N.div_small in Hdm by done; lia). split_and!; [done|by repeat constructor| |].
    + destruct (decide (c = "0"%char)) as [->|Hne]; [by left|right; by exists c, []].
    + intros rest a. cbn [app parse_digits length]. rewrite Hd, Hc. f_equal. lia.
  - destruct (IH (n / 10)%N (c :: acc)) as (ds & -> & Hds & Hhead & Hp).
    { replace (N.of_nat (S fuel)) with (1 + N.of_nat fuel)%N in Hn by lia. rewrite N.pow_add_r in Hn.
      change (2 ^ 1)%N with 2%N in Hn. apply N.div_lt_upper_bound; [done|]. lia. }
    { intros ->. simpl in Hn. lia. }
    exists (ds ++ [c]). split_and!; [by rewrite <-app_assoc|by apply Forall_app; split; [|repeat constructor]| |].
    + right. destruct Hhead as [->|(x & t & -> & Hx & Hdx)]; [|by exists x, (t ++ [c])].
      exfalso. pose proof (Hp [] 0%Z) as H0. cbn in H0. injection H0 as H0.
      assert (1 <= n / 10)%N by (apply N.div_le_lower_bound; lia). lia.
    + intros rest a. rewrite <-app_assoc, Hp, length_app. cbn [app parse_digits length]. rewrite Hd, Hc. f_equal.
      rewrite Nat2Z.inj_add, Z.pow_add_r by lia. lia.
Qed.

Lemma FormatInt_spec z :
  ∃ ds, FormatInt z = (if (z <? 0)%Z then ["-"%char] else []) ++ ds ∧ Forall (λ c, is_digit c = true) ds ∧
    (ds = ["0"%char] ∨ ∃ c t, ds = c :: t ∧ c ≠ "0"%char ∧ is_digit c = true) ∧ parse_digits ds 0 = Some (Z.abs z).
Proof.
  unfold FormatInt. destruct (dec_digits_spec (S (N.to_nat (N.log2 (Z.abs_N z)))) (Z.abs_N z) []) as (ds & E & Hds & Hh & Hp).
  - rewrite Nat2N.inj_succ, N2Nat.id. destruct (decide (Z.abs_N z = 0%N)) as [->|Hne]; [done|].
    apply N.log2_spec. lia.
  - done.
  - exists ds. rewrite E, app_nil_r. split_and!; [done..|]. specialize (Hp [] 0%Z). rewrite app_nil_r in Hp.
    rewrite Hp. cbn. f_equal. lia.
Qed.

Lemma read_FormatInt z l : ends_number l → read_number (FormatInt z ++ l) = Some (FormatInt z, l).
Proof.
  intros Hl. destruct (FormatInt_spec z) as (ds & -> & Hds & Hh & _).
  assert (match l with c :: _ => is_digit c = false | [] => True end) as Hstop by (by destruct l; [|apply Hl]).
  assert (read_integer (ds ++ l) = Some (ds, l)) as Hint.
  { destruct Hh as [->|(c & t & -> & Hc & _)]; [done|].
    assert (some_digits ((c :: t) ++ l) = Some (c :: t, l)) as Hs.
    { unfold some_digits. by rewrite take_digits_app. }
    rewrite <-Hs. destruct c as [[] [] [] [] [] [] [] []]; try reflexivity. by destruct Hc. }
  assert (read_fraction l = Some ([], l) ∧ read_exponent l = Some ([], l)) as Hf.
  { destruct l as [|c l]; [done|]. destruct Hl as [_ Hc].
    destruct c as [[] [] [] [] [] [] [] []]; try (split; reflexivity); exfalso; apply Hc; set_solver. }
  assert (∀ A (f : list ascii → A) g, match ds ++ l with "-"%char :: l' => f l' | _ => g end = g) as Hsign.
  { intros A f g. destruct Hh as [->|(c & t & -> & _ & Hd)]; [done|].
    destruct c as [[] [] [] [] [] [] [] []]; try reflexivity; discriminate Hd. }
  destruct Hf as [Hf He]. unfold read_number. destruct (z <? 0)%Z; cbn [app]; cbv zeta beta iota.
  - rewrite Hint. cbn [mbind option_bind]. rewrite Hf. cbn [mbind option_bind]. rewrite He. cbn [mbind option_bind app].
    by rewrite !app_nil_r.
  - rewrite Hsign, Hint. cbn [mbind option_bind]. rewrite Hf. cbn [mbind option_bind]. rewrite He.
    cbn [mbind option_bind app]. by rewrite !app_nil_r.
Qed.

Lemma Atoi_FormatInt z : in_int64 z → Atoi (of_bytes (FormatInt z)) = Some z.
Proof.
  intros Hz. destruct (FormatInt_spec z) as (ds & -> & Hds & Hh & Hp). unfold Atoi. rewrite bytes_of_bytes.
  assert (ds ≠ []) as Hne by (by destruct Hh as [->|(c & t & -> & _)]).
  destruct (Z.ltb_spec z 0) as [Hneg|Hpos]; cbn [app].
  - rewrite decide_False by done. rewrite Hp. cbn [mbind option_bind]. cbv zeta.
    replace (- Z.abs z)%Z with z by lia. by rewrite (proj2 (in_int64b_spec z)).
  - assert (∃ c t, ds = c :: t ∧ is_digit c = true) as (c & t & -> & Hd).
    { destruct Hh as [->|(c & t & -> & _ & Hd)]; eauto. }
    replace (Z.abs z) with z in Hp by lia. pose proof (proj2 (in_int64b_spec z) Hz) as Hb.
    destruct c as [[] [] [] [] [] [] [] []]; try discriminate Hd;
      rewrite decide_False by done; rewrite Hp; cbn; by rewrite Hb.
Qed.

(** *** The fuel is enough *)

Lemma skip_space_length l : length (skip_space l) <= length l.
Proof. induction l as [|c l IH]; cbn [skip_space]; [done|]. case_match; simpl; lia. Qed.

Lemma push_Some r x s rest : push r x = Some (s, rest) → ∃ s', x = Some (s', rest).
Proof. unfold push. intros ([s' r'] & -> & [= _ <-])%bind_Some. by exists s'. Qed.

Lemma read_string_length l s r : read_string l = Some (s, r) → length r < length l.
Proof.
  remember (length l) as n eqn:En. revert l s r En.
  induction n as [n IH] using lt_wf_ind. intros l s r -> Hr.
  destruct l as [|c l1]; [done|]. cbn [read_string] in Hr.
  repeat (case_match; try done); simplify_eq; try (simpl; lia);
    apply push_Some in Hr as [s' Hr]; (eapply IH in Hr; [|idtac|reflexivity]); simpl in *; lia.
Qed.

Lemma take_digits_length l ds r : take_digits l = (ds, r) → length r <= length l ∧ (ds ≠ [] → length r < length l).
Proof.
  revert ds r. induction l as [|c l IH]; intros ds r; cbn [take_digits]; [by intros [= <- <-]|].
  case_match; [|by intros [= <- <-]]. destruct (take_digits l) as [ds' r'] eqn:E.
  intros [= <- <-]. destruct (IH _ _ eq_refl). simpl. split; [lia|]. lia.
Qed.

Lemma some_digits_length l ds r : some_digits l = Some (ds, r) → length r < length l.
Proof.
  unfold some_digits. destruct (take_digits l) as [ds' r'] eqn:E. case_decide; [done|]. intros [= -> ->].
  by apply (take_digits_length _ _ _ E).
Qed.

Lemma read_integer_length l ds r : read_integer l = Some (ds, r) → length r < length l.
Proof.
  unfold read_integer. intros Hr. repeat case_match; simplify_eq; try (by apply some_digits_length in Hr). simpl. lia.
Qed.

Lemma read_fraction_length l ds r : read_fraction l = Some (ds, r) → length r <= length l.
Proof.
  unfold read_fraction. intros Hr. repeat case_match; simplify_eq; try done.
  apply push_Some in Hr as [s' Hr]. apply some_digits_length in Hr. simpl. lia.
Qed.

Lemma read_exponent_length l ds r : read_exponent l = Some (ds, r) → length r <= length l.
Proof.
  unfold read_exponent. intros Hr. repeat case_match; simplify_eq; try done;
    apply push_Some in Hr as [s' Hr]; apply some_digits_length in Hr; simpl in *; lia.
Qed.

Lemma read_number_length l lit r : read_number l = Some (lit, r) → length r < length l.
Proof.
  unfold read_number. destruct (match l with [] => _ | _ => _ end) as [sign l1] eqn:E.
  assert (length l1 <= length l) as Hl1 by (repeat case_match; simplify_eq; simpl; lia).
  intros ([i l2] & Hi & ([f l3] & Hf & ([e l4] & He & [= _ <-])%bind_Some)%bind_Some)%bind_Some.
  apply read_integer_length in Hi. apply read_fraction_length in Hf. apply read_exponent_length in He. lia.
Qed.

Lemma read_literal_length word l r : read_literal word l = Some r → length r <= length l.
Proof.
  revert l. induction word as [|c word IH]; intros l; cbn [read_literal]; [by intros [= ->]|].
  destruct l as [|c' l]; [done|]. case_decide; [|done]. intros Hr%IH. simpl. lia.
Qed.

Lemma eat_length c l r : eat c l = Some r → length r < length l.
Proof.
  unfold eat. pose proof (skip_space_length l). destruct (skip_space l) as [|c' l']; [done|].
  case_decide; [|done]. intros [= <-]. simpl in *. lia.
Qed.

(** Every reader consumes something. *)
Lemma read_shorter n :
  (∀ d l v r, read_value n d l = Some (v, r) → length r < length l) ∧
  (∀ d l v r, read_elements n d l = Some (v, r) → length r < length l) ∧
  (∀ d l v r, read_members n d l = Some (v, r) → length r < length l).
Proof.
  induction n as [|n (IHv & IHe & IHm)]; [done|]. split_and!; intros d l v r Hr.
  - cbn [read_value] in Hr. pose proof (skip_space_length l) as Hsp. destruct (skip_space l) as [|c l1]; [done|].
    simpl in Hsp. destruct (kind_of c).
    + apply bind_Some in Hr as ([s r'] & Hs%read_string_length & [= _ <-]). lia.
    + case_match; [done|]. destruct (eat _ _) as [r'|] eqn:E.
      * apply eat_length in E. injection Hr as _ <-. lia.
      * apply bind_Some in Hr as ([x r'] & Hx%IHe & [= _ <-]). lia.
    + case_match; [done|]. destruct (eat _ _) as [r'|] eqn:E.
      * apply eat_length in E. injection Hr as _ <-. lia.
      * apply bind_Some in Hr as ([x r'] & Hx%IHm & [= _ <-]). lia.
    + apply bind_Some in Hr as (r' & Hx%read_literal_length & [= _ <-]). lia.
    + apply bind_Some in Hr as (r' & Hx%read_literal_length & [= _ <-]). lia.
    + apply bind_Some in Hr as (r' & Hx%read_literal_length & [= _ <-]). lia.
    + apply bind_Some in Hr as ([x r'] & Hx%read_number_length & [= _ <-]). simpl in Hx. lia.
  - cbn [read_elements] in Hr. apply bind_Some in Hr as ([v1 r1] & Hv%IHv & Hr).
    destruct (eat "," r1) as [r2|] eqn:E.
    + apply eat_length in E. apply bind_Some in Hr as ([vs r3] & He%IHe & [= _ <-]). lia.
    + apply bind_Some in Hr as (r2 & He%eat_length & [= _ <-]). lia.
  - cbn [read_members] in Hr. apply bind_Some in Hr as (l1 & Hq%eat_length & Hr).
    apply bind_Some in Hr as ([k l2] & Hk%read_string_length & Hr). apply bind_Some in Hr as (l3 & Hc%eat_length & Hr).
    apply bind_Some in Hr as ([v1 r1] & Hv%IHv & Hr). destruct (eat "," r1) as [r2|] eqn:E.
    + apply eat_length in E. apply bind_Some in Hr as ([vs r3] & He%IHm & [= _ <-]). lia.
    + apply bind_Some in Hr as (r2 & He%eat_length & [= _ <-]). lia.
Qed.

(** Twice the length of the text, and one, is fuel enough: more changes nothing. *)
Lemma read_fuel n :
  (∀ m d l, 2 * length l < n → n <= m → read_value m d l = read_value n d l) ∧
  (∀ m d l, S (2 * length l) < n → n <= m → read_elements m d l = read_elements n d l) ∧
  (∀ m d l, 2 * length l < n → n <= m → read_members m d l = read_members n d l).
Proof.
  induction n as [|n (IHv & IHe & IHm)]; [split_and!; lia|].
  split_and!; intros m d l Hl Hm; destruct m as [|m]; try lia; apply le_S_n in Hm.
  - cbn [read_value]. pose proof (skip_space_length l) as Hsp. destruct (skip_space l) as [|c l1]; [done|]. simpl in Hsp.
    rewrite (IHe m), (IHm m) by lia. done.
  - cbn [read_elements]. rewrite (IHv m) by lia. destruct (read_value n d l) as [[v r]|] eqn:E; [|done].
    apply read_shorter in E. cbn [mbind option_bind]. destruct (eat "," r) as [r1|] eqn:Ee; [|done].
    apply eat_length in Ee. by rewrite (IHe m) by lia.
  - cbn [read_members]. destruct (eat _ l) as [l1|] eqn:E1; [|done]. apply eat_length in E1. cbn [mbind option_bind].
    destruct (read_string l1) as [[k l2]|] eqn:E2; [|done]. apply read_string_length in E2. cbn [mbind option_bind].
    destruct (eat ":" l2) as [l3|] eqn:E3; [|done]. apply eat_length in E3. cbn [mbind option_bind].
    rewrite (IHv m) by lia. destruct (read_value n d l3) as [[v r]|] eqn:E; [|done].
    apply read_shorter in E. cbn [mbind option_bind]. destruct (eat "," r) as [r1|] eqn:Ee; [|done].
    apply eat_length in Ee. by rewrite (IHm m) by lia.
Qed.

(** *** What was written is read back *)

(** Induction through the lists. *)
Lemma json_ind' (P : json → Prop) :
  P JsNull → (∀ b, P (JsBool b)) → (∀ lit, P (JsNum lit)) → (∀ s, P (JsStr s)) →
  (∀ l, Forall P l → P (JsArr l)) → (∀ l, Forall (λ m, P m.2) l → P (JsObj l)) → ∀ v, P v.
Proof.
  intros Hn Hb Hnum Hs Ha Ho. fix IH 1. intros [|b|lit|s|l|l]; [done|done|done|done| |].
  - apply Ha. induction l as [|v l IHl]; constructor; [apply IH|done].
  - apply Ho. induction l as [|[k v] l IHl]; constructor; [apply IH|done].
Qed.

Lemma eat_here c l : is_space c = false → eat c (c :: l) = Some l.
Proof. intros Hc. unfold eat. cbn [skip_space]. rewrite Hc. by rewrite decide_True. Qed.

Lemma eat_other c c' l : is_space c' = false → c' ≠ c → eat c (c' :: l) = None.
Proof. intros Hc Hne. unfold eat. cbn [skip_space]. rewrite Hc. by rewrite decide_False. Qed.

(** What [write] starts with is not white space, nor the end of a list. *)
Lemma write_head d v : writable d v → ∃ c l, write v = c :: l ∧ is_space c = false ∧ c ≠ "]"%char.
Proof.
  destruct 1 as [d|d [|]|d z|d s|d l|d l]; cbn [write bytes]; try (by eexists _, _; split_and!).
  destruct (FormatInt_spec z) as (ds & -> & _ & Hh & _). destruct (z <? 0)%Z; [by eexists _, _; split_and!|].
  cbn [app]. destruct Hh as [->|(c & t & -> & _ & Hd)]; [by eexists _, _; split_and!|].
  exists c, t. split_and!; [done| |by intros ->].
  by destruct c as [[] [] [] [] [] [] [] []]; try discriminate Hd.
Qed.

Lemma kind_FormatInt z l : ∃ c t, FormatInt z ++ l = c :: t ∧ is_space c = false ∧ kind_of c = KNumber.
Proof.
  destruct (FormatInt_spec z) as (ds & -> & _ & Hh & _). destruct (z <? 0)%Z; [by eexists _, _; split_and!|].
  cbn [app]. destruct Hh as [->|(c & t & -> & _ & Hd)]; [by eexists _, _; split_and!|].
  exists c, (t ++ l). split; [done|]. by destruct c as [[] [] [] [] [] [] [] []]; try discriminate Hd.
Qed.

(** What may follow a value: only a number can be continued. *)
Definition follows (v : json) (l : list ascii) : Prop :=
  match v with JsNum _ => ends_number l | _ => True end.

Lemma ends_follows v l : ends_number l → follows v l.
Proof. by destruct v. Qed.

(** [v] is read from its text, whatever may follow. *)
Definition reads_back (d : N) (v : json) : Prop :=
  ∀ D l, (d <= D)%N → follows v l → ∃ n, ∀ m, n <= m → read_value m D (write v ++ l) = Some (v, l).

Lemma commas_cons x y l : commas (x :: y :: l) = x ++ ","%char :: commas (y :: l).
Proof. reflexivity. Qed.

Lemma reads_elements d l D r :
  Forall (reads_back d) l → l ≠ [] → (d <= D)%N →
  ∃ n, ∀ m, n <= m → read_elements m D (commas (write <$> l) ++ "]"%char :: r) = Some (l, r).
Proof.
  intros Hl Hne HD. induction Hl as [|v l Hv Hl IH]; [done|]. destruct l as [|v' l].
  - destruct (Hv D ("]"%char :: r) HD) as [n Hn]; [by apply ends_follows; split; [|set_solver]|]. exists (S n). intros [|m] Hm; [lia|].
    cbn [read_elements fmap list_fmap commas]. rewrite Hn by lia. cbn [mbind option_bind].
    by rewrite eat_other, eat_here by done.
  - destruct (IH ltac:(done)) as [n1 H1].
    destruct (Hv D (","%char :: commas (write <$> v' :: l) ++ "]"%char :: r) HD) as [n2 H2];
      [by apply ends_follows; split; [|set_solver]|].
    exists (S (n1 + n2)). intros [|m] Hm; [lia|]. cbn [read_elements fmap list_fmap].
    change (write <$> v' :: l) with (write v' :: (write <$> l)) in *.
    change (list_fmap _ _ write l) with (write <$> l).
    rewrite commas_cons, <-app_assoc, <-app_comm_cons, H2 by lia. cbn [mbind option_bind].
    rewrite eat_here by done. rewrite H1 by lia. done.
Qed.

Definition write_member (m : string * json) : list ascii := quote m.1 ++ ":"%char :: write m.2.

Lemma read_quote s rest : utf8 (bytes s) → read_string (escape (bytes s) ++ "034"%char :: rest) = Some (bytes s, rest).
Proof. apply read_escape. Qed.

Lemma reads_members d l D r :
  Forall (λ m, utf8 (bytes m.1) ∧ reads_back d m.2) l → l ≠ [] → (d <= D)%N →
  ∃ n, ∀ m, n <= m → read_members m D (commas (write_member <$> l) ++ "}"%char :: r) = Some (l, r).
Proof.
  intros Hl Hne HD. induction Hl as [|[k v] l [Hk Hv] Hl IH]; [done|]. cbn [fst snd] in *.
  assert (∀ m rest w, read_value m D (write v ++ rest) = Some (v, rest) → rest = w →
    read_members (S m) D (write_member (k, v) ++ rest) =
    match eat "," w with
    | Some r1 => '(ms, r2) ← read_members m D r1; Some ((k, v) :: ms, r2)
    | None => r1 ← eat "}" w; Some ([(k, v)], r1)
    end) as Hstep.
  { intros m rest w Hval <-. unfold write_member, quote. cbn [fst snd].
    rewrite <-app_assoc, <-app_comm_cons, <-app_assoc. cbn [read_members app].
    rewrite eat_here by done. cbn [mbind option_bind]. rewrite read_quote by done. cbn [mbind option_bind].
    rewrite eat_here by done. cbn [mbind option_bind]. rewrite Hval. cbn [mbind option_bind].
    by rewrite of_bytes_bytes. }
  destruct l as [|m' l].
  - destruct (Hv D ("}"%char :: r) HD) as [n Hn]; [by apply ends_follows; split; [|set_solver]|]. exists (S n). intros [|m] Hm; [lia|].
    change (commas (write_member <$> [(k, v)])) with (write_member (k, v)).
    rewrite (Hstep m _ _ (Hn m ltac:(lia)) eq_refl). by rewrite eat_other, eat_here by done.
  - destruct (IH ltac:(done)) as [n1 H1].
    destruct (Hv D (","%char :: commas (write_member <$> m' :: l) ++ "}"%char :: r) HD) as [n2 H2];
      [by apply ends_follows; split; [|set_solver]|].
    exists (S (n1 + n2)). intros [|m] Hm; [lia|].
    change (write_member <$> (k, v) :: m' :: l) with (write_member (k, v) :: write_member m' :: (write_member <$> l)).
    rewrite commas_cons, <-app_assoc, <-app_comm_cons.
    change (write_member m' :: (write_member <$> l)) with (write_member <$> m' :: l).
    rewrite (Hstep m _ _ (H2 m ltac:(lia)) eq_refl), eat_here by done. by rewrite H1 by lia.
Qed.

Lemma commas_head x l : ∃ t, commas (x :: l) = x ++ t.
Proof. destruct l as [|y l]; [by exists []; rewrite app_nil_r|by eexists]. Qed.

(** The text of a value is read as the value. *)
Lemma writable_reads_back v : ∀ d, writable d v → reads_back d v.
Proof.
  induction v as [|b|lit|s|l IH|l IH] using json_ind'; intros d Hw D r HD Hr; inversion Hw; subst; cbn [write].
  - exists 1. by intros [|m] Hm; [lia|].
  - exists 1. intros [|m] Hm; [lia|]. by destruct b.
  - exists 1. intros [|m] Hm; [lia|]. destruct (kind_FormatInt z r) as (c & t & E & Hc & Hk).
    pose proof (read_FormatInt z r Hr) as Hread. rewrite E in *. cbn [read_value skip_space]. rewrite Hc, Hk.
    by rewrite Hread.
  - exists 1. intros [|m] Hm; [lia|]. unfold quote. rewrite <-app_comm_cons, <-app_assoc. cbn [read_value skip_space app].
    change (is_space "034") with false. cbn [kind_of]. rewrite read_quote by done. cbn [mbind option_bind].
    by rewrite of_bytes_bytes.
  - destruct l as [|v l].
    + exists 1. intros [|m] Hm; [lia|]. cbn. by rewrite (proj2 (N.eqb_neq D 0)) by lia.
    + assert (Forall (reads_back d0) (v :: l)) as Hl.
      { eapply Forall_impl; [apply Forall_and; split; [exact IH|eassumption]|]. intros x [Hx Hwx]. by apply Hx. }
      destruct (reads_elements d0 (v :: l) (D - 1) r Hl) as [n Hn]; [done|lia|].
      exists (S n). intros [|m] Hm; [lia|]. rewrite <-app_comm_cons, <-app_assoc. cbn [read_value skip_space app].
      change (is_space "[") with false. cbn [kind_of]. rewrite (proj2 (N.eqb_neq D 0)) by lia.
      destruct (write_head d0 v) as (c & t & E & Hc & Hne); [by eapply Forall_inv|].
      destruct (commas_head (write v) (write <$> l)) as [t' Et].
      assert (eat "]" (commas (write <$> v :: l) ++ "]"%char :: r) = None) as ->.
      { change (write <$> v :: l) with (write v :: (write <$> l)). rewrite Et, E. by apply eat_other. }
      by rewrite Hn by lia.
  - destruct l as [|[k v] l].
    + exists 1. intros [|m] Hm; [lia|]. cbn. by rewrite (proj2 (N.eqb_neq D 0)) by lia.
    + assert (Forall (λ m, utf8 (bytes m.1) ∧ reads_back d0 m.2) ((k, v) :: l)) as Hl.
      { eapply Forall_impl; [apply Forall_and; split; [exact IH|eassumption]|]. intros x [Hx [Hk Hwx]].
        split; [done|by apply Hx]. }
      destruct (reads_members d0 ((k, v) :: l) (D - 1) r Hl) as [n Hn]; [done|lia|].
      exists (S n). intros [|m] Hm; [lia|]. rewrite <-app_comm_cons, <-app_assoc. cbn [read_value skip_space app].
      change (is_space "{") with false. cbn [kind_of]. rewrite (proj2 (N.eqb_neq D 0)) by lia.
      destruct (commas_head (write_member (k, v)) (write_member <$> l)) as [t' Et].
      change ((λ m, quote m.1 ++ ":"%char :: write m.2) <$> (k, v) :: l) with (write_member <$> (k, v) :: l).
      assert (eat "}" (commas (write_member <$> (k, v) :: l) ++ "}"%char :: r) = None) as ->.
      { change (write_member <$> (k, v) :: l) with (write_member (k, v) :: (write_member <$> l)). rewrite Et.
        by apply (eat_other "}"%char "034"%char). }
      by rewrite Hn by lia.
Qed.

(** A text that [json.Marshal] wrote is read back, whatever follows it, unless it
    is a number that goes on. *)
Lemma read_write d v rest : writable d v → (d <= max_depth)%N → follows v (bytes rest) →
  read_json (of_bytes (write v) +:+ rest) = Some v.
Proof.
  intros Hw Hd Hr. destruct (writable_reads_back v d Hw max_depth (bytes rest) Hd Hr) as [n Hn].
  unfold read_json. rewrite bytes_app, bytes_of_bytes.
  set (l := write v ++ bytes rest) in *. set (f := S (2 * String.length _)).
  assert (2 * length l < f) as Hf.
  { subst f l. rewrite string_length_app, length_of_bytes, length_app, length_bytes. lia. }
  pose proof (proj1 (read_fuel f) (n + f) max_depth l Hf ltac:(lia)) as E. rewrite <-E. by rewrite Hn by lia.
Qed.

Lemma read_written d v : writable d v → (d <= max_depth)%N → read_json (of_bytes (write v)) = Some v.
Proof.
  intros Hw Hd. rewrite <-(read_write d v EmptyString Hw Hd) by by destruct v. f_equal. apply bytes_inj.
  by rewrite bytes_app, app_nil_r.
Qed.
