(* ===== verification/PubSub.v ===== *)
(** * internal/pubsub: the event hub (hub.go)

    The hub's channels are an explicit heap of buffered channels; [subs] is the
    set of channel identities in the Go map.  Operations that would panic in Go
    (a send on a closed channel, closing twice) return [None].  Each operation
    holds the mutex for its whole body, so a run of the hub is a sequence of
    operations. *)

From S2P Require Import Prelude Domain.

Module PubSub.

Notation EventType := string (only parsing).
Definition EventBlacklistViolation : EventType := "blacklist_violation".
Definition EventLinkTerminated : EventType := "link_terminated".

Record Event := mkEvent {
  Event_Type : EventType;
  Event_LinkID : UUID;
  Event_Message : string;
  Event_OccurredAt : GoTime }.

(** ** Channels *)

(** A buffered [chan Event]. *)
Record Chan := mkChan { chan_buf : list Event; chan_closed : bool }.

(** Capacity given to [make] in [Subscribe]. *)
Definition chan_cap : nat := 32.

(** [select { case ch <- e: default: }]: [None] is the panic of a send on a
    closed channel. *)
Definition chan_try_send (c : Chan) (e : Event) : option Chan :=
  if chan_closed c then None
  else if decide (length (chan_buf c) < chan_cap)
  then Some (mkChan (chan_buf c ++ [e]) false)
  else Some c.

(** [close(ch)]: [None] is the panic of closing a closed channel. *)
Definition chan_close (c : Chan) : option Chan :=
  if chan_closed c then None else Some (mkChan (chan_buf c) true).

Inductive recv_result : Type :=
| Received (e : Event)
| Closed
| WouldBlock.

Definition chan_recv (c : Chan) : recv_result * Chan :=
  match chan_buf c with
  | e :: b => (Received e, mkChan b (chan_closed c))
  | [] => (if chan_closed c then Closed else WouldBlock, c)
  end.

(** ** The hub *)

Record Hub := mkHub {
  hub_heap : gmap nat Chan;
  hub_subs : gset nat;
  hub_next : nat }.

Definition NewHub : Hub := mkHub ∅ ∅ 0.

Definition Subscribe (h : Hub) : nat * Hub :=
  (hub_next h,
   mkHub (<[hub_next h := mkChan [] false]> (hub_heap h))
         ({[hub_next h]} ∪ hub_subs h) (S (hub_next h))).

(** The [cancel] closure [Subscribe] returns for channel [id]. *)
Definition cancel (id : nat) (h : Hub) : option Hub :=
  if decide (id ∈ hub_subs h) then
    c ← hub_heap h !! id;
    c' ← chan_close c;
    Some (mkHub (<[id := c']> (hub_heap h)) (hub_subs h ∖ {[id]}) (hub_next h))
  else Some h.

(** The loop of [Publish] over the subscribed channels [ids]. *)
Fixpoint publish_loop (e : Event) (ids : list nat) (heap : gmap nat Chan) : option (gmap nat Chan) :=
  match ids with
  | [] => Some heap
  | id :: ids' =>
      c ← heap !! id;
      c' ← chan_try_send c e;
      publish_loop e ids' (<[id := c']> heap)
  end.

Definition Publish (e : Event) (h : Hub) : option Hub :=
  heap ← publish_loop e (elements (hub_subs h)) (hub_heap h);
  Some (mkHub heap (hub_subs h) (hub_next h)).

(** A receive by the holder of channel [id]. *)
Definition receive (id : nat) (h : Hub) : option (recv_result * Hub) :=
  c ← hub_heap h !! id;
  let '(r, c') := chan_recv c in
  Some (r, mkHub (<[id := c']> (hub_heap h)) (hub_subs h) (hub_next h)).

(** ** Runs *)

Inductive action : Type :=
| ASubscribe
| ACancel (id : nat)
| APublish (e : Event)
| AReceive (id : nat).

(** What an action shows: the event a receive took from a channel. *)
Definition hub_step (a : action) (h : Hub) : option (Hub * option (nat * Event)) :=
  match a with
  | ASubscribe => Some ((Subscribe h).2, None)
  | ACancel id => h' ← cancel id h; Some (h', None)
  | APublish e => h' ← Publish e h; Some (h', None)
  | AReceive id =>
      if decide (id < hub_next h) then
        '(r, h') ← receive id h;
        Some (h', match r with Received e => Some (id, e) | _ => None end)
      else Some (h, None)
  end.

(** Run of a sequence of operations, with the receives in order. *)
Fixpoint hub_run (l : list action) (h : Hub) : option (Hub * list (nat * Event)) :=
  match l with
  | [] => Some (h, [])
  | a :: l' =>
      '(h1, o) ← hub_step a h;
      '(h2, tr) ← hub_run l' h1;
      Some (h2, match o with Some x => x :: tr | None => tr end)
  end.

(** Events published by a sequence of operations. *)
Definition published (l : list action) : list Event :=
  omap (λ a, match a with APublish e => Some e | _ => None end) l.

Definition received_by (id : nat) (tr : list (nat * Event)) : list Event :=
  omap (λ x : nat * Event, if decide (x.1 = id) then Some x.2 else None) tr.

(** Events waiting in channel [id]. *)
Definition buffered (h : Hub) (id : nat) : list Event :=
  default [] (chan_buf <$> hub_heap h !! id).

(** Well-formed hubs: subscribed channels are allocated, open and within
    capacity; identities are below [hub_next]. *)
Record hub_wf (h : Hub) : Prop := {
  wf_subs : ∀ id, id ∈ hub_subs h → ∃ c, hub_heap h !! id = Some c ∧ chan_closed c = false;
  wf_cap : ∀ id c, hub_heap h !! id = Some c → length (chan_buf c) ≤ chan_cap;
  wf_next : ∀ id, is_Some (hub_heap h !! id) ↔ id < hub_next h }.

(** ** Lemmas *)

Lemma chan_try_send_open c e :
  chan_closed c = false → ∃ c', chan_try_send c e = Some c' ∧ chan_closed c' = false ∧
    (length (chan_buf c) ≤ chan_cap → length (chan_buf c') ≤ chan_cap) ∧
    chan_buf c' = chan_buf c ++ (if decide (length (chan_buf c) < chan_cap) then [e] else []).
Proof.
  intros Ho. unfold chan_try_send. rewrite Ho. case_decide as Hl; eexists; (split; [done|]).
  - simpl. rewrite length_app. simpl. repeat split; lia.
  - by rewrite app_nil_r.
Qed.

Lemma publish_loop_spec e ids heap :
  NoDup ids →
  (∀ id, id ∈ ids → ∃ c, heap !! id = Some c ∧ chan_closed c = false) →
  ∃ heap', publish_loop e ids heap = Some heap' ∧
    (∀ id, id ∉ ids → heap' !! id = heap !! id) ∧
    (∀ id c, id ∈ ids → heap !! id = Some c → heap' !! id = chan_try_send c e).
Proof.
  intros Hnd. revert heap. induction Hnd as [|id ids Hid Hnd IH]; intros heap Hopen.
  - exists heap. split; [done|]. split; [done|]. intros ? ? []%not_elem_of_nil.
  - destruct (Hopen id) as (c & Hc & Ho); [left|].
    destruct (chan_try_send_open c e Ho) as (c' & Hs & Ho' & _).
    destruct (IH (<[id := c']> heap)) as (heap' & Hrun & Hout & Hin).
    { intros id' Hid'. destruct (decide (id = id')) as [->|Hne]; [done|].
      rewrite lookup_insert_ne by done. apply Hopen. by right. }
    exists heap'. cbn. rewrite Hc. cbn. rewrite Hs. cbn. split; [done|]. split.
    + intros id' [Hne Hn]%not_elem_of_cons. rewrite Hout by done. by rewrite lookup_insert_ne.
    + intros id' c0 [->|Hid']%elem_of_cons Hc0.
      * rewrite Hout by done. rewrite lookup_insert_eq. by simplify_eq.
      * apply Hin; [done|]. by rewrite lookup_insert_ne by set_solver.
Qed.

Lemma Publish_spec e h :
  hub_wf h → ∃ h', Publish e h = Some h' ∧ hub_subs h' = hub_subs h ∧ hub_next h' = hub_next h ∧
    (∀ id, id ∉ hub_subs h → hub_heap h' !! id = hub_heap h !! id) ∧
    (∀ id c, id ∈ hub_subs h → hub_heap h !! id = Some c →
             hub_heap h' !! id = chan_try_send c e).
Proof.
  intros Hwf. destruct (publish_loop_spec e (elements (hub_subs h)) (hub_heap h))
    as (heap' & Hrun & Hout & Hin).
  - apply NoDup_elements.
  - intros id Hid%elem_of_elements. by apply Hwf.
  - eexists. unfold Publish. rewrite Hrun. split; [done|]. simpl. repeat split; try done.
    + intros id Hid. apply Hout. by rewrite elem_of_elements.
    + intros id c Hid. apply Hin. by rewrite elem_of_elements.
Qed.

Lemma hub_wf_new : hub_wf NewHub.
Proof. split; simpl; [set_solver|by intros ? ?; rewrite lookup_empty|]. intros id. rewrite lookup_empty. split; [by intros []|lia]. Qed.

Lemma hub_wf_insert h id c c' (subs : gset nat) :
  hub_wf h → hub_heap h !! id = Some c → length (chan_buf c') ≤ chan_cap →
  subs ⊆ hub_subs h → (id ∈ subs → chan_closed c' = false) →
  hub_wf (mkHub (<[id := c']> (hub_heap h)) subs (hub_next h)).
Proof.
  intros [Hs Hc Hn] Hid Hlen Hsub Hop. split; simpl.
  - intros i Hi. destruct (decide (id = i)) as [->|Hne].
    + rewrite lookup_insert_eq. eauto.
    + rewrite lookup_insert_ne by done. apply Hs. set_solver.
  - intros i d. destruct (decide (id = i)) as [->|Hne].
    + rewrite lookup_insert_eq. intros; by simplify_eq.
    + rewrite lookup_insert_ne by done. apply Hc.
  - intros i. destruct (decide (id = i)) as [->|Hne].
    + rewrite lookup_insert_eq, <-Hn, Hid. split; eauto.
    + by rewrite lookup_insert_ne.
Qed.

Lemma Subscribe_wf h : hub_wf h → hub_wf (Subscribe h).2.
Proof.
  intros [Hs Hc Hn]. split; simpl.
  - intros id Hid. destruct (decide (hub_next h = id)) as [<-|Hne].
    + rewrite lookup_insert_eq. eauto.
    + rewrite lookup_insert_ne by done. apply Hs. set_solver.
  - intros id c. destruct (decide (hub_next h = id)) as [<-|Hne].
    + rewrite lookup_insert_eq. intros; simplify_eq. simpl. unfold chan_cap. lia.
    + rewrite lookup_insert_ne by done. apply Hc.
  - intros id. destruct (decide (hub_next h = id)) as [<-|Hne].
    + rewrite lookup_insert_eq. split; [lia|eauto].
    + rewrite lookup_insert_ne, Hn by done. lia.
Qed.

Lemma Publish_wf e h h' : hub_wf h → Publish e h = Some h' → hub_wf h'.
Proof.
  intros Hwf HP. destruct (Publish_spec e h Hwf) as (h'' & HP' & Hsubs & Hnext & Hout & Hin).
  simplify_eq. destruct Hwf as [Hs Hc Hn].
  assert (∀ id c', hub_heap h' !! id = Some c' → ∃ c, hub_heap h !! id = Some c ∧
     (c' = c ∨ (id ∈ hub_subs h ∧ chan_try_send c e = Some c'))) as Hback.
  { intros id c' Hc'. destruct (decide (id ∈ hub_subs h)) as [Hid|Hid].
    - destruct (Hs id Hid) as (c & Hl & Ho). rewrite (Hin _ _ Hid Hl) in Hc'. eauto.
    - rewrite Hout in Hc' by done. eauto. }
  split.
  - rewrite Hsubs. intros id Hid. destruct (Hs id Hid) as (c & Hl & Ho).
    rewrite (Hin _ _ Hid Hl). destruct (chan_try_send_open c e Ho) as (c' & ? & ? & _). eauto.
  - intros id c' Hc'. destruct (Hback _ _ Hc') as (c & Hl & [->|[Hid Hsend]]); [eauto|].
    destruct (Hs id Hid) as (c0 & Hl0 & Ho). simplify_eq.
    destruct (chan_try_send_open c e Ho) as (c'' & Hs'' & _ & Hlen & _). simplify_eq. eauto.
  - intros id. rewrite Hnext, <-Hn. destruct (decide (id ∈ hub_subs h)) as [Hid|Hid].
    + destruct (Hs id Hid) as (c & Hl & Ho). rewrite (Hin _ _ Hid Hl), Hl.
      destruct (chan_try_send_open c e Ho) as (c' & -> & _). split; eauto.
    + by rewrite Hout.
Qed.

Lemma cancel_spec id h : hub_wf h → ∃ h', cancel id h = Some h' ∧ hub_wf h' ∧ id ∉ hub_subs h' ∧
  (∀ i, buffered h' i = buffered h i) ∧ hub_next h' = hub_next h.
Proof.
  intros Hwf. unfold cancel. case_decide as Hid; [|by exists h; split_and!].
  destruct (wf_subs _ Hwf id Hid) as (c & Hc & Ho). rewrite Hc. cbn.
  unfold chan_close. rewrite Ho. cbn. eexists. split; [done|]. split; [|split; [|split]]; simpl.
  - eapply hub_wf_insert; eauto; simpl; [by eapply wf_cap|set_solver..].
  - set_solver.
  - intros i. unfold buffered. simpl. destruct (decide (id = i)) as [->|Hne].
    + by rewrite lookup_insert_eq, Hc.
    + by rewrite lookup_insert_ne.
  - done.
Qed.

Lemma receive_spec id h :
  hub_wf h → id < hub_next h →
  ∃ r h', receive id h = Some (r, h') ∧ hub_wf h' ∧ hub_subs h' = hub_subs h ∧
    hub_next h' = hub_next h ∧ (∀ i, i ≠ id → buffered h' i = buffered h i) ∧
    buffered h id = (match r with Received e => [e] | _ => [] end) ++ buffered h' id.
Proof.
  intros Hwf Hid. destruct (proj2 (wf_next _ Hwf id) Hid) as [c Hc]. unfold receive. rewrite Hc. cbn.
  destruct (chan_recv c) as [r c'] eqn:Hr. do 2 eexists. split; [done|].
  assert (chan_closed c' = chan_closed c ∧ length (chan_buf c') ≤ length (chan_buf c) ∧
    chan_buf c = match r with Received e => [e] | _ => [] end ++ chan_buf c') as (Hcl & Hlen & Hbuf).
  { unfold chan_recv in Hr. destruct (chan_buf c) eqn:Hb; simplify_eq/=.
    - destruct (chan_closed c') eqn:E; simpl; rewrite ?Hb; auto.
    - repeat split; lia. }
  split; [|split; [done|split; [done|split]]].
  - eapply hub_wf_insert; eauto.
    + etrans; [exact Hlen|]. by eapply wf_cap.
    + intros Hs. rewrite Hcl. destruct (wf_subs _ Hwf id Hs) as (c0 & ? & ?). by simplify_eq.
  - intros i Hne. unfold buffered. simpl. by rewrite lookup_insert_ne.
  - unfold buffered. simpl. by rewrite lookup_insert_eq, Hc.
Qed.

(** A step of a well-formed hub happens (nothing panics) and keeps it well formed. *)
Lemma hub_step_wf a h : hub_wf h → ∃ h' o, hub_step a h = Some (h', o) ∧ hub_wf h'.
Proof.
  intros Hwf. destruct a as [|id|e|id]; simpl.
  - do 2 eexists. split; [done|]. by apply Subscribe_wf.
  - destruct (cancel_spec id h Hwf) as (h' & -> & ? & _). eauto.
  - destruct (Publish_spec e h Hwf) as (h' & HP & _). rewrite HP.
    do 2 eexists. split; [done|]. by eapply Publish_wf.
  - case_decide; [|eauto]. destruct (receive_spec id h Hwf) as (r & h' & -> & ? & _); [done|]. eauto.
Qed.

Lemma hub_run_wf l h : hub_wf h → ∃ h' tr, hub_run l h = Some (h', tr) ∧ hub_wf h'.
Proof.
  revert h. induction l as [|a l IH]; intros h Hwf; simpl; [eauto|].
  destruct (hub_step_wf a h Hwf) as (h1 & o & -> & H1). cbn.
  destruct (IH h1 H1) as (h2 & tr & -> & H2). eauto.
Qed.

Lemma buffered_publish e h h' id :
  hub_wf h → Publish e h = Some h' →
  buffered h' id = buffered h id ∨ buffered h' id = buffered h id ++ [e].
Proof.
  intros Hwf HP. destruct (Publish_spec e h Hwf) as (h'' & HP' & Hsubs & Hnext & Hout & Hin).
  simplify_eq. unfold buffered. destruct (decide (id ∈ hub_subs h)) as [Hid|Hid].
  - destruct (wf_subs _ Hwf id Hid) as (c & Hc & Ho). rewrite (Hin _ _ Hid Hc), Hc.
    destruct (chan_try_send_open c e Ho) as (c' & -> & _ & _ & Hb). simpl. rewrite Hb.
    case_decide; [by right|]. rewrite app_nil_r. by left.
  - rewrite Hout by done. by left.
Qed.

Lemma buffered_subscribe h id : hub_wf h → buffered (Subscribe h).2 id = buffered h id.
Proof.
  intros Hwf. unfold buffered. simpl. destruct (decide (hub_next h = id)) as [<-|Hne].
  - rewrite lookup_insert_eq. destruct (hub_heap h !! hub_next h) eqn:E; [|done].
    assert (hub_next h < hub_next h); [|lia]. apply (wf_next _ Hwf). by rewrite E.
  - by rewrite lookup_insert_ne.
Qed.

(** What a channel has delivered and still holds comes, in order, from what it
    held before followed by what was published. *)
Lemma hub_run_fifo l h h' tr id :
  hub_wf h → hub_run l h = Some (h', tr) →
  sublist (received_by id tr ++ buffered h' id) (buffered h id ++ published l).
Proof.
  revert h tr. induction l as [|a l IH]; intros h tr Hwf Hrun; cbn [hub_run] in Hrun.
  { simplify_eq. simpl. by rewrite app_nil_r. }
  destruct (hub_step_wf a h Hwf) as (h1 & o & Hstep & Hwf1). rewrite Hstep in Hrun. cbn in Hrun.
  destruct (hub_run l h1) as [[h2 tr']|] eqn:Hl; cbn in Hrun; [|done]. simplify_eq.
  specialize (IH h1 tr' Hwf1 Hl).
  destruct a as [|i|e|i]; cbn [hub_step] in Hstep.
  - simplify_eq. by rewrite buffered_subscribe in IH.
  - destruct (cancel_spec i h Hwf) as (hc & Hc & _ & _ & Hb & _). rewrite Hc in Hstep.
    simplify_eq/=. by rewrite Hb in IH.
  - destruct (Publish e h) as [hp|] eqn:HP; cbn in Hstep; [|done]. simplify_eq/=.
    destruct (buffered_publish e h h1 id Hwf HP) as [Hb|Hb]; rewrite Hb in IH.
    + etrans; [exact IH|]. apply sublist_app; [done|]. by apply sublist_cons.
    + by rewrite <-app_assoc in IH.
  - case_decide as Hi; [|by simplify_eq].
    destruct (receive_spec i h Hwf Hi) as (r & hr & Hr & _ & _ & _ & Hother & Hbuf).
    rewrite Hr in Hstep. simplify_eq/=. destruct (decide (i = id)) as [->|Hne].
    + rewrite Hbuf. destruct r; simpl; [|done..].
      rewrite decide_True by done. simpl. by apply sublist_skip.
    + rewrite <-(Hother id) by done. destruct r; simpl; try done.
      by rewrite decide_False by done.
Qed.

(** ** Properties *)

(** the hub never panics and never blocks its publishers.  From the empty
    hub every sequence of subscriptions, cancellations (repeated ones included),
    publications and receives runs to its end, and leaves a hub whose subscribed
    channels are open and whose buffers hold at most 32 events. *)
Theorem hub_total l :
  ∃ h tr, hub_run l NewHub = Some (h, tr) ∧
    (∀ id, id ∈ hub_subs h → ∃ c, hub_heap h !! id = Some c ∧ chan_closed c = false) ∧
    (∀ id, length (buffered h id) <= 32).
Proof.
  destruct (hub_run_wf l NewHub hub_wf_new) as (h & tr & Hrun & Hwf). exists h, tr.
  split; [done|]. split; [apply Hwf|]. intros id. unfold buffered.
  destruct (hub_heap h !! id) as [c|] eqn:Hc; simpl; [|lia]. by apply (wf_cap _ Hwf id).
Qed.

(** delivery is in order and without duplication: what a subscriber has
    received, followed by what waits in its channel, is a subsequence of the
    events published, whatever the other subscribers do. *)
Theorem hub_fifo l h tr id :
  hub_run l NewHub = Some (h, tr) →
  sublist (received_by id tr ++ buffered h id) (published l).
Proof. intros Hrun. exact (hub_run_fifo l NewHub h tr id hub_wf_new Hrun). Qed.

(** nothing is lost below the capacity: an event published to a well-formed
    hub is appended to every subscribed channel that holds fewer than 32 events,
    and changes no other channel. *)
Theorem Publish_delivers e h :
  hub_wf h →
  ∃ h', Publish e h = Some h' ∧ hub_wf h' ∧ hub_subs h' = hub_subs h ∧
    ∀ id, buffered h' id =
      if decide (id ∈ hub_subs h ∧ length (buffered h id) < 32)
      then buffered h id ++ [e] else buffered h id.
Proof.
  intros Hwf. destruct (Publish_spec e h Hwf) as (h' & HP & Hsubs & _ & Hout & Hin).
  exists h'. split_and!; [done|by eapply Publish_wf|done|]. intros id. unfold buffered.
  destruct (decide (id ∈ hub_subs h)) as [Hid|Hid].
  - destruct (wf_subs _ Hwf id Hid) as (c & Hc & Ho). rewrite (Hin _ _ Hid Hc), Hc.
    destruct (chan_try_send_open c e Ho) as (c' & -> & _ & _ & Hb). simpl. rewrite Hb. unfold chan_cap.
    destruct (decide (length (chan_buf c) < 32)).
    + by rewrite decide_True.
    + rewrite decide_False by tauto. by rewrite app_nil_r.
  - rewrite Hout, decide_False by tauto. done.
Qed.

(** ** Witnesses *)

Definition demo_event (n : Z) : Event := mkEvent EventLinkTerminated 1%N "link terminated" n.

Definition demo_actions : list action :=
  [ASubscribe; APublish (demo_event 1); ASubscribe; APublish (demo_event 2); AReceive 0;
   ACancel 1; ACancel 1; APublish (demo_event 3); AReceive 0; AReceive 1; AReceive 1].

Lemma hub_fifo_witness :
  ∃ h tr, hub_run demo_actions NewHub = Some (h, tr) ∧
    received_by 0 tr = [demo_event 1; demo_event 2] ∧
    sublist (received_by 0 tr ++ buffered h 0) (published demo_actions).
Proof.
  destruct (hub_run demo_actions NewHub) as [[h tr]|] eqn:E; [|by exfalso; vm_compute in E].
  exists h, tr. split; [done|]. split; [by vm_compute in E; simplify_eq|].
  by apply hub_fifo.
Defined.

Lemma Publish_delivers_witness :
  ∃ h', Publish (demo_event 7) (Subscribe NewHub).2 = Some h' ∧ buffered h' 0 = [demo_event 7].
Proof.
  destruct (Publish_delivers (demo_event 7) (Subscribe NewHub).2) as (h' & HP & _ & _ & Hb).
  - apply Subscribe_wf, hub_wf_new.
  - exists h'. split; [done|]. by rewrite (Hb 0).
Defined.

End PubSub.
