(* ===== verification/Schema.v ===== *)
(** * The database schema (migrations/*.sql)

    One component per table, typed by the rows of internal/domain; primary keys
    are the keys of the maps, and the columns the migrations bound
    ([varchar(n)], [int]) have a check.  [usage_counters] is keyed by its
    UNIQUE NOT NULL column [shared_link_id].  The SQL statements themselves are
    in the repository files. *)

From S2P Require Import Prelude GoStrings Domain.

(** Errors of a statement, as pgx reports them. *)
Inductive sql_error : Type :=
| NoRows                       (* pgx.ErrNoRows: a QueryRow without a row *)
| UniqueViolation
| ForeignKeyViolation
| NotNullViolation
| StringDataRightTruncation    (* value too long for varchar(n) *)
| NumericValueOutOfRange       (* integer out of range of the column *)
| ConnectionFailure.           (* the statement or its reply was lost *)

Record DB := mkDB {
  users : gmap UUID User;
  devices : gmap UUID Device;
  api_keys : gmap UUID APIKey;
  target_sites : gmap UUID TargetSite;
  original_sessions : gmap UUID OriginalSession;
  session_cookies : gmap UUID SessionCookie;
  session_tokens : gmap UUID SessionToken;
  shared_links : gmap UUID SharedLink;
  access_policies : gmap UUID AccessPolicy;
  link_policies : gset (UUID * UUID);
  blacklisted_endpoints : gmap UUID BlacklistedEndpoint;
  endpoint_blocked_methods : gset (UUID * string);
  site_endpoint_rules : gset (UUID * UUID);
  link_endpoint_rules : gset (UUID * UUID);
  guests : gmap UUID Guest;
  guest_sessions : gmap UUID GuestSession;
  usage_counters : gmap UUID UsageCounters;
  proxy_access_logs : list ProxyAccessLog;
  link_terminations : gmap UUID LinkTermination;
  security_events : list SecurityEvent;
  mv_link_stats : list LinkStats }.

Definition eta_DB (d : DB) : DB := mkDB
  (users d) (devices d) (api_keys d) (target_sites d) (original_sessions d)
  (session_cookies d) (session_tokens d) (shared_links d) (access_policies d)
  (link_policies d) (blacklisted_endpoints d) (endpoint_blocked_methods d)
  (site_endpoint_rules d) (link_endpoint_rules d) (guests d) (guest_sessions d)
  (usage_counters d) (proxy_access_logs d) (link_terminations d)
  (security_events d) (mv_link_stats d).

Definition set_users := ltac:(field_setter eta_DB users).
Definition set_devices := ltac:(field_setter eta_DB devices).
Definition set_api_keys := ltac:(field_setter eta_DB api_keys).
Definition set_target_sites := ltac:(field_setter eta_DB target_sites).
Definition set_original_sessions := ltac:(field_setter eta_DB original_sessions).
Definition set_session_cookies := ltac:(field_setter eta_DB session_cookies).
Definition set_session_tokens := ltac:(field_setter eta_DB session_tokens).
Definition set_shared_links := ltac:(field_setter eta_DB shared_links).
Definition set_access_policies := ltac:(field_setter eta_DB access_policies).
Definition set_link_policies := ltac:(field_setter eta_DB link_policies).
Definition set_blacklisted_endpoints := ltac:(field_setter eta_DB blacklisted_endpoints).
Definition set_endpoint_blocked_methods := ltac:(field_setter eta_DB endpoint_blocked_methods).
Definition set_site_endpoint_rules := ltac:(field_setter eta_DB site_endpoint_rules).
Definition set_link_endpoint_rules := ltac:(field_setter eta_DB link_endpoint_rules).
Definition set_guests := ltac:(field_setter eta_DB guests).
Definition set_guest_sessions := ltac:(field_setter eta_DB guest_sessions).
Definition set_usage_counters := ltac:(field_setter eta_DB usage_counters).
Definition set_proxy_access_logs := ltac:(field_setter eta_DB proxy_access_logs).
Definition set_link_terminations := ltac:(field_setter eta_DB link_terminations).
Definition set_security_events := ltac:(field_setter eta_DB security_events).
Definition set_mv_link_stats := ltac:(field_setter eta_DB mv_link_stats).

Definition empty_DB : DB := mkDB ∅ ∅ ∅ ∅ ∅ ∅ ∅ ∅ ∅ ∅ ∅ ∅ ∅ ∅ ∅ ∅ ∅ [] ∅ [] [].

(** [revocation_reasons], seeded once by migration 00005: id, code and
    description, in the order of [id]. *)
Definition revocation_reasons : list (Z * RevocationReason) :=
  [ (1%Z, mkRevocationReason ReasonTTLExpired (Some "Link TTL has expired"));
    (2%Z, mkRevocationReason ReasonRequestLimit (Some "Request count limit reached"));
    (3%Z, mkRevocationReason ReasonTrafficLimit (Some "Traffic volume limit reached"));
    (4%Z, mkRevocationReason ReasonViolationLimit (Some "Maximum violation count reached"));
    (5%Z, mkRevocationReason ReasonManual (Some "Manually terminated by owner")) ].

(** ** Statements *)

(** The outcome of a statement: an error, which leaves the tables as they are,
    or its rows and the new tables. *)
Definition sql_result (R : Type) : Type := sql_error + (R * DB).

Definition sql_ret {R} (r : R) (d : DB) : sql_result R := inr (r, d).

(** A condition the schema imposes on a statement. *)
Definition sql_check {R} (b : bool) (e : sql_error) (k : sql_result R) : sql_result R :=
  if b then k else inl e.

(** [varchar(n)] columns, nullable or not. *)
Definition varchar (n : nat) (s : string) : bool := rune_count s <=? n.
Definition varchar_opt (n : nat) (s : option string) : bool :=
  match s with Some s => varchar n s | None => true end.

(** [int] columns. *)
Definition int4_opt (z : option Z) : bool :=
  match z with Some z => in_int32b z | None => true end.

(** Foreign keys. *)
Definition references {V} (m : gmap UUID V) (id : UUID) : bool := bool_decide (is_Some (m !! id)).
Definition references_opt {V} (m : gmap UUID V) (id : option UUID) : bool :=
  match id with Some id => references m id | None => true end.

(** Primary keys drawn by [gen_random_uuid()]. *)
Definition fresh_in {V} (m : gmap UUID V) (id : UUID) : bool := bool_decide (m !! id = None).

(** Timestamps have microsecond precision. *)
Definition timestamptz (t : GoTime) : GoTime := (t / 1000 * 1000)%Z.

(** The rows of a table, in no order the program relies on. *)
Definition rows {V} (m : gmap UUID V) : list V := (map_to_list m).*2.

(** [SELECT .. WHERE p] of one row through QueryRow. *)
Definition select_row {V} (p : V → bool) (m : gmap UUID V) (d : DB) : sql_result V :=
  match find_first p (rows m) with
  | Some v => inr (v, d)
  | None => inl NoRows
  end.

(** [SELECT .. WHERE id=$1] through QueryRow. *)
Definition select_id {V} (m : gmap UUID V) (id : UUID) (d : DB) : sql_result V :=
  match m !! id with Some v => inr (v, d) | None => inl NoRows end.

(** [SELECT .. WHERE p ORDER BY key DESC] *)
Definition not_before {V} (key : V → Z) (a b : V) : Prop := (key b <= key a)%Z.

#[export] Instance not_before_dec {V} (key : V → Z) a b : Decision (not_before key a b) :=
  Z_le_dec _ _.

Definition order_desc {V} (key : V → Z) (l : list V) : list V :=
  merge_sort (not_before key) l.

(** ** Lemmas *)

Lemma elem_of_rows {V} (m : gmap UUID V) v : v ∈ rows m ↔ ∃ id, m !! id = Some v.
Proof.
  unfold rows. rewrite list_elem_of_fmap. split.
  - intros ([id v'] & -> & H%elem_of_map_to_list). eauto.
  - intros (id & H). exists (id, v). split; [done|]. by apply elem_of_map_to_list.
Qed.

Lemma sql_check_inr {R} b e (k : sql_result R) x :
  sql_check b e k = inr x → b = true ∧ k = inr x.
Proof. unfold sql_check. by destruct b. Qed.

Lemma references_spec {V} (m : gmap UUID V) id : references m id = true ↔ is_Some (m !! id).
Proof. apply bool_decide_eq_true. Qed.

Lemma fresh_in_spec {V} (m : gmap UUID V) id : fresh_in m id = true ↔ m !! id = None.
Proof. apply bool_decide_eq_true. Qed.

Lemma timestamptz_le t : (timestamptz t <= t)%Z.
Proof. unfold timestamptz. Z.to_euclidean_division_equations. lia. Qed.

Lemma timestamptz_gt t : (t - 1000 < timestamptz t)%Z.
Proof. unfold timestamptz. Z.to_euclidean_division_equations. lia. Qed.

Lemma order_desc_perm {V} key (l : list V) : order_desc key l ≡ₚ l.
Proof. apply merge_sort_Permutation. Qed.
