(* ===== verification/Platform.v ===== *)
(** * What the program relies on outside src/

    The Redis server (through go-redis), google/uuid, and the environment: the
    clock, the random source, the identifiers Postgres draws and the failures
    of the network.  They are fields of the class [Platform]; what Redis and
    google/uuid document is the class [PlatformLaws].  [demo] is a concrete
    platform, with which the witnesses are evaluated. *)

From Stdlib Require Import Ascii.
From S2P Require Import Prelude GoStrings Domain.

(** The reply to GET read with [StringCmd.Int64]: [redis.Nil], an integer, or
    another error (the value is not an integer, or not a string). *)
Inductive get_reply : Type :=
| GetNil
| GetInt (z : Z)
| GetError.

Class Platform := {
  (** Redis commands, each on the server's state. *)
  redis : Type;
  redis_setnx : string → Z → redis → redis;
  redis_get : string → redis → get_reply;
  (** INCRBY: the new value, or [None] for an error reply (the value is not an
      integer, or the result would overflow); the state is then unchanged. *)
  redis_incrby : string → Z → redis → option (Z * redis);
  redis_sadd : string → string → redis → redis;
  redis_srem : string → string → redis → redis;
  redis_smembers : string → redis → list string;
  (** google/uuid *)
  uuid_String : UUID → string;
  uuid_Parse : string → option UUID;
  (** The environment, by the number of the interaction.  A fault [(e, r)] is a
      connection that fails after the server executed [e] commands and the
      client read the replies of [r] of them. *)
  env_now : nat → GoTime;
  env_fault : nat → option (nat * nat);
  env_uuid : nat → UUID;
  env_rand : nat → option (nat → ascii) }.

(** [n] bytes of the random source, at one of its interactions. *)
Definition env_random {PL : Platform} (tick n : nat) : option string :=
  (λ f : nat → ascii, of_bytes (f <$> seq 0 n)) <$> env_rand tick.

Lemma env_random_length {PL : Platform} tick n s : env_random tick n = Some s → String.length s = n.
Proof.
  unfold env_random. intros (f & _ & ->)%fmap_Some. by rewrite length_of_bytes, length_fmap, length_seq.
Qed.

(** A Redis value as the commands above see it. *)
Inductive rvalue : Type :=
| RInt (z : Z)
| RSet (s : gset string)
| ROther.

Definition reply_of (v : option rvalue) : get_reply :=
  match v with
  | None => GetNil
  | Some (RInt z) => GetInt z
  | Some _ => GetError
  end.

Definition members_of (v : option rvalue) : gset string :=
  match v with Some (RSet s) => s | _ => ∅ end.

(** Documented behaviour: the key space [rview] and what each command does to
    it. *)
Class PlatformLaws (PL : Platform) := {
  rview : redis → gmap string rvalue;
  rview_setnx k v r : in_int64 v →
    rview (redis_setnx k v r) =
    match rview r !! k with None => <[k := RInt v]> (rview r) | Some _ => rview r end;
  redis_get_rview k r : redis_get k r = reply_of (rview r !! k);
  redis_incrby_rview k n r c : in_int64 n →
    reply_of (rview r !! k) = GetInt c ∨ (rview r !! k = None ∧ c = 0%Z) →
    in_int64 (c + n) →
    ∃ r', redis_incrby k n r = Some ((c + n)%Z, r') ∧ rview r' = <[k := RInt (c + n)]> (rview r);
  redis_incrby_overflow k n r c : in_int64 n →
    reply_of (rview r !! k) = GetInt c ∨ (rview r !! k = None ∧ c = 0%Z) →
    ¬ in_int64 (c + n) → redis_incrby k n r = None;
  redis_sadd_rview k m r s :
    rview r !! k = Some (RSet s) ∨ (rview r !! k = None ∧ s = ∅) →
    rview (redis_sadd k m r) = <[k := RSet ({[m]} ∪ s)]> (rview r);
  redis_srem_rview k m r s :
    rview r !! k = Some (RSet s) →
    rview (redis_srem k m r) =
      if decide (s ∖ {[m]} = ∅) then delete k (rview r) else <[k := RSet (s ∖ {[m]})]> (rview r);
  redis_srem_none k m r : rview r !! k = None → rview (redis_srem k m r) = rview r;
  redis_smembers_rview k r : redis_smembers k r ≡ₚ elements (members_of (rview r !! k));
  uuid_Parse_String u : uuid_Parse (uuid_String u) = Some u }.

(** An environment in which no statement and no command fails. *)
Class NoFaults (PL : Platform) : Prop := no_fault n : env_fault n = None.

Lemma uuid_String_inj `{PlatformLaws} u v : uuid_String u = uuid_String v → u = v.
Proof. intros E. apply (f_equal uuid_Parse) in E. rewrite !uuid_Parse_String in E. congruence. Qed.

(** ** A concrete platform *)

(** Identifiers written in binary. *)
Fixpoint pos_digits (p : positive) : list ascii :=
  match p with
  | xH => ["1"%char]
  | xO p' => "0"%char :: pos_digits p'
  | xI p' => "1"%char :: pos_digits p'
  end.

Fixpoint digits_pos (l : list ascii) : option positive :=
  match l with
  | [] => None
  | ["1"%char] => Some xH
  | "0"%char :: l' => xO <$> digits_pos l'
  | "1"%char :: l' => xI <$> digits_pos l'
  | _ => None
  end.

Definition demo_uuid_String (u : UUID) : string :=
  of_bytes (match u with N0 => ["0"%char] | Npos p => pos_digits p end).

Definition demo_uuid_Parse (s : string) : option UUID :=
  if decide (s = "0") then Some 0%N else Npos <$> digits_pos (bytes s).

(** The commands on the key space itself. *)
Definition demo_setnx (k : string) (v : Z) (r : gmap string rvalue) : gmap string rvalue :=
  match r !! k with None => <[k := RInt v]> r | Some _ => r end.

Definition demo_incrby (k : string) (n : Z) (r : gmap string rvalue)
    : option (Z * gmap string rvalue) :=
  match reply_of (r !! k) with
  | GetNil => if in_int64b n then Some (n, <[k := RInt n]> r) else None
  | GetInt c => if in_int64b (c + n) then Some ((c + n)%Z, <[k := RInt (c + n)]> r) else None
  | GetError => None
  end.

Definition demo_sadd (k m : string) (r : gmap string rvalue) : gmap string rvalue :=
  match r !! k with
  | None => <[k := RSet {[m]}]> r
  | Some (RSet s) => <[k := RSet ({[m]} ∪ s)]> r
  | Some _ => r
  end.

Definition demo_srem (k m : string) (r : gmap string rvalue) : gmap string rvalue :=
  match r !! k with
  | Some (RSet s) =>
      if decide (s ∖ {[m]} = ∅) then delete k r else <[k := RSet (s ∖ {[m]})]> r
  | _ => r
  end.

(** The platform whose environment is given by a clock, the faults of the
    interactions and the random bytes. *)
Definition demo_with (now : nat → GoTime) (fault : nat → option (nat * nat))
    (rand : nat → option (nat → ascii)) : Platform := {|
  redis := gmap string rvalue;
  redis_setnx := demo_setnx;
  redis_get k r := reply_of (r !! k);
  redis_incrby := demo_incrby;
  redis_sadd := demo_sadd;
  redis_srem := demo_srem;
  redis_smembers k r := elements (members_of (r !! k));
  uuid_String := demo_uuid_String;
  uuid_Parse := demo_uuid_Parse;
  env_now := now;
  env_fault := fault;
  env_uuid n := N.of_nat (1000 + n);
  env_rand := rand |}.

(** Bytes that are all equal to "s". *)
Definition demo_rand (_ : nat) : option (nat → ascii) := Some (λ _, "s"%char).

(** One second per interaction, no fault. *)
Definition demo : Platform :=
  demo_with (λ n, Z.of_nat n * 1000000000)%Z (λ _, None) demo_rand.

Lemma digits_pos_digits p : digits_pos (pos_digits p) = Some p.
Proof.
  induction p as [p IH|p IH|]; simpl; rewrite ?IH; [|done..].
  by destruct (pos_digits p) eqn:E; [destruct p|].
Qed.

Lemma demo_uuid_Parse_String u : demo_uuid_Parse (demo_uuid_String u) = Some u.
Proof.
  destruct u as [|p]; [done|]. unfold demo_uuid_Parse, demo_uuid_String.
  rewrite decide_False.
  - by rewrite bytes_of_bytes, digits_pos_digits.
  - intros H%(f_equal bytes). rewrite bytes_of_bytes in H.
    pose proof (digits_pos_digits p) as E. by rewrite H in E.
Qed.

#[export] Instance demo_laws now fault rand : PlatformLaws (demo_with now fault rand).
Proof.
  refine {| rview := λ r : @redis (demo_with now fault rand), r |}.
  - done.
  - done.
  - simpl. intros k n r c Hn Hc Hr. unfold demo_incrby. apply in_int64b_spec in Hr, Hn.
    destruct Hc as [->|[-> ->]]; simpl in *; rewrite ?Hr, ?Hn; eauto.
  - simpl. intros k n r c Hn Hc Hr. unfold demo_incrby. rewrite <-in_int64b_spec in Hr.
    apply not_true_is_false in Hr. destruct Hc as [->|[-> ->]]; [by rewrite Hr|].
    rewrite Z.add_0_l in Hr. cbn [reply_of]. by rewrite Hr.
  - simpl. intros k m r s [E|[E ->]]; unfold demo_sadd; rewrite E; [done|].
    by rewrite union_empty_r_L.
  - simpl. intros k m r s E. unfold demo_srem. by rewrite E.
  - simpl. intros k m r E. unfold demo_srem. by rewrite E.
  - done.
  - apply demo_uuid_Parse_String.
Defined.

#[export] Instance demo_no_faults : NoFaults demo.
Proof. done. Qed.
