(* ===== verification/Effects.v ===== *)
(** * Effects: programs over the shared world

    The handlers of the program are terms of type [prog]: a tree of atomic
    interactions with the world (a SQL statement, a Redis command, a reading
    of the clock, a hub operation, a request to the target site), each followed
    by a continuation.  [run] executes a program alone; [pool_step] interleaves
    the interactions of concurrent requests.  [M A] is the type of a Go
    function that returns [(A, error)]. *)

From S2P Require Import Prelude GoStrings Domain Http PubSub Schema Platform.

Open Scope go_scope.

(** ** Errors *)

(** Go error values: sentinels, errors of the libraries, and wrapping with
    [fmt.Errorf("...: %w", err)]. *)
Inductive go_error : Type :=
| ErrSQL (e : sql_error)
| ErrRedisNil
| ErrRedis
| ErrRand
| ErrNew (msg : string)
| Wrap (msg : string) (e : go_error).

Definition pgx_ErrNoRows : go_error := ErrSQL NoRows.

#[export] Instance sql_error_eq_dec : EqDecision sql_error.
Proof. solve_decision. Defined.
#[export] Instance go_error_eq_dec : EqDecision go_error.
Proof. solve_decision. Defined.

(** [errors.Is(err, target)] *)
Fixpoint errors_Is (err target : go_error) : bool :=
  if decide (err = target) then true
  else match err with Wrap _ e => errors_Is e target | _ => false end.

(** ** Programs *)

Section prog.
Context {W : Type}.

Inductive prog (A : Type) : Type :=
| Ret (a : A)
| Atom (R : Type) (act : W → W * R) (k : R → prog A).

Fixpoint pbind {A B} (p : prog A) (f : A → prog B) : prog B :=
  match p with
  | Ret _ a => f a
  | Atom _ R act k => Atom B R act (λ r, pbind (k r) f)
  end.

Fixpoint run {A} (p : prog A) (w : W) : W * A :=
  match p with
  | Ret _ a => (w, a)
  | Atom _ R act k => run (k (act w).2) (act w).1
  end.

Definition atom {R} (act : W → W * R) : prog R := Atom R R act (Ret R).

(** Every interaction of a program, whatever the replies, relates the worlds
    before and after it by [R]. *)
Fixpoint all_atoms (R : W → W → Prop) {A} (p : prog A) : Prop :=
  match p with
  | Ret _ _ => True
  | Atom _ _ act k => (∀ w, R w (act w).1) ∧ ∀ r, all_atoms R (k r)
  end.

(** The same for the replies the interactions can give in the worlds of [I] only;
    the results of the program satisfy [Q]. *)
Fixpoint guarded (I : W → Prop) (R : W → W → Prop) {A} (Q : A → Prop) (p : prog A) : Prop :=
  match p with
  | Ret _ a => Q a
  | Atom _ _ act k => ∀ w, I w → R w (act w).1 ∧ guarded I R Q (k (act w).2)
  end.

(** In any world. *)
Definition outcomes : (W → W → Prop) → ∀ {A}, (A → Prop) → prog A → Prop := guarded (λ _, True).

(** One interaction of one of the programs that run concurrently. *)
Inductive pool_step : list (prog unit) * W → list (prog unit) * W → Prop :=
| pool_atom i ts R act (k : R → prog unit) w :
    ts !! i = Some (Atom unit R act k) →
    pool_step (ts, w) (<[i := k (act w).2]> ts, (act w).1).

Definition finished {A} (p : prog A) : bool := match p with Ret _ _ => true | Atom _ _ _ _ => false end.

(** Run under an explicit schedule: the index of the program that moves. *)
Fixpoint schedule (l : list nat) (ts : list (prog unit)) (w : W) : list (prog unit) * W :=
  match l with
  | [] => (ts, w)
  | i :: l' =>
      match ts !! i with
      | Some (Atom _ _ act k) => schedule l' (<[i := k (act w).2]> ts) (act w).1
      | _ => schedule l' ts w
      end
  end.

End prog.

Arguments prog : clear implicits.
Arguments Ret {W A} a.
Arguments Atom {W A R} act k.

Notation "'let*' x := p 'in' k" := (pbind p (λ x, k))
  (at level 200, x name, p at level 100, k at level 200, right associativity) : go_scope.

(** ** The world *)

Section world.
Context {PL : Platform}.

(** [w_sent] is the list of requests that reached a target site, and [w_alog]
    the content of the access logger's channel. *)
Record World := mkWorld {
  w_db : DB;
  w_redis : redis;
  w_hub : PubSub.Hub;
  w_alog : list ProxyAccessLog;
  w_sent : list Request;
  w_tick : nat }.

Definition set_db (d : DB) (w : World) : World :=
  mkWorld d (w_redis w) (w_hub w) (w_alog w) (w_sent w) (w_tick w).
Definition set_redis (r : redis) (w : World) : World :=
  mkWorld (w_db w) r (w_hub w) (w_alog w) (w_sent w) (w_tick w).
Definition set_hub (h : PubSub.Hub) (w : World) : World :=
  mkWorld (w_db w) (w_redis w) h (w_alog w) (w_sent w) (w_tick w).
Definition set_alog (l : list ProxyAccessLog) (w : World) : World :=
  mkWorld (w_db w) (w_redis w) (w_hub w) l (w_sent w) (w_tick w).
Definition set_sent (l : list Request) (w : World) : World :=
  mkWorld (w_db w) (w_redis w) (w_hub w) (w_alog w) l (w_tick w).

(** Every interaction has its own number. *)
Definition tick (w : World) : World :=
  mkWorld (w_db w) (w_redis w) (w_hub w) (w_alog w) (w_sent w) (S (w_tick w)).

Definition P (A : Type) : Type := prog World A.

(** A function that returns [(A, error)]. *)
Definition M (A : Type) : Type := P (go_error + A).

Definition ret {A} (a : A) : M A := Ret (inr a).
Definition fail {A} (e : go_error) : M A := Ret (inl e).

(** [if err != nil { return err }] *)
Definition bind {A B} (m : M A) (f : A → M B) : M B :=
  pbind m (λ r, match r with inl e => fail e | inr a => f a end).

(** [if err != nil { return fmt.Errorf("msg: %w", err) }] *)
Definition wrap {A} (msg : string) (m : M A) : M A :=
  pbind m (λ r, match r with inl e => fail (Wrap msg e) | inr a => ret a end).

(** A pure result. *)
Definition lift {A} (r : go_error + A) : M A := Ret r.

(** The loop [for _, x := range xs { if err := f(x); err != nil { return err } }]. *)
Fixpoint for_each {A} (xs : list A) (f : A → M unit) : M unit :=
  match xs with
  | [] => ret tt
  | x :: xs' => bind (f x) (λ _, for_each xs' f)
  end.

(** The loop that appends one value per element, or returns its error. *)
Fixpoint for_map {A B} (xs : list A) (f : A → M B) : M (list B) :=
  match xs with
  | [] => ret []
  | x :: xs' => bind (f x) (λ y, bind (for_map xs' f) (λ ys, ret (y :: ys)))
  end.

(** A loop whose body never returns early. *)
Fixpoint for_all {A} (xs : list A) (f : A → P unit) : P unit :=
  match xs with
  | [] => Ret tt
  | x :: xs' => pbind (f x) (λ _, for_all xs' f)
  end.

(** ** Interactions *)

(** One SQL statement.  It gets the identifier Postgres would draw for a new
    row and the time of [now()].  With a fault either nothing is executed
    (no command executed) or the statement is executed and its reply is lost. *)
Definition sql {R} (stmt : UUID → GoTime → DB → sql_result R) : M R :=
  atom (λ w,
    let n := w_tick w in
    match env_fault n with
    | Some (O, _) => (tick w, inl (ErrSQL ConnectionFailure))
    | flt =>
        match stmt (env_uuid n) (timestamptz (env_now n)) (w_db w) with
        | inl e => (tick w, inl (ErrSQL e))
        | inr (r, d) =>
            (set_db d (tick w),
             match flt with None => inr r | Some _ => inl (ErrSQL ConnectionFailure) end)
        end
    end).

(** Commands of a Redis pipeline and their replies; [RLost] is a command whose
    reply was not read because the connection failed. *)
Inductive redis_cmd : Type :=
| CSetNX (k : string) (v : Z)
| CGet (k : string)
| CIncrBy (k : string) (n : Z)
| CSAdd (k m : string)
| CSRem (k m : string)
| CSMembers (k : string).

Inductive redis_reply : Type :=
| ROk
| RGet (g : get_reply)
| RIncr (z : option Z)
| RMembers (l : list string)
| RLost.

Definition exec_cmd (c : redis_cmd) (r : redis) : redis_reply * redis :=
  match c with
  | CSetNX k v => (ROk, redis_setnx k v r)
  | CGet k => (RGet (redis_get k r), r)
  | CIncrBy k n =>
      match redis_incrby k n r with
      | Some (z, r') => (RIncr (Some z), r')
      | None => (RIncr None, r)
      end
  | CSAdd k m => (ROk, redis_sadd k m r)
  | CSRem k m => (ROk, redis_srem k m r)
  | CSMembers k => (RMembers (redis_smembers k r), r)
  end.

Fixpoint exec_cmds (cs : list redis_cmd) (r : redis) : list redis_reply * redis :=
  match cs with
  | [] => ([], r)
  | c :: cs' =>
      let '(x, r1) := exec_cmd c r in
      let '(xs, r2) := exec_cmds cs' r1 in
      (x :: xs, r2)
  end.

(** The error a command carries. *)
Definition reply_error (x : redis_reply) : option go_error :=
  match x with
  | RGet GetNil => Some ErrRedisNil
  | RIncr None | RLost => Some ErrRedis
  | _ => None
  end.

(** The commands of a pipeline, one after the other: those of other clients may
    come in between. *)
Fixpoint pipe_cmds (cs : list redis_cmd) : P (list redis_reply) :=
  match cs with
  | [] => Ret []
  | c :: cs' =>
      let* x := atom (λ w, let '(x, r) := exec_cmd c (w_redis w) in (set_redis r w, x)) in
      let* xs := pipe_cmds cs' in
      Ret (x :: xs)
  end.

(** [pipe.Exec(ctx)]: the replies, and the first error of a command.  With a
    fault [(e, r)] the first [e] commands are executed and the replies of at
    most [r] of them are read. *)
Definition pipe_Exec (cs : list redis_cmd) : P (list redis_reply * option go_error) :=
  let* f := atom (λ w, (tick w, default (length cs, length cs) (env_fault (w_tick w)))) in
  let* xs := pipe_cmds (take f.1 cs) in
  let read := take f.2 xs in
  let replies := read ++ replicate (length cs - length read) RLost in
  Ret (replies, head (omap reply_error replies)).

(** [time.Now()] *)
Definition time_Now : P GoTime :=
  atom (λ w, (tick w, env_now (w_tick w))).

(** [rand.Read] into a buffer of [n] bytes. *)
Definition rand_Read (n : nat) : M string :=
  atom (λ w, (tick w, match env_random (w_tick w) n with Some s => inr s | None => inl ErrRand end)).

(** [hub.Publish]; see [PubSub.hub_step_wf] for the absence of panics. *)
Definition hub_Publish (e : PubSub.Event) : P unit :=
  atom (λ w, (set_hub (default (w_hub w) (PubSub.Publish e (w_hub w))) w, tt)).

End world.

Arguments World : clear implicits.
Arguments World {PL}.

Notation "'let!' x := m 'in' k" := (bind m (λ x, k))
  (at level 200, x name, m at level 100, k at level 200, right associativity) : go_scope.
Notation "'let!' ' x := m 'in' k" := (bind m (λ x, k))
  (at level 200, x strict pattern, m at level 100, k at level 200, right associativity) : go_scope.

(** ** Lemmas *)

Section prog_lemmas.
Context {W : Type}.

Lemma run_pbind {A B} (p : prog W A) (f : A → prog W B) w :
  run (pbind p f) w = run (f (run p w).2) (run p w).1.
Proof. revert w. induction p as [a|R act k IH]; intros w; simpl; [done|]. apply IH. Qed.

Lemma run_atom {R} (act : W → W * R) w : run (atom act) w = act w.
Proof. unfold atom. simpl. by destruct (act w). Qed.

Lemma run_result {A} (p : prog W A) w r : (run p w).2 = r → run p w = ((run p w).1, r).
Proof. intros <-. by destruct (run p w). Qed.

Section all_atoms.
Context (R : W → W → Prop).

Lemma all_atoms_pbind {A B} (p : prog W A) (f : A → prog W B) :
  all_atoms R p → (∀ a, all_atoms R (f a)) → all_atoms R (pbind p f).
Proof. induction p as [a|T act k IH]; simpl; [auto|]. intros [Ha Hk] Hf. split; auto. Qed.

Lemma all_atoms_mono (R' : W → W → Prop) {A} (p : prog W A) :
  (∀ w w', R w w' → R' w w') → all_atoms R p → all_atoms R' p.
Proof. intros HR. induction p as [a|T act k IH]; simpl; [auto|]. intros [Ha Hk]. split; auto. Qed.

Lemma all_atoms_guarded I {A} (p : prog W A) : all_atoms R p → guarded I R (λ _, True) p.
Proof. induction p as [a|T act k IH]; simpl; [done|]. intros [Ha Hk] w _. split; auto. Qed.

Lemma guarded_pbind I {A B} Q (p : prog W A) (Q' : B → Prop) (f : A → prog W B) :
  guarded I R Q p → (∀ a, Q a → guarded I R Q' (f a)) → guarded I R Q' (pbind p f).
Proof.
  intros Hp Hf. induction p as [a|T act k IH]; simpl in *; [auto|].
  intros w Hw. destruct (Hp w Hw) as [Ha Hk]. split; [done|]. by apply IH.
Qed.

Lemma guarded_mono I {A} (Q Q' : A → Prop) (p : prog W A) :
  (∀ a, Q a → Q' a) → guarded I R Q p → guarded I R Q' p.
Proof.
  intros HQ. induction p as [a|T act k IH]; simpl; [auto|]. intros Hp w Hw.
  destruct (Hp w Hw) as [Ha Hk]. split; [done|]. by apply IH.
Qed.

Context `{!PreOrder R}.

Lemma all_atoms_run {A} (p : prog W A) w : all_atoms R p → R w (run p w).1.
Proof.
  revert w. induction p as [a|T act k IH]; intros w; simpl; [done|].
  intros [Ha Hk]. etrans; [apply Ha|]. by apply IH.
Qed.

Section guarded.
Context (I : W → Prop) (Hkept : ∀ w w', I w → R w w' → I w').

Lemma guarded_run {A} Q (p : prog W A) w : I w → guarded I R Q p → R w (run p w).1 ∧ Q (run p w).2.
Proof.
  revert w. induction p as [a|T act k IH]; intros w Hw; simpl; [done|].
  intros Hp. destruct (Hp w Hw) as [Ha Hk]. destruct (IH _ (act w).1 (Hkept _ _ Hw Ha) Hk) as [Hr HQ].
  split; [by etrans|done].
Qed.

(** Whatever the schedule, concurrent programs all of whose interactions
    satisfy [R] relate the first and the last world by [R]. *)
Lemma guarded_pool Q c c' :
  rtc pool_step c c' → I c.2 → Forall (guarded I R Q) c.1 → R c.2 c'.2 ∧ Forall (guarded I R Q) c'.1.
Proof.
  induction 1 as [c|c1 c2 c3 Hstep Hsteps IH]; intros Hw Hall; [done|].
  inversion Hstep as [i ts T act k w Hi]; subst; simpl in *.
  pose proof (proj1 (Forall_lookup _ _) Hall _ _ Hi w Hw) as [Ha Hk].
  destruct IH as [HR HF]; [by eapply Hkept|by apply Forall_insert|].
  split; [|done]. etrans; [apply Ha|]. done.
Qed.
End guarded.

Lemma outcomes_run {A} Q (p : prog W A) w : outcomes R Q p → R w (run p w).1 ∧ Q (run p w).2.
Proof. intros Hp. by apply (guarded_run (λ _, True)). Qed.

Lemma outcomes_pool Q c c' :
  rtc pool_step c c' → Forall (outcomes R Q) c.1 → R c.2 c'.2 ∧ Forall (outcomes R Q) c'.1.
Proof. intros Hs Hall. by apply (guarded_pool (λ _, True)). Qed.

End all_atoms.

(** What cannot go on has finished. *)
Lemma pool_nf ts (w : W) : nf pool_step (ts, w) ↔ Forall (λ p, finished p = true) ts.
Proof.
  split.
  - intros Hnf. apply Forall_lookup. intros i [a|R act k] Hi; [done|]. exfalso. apply Hnf. eexists. by constructor.
  - intros Hall [c Hc]. inversion Hc as [i ts0 R act k w0 Hi]; subst.
    by pose proof (proj1 (Forall_lookup _ _) Hall _ _ Hi).
Qed.

#[export] Instance pool_red_dec (c : list (prog W unit) * W) : Decision (red pool_step c).
Proof.
  destruct c as [ts w]. destruct (decide (Forall (λ p, finished p = true) ts)) as [Hf|Hf].
  - right. by apply pool_nf.
  - left. apply not_Forall_Exists in Hf as He; [|apply _]. apply Exists_exists in He as (p & Hp & Hne).
    apply list_elem_of_lookup in Hp as [i Hi]. destruct p as [a|R act k]; [by destruct Hne|].
    eexists. by constructor.
Defined.

Lemma schedule_pool l ts (w : W) : rtc pool_step (ts, w) (schedule l ts w).
Proof.
  revert ts w. induction l as [|i l IH]; intros ts w; simpl; [done|].
  destruct (ts !! i) as [[a|R act k]|] eqn:E; [apply IH| |apply IH].
  eapply rtc_l; [by constructor|]. apply IH.
Qed.

End prog_lemmas.

Section world_lemmas.
Context {PL : Platform}.

Lemma run_bind {A B} (m : M A) (f : A → M B) w :
  run (bind m f) w =
  match (run m w).2 with inl e => ((run m w).1, inl e) | inr a => run (f a) (run m w).1 end.
Proof. unfold bind. rewrite run_pbind. by destruct (run m w).2. Qed.

Lemma run_wrap {A} msg (m : M A) w :
  run (wrap msg m) w =
  ((run m w).1, match (run m w).2 with inl e => inl (Wrap msg e) | inr a => inr a end).
Proof. unfold wrap. rewrite run_pbind. by destruct (run m w).2. Qed.

Lemma run_ret {A} (a : A) w : run (ret a) w = (w, inr a).
Proof. done. Qed.

Lemma run_fail {A} e w : run (fail (A:=A) e) w = (w, inl e).
Proof. done. Qed.

Lemma all_atoms_bind R {A B} (m : M A) (f : A → M B) :
  all_atoms R m → (∀ a, all_atoms R (f a)) → all_atoms R (bind m f).
Proof. intros Hm Hf. apply all_atoms_pbind; [done|]. intros [e|a]; simpl; auto. Qed.

(** The value of a call that returns no error. *)
Definition succeeds {A} (Q : A → Prop) (r : go_error + A) : Prop :=
  match r with inl _ => True | inr a => Q a end.

Lemma guarded_bind I R {A B} Q (m : M A) (Q' : B → Prop) (f : A → M B) :
  guarded I R (succeeds Q) m → (∀ a, Q a → guarded I R (succeeds Q') (f a)) →
  guarded I R (succeeds Q') (bind m f).
Proof. intros Hm Hf. eapply guarded_pbind; [exact Hm|]. intros [e|a]; simpl; auto. Qed.

Lemma guarded_wrap I R {A} Q msg (m : M A) : guarded I R (succeeds Q) m → guarded I R (succeeds Q) (wrap msg m).
Proof. intros Hm. eapply guarded_pbind; [exact Hm|]. by intros [e|a]. Qed.

Lemma guarded_for_map I R {A B} Q (xs : list A) (f : A → M B) :
  (∀ x, guarded I R (succeeds Q) (f x)) → guarded I R (succeeds (Forall Q)) (for_map xs f).
Proof.
  intros Hf. induction xs as [|x xs IH]; simpl; [constructor|].
  eapply guarded_bind; [apply Hf|]. intros y Hy. eapply guarded_bind; [exact IH|].
  intros ys Hys. by constructor.
Qed.

Lemma all_atoms_succeed I R {A} (m : M A) : all_atoms R m → guarded I R (succeeds (λ _, True)) m.
Proof. intros Hm. eapply guarded_mono; [|by apply all_atoms_guarded]. by intros [e|a]. Qed.

Lemma all_atoms_wrap R {A} msg (m : M A) : all_atoms R m → all_atoms R (wrap msg m).
Proof. intros Hm. apply all_atoms_pbind; [done|]. by intros [e|a]. Qed.

Lemma all_atoms_for_each R {A} (xs : list A) f :
  (∀ x, all_atoms R (f x)) → all_atoms R (for_each xs f).
Proof. intros Hf. induction xs as [|x xs IH]; simpl; [done|]. by apply all_atoms_bind. Qed.

Lemma all_atoms_for_map R {A B} (xs : list A) (f : A → M B) :
  (∀ x, all_atoms R (f x)) → all_atoms R (for_map xs f).
Proof.
  intros Hf. induction xs as [|x xs IH]; simpl; [done|].
  apply all_atoms_bind; [done|]. intros y. by apply all_atoms_bind.
Qed.

Lemma all_atoms_for_all R {A} (xs : list A) (f : A → P unit) :
  (∀ x, all_atoms R (f x)) → all_atoms R (for_all xs f).
Proof. intros Hf. induction xs as [|x xs IH]; simpl; [done|]. by apply all_atoms_pbind. Qed.

(** A relation on databases, lifted to worlds. *)
Definition on_db (R : DB → DB → Prop) (w w' : World) : Prop := R (w_db w) (w_db w').

#[export] Instance on_db_preorder R : PreOrder R → PreOrder (on_db R).
Proof. intros [Hr Ht]. split; unfold on_db; [intros w; apply Hr|intros a b c; apply Ht]. Qed.

(** A relation on the states of Redis, lifted to worlds. *)
Definition on_redis (R : redis → redis → Prop) (w w' : World) : Prop := R (w_redis w) (w_redis w').

#[export] Instance on_redis_preorder R : PreOrder R → PreOrder (on_redis R).
Proof. intros [Hr Ht]. split; unfold on_redis; [intros w; apply Hr|intros a b c; apply Ht]. Qed.

(** A statement whose successful executions are related by [R] is an
    interaction related by [R], faults included. *)
Lemma all_atoms_sql (R : DB → DB → Prop) `{!Reflexive R} {A} (stmt : UUID → GoTime → DB → sql_result A) :
  (∀ u t d r d', stmt u t d = inr (r, d') → R d d') → all_atoms (on_db R) (sql stmt).
Proof.
  intros H. split; [|done]. intros w. unfold on_db.
  destruct (env_fault (w_tick w)) as [[[|k] j]|]; simpl; [done| |];
    destruct (stmt _ _ (w_db w)) as [e|[r d']] eqn:E; simpl; eauto.
Qed.

Lemma all_atoms_sql_redis (R : redis → redis → Prop) `{!Reflexive R} {A} (stmt : UUID → GoTime → DB → sql_result A) :
  all_atoms (on_redis R) (sql stmt).
Proof.
  split; [|done]. intros w. unfold on_redis.
  destruct (env_fault (w_tick w)) as [[[|k] j]|]; simpl; [done| |];
    by destruct (stmt _ _ (w_db w)) as [e|[r d']] eqn:E.
Qed.

Lemma all_atoms_pipe_db (R : DB → DB → Prop) `{!Reflexive R} cs : all_atoms (on_db R) (pipe_Exec cs).
Proof.
  apply all_atoms_pbind; [split; [|done]; intros w; by unfold on_db|]. intros [e r]. apply all_atoms_pbind; [|done]. cbn [fst].
  generalize (take e cs). clear cs e r. intros cs. induction cs as [|c cs IH]; [done|]. cbn [pipe_cmds].
  apply all_atoms_pbind.
  - split; [|done]. intros w. unfold on_db. destruct (exec_cmd c (w_redis w)). simpl. done.
  - intros x. by apply all_atoms_pbind.
Qed.

Lemma all_atoms_time (R : World → World → Prop) :
  (∀ w, R w (tick w)) → all_atoms R time_Now.
Proof. intros H. split; [|done]. intros w. apply H. Qed.

Lemma all_atoms_rand (R : World → World → Prop) n :
  (∀ w, R w (tick w)) → all_atoms R (rand_Read n).
Proof. intros H. split; [|done]. intros w. apply H. Qed.

Lemma all_atoms_hub_db (R : DB → DB → Prop) `{!Reflexive R} e : all_atoms (on_db R) (hub_Publish e).
Proof. split; [|done]. intros w. unfold on_db. simpl. done. Qed.

Lemma all_atoms_hub_redis (R : redis → redis → Prop) `{!Reflexive R} e :
  all_atoms (on_redis R) (hub_Publish e).
Proof. split; [|done]. intros w. unfold on_redis. simpl. done. Qed.

Lemma length_exec_cmds cs r : length (exec_cmds cs r).1 = length cs.
Proof.
  revert r. induction cs as [|c cs IH]; intros r; simpl; [done|].
  destruct (exec_cmd c r) as [x r1]. specialize (IH r1).
  destruct (exec_cmds cs r1) as [xs r2]. simpl in *. by rewrite IH.
Qed.

(** Without faults, a statement is what its function says. *)
Lemma run_sql_ok `{!NoFaults PL} {A} (stmt : UUID → GoTime → DB → sql_result A) w :
  run (sql stmt) w =
  match stmt (env_uuid (w_tick w)) (timestamptz (env_now (w_tick w))) (w_db w) with
  | inl e => (tick w, inl (ErrSQL e))
  | inr (r, d) => (set_db d (tick w), inr r)
  end.
Proof.
  unfold sql. rewrite run_atom, no_fault. by destruct (stmt _ _ _) as [e|[r d]].
Qed.

Lemma run_pipe_cmds cs w :
  run (pipe_cmds cs) w = (set_redis (exec_cmds cs (w_redis w)).2 w, (exec_cmds cs (w_redis w)).1).
Proof.
  revert w. induction cs as [|c cs IH]; intros w; cbn [pipe_cmds exec_cmds]; [by destruct w|].
  rewrite run_pbind, run_atom. destruct (exec_cmd c (w_redis w)) as [x r]. cbn [fst snd].
  rewrite run_pbind, IH. simpl. by destruct (exec_cmds cs r) as [xs r'].
Qed.

(** A pipeline alone. *)
Lemma run_pipe_Exec cs w :
  run (pipe_Exec cs) w =
  (let '(e, r) := default (length cs, length cs) (env_fault (w_tick w)) in
   let '(xs, rd) := exec_cmds (take e cs) (w_redis w) in
   let read := take r xs in
   let replies := read ++ replicate (length cs - length read) RLost in
   (set_redis rd (tick w), (replies, head (omap reply_error replies)))).
Proof.
  unfold pipe_Exec. rewrite run_pbind, run_atom. cbn [fst snd].
  destruct (default _ _) as [e r]. rewrite run_pbind, run_pipe_cmds. cbn [fst snd].
  change (w_redis (tick w)) with (w_redis w). by destruct (exec_cmds (take e cs) (w_redis w)).
Qed.

Lemma run_pipe_ok `{!NoFaults PL} cs w :
  run (pipe_Exec cs) w =
  (set_redis (exec_cmds cs (w_redis w)).2 (tick w),
   ((exec_cmds cs (w_redis w)).1, head (omap reply_error (exec_cmds cs (w_redis w)).1))).
Proof.
  rewrite run_pipe_Exec, no_fault. simpl. rewrite firstn_all.
  pose proof (length_exec_cmds cs (w_redis w)) as Hl.
  destruct (exec_cmds cs (w_redis w)) as [xs r]. simpl in *.
  by rewrite take_ge, Hl, Nat.sub_diag, app_nil_r by lia.
Qed.

(** With or without a fault, a statement that returns rows was executed. *)
Lemma run_sql_inr {A} (stmt : UUID → GoTime → DB → sql_result A) w w' r :
  run (sql stmt) w = (w', inr r) →
  ∃ d, stmt (env_uuid (w_tick w)) (timestamptz (env_now (w_tick w))) (w_db w) = inr (r, d) ∧
    w' = set_db d (tick w).
Proof.
  unfold sql. rewrite run_atom.
  destruct (env_fault (w_tick w)) as [[[|k] j]|]; [done| |];
    destruct (stmt _ _ (w_db w)) as [e|[r' d']]; intros; simplify_eq; eauto.
Qed.

(** A statement under any faults: not executed, or executed with or without its
    reply. *)
Lemma run_sql_cases {A} (stmt : UUID → GoTime → DB → sql_result A) w :
  (∃ e, run (sql stmt) w = (tick w, inl e)) ∨
  ∃ r d, stmt (env_uuid (w_tick w)) (timestamptz (env_now (w_tick w))) (w_db w) = inr (r, d) ∧
    (run (sql stmt) w = (set_db d (tick w), inr r) ∨
     ∃ e, run (sql stmt) w = (set_db d (tick w), inl e)).
Proof.
  unfold sql. rewrite run_atom.
  destruct (env_fault (w_tick w)) as [[[|k] j]|]; [by eauto| |];
    destruct (stmt _ _ (w_db w)) as [e|[r d]]; eauto 10.
Qed.

(** Statements that only read. *)
Definition read_only {A} (stmt : UUID → GoTime → DB → sql_result A) : Prop :=
  ∀ u t d r d', stmt u t d = inr (r, d') → d' = d.

Lemma run_sql_read {A} (stmt : UUID → GoTime → DB → sql_result A) w :
  read_only stmt → (run (sql stmt) w).1 = tick w.
Proof.
  intros Hr. destruct (run_sql_cases stmt w) as [[e ->]|(r & d & E & H)]; [done|].
  apply Hr in E as ->. destruct H as [->|[e ->]]; by destruct w.
Qed.

Lemma run_read {A} (stmt : UUID → GoTime → DB → sql_result A) w :
  read_only stmt →
  ∃ res, run (sql stmt) w = (tick w, res) ∧
    (∀ a, res = inr a →
       stmt (env_uuid (w_tick w)) (timestamptz (env_now (w_tick w))) (w_db w) = inr (a, w_db w)) ∧
    (NoFaults PL → res = match stmt (env_uuid (w_tick w)) (timestamptz (env_now (w_tick w))) (w_db w) with
                         | inl e => inl (ErrSQL e) | inr (a, _) => inr a end) ∧
    (∀ e, res = inl e → e = ErrSQL ConnectionFailure ∨
       ∃ e', e = ErrSQL e' ∧
         stmt (env_uuid (w_tick w)) (timestamptz (env_now (w_tick w))) (w_db w) = inl e').
Proof.
  intros Hr. exists (run (sql stmt) w).2. split_and!.
  - rewrite <-(run_sql_read stmt w Hr). by destruct (run (sql stmt) w).
  - intros a Ha. apply run_result, run_sql_inr in Ha as (d & E & _).
    pose proof (Hr _ _ _ _ _ E) as ->. exact E.
  - intros HNF. rewrite run_sql_ok. by destruct (stmt _ _ _) as [e|[r d]].
  - intros e. unfold sql. rewrite run_atom.
    destruct (env_fault (w_tick w)) as [[[|k] j]|]; simpl; [intros; simplify_eq; auto| |];
      destruct (stmt _ _ (w_db w)) as [e'|[r d]]; simpl; intros; simplify_eq; eauto.
Qed.

Lemma run_wrap_inr {A} msg (m : M A) w w' r :
  run (wrap msg m) w = (w', inr r) ↔ run m w = (w', inr r).
Proof. rewrite run_wrap. destruct (run m w) as [w1 [e|a]]; simpl; split; congruence. Qed.

Lemma run_wrap_fst {A} msg (m : M A) w : (run (wrap msg m) w).1 = (run m w).1.
Proof. by rewrite run_wrap. Qed.

Lemma run_bind_inr {A B} (m : M A) (f : A → M B) w w' r :
  run (bind m f) w = (w', inr r) ↔
  ∃ w1 a, run m w = (w1, inr a) ∧ run (f a) w1 = (w', inr r).
Proof.
  rewrite run_bind. destruct (run m w) as [w1 [e|a]]; simpl; split.
  - done.
  - by intros (? & ? & ? & _).
  - eauto.
  - intros (w2 & a' & ? & ?). by simplify_eq.
Qed.

(** A loop with early return processes a prefix of its list. *)
Lemma run_for_each {A} (I : list A → World → Prop) (f : A → M unit) xs w :
  I [] w →
  (∀ l x w, x ∈ xs → I l w → I (l ++ [x]) (run (f x) w).1 ∨
                             I l (run (f x) w).1 ∧ (run (f x) w).2 ≠ inr tt) →
  ∃ l, l `prefix_of` xs ∧ I l (run (for_each xs f) w).1 ∧
    ((run (for_each xs f) w).2 = inr tt → l = xs).
Proof.
  intros H0 Hstep.
  enough (∀ l0, I l0 w → ∃ l, l `prefix_of` xs ∧ I (l0 ++ l) (run (for_each xs f) w).1 ∧
    ((run (for_each xs f) w).2 = inr tt → l = xs)) as H by by apply (H []).
  clear H0. revert w Hstep. induction xs as [|x xs IH]; intros w Hstep l0 H; cbn [for_each].
  { exists []. rewrite run_ret, app_nil_r. by split_and!. }
  rewrite run_bind.
  assert (∀ l y w, y ∈ xs → I l w → I (l ++ [y]) (run (f y) w).1 ∨
            I l (run (f y) w).1 ∧ (run (f y) w).2 ≠ inr tt) as Hstep'
    by (intros; apply Hstep; [by right|done]).
  destruct (Hstep l0 x w) as [H1|[H1 Hne]]; [left|done|..].
  - destruct (run (f x) w) as [w1 [e|[]]]; cbn [fst snd] in *.
    + exists [x]. split_and!; [by apply prefix_cons, prefix_nil|done|done].
    + destruct (IH w1 Hstep' _ H1) as (l & Hl & HI & Heq). exists (x :: l).
      split_and!; [by apply prefix_cons|by rewrite <-app_assoc in HI|].
      intros Hres. by rewrite (Heq Hres).
  - exists []. rewrite app_nil_r. split; [apply prefix_nil|].
    destruct (run (f x) w) as [w1 [e|[]]]; cbn [fst snd] in *; by split_and!.
Qed.

(** What the loop appended, element by element. *)
Lemma run_for_map {A B} (Q : A → B → Prop) (f : A → M B) xs w w' ys :
  (∀ x w w' y, run (f x) w = (w', inr y) → Q x y) →
  run (for_map xs f) w = (w', inr ys) → Forall2 Q xs ys.
Proof.
  intros HQ. revert w ys. induction xs as [|x xs IH]; intros w ys; cbn [for_map].
  { rewrite run_ret. intros; simplify_eq. constructor. }
  rewrite !run_bind_inr. intros (w1 & y & Hy & (w2 & ys' & Hys & Hr)%run_bind_inr).
  rewrite run_ret in Hr. simplify_eq. eauto.
Qed.

End world_lemmas.

Lemma all_atoms_ret {PL : Platform} R {A} (a : A) : all_atoms R (ret a : M A).
Proof. done. Qed.
Lemma all_atoms_fail {PL : Platform} R {A} e : all_atoms R (fail e : M A).
Proof. done. Qed.

#[global] Arguments sql : simpl never.
#[global] Arguments pipe_Exec : simpl never.
#[global] Arguments pbind : simpl never.
#[global] Arguments bind : simpl never.
#[global] Arguments wrap : simpl never.
#[global] Arguments time_Now : simpl never.
#[global] Arguments rand_Read : simpl never.
#[global] Arguments hub_Publish : simpl never.
#[global] Arguments all_atoms : simpl never.
#[global] Arguments guarded : simpl never.
#[global] Arguments sql_check : simpl never.

(** Reads the conditions and the outcome of a statement that succeeded. *)
Ltac invert_stmt :=
  repeat match goal with
  | H : sql_check _ _ _ = inr _ |- _ => apply sql_check_inr in H; destruct H
  | H : sql_ret _ _ = inr _ |- _ => unfold sql_ret in H
  | H : inr _ = inr _ |- _ => injection H; clear H; intros; subst
  | H : inl _ = inr _ |- _ => discriminate H
  | H : context [match ?x with _ => _ end] |- _ =>
      lazymatch type of H with _ = @inr sql_error _ _ => destruct x eqn:? end
  end.

(** A read: introduces its result [res] and what it says of the database. *)
Ltac read_row res :=
  match goal with
  | |- context [run (sql ?stmt) ?w] =>
      let E := fresh "E" in let Hin := fresh "Hread" in let Hok := fresh "Hok" in
      let Herr := fresh "Herr" in
      destruct (run_read stmt w) as (res & E & Hin & Hok & Herr);
      [intros ? ? ? ? ? ?; unfold select_id, select_row in *; invert_stmt; done
      |rewrite E; clear E; cbn [fst snd]]
  end.

(** A write: not executed, executed, or executed without its reply. *)
Ltac write_cases :=
  match goal with
  | |- context [run (sql ?stmt) ?w] =>
      let r := fresh "r" in let d := fresh "d" in let Hs := fresh "Hs" in
      destruct (run_sql_cases stmt w) as [[? ->]|(r & d & Hs & [->|[? ->]])];
      cbn [fst snd]; [|cbv zeta in Hs; invert_stmt..]
  end.

(** Decomposes a program into its interactions; the statements are left. *)
Ltac atoms_step :=
  lazymatch goal with
  | |- all_atoms _ (Ret _) => exact I
  | |- all_atoms _ (ret _) => exact I
  | |- all_atoms _ (fail _) => exact I
  | |- all_atoms _ (lift _) => exact I
  | |- all_atoms _ (bind _ _) => apply all_atoms_bind; [|intros ?]
  | |- all_atoms _ (pbind _ _) => apply all_atoms_pbind; [|intros ?]
  | |- all_atoms _ (wrap _ _) => apply all_atoms_wrap
  | |- all_atoms _ (for_each _ _) => apply all_atoms_for_each; intros ?
  | |- all_atoms _ (for_map _ _) => apply all_atoms_for_map; intros ?
  | |- all_atoms _ (for_all _ _) => apply all_atoms_for_all; intros ?
  | |- all_atoms (on_db _) (pipe_Exec _) => apply all_atoms_pipe_db; apply _
  | |- all_atoms (on_db _) (hub_Publish _) => apply all_atoms_hub_db; apply _
  | |- all_atoms _ time_Now => apply all_atoms_time; intros ?; unfold on_db; reflexivity
  | |- all_atoms _ (rand_Read _) => apply all_atoms_rand; intros ?; unfold on_db; reflexivity
  | |- all_atoms (on_db _) (sql _) => apply all_atoms_sql; [apply _|intros ? ? ? ? ? ?; try (invert_stmt; done)]
  | |- all_atoms _ (if ?b then _ else _) => destruct b
  | |- all_atoms _ (match ?x with _ => _ end) => destruct x
  end.
Ltac atoms := repeat atoms_step.

#[export] Hint Rewrite @run_pbind @run_bind @run_wrap @run_ret @run_fail @run_atom : go_rw.
#[export] Hint Resolve all_atoms_bind all_atoms_wrap all_atoms_for_each all_atoms_pipe_db
  all_atoms_hub_db all_atoms_hub_redis : go.

(** A world with empty counters, on the concrete platform. *)
Definition demo_world (d : DB) : World (PL := demo) :=
  mkWorld (PL := demo) d (∅ : gmap string rvalue) PubSub.NewHub [] [] 0.
