(* ===== verification/Pool.v ===== *)
(** * internal/repository/pgx: the pool and transactions (pool.go, querier.go)

    [NewPool] and [WithTx].  A transaction is modelled as its database sees it
    when no other one runs: Begin, the statements of the function on the
    transaction's own state, and Commit or Rollback; its isolation from
    concurrent transactions is Postgres's and not modelled.  No handler of the
    program calls [WithTx]. *)

From S2P Require Import Prelude GoStrings Domain Schema Platform Effects.

Open Scope go_scope.

(** ** Definitions *)

Section pool.
Context {PL : Platform}.

(** [pool.Ping]: an empty statement. *)
Definition pool_Ping : M unit := sql (λ _ _ d, inr (tt, d)).

(** [pgxpool] is the result of [pgxpool.New]. *)
Definition NewPool (pgxpool : go_error + unit) : M unit :=
  let* p := lift pgxpool in
  match p with
  | inl err => fail (Wrap "pgx: creating pool" err)
  | inr _ => wrap "pgx: ping" pool_Ping
  end.

(** [pool.Begin] and the end of a transaction are commands like any other: the
    connection may fail before the server executes them, or after. *)
Definition WithTx (fn : M unit) : M unit :=
  atom (λ w,
    match env_fault (w_tick w) with
    | Some _ => (tick w, inl (ErrSQL ConnectionFailure))
    | None =>
        match run fn (tick w) with
        | (w1, inl err) => (set_db (w_db w) (tick w1), inl err)
        | (w1, inr _) =>
            match env_fault (w_tick w1) with
            | None => (tick w1, inr tt)
            | Some (O, _) => (set_db (w_db w) (tick w1), inl (ErrSQL ConnectionFailure))
            | Some _ => (tick w1, inl (ErrSQL ConnectionFailure))
            end
        end
    end).

End pool.

(** ** Properties *)

(** transactions are all or nothing.  Whatever fails, the tables are what the
    function left, and it returned no error, or they are as before, and an error
    is returned; when nothing is wrong with the connection the error is the
    function's. *)
Theorem WithTx_atomic {PL : Platform} (fn : M unit) w w' r (Hrun : run (WithTx fn) w = (w', r)) :
  (w_db w' = w_db w ∧ ∃ err, r = inl err) ∨
  (∃ w1, run fn (tick w) = (w1, inr tt) ∧ w_db w' = w_db w1 ∧
     (r = inr tt ∨ (r = inl (ErrSQL ConnectionFailure) ∧ env_fault (w_tick w1) ≠ None))).
Proof.
  unfold WithTx in Hrun. rewrite run_atom in Hrun.
  destruct (env_fault (w_tick w)) as [f|] eqn:E; [injection Hrun as <- <-; left; split; [done|by eexists]|].
  destruct (run fn (tick w)) as [w1 [err|[]]]; [injection Hrun as <- <-; left; split; [done|by eexists]|].
  destruct (env_fault (w_tick w1)) as [[[|n] m]|] eqn:E1; injection Hrun as <- <-.
  - left. split; [done|by eexists].
  - right. exists w1. split_and!; [done..|]. right. by rewrite E1.
  - right. exists w1. split_and!; [done..|]. by left.
Qed.
