(* ===== verification/Interfaces.v ===== *)
(** * internal/domain: repository interfaces

    One class per Go interface of [domain.go]; the services of internal/service
    are defined over these classes, and the files Repo*.v give the instances
    that run SQL. *)

From S2P Require Import Prelude Domain Platform Effects.

Section interfaces.
Context {PL : Platform}.

Class UserRepository := {
  Users_Create : User → M User;
  Users_GetByID : UUID → M User;
  Users_GetByEmail : string → M User;
  Users_List : Z → Z → M (list User);
  Users_Update : User → M User;
  Users_Delete : UUID → M unit }.

Class DeviceRepository := {
  Devices_Create : Device → M Device;
  Devices_GetByID : UUID → M Device;
  Devices_ListByUser : UUID → M (list Device);
  Devices_Delete : UUID → M unit }.

Class APIKeyRepository := {
  APIKeys_Create : APIKey → M APIKey;
  APIKeys_GetByHash : string → M APIKey;
  APIKeys_ListByUser : UUID → M (list APIKey);
  APIKeys_Revoke : UUID → M unit }.

Class TargetSiteRepository := {
  TargetSites_Create : TargetSite → M TargetSite;
  TargetSites_GetByID : UUID → M TargetSite;
  TargetSites_GetOrCreateByDomain : string → string → string → M TargetSite;
  TargetSites_List : M (list TargetSite) }.

Class OriginalSessionRepository := {
  OriginalSessions_Create : OriginalSession → M OriginalSession;
  OriginalSessions_GetByID : UUID → M OriginalSession;
  OriginalSessions_ListByUser : UUID → M (list OriginalSession);
  OriginalSessions_UpdateStatus : UUID → string → M unit }.

Class SessionCookieRepository := {
  SessionCookies_CreateBatch : list SessionCookie → M unit;
  SessionCookies_ListBySession : UUID → M (list SessionCookie) }.

Class SessionTokenRepository := {
  SessionTokens_CreateBatch : list SessionToken → M unit;
  SessionTokens_ListBySession : UUID → M (list SessionToken) }.

Class SharedLinkRepository := {
  SharedLinks_Create : SharedLink → M SharedLink;
  SharedLinks_GetByToken : string → M LinkWithSession;
  SharedLinks_GetByID : UUID → M SharedLink;
  SharedLinks_ListByUser : UUID → string → M (list SharedLink);
  SharedLinks_UpdateStatus : UUID → string → M unit;
  SharedLinks_OwnerUserID : UUID → M UUID }.

Class AccessPolicyRepository := {
  AccessPolicies_Create : AccessPolicy → M AccessPolicy;
  AccessPolicies_GetByID : UUID → M AccessPolicy;
  AccessPolicies_ListByUser : UUID → M (list AccessPolicy);
  AccessPolicies_Delete : UUID → M unit;
  AccessPolicies_AttachToLink : UUID → UUID → M unit;
  AccessPolicies_ListForLink : UUID → M (list AccessPolicy) }.

Class BlacklistRepository := {
  Blacklist_Create : BlacklistedEndpoint → M BlacklistedEndpoint;
  Blacklist_GetByID : UUID → M BlacklistedEndpoint;
  Blacklist_ListByUser : UUID → M (list BlacklistedEndpoint);
  Blacklist_Delete : UUID → M unit;
  Blacklist_AttachToSite : UUID → UUID → M unit;
  Blacklist_AttachToLink : UUID → UUID → M unit;
  Blacklist_SetBlockedMethods : UUID → list string → M unit;
  Blacklist_RulesForLink : UUID → UUID → M (list BlacklistedEndpoint) }.

Class GuestRepository := {
  Guests_GetOrCreate : string → string → string → M Guest;
  Guests_List : Z → Z → M (list Guest) }.

Class GuestSessionRepository := {
  GuestSessions_Create : GuestSession → M GuestSession;
  GuestSessions_GetActiveByLinkAndGuest : UUID → option UUID → M (option GuestSession);
  GuestSessions_ListByLink : UUID → M (list GuestSession);
  GuestSessions_Terminate : UUID → M unit;
  GuestSessions_TouchLastRequest : UUID → M unit }.

Class UsageCounterRepository := {
  Usage_GetByLink : UUID → M UsageCounters;
  Usage_Upsert : UsageCounters → M unit }.

Class ProxyAccessLogRepository := {
  ProxyAccessLogs_Insert : ProxyAccessLog → M unit;
  ProxyAccessLogs_InsertBatch : list ProxyAccessLog → M unit;
  ProxyAccessLogs_ListByLink : UUID → Z → M (list ProxyAccessLog) }.

Class LinkTerminationRepository := {
  LinkTerminations_Create : LinkTermination → M unit;
  LinkTerminations_GetByLink : UUID → M (option LinkTermination);
  LinkTerminations_ListReasons : M (list RevocationReason) }.

Class SecurityEventRepository := {
  SecurityEvents_Create : SecurityEvent → M unit;
  SecurityEvents_ListByLink : UUID → Z → M (list SecurityEvent);
  SecurityEvents_ListRecent : Z → M (list SecurityEvent) }.

Class StatsRepository := {
  Stats_GetLinkStats : UUID → M (option LinkStats);
  Stats_RefreshMaterializedView : M unit }.

End interfaces.
