(* ===== verification/RepoLinks.v ===== *)
(** * internal/repository/pgx: links, policies, blacklist (links.go)

    Each method is its SQL statement on the tables of [Schema], followed by the
    error wrapping of its scan helper. *)

From S2P Require Import Prelude GoStrings Domain Schema Platform Effects Interfaces.

Open Scope go_scope.

Section defs.
Context {PL : Platform}.

(** [nullIfEmpty], and [COALESCE($n, fallback)] on its result. *)
Definition nullIfEmpty (s : string) : option string :=
  if decide (s = EmptyString) then None else Some s.
Definition coalesce {A} (o : option A) (fallback : A) : A := default fallback o.

(** Scan helpers that return [pgx.ErrNoRows] as it is and wrap the rest. *)
Definition scan_keep_norows {A} (msg : string) (m : M A) : M A :=
  pbind m (λ r, match r with
                | inl e => if errors_Is e pgx_ErrNoRows then fail e else fail (Wrap msg e)
                | inr a => ret a
                end).

(** [LIMIT n] *)
Definition limit {A} (n : Z) (l : list A) : list A := take (Z.to_nat n) l.
(** [OFFSET n] *)
Definition offset {A} (n : Z) (l : list A) : list A := drop (Z.to_nat n) l.

(** ** SharedLinkRepo *)

Definition scanSharedLink (m : M SharedLink) : M SharedLink := wrap "pgx: scan shared_link" m.

Definition SharedLinkRepo_Create (l : SharedLink) : M SharedLink :=
  scanSharedLink (sql (λ id now d,
    let row := mkSharedLink id (SharedLink_OriginalSessionID l) (SharedLink_Token l)
                 (coalesce (nullIfEmpty (SharedLink_Status l)) LinkStatusActive)
                 (SharedLink_Label l) now (timestamptz <$> SharedLink_ExpiresAt l) in
    sql_check (varchar 255 (SharedLink_Token row) && varchar 20 (SharedLink_Status row)
               && varchar_opt 100 (SharedLink_Label row)) StringDataRightTruncation $
    sql_check (fresh_in (shared_links d) id) UniqueViolation $
    sql_check (negb (existsb (λ l', bool_decide (SharedLink_Token l' = SharedLink_Token l))
                             (rows (shared_links d)))) UniqueViolation $
    sql_check (references (original_sessions d) (SharedLink_OriginalSessionID l))
              ForeignKeyViolation $
    sql_ret row (set_shared_links <[id := row]> d))).

Definition SharedLinkRepo_GetByID (id : UUID) : M SharedLink :=
  scanSharedLink (sql (λ _ _ d, select_id (shared_links d) id d)).

(** The two joins of GetByToken. *)
Definition join_link (d : DB) (sl : SharedLink) : option LinkWithSession :=
  os ← original_sessions d !! SharedLink_OriginalSessionID sl;
  ts ← target_sites d !! OriginalSession_TargetSiteID os;
  Some (mkLinkWithSession sl os ts (OriginalSession_UserID os)).

Definition SharedLinkRepo_GetByToken (token : string) : M LinkWithSession :=
  scan_keep_norows "pgx: get link by token" (sql (λ _ _ d,
    match head (omap (join_link d)
                  (filter (λ sl, SharedLink_Token sl = token) (rows (shared_links d)))) with
    | Some out => inr (out, d)
    | None => inl NoRows
    end)).

(** The owner a row of shared_links is joined to. *)
Definition link_owner (d : DB) (sl : SharedLink) : option UUID :=
  OriginalSession_UserID <$> original_sessions d !! SharedLink_OriginalSessionID sl.

Definition SharedLinkRepo_ListByUser (userID : UUID) (status : string) : M (list SharedLink) :=
  wrap "pgx: list shared_links" (sql (λ _ _ d,
    inr (order_desc SharedLink_CreatedAt
           (filter (λ sl, link_owner d sl = Some userID ∧
                          (status = EmptyString ∨ SharedLink_Status sl = status))
                   (rows (shared_links d))), d))).

Definition SharedLink_with_status (status : string) (l : SharedLink) : SharedLink :=
  mkSharedLink (SharedLink_ID l) (SharedLink_OriginalSessionID l) (SharedLink_Token l)
    status (SharedLink_Label l) (SharedLink_CreatedAt l) (SharedLink_ExpiresAt l).

Definition SharedLinkRepo_UpdateStatus (id : UUID) (status : string) : M unit :=
  sql (λ _ _ d,
    sql_check (varchar 20 status) StringDataRightTruncation $
    sql_ret tt (set_shared_links (alter (SharedLink_with_status status) id) d)).

Definition SharedLinkRepo_OwnerUserID (linkID : UUID) : M UUID :=
  wrap "pgx: owner_user_id" (sql (λ _ _ d,
    match shared_links d !! linkID ≫= link_owner d with
    | Some u => inr (u, d)
    | None => inl NoRows
    end)).

#[export] Instance SharedLinkRepo : SharedLinkRepository := {|
  SharedLinks_Create := SharedLinkRepo_Create;
  SharedLinks_GetByToken := SharedLinkRepo_GetByToken;
  SharedLinks_GetByID := SharedLinkRepo_GetByID;
  SharedLinks_ListByUser := SharedLinkRepo_ListByUser;
  SharedLinks_UpdateStatus := SharedLinkRepo_UpdateStatus;
  SharedLinks_OwnerUserID := SharedLinkRepo_OwnerUserID |}.

(** ** AccessPolicyRepo *)

Definition scanAccessPolicy (m : M AccessPolicy) : M AccessPolicy := wrap "pgx: scan access_policy" m.

(** An omitted max_violation_count is an explicit NULL here: the column's
    DEFAULT does not apply. *)
Definition AccessPolicyRepo_Create (p : AccessPolicy) : M AccessPolicy :=
  scanAccessPolicy (sql (λ id now d,
    let row := mkAccessPolicy id (AccessPolicy_UserID p) (AccessPolicy_Name p)
                 (AccessPolicy_MaxRequests p) (AccessPolicy_MaxBytesTransferred p)
                 (AccessPolicy_MaxTTLSeconds p) (AccessPolicy_MaxViolationCount p) now in
    sql_check (varchar 100 (AccessPolicy_Name p)) StringDataRightTruncation $
    sql_check (int4_opt (AccessPolicy_MaxRequests p) && int4_opt (AccessPolicy_MaxTTLSeconds p)
               && int4_opt (AccessPolicy_MaxViolationCount p)) NumericValueOutOfRange $
    sql_check (fresh_in (access_policies d) id) UniqueViolation $
    sql_check (references (users d) (AccessPolicy_UserID p)) ForeignKeyViolation $
    sql_ret row (set_access_policies <[id := row]> d))).

Definition AccessPolicyRepo_GetByID (id : UUID) : M AccessPolicy :=
  scanAccessPolicy (sql (λ _ _ d, select_id (access_policies d) id d)).

Definition AccessPolicyRepo_ListByUser (userID : UUID) : M (list AccessPolicy) :=
  wrap "pgx: list access_policies" (sql (λ _ _ d,
    inr (order_desc AccessPolicy_CreatedAt
           (filter (λ p, AccessPolicy_UserID p = userID) (rows (access_policies d))), d))).

(** The row and, by ON DELETE CASCADE, its attachments. *)
Definition AccessPolicyRepo_Delete (id : UUID) : M unit :=
  sql (λ _ _ d,
    sql_ret tt (set_link_policies (filter (λ lp : UUID * UUID, lp.2 ≠ id))
                 (set_access_policies (delete id) d))).

Definition AccessPolicyRepo_AttachToLink (linkID policyID : UUID) : M unit :=
  sql (λ _ _ d,
    sql_check (references (shared_links d) linkID && references (access_policies d) policyID)
              ForeignKeyViolation $
    sql_ret tt (set_link_policies (union {[(linkID, policyID)]}) d)).

Definition AccessPolicyRepo_ListForLink (linkID : UUID) : M (list AccessPolicy) :=
  wrap "pgx: list policies for link" (sql (λ _ _ d,
    inr (filter (λ p, (linkID, AccessPolicy_ID p) ∈ link_policies d) (rows (access_policies d)), d))).

#[export] Instance AccessPolicyRepo : AccessPolicyRepository := {|
  AccessPolicies_Create := AccessPolicyRepo_Create;
  AccessPolicies_GetByID := AccessPolicyRepo_GetByID;
  AccessPolicies_ListByUser := AccessPolicyRepo_ListByUser;
  AccessPolicies_Delete := AccessPolicyRepo_Delete;
  AccessPolicies_AttachToLink := AccessPolicyRepo_AttachToLink;
  AccessPolicies_ListForLink := AccessPolicyRepo_ListForLink |}.

(** ** BlacklistRepo *)

Definition scanBlacklistedEndpoint (m : M BlacklistedEndpoint) : M BlacklistedEndpoint :=
  wrap "pgx: scan blacklisted_endpoint" m.

Definition BlacklistRepo_Create (e : BlacklistedEndpoint) : M BlacklistedEndpoint :=
  scanBlacklistedEndpoint (sql (λ id now d,
    let row := mkBlacklistedEndpoint id (BlacklistedEndpoint_UserID e)
                 (BlacklistedEndpoint_Pattern e)
                 (coalesce (nullIfEmpty (BlacklistedEndpoint_PatternType e)) PatternTypePrefix)
                 (BlacklistedEndpoint_Description e) now [] in
    sql_check (varchar 1024 (BlacklistedEndpoint_Pattern row)
               && varchar 20 (BlacklistedEndpoint_PatternType row)) StringDataRightTruncation $
    sql_check (fresh_in (blacklisted_endpoints d) id) UniqueViolation $
    sql_check (references (users d) (BlacklistedEndpoint_UserID e)) ForeignKeyViolation $
    sql_ret row (set_blacklisted_endpoints <[id := row]> d))).

Definition methods_of (d : DB) (endpointID : UUID) : list string :=
  omap (λ em : UUID * string, if decide (em.1 = endpointID) then Some em.2 else None)
       (elements (endpoint_blocked_methods d)).

Definition BlacklistRepo_blockedMethods (endpointID : UUID) : M (list string) :=
  wrap "pgx: blocked_methods" (sql (λ _ _ d, sql_ret (methods_of d endpointID) d)).

Definition with_methods (e : BlacklistedEndpoint) (methods : list string) : BlacklistedEndpoint :=
  mkBlacklistedEndpoint (BlacklistedEndpoint_ID e) (BlacklistedEndpoint_UserID e)
    (BlacklistedEndpoint_Pattern e) (BlacklistedEndpoint_PatternType e)
    (BlacklistedEndpoint_Description e) (BlacklistedEndpoint_CreatedAt e) methods.

(** [for i := range out { methods, err := r.blockedMethods(..); .. }] *)
Fixpoint load_methods (out : list BlacklistedEndpoint) : M (list BlacklistedEndpoint) :=
  match out with
  | [] => ret []
  | e :: out' =>
      let! methods := BlacklistRepo_blockedMethods (BlacklistedEndpoint_ID e) in
      let! rest := load_methods out' in
      ret (with_methods e methods :: rest)
  end.

Definition BlacklistRepo_GetByID (id : UUID) : M BlacklistedEndpoint :=
  let! e := scanBlacklistedEndpoint (sql (λ _ _ d, select_id (blacklisted_endpoints d) id d)) in
  let! methods := BlacklistRepo_blockedMethods (BlacklistedEndpoint_ID e) in
  ret (with_methods e methods).

Definition BlacklistRepo_ListByUser (userID : UUID) : M (list BlacklistedEndpoint) :=
  let! out := wrap "pgx: list blacklisted_endpoints" (sql (λ _ _ d,
    inr (order_desc BlacklistedEndpoint_CreatedAt
           (filter (λ e, BlacklistedEndpoint_UserID e = userID)
                   (rows (blacklisted_endpoints d))), d))) in
  load_methods out.

(** The row and, by ON DELETE CASCADE, its methods and its attachments. *)
Definition BlacklistRepo_Delete (id : UUID) : M unit :=
  sql (λ _ _ d,
    sql_ret tt (set_endpoint_blocked_methods (filter (λ em : UUID * string, em.1 ≠ id))
      (set_site_endpoint_rules (filter (λ r : UUID * UUID, r.2 ≠ id))
        (set_link_endpoint_rules (filter (λ r : UUID * UUID, r.2 ≠ id))
          (set_blacklisted_endpoints (delete id) d))))).

Definition BlacklistRepo_AttachToSite (siteID endpointID : UUID) : M unit :=
  sql (λ _ _ d,
    sql_check (references (target_sites d) siteID
               && references (blacklisted_endpoints d) endpointID) ForeignKeyViolation $
    sql_ret tt (set_site_endpoint_rules (union {[(siteID, endpointID)]}) d)).

Definition BlacklistRepo_AttachToLink (linkID endpointID : UUID) : M unit :=
  sql (λ _ _ d,
    sql_check (references (shared_links d) linkID
               && references (blacklisted_endpoints d) endpointID) ForeignKeyViolation $
    sql_ret tt (set_link_endpoint_rules (union {[(linkID, endpointID)]}) d)).

(** One DELETE and one INSERT per method, without a transaction. *)
Definition BlacklistRepo_SetBlockedMethods (endpointID : UUID) (methods : list string) : M unit :=
  let! _ := wrap "pgx: clear endpoint_blocked_methods" (sql (λ _ _ d,
    sql_ret tt (set_endpoint_blocked_methods
                  (filter (λ em : UUID * string, em.1 ≠ endpointID)) d))) in
  for_each methods (λ m,
    wrap "pgx: insert endpoint_blocked_methods" (sql (λ _ _ d,
      sql_check (varchar 10 m) StringDataRightTruncation $
      sql_check (bool_decide ((endpointID, m) ∉ endpoint_blocked_methods d)) UniqueViolation $
      sql_check (references (blacklisted_endpoints d) endpointID) ForeignKeyViolation $
      sql_ret tt (set_endpoint_blocked_methods (union {[(endpointID, m)]}) d)))).

(** The rows of the UNION: site-level and link-level rules. *)
Definition rules_for (d : DB) (linkID targetSiteID : UUID) : list BlacklistedEndpoint :=
  filter (λ e, (targetSiteID, BlacklistedEndpoint_ID e) ∈ site_endpoint_rules d ∨
               (linkID, BlacklistedEndpoint_ID e) ∈ link_endpoint_rules d)
         (rows (blacklisted_endpoints d)).

Definition BlacklistRepo_RulesForLink (linkID targetSiteID : UUID) : M (list BlacklistedEndpoint) :=
  let! out := wrap "pgx: rules for link" (sql (λ _ _ d, inr (rules_for d linkID targetSiteID, d))) in
  load_methods out.

#[export] Instance BlacklistRepo : BlacklistRepository := {|
  Blacklist_Create := BlacklistRepo_Create;
  Blacklist_GetByID := BlacklistRepo_GetByID;
  Blacklist_ListByUser := BlacklistRepo_ListByUser;
  Blacklist_Delete := BlacklistRepo_Delete;
  Blacklist_AttachToSite := BlacklistRepo_AttachToSite;
  Blacklist_AttachToLink := BlacklistRepo_AttachToLink;
  Blacklist_SetBlockedMethods := BlacklistRepo_SetBlockedMethods;
  Blacklist_RulesForLink := BlacklistRepo_RulesForLink |}.

End defs.

(** Resolves the interface methods to those of this file. *)
Ltac repo_links :=
  cbn [SharedLinkRepo SharedLinks_Create SharedLinks_GetByToken SharedLinks_GetByID
       SharedLinks_ListByUser SharedLinks_UpdateStatus SharedLinks_OwnerUserID
       AccessPolicyRepo AccessPolicies_Create AccessPolicies_GetByID
       AccessPolicies_ListByUser AccessPolicies_Delete AccessPolicies_AttachToLink
       AccessPolicies_ListForLink BlacklistRepo Blacklist_Create Blacklist_GetByID
       Blacklist_ListByUser Blacklist_Delete Blacklist_AttachToSite Blacklist_AttachToLink
       Blacklist_SetBlockedMethods Blacklist_RulesForLink].
