(* ===== verification/RepoUsers.v ===== *)
(** * internal/repository/pgx: users, devices, API keys (users.go) *)

From S2P Require Import Prelude GoStrings Domain Schema Platform Effects Interfaces RepoLinks.

Open Scope go_scope.

Section defs.
Context {PL : Platform}.

(** ** UserRepo *)

Definition scanUser (m : M User) : M User := wrap "pgx: scan user" m.

Definition email_taken (d : DB) (self : UUID) (email : string) : bool :=
  existsb (λ u, bool_decide (User_Email u = email ∧ User_ID u ≠ self)) (rows (users d)).

Definition UserRepo_Create (u : User) : M User :=
  scanUser (sql (λ id now d,
    let row := mkUser id (User_Email u) (User_PasswordHash u) (User_DisplayName u) now now in
    sql_check (varchar 255 (User_Email u) && varchar 255 (User_PasswordHash u)
               && varchar_opt 100 (User_DisplayName u)) StringDataRightTruncation $
    sql_check (fresh_in (users d) id) UniqueViolation $
    sql_check (negb (email_taken d id (User_Email u))) UniqueViolation $
    sql_ret row (set_users <[id := row]> d))).

Definition UserRepo_GetByID (id : UUID) : M User :=
  scanUser (sql (λ _ _ d, select_id (users d) id d)).

Definition UserRepo_GetByEmail (email : string) : M User :=
  scanUser (sql (λ _ _ d, select_row (λ u, bool_decide (User_Email u = email)) (users d) d)).

Definition UserRepo_List (lim off : Z) : M (list User) :=
  wrap "pgx: list users" (sql (λ _ _ d,
    sql_ret (limit lim (offset off (order_desc User_CreatedAt (rows (users d))))) d)).

Definition UserRepo_Update (u : User) : M User :=
  scanUser (sql (λ _ now d,
    match users d !! User_ID u with
    | None => inl NoRows
    | Some old =>
        let row := mkUser (User_ID old) (User_Email u) (User_PasswordHash old)
                     (User_DisplayName u) (User_CreatedAt old) now in
        sql_check (varchar 255 (User_Email u) && varchar_opt 100 (User_DisplayName u))
                  StringDataRightTruncation $
        sql_check (negb (email_taken d (User_ID u) (User_Email u))) UniqueViolation $
        sql_ret row (set_users <[User_ID u := row]> d)
    end)).

(** ON DELETE SET NULL of a nullable reference. *)
Definition null_if_gone (gone : gset UUID) (ref : option UUID) : option UUID :=
  match ref with
  | Some id => if decide (id ∈ gone) then None else Some id
  | None => None
  end.

(** ON DELETE CASCADE and SET NULL from [users], as the migrations chain them. *)
Definition delete_user (id : UUID) (d : DB) : DB :=
  let gone_devices : gset UUID := dom (filter (λ kv, Device_UserID kv.2 = id) (devices d)) in
  let gone_sessions : gset UUID :=
    dom (filter (λ kv, OriginalSession_UserID kv.2 = id) (original_sessions d)) in
  let gone_links : gset UUID :=
    dom (filter (λ kv, SharedLink_OriginalSessionID kv.2 ∈ gone_sessions) (shared_links d)) in
  let gone_policies : gset UUID :=
    dom (filter (λ kv, AccessPolicy_UserID kv.2 = id) (access_policies d)) in
  let gone_endpoints : gset UUID :=
    dom (filter (λ kv, BlacklistedEndpoint_UserID kv.2 = id) (blacklisted_endpoints d)) in
  let gone_guest_sessions : gset UUID :=
    dom (filter (λ kv, GuestSession_SharedLinkID kv.2 ∈ gone_links) (guest_sessions d)) in
  mkDB
    (delete id (users d))
    (filter (λ kv, Device_UserID kv.2 ≠ id) (devices d))
    ((λ k, mkAPIKey (APIKey_ID k) (APIKey_UserID k)
             (null_if_gone gone_devices (APIKey_DeviceID k))
             (APIKey_KeyHash k) (APIKey_Label k) (APIKey_RevokedAt k) (APIKey_ExpiresAt k)
             (APIKey_CreatedAt k))
       <$> filter (λ kv, APIKey_UserID kv.2 ≠ id) (api_keys d))
    (target_sites d)
    ((λ s, mkOriginalSession (OriginalSession_ID s) (OriginalSession_UserID s)
             (OriginalSession_TargetSiteID s)
             (null_if_gone gone_devices (OriginalSession_DeviceID s))
             (OriginalSession_Status s) (OriginalSession_Label s)
             (OriginalSession_ImportedAt s) (OriginalSession_ExpiresAt s))
       <$> filter (λ kv, OriginalSession_UserID kv.2 ≠ id) (original_sessions d))
    (filter (λ kv, SessionCookie_OriginalSessionID kv.2 ∉ gone_sessions) (session_cookies d))
    (filter (λ kv, SessionToken_OriginalSessionID kv.2 ∉ gone_sessions) (session_tokens d))
    (filter (λ kv, SharedLink_OriginalSessionID kv.2 ∉ gone_sessions) (shared_links d))
    (filter (λ kv, AccessPolicy_UserID kv.2 ≠ id) (access_policies d))
    (filter (λ lp : UUID * UUID, lp.1 ∉ gone_links ∧ lp.2 ∉ gone_policies) (link_policies d))
    (filter (λ kv, BlacklistedEndpoint_UserID kv.2 ≠ id) (blacklisted_endpoints d))
    (filter (λ em : UUID * string, em.1 ∉ gone_endpoints) (endpoint_blocked_methods d))
    (filter (λ r : UUID * UUID, r.2 ∉ gone_endpoints) (site_endpoint_rules d))
    (filter (λ r : UUID * UUID, r.1 ∉ gone_links ∧ r.2 ∉ gone_endpoints) (link_endpoint_rules d))
    (guests d)
    (filter (λ kv, GuestSession_SharedLinkID kv.2 ∉ gone_links) (guest_sessions d))
    (filter (λ kv, UsageCounters_SharedLinkID kv.2 ∉ gone_links) (usage_counters d))
    ((λ l, mkProxyAccessLog (ProxyAccessLog_ID l)
             (null_if_gone gone_guest_sessions (ProxyAccessLog_GuestSessionID l))
             (ProxyAccessLog_SharedLinkID l) (ProxyAccessLog_TargetURL l)
             (ProxyAccessLog_HTTPMethod l) (ProxyAccessLog_ResponseStatus l)
             (ProxyAccessLog_BytesTransferred l) (ProxyAccessLog_ResponseTimeMs l)
             (ProxyAccessLog_RequestedAt l))
       <$> filter (λ l, ProxyAccessLog_SharedLinkID l ∉ gone_links) (proxy_access_logs d))
    ((λ t, mkLinkTermination (LinkTermination_ID t) (LinkTermination_SharedLinkID t)
             (LinkTermination_ReasonCode t)
             (null_if_gone {[id]} (LinkTermination_TerminatedBy t))
             (LinkTermination_Notes t) (LinkTermination_TerminatedAt t))
       <$> filter (λ kv, LinkTermination_SharedLinkID kv.2 ∉ gone_links) (link_terminations d))
    ((λ e, mkSecurityEvent (SecurityEvent_ID e)
             (null_if_gone gone_guest_sessions (SecurityEvent_GuestSessionID e))
             (SecurityEvent_SharedLinkID e) (SecurityEvent_EventType e)
             (SecurityEvent_TargetURL e) (SecurityEvent_HTTPMethod e)
             (SecurityEvent_Details e) (SecurityEvent_OccurredAt e))
       <$> filter (λ e, SecurityEvent_SharedLinkID e ∉ gone_links) (security_events d))
    (mv_link_stats d).

Definition UserRepo_Delete (id : UUID) : M unit :=
  sql (λ _ _ d, sql_ret tt (delete_user id d)).

#[export] Instance UserRepo : UserRepository := {|
  Users_Create := UserRepo_Create;
  Users_GetByID := UserRepo_GetByID;
  Users_GetByEmail := UserRepo_GetByEmail;
  Users_List := UserRepo_List;
  Users_Update := UserRepo_Update;
  Users_Delete := UserRepo_Delete |}.

(** ** DeviceRepo *)

Definition scanDevice (m : M Device) : M Device := wrap "pgx: scan device" m.

Definition DeviceRepo_Create (dev : Device) : M Device :=
  scanDevice (sql (λ id now d,
    let row := mkDevice id (Device_UserID dev) (Device_Name dev) (Device_Fingerprint dev) None now in
    sql_check (varchar_opt 100 (Device_Name dev) && varchar_opt 255 (Device_Fingerprint dev))
              StringDataRightTruncation $
    sql_check (fresh_in (devices d) id) UniqueViolation $
    sql_check (references (users d) (Device_UserID dev)) ForeignKeyViolation $
    sql_ret row (set_devices <[id := row]> d))).

Definition DeviceRepo_GetByID (id : UUID) : M Device :=
  scanDevice (sql (λ _ _ d, select_id (devices d) id d)).

Definition DeviceRepo_ListByUser (userID : UUID) : M (list Device) :=
  wrap "pgx: list devices" (sql (λ _ _ d,
    sql_ret (order_desc Device_CreatedAt
               (filter (λ dev, Device_UserID dev = userID) (rows (devices d)))) d)).

Definition APIKey_clear_device (id : UUID) (k : APIKey) : APIKey :=
  if decide (APIKey_DeviceID k = Some id) then
    mkAPIKey (APIKey_ID k) (APIKey_UserID k) None (APIKey_KeyHash k) (APIKey_Label k)
      (APIKey_RevokedAt k) (APIKey_ExpiresAt k) (APIKey_CreatedAt k)
  else k.

Definition OriginalSession_clear_device (id : UUID) (s : OriginalSession) : OriginalSession :=
  if decide (OriginalSession_DeviceID s = Some id) then
    mkOriginalSession (OriginalSession_ID s) (OriginalSession_UserID s)
      (OriginalSession_TargetSiteID s) None (OriginalSession_Status s) (OriginalSession_Label s)
      (OriginalSession_ImportedAt s) (OriginalSession_ExpiresAt s)
  else s.

(** ON DELETE SET NULL on api_keys and original_sessions. *)
Definition DeviceRepo_Delete (id : UUID) : M unit :=
  sql (λ _ _ d,
    sql_ret tt (set_api_keys (fmap (APIKey_clear_device id))
      (set_original_sessions (fmap (OriginalSession_clear_device id))
        (set_devices (delete id) d)))).

#[export] Instance DeviceRepo : DeviceRepository := {|
  Devices_Create := DeviceRepo_Create;
  Devices_GetByID := DeviceRepo_GetByID;
  Devices_ListByUser := DeviceRepo_ListByUser;
  Devices_Delete := DeviceRepo_Delete |}.

(** ** APIKeyRepo *)

Definition scanAPIKey (m : M APIKey) : M APIKey := wrap "pgx: scan api_key" m.

Definition APIKeyRepo_Create (k : APIKey) : M APIKey :=
  scanAPIKey (sql (λ id now d,
    let row := mkAPIKey id (APIKey_UserID k) (APIKey_DeviceID k) (APIKey_KeyHash k)
                 (APIKey_Label k) None (timestamptz <$> APIKey_ExpiresAt k) now in
    sql_check (varchar 255 (APIKey_KeyHash k) && varchar_opt 100 (APIKey_Label k))
              StringDataRightTruncation $
    sql_check (fresh_in (api_keys d) id) UniqueViolation $
    sql_check (references (users d) (APIKey_UserID k)
               && references_opt (devices d) (APIKey_DeviceID k)) ForeignKeyViolation $
    sql_ret row (set_api_keys <[id := row]> d))).

Definition APIKeyRepo_GetByHash (keyHash : string) : M APIKey :=
  scanAPIKey (sql (λ _ _ d,
    select_row (λ k, bool_decide (APIKey_KeyHash k = keyHash)) (api_keys d) d)).

Definition APIKeyRepo_ListByUser (userID : UUID) : M (list APIKey) :=
  wrap "pgx: list api_keys" (sql (λ _ _ d,
    sql_ret (order_desc APIKey_CreatedAt
               (filter (λ k, APIKey_UserID k = userID) (rows (api_keys d)))) d)).

Definition APIKey_revoke (now : GoTime) (k : APIKey) : APIKey :=
  mkAPIKey (APIKey_ID k) (APIKey_UserID k) (APIKey_DeviceID k) (APIKey_KeyHash k) (APIKey_Label k)
    (Some now) (APIKey_ExpiresAt k) (APIKey_CreatedAt k).

Definition APIKeyRepo_Revoke (id : UUID) : M unit :=
  sql (λ _ now d, sql_ret tt (set_api_keys (alter (APIKey_revoke now) id) d)).

#[export] Instance APIKeyRepo : APIKeyRepository := {|
  APIKeys_Create := APIKeyRepo_Create;
  APIKeys_GetByHash := APIKeyRepo_GetByHash;
  APIKeys_ListByUser := APIKeyRepo_ListByUser;
  APIKeys_Revoke := APIKeyRepo_Revoke |}.

End defs.

(** Resolves the interface methods to those of this file. *)
Ltac repo_users :=
  cbn [UserRepo Users_Create Users_GetByID Users_GetByEmail Users_List Users_Update
       Users_Delete DeviceRepo Devices_Create Devices_GetByID Devices_ListByUser
       Devices_Delete APIKeyRepo APIKeys_Create APIKeys_GetByHash APIKeys_ListByUser
       APIKeys_Revoke].
