(* ===== verification/RepoSessions.v ===== *)
(** * internal/repository/pgx: sites, sessions, credentials (sessions.go) *)

From S2P Require Import Prelude GoStrings Domain Schema Platform Effects Interfaces RepoLinks.

Open Scope go_scope.

Section defs.
Context {PL : Platform}.

(** ** TargetSiteRepo *)

Definition scanTargetSite (m : M TargetSite) : M TargetSite := wrap "pgx: scan target_site" m.

Definition TargetSiteRepo_Create (s : TargetSite) : M TargetSite :=
  scanTargetSite (sql (λ id now d,
    let row := mkTargetSite id (TargetSite_BaseDomain s) (TargetSite_Name s) (TargetSite_BaseURL s) now in
    sql_check (varchar 255 (TargetSite_BaseDomain s) && varchar 100 (TargetSite_Name s)
               && varchar 2048 (TargetSite_BaseURL s)) StringDataRightTruncation $
    sql_check (fresh_in (target_sites d) id) UniqueViolation $
    sql_ret row (set_target_sites <[id := row]> d))).

Definition TargetSiteRepo_GetByID (id : UUID) : M TargetSite :=
  scanTargetSite (sql (λ _ _ d, select_id (target_sites d) id d)).

(** Any error of the lookup leads to the insert. *)
Definition TargetSiteRepo_GetOrCreateByDomain (domainName name baseURL : string) : M TargetSite :=
  let* r := scanTargetSite (sql (λ _ _ d,
    select_row (λ s, bool_decide (TargetSite_BaseDomain s = domainName)) (target_sites d) d)) in
  match r with
  | inr site => ret site
  | inl _ => TargetSiteRepo_Create (mkTargetSite uuid_Nil domainName name baseURL 0)
  end.

(** [ORDER BY name] *)
Definition name_le (a b : TargetSite) : Prop :=
  String.le (TargetSite_Name a) (TargetSite_Name b).

#[export] Instance name_le_dec a b : Decision (name_le a b) := _.

Definition TargetSiteRepo_List : M (list TargetSite) :=
  wrap "pgx: list target_sites" (sql (λ _ _ d,
    sql_ret (merge_sort name_le (rows (target_sites d))) d)).

#[export] Instance TargetSiteRepo : TargetSiteRepository := {|
  TargetSites_Create := TargetSiteRepo_Create;
  TargetSites_GetByID := TargetSiteRepo_GetByID;
  TargetSites_GetOrCreateByDomain := TargetSiteRepo_GetOrCreateByDomain;
  TargetSites_List := TargetSiteRepo_List |}.

(** ** OriginalSessionRepo *)

Definition scanOriginalSession (m : M OriginalSession) : M OriginalSession :=
  wrap "pgx: scan original_session" m.

Definition OriginalSessionRepo_Create (s : OriginalSession) : M OriginalSession :=
  scanOriginalSession (sql (λ id now d,
    let row := mkOriginalSession id (OriginalSession_UserID s) (OriginalSession_TargetSiteID s)
                 (OriginalSession_DeviceID s)
                 (coalesce (nullIfEmpty (OriginalSession_Status s)) SessionStatusActive)
                 (OriginalSession_Label s) now (timestamptz <$> OriginalSession_ExpiresAt s) in
    sql_check (varchar 20 (OriginalSession_Status row) && varchar_opt 100 (OriginalSession_Label row))
              StringDataRightTruncation $
    sql_check (fresh_in (original_sessions d) id) UniqueViolation $
    sql_check (references (users d) (OriginalSession_UserID s)
               && references (target_sites d) (OriginalSession_TargetSiteID s)
               && references_opt (devices d) (OriginalSession_DeviceID s)) ForeignKeyViolation $
    sql_ret row (set_original_sessions <[id := row]> d))).

Definition OriginalSessionRepo_GetByID (id : UUID) : M OriginalSession :=
  scanOriginalSession (sql (λ _ _ d, select_id (original_sessions d) id d)).

Definition OriginalSessionRepo_ListByUser (userID : UUID) : M (list OriginalSession) :=
  wrap "pgx: list original_sessions" (sql (λ _ _ d,
    sql_ret (order_desc OriginalSession_ImportedAt
               (filter (λ s, OriginalSession_UserID s = userID) (rows (original_sessions d)))) d)).

Definition OriginalSession_with_status (status : string) (s : OriginalSession) : OriginalSession :=
  mkOriginalSession (OriginalSession_ID s) (OriginalSession_UserID s) (OriginalSession_TargetSiteID s)
    (OriginalSession_DeviceID s) status (OriginalSession_Label s) (OriginalSession_ImportedAt s)
    (OriginalSession_ExpiresAt s).

Definition OriginalSessionRepo_UpdateStatus (id : UUID) (status : string) : M unit :=
  sql (λ _ _ d,
    sql_check (varchar 20 status) StringDataRightTruncation $
    sql_ret tt (set_original_sessions (alter (OriginalSession_with_status status) id) d)).

#[export] Instance OriginalSessionRepo : OriginalSessionRepository := {|
  OriginalSessions_Create := OriginalSessionRepo_Create;
  OriginalSessions_GetByID := OriginalSessionRepo_GetByID;
  OriginalSessions_ListByUser := OriginalSessionRepo_ListByUser;
  OriginalSessions_UpdateStatus := OriginalSessionRepo_UpdateStatus |}.

(** ** SessionCookieRepo *)

Definition nullIfEmptyPath (p : string) : option string :=
  if decide (p = EmptyString) then None else Some p.

(** One INSERT per cookie. *)
Definition SessionCookieRepo_CreateBatch (cookies : list SessionCookie) : M unit :=
  for_each cookies (λ c,
    wrap ("pgx: insert session_cookie " +:+ SessionCookie_Name c) (sql (λ id now d,
      let row := mkSessionCookie id (SessionCookie_OriginalSessionID c) (SessionCookie_Name c)
                   (SessionCookie_ValueEncrypted c) (SessionCookie_Domain c)
                   (coalesce (nullIfEmptyPath (SessionCookie_Path c)) "/")
                   (SessionCookie_Secure c) (SessionCookie_HTTPOnly c) (SessionCookie_SameSite c)
                   (timestamptz <$> SessionCookie_ExpiresAt c) now in
      sql_check (varchar 255 (SessionCookie_Name c) && varchar_opt 255 (SessionCookie_Domain c)
                 && varchar 1024 (SessionCookie_Path row) && varchar_opt 10 (SessionCookie_SameSite c))
                StringDataRightTruncation $
      sql_check (fresh_in (session_cookies d) id) UniqueViolation $
      sql_check (references (original_sessions d) (SessionCookie_OriginalSessionID c))
                ForeignKeyViolation $
      sql_ret tt (set_session_cookies <[id := row]> d)))).

Definition SessionCookieRepo_ListBySession (originalSessionID : UUID) : M (list SessionCookie) :=
  wrap "pgx: list session_cookies" (sql (λ _ _ d,
    sql_ret (filter (λ c, SessionCookie_OriginalSessionID c = originalSessionID)
                    (rows (session_cookies d))) d)).

#[export] Instance SessionCookieRepo : SessionCookieRepository := {|
  SessionCookies_CreateBatch := SessionCookieRepo_CreateBatch;
  SessionCookies_ListBySession := SessionCookieRepo_ListBySession |}.

(** ** SessionTokenRepo *)

(** One INSERT per token; token_type is NOT NULL. *)
Definition SessionTokenRepo_CreateBatch (tokens : list SessionToken) : M unit :=
  for_each tokens (λ t,
    wrap "pgx: insert session_token" (sql (λ id now d,
      let row := mkSessionToken id (SessionToken_OriginalSessionID t) (SessionToken_TokenType t)
                   (SessionToken_HeaderName t) (SessionToken_ValueEncrypted t)
                   (timestamptz <$> SessionToken_ExpiresAt t) now in
      sql_check (bool_decide (is_Some (SessionToken_TokenType t))) NotNullViolation $
      sql_check (varchar_opt 50 (SessionToken_TokenType t) && varchar_opt 100 (SessionToken_HeaderName t))
                StringDataRightTruncation $
      sql_check (fresh_in (session_tokens d) id) UniqueViolation $
      sql_check (references (original_sessions d) (SessionToken_OriginalSessionID t))
                ForeignKeyViolation $
      sql_ret tt (set_session_tokens <[id := row]> d)))).

Definition SessionTokenRepo_ListBySession (originalSessionID : UUID) : M (list SessionToken) :=
  wrap "pgx: list session_tokens" (sql (λ _ _ d,
    sql_ret (filter (λ t, SessionToken_OriginalSessionID t = originalSessionID)
                    (rows (session_tokens d))) d)).

#[export] Instance SessionTokenRepo : SessionTokenRepository := {|
  SessionTokens_CreateBatch := SessionTokenRepo_CreateBatch;
  SessionTokens_ListBySession := SessionTokenRepo_ListBySession |}.

End defs.

(** Resolves the interface methods to those of this file. *)
Ltac repo_sessions :=
  cbn [TargetSiteRepo TargetSites_Create TargetSites_GetByID
       TargetSites_GetOrCreateByDomain TargetSites_List OriginalSessionRepo
       OriginalSessions_Create OriginalSessions_GetByID OriginalSessions_ListByUser
       OriginalSessions_UpdateStatus SessionCookieRepo SessionCookies_CreateBatch
       SessionCookies_ListBySession SessionTokenRepo SessionTokens_CreateBatch
       SessionTokens_ListBySession].
