(* ===== verification/RepoGuests.v ===== *)
(** * internal/repository/pgx: guests, guest sessions, usage counters (guests.go) *)

From S2P Require Import Prelude GoStrings Domain Schema Platform Effects Interfaces RepoLinks.

Open Scope go_scope.

Section defs.
Context {PL : Platform}.

(** ** GuestRepo *)

Definition scanGuest (m : M Guest) : M Guest := scan_keep_norows "pgx: scan guest" m.

(** The row GetOrCreate selects: the latest guest with this address and this
    fingerprint ([IS NOT DISTINCT FROM] compares NULLs as equal). *)
Definition find_guest (ip fingerprint : string) (d : DB) : option Guest :=
  head (order_desc Guest_FirstSeenAt
    (filter (λ g, Guest_IPAddress g = nullIfEmpty ip ∧
                  Guest_BrowserFingerprint g = nullIfEmpty fingerprint) (rows (guests d)))).

Definition Guest_seen (now : GoTime) (g : Guest) : Guest :=
  mkGuest (Guest_ID g) (Guest_IPAddress g) (Guest_UserAgent g) (Guest_BrowserFingerprint g)
    (Guest_FirstSeenAt g) (Some now).

Definition GuestRepo_GetOrCreate (ipAddress userAgent fingerprint : string) : M Guest :=
  let* r := scanGuest (sql (λ _ _ d,
    match find_guest ipAddress fingerprint d with
    | Some g => sql_ret g d
    | None => inl NoRows
    end)) in
  match r with
  | inr g =>
      let* _ := sql (λ _ now d, sql_ret tt (set_guests (alter (Guest_seen now) (Guest_ID g)) d)) in
      ret g
  | inl err =>
      if negb (errors_Is err pgx_ErrNoRows) then fail err
      else
        scanGuest (sql (λ id now d,
          let row := mkGuest id (nullIfEmpty ipAddress) (nullIfEmpty userAgent)
                       (nullIfEmpty fingerprint) now None in
          sql_check (varchar_opt 45 (Guest_IPAddress row)
                     && varchar_opt 255 (Guest_BrowserFingerprint row)) StringDataRightTruncation $
          sql_check (fresh_in (guests d) id) UniqueViolation $
          sql_ret row (set_guests <[id := row]> d)))
  end.

Definition GuestRepo_List (lim off : Z) : M (list Guest) :=
  wrap "pgx: list guests" (sql (λ _ _ d,
    sql_ret (limit lim (offset off (order_desc Guest_FirstSeenAt (rows (guests d))))) d)).

#[export] Instance GuestRepo : GuestRepository := {|
  Guests_GetOrCreate := GuestRepo_GetOrCreate;
  Guests_List := GuestRepo_List |}.

(** ** GuestSessionRepo *)

Definition scanGuestSession (m : M GuestSession) : M GuestSession :=
  scan_keep_norows "pgx: scan guest_session" m.

Definition GuestSessionRepo_Create (gs : GuestSession) : M GuestSession :=
  scanGuestSession (sql (λ id now d,
    let row := mkGuestSession id (GuestSession_SharedLinkID gs) (GuestSession_GuestID gs)
                 (coalesce (nullIfEmpty (GuestSession_Status gs)) GuestSessionActive) now None None in
    sql_check (varchar 20 (GuestSession_Status row)) StringDataRightTruncation $
    sql_check (fresh_in (guest_sessions d) id) UniqueViolation $
    sql_check (references (shared_links d) (GuestSession_SharedLinkID gs)
               && references_opt (guests d) (GuestSession_GuestID gs)) ForeignKeyViolation $
    sql_ret row (set_guest_sessions <[id := row]> d))).

(** The latest active session of this guest on this link. *)
Definition find_guest_session (linkID : UUID) (guestID : option UUID) (d : DB) : option GuestSession :=
  head (order_desc GuestSession_StartedAt
    (filter (λ gs, GuestSession_SharedLinkID gs = linkID ∧ GuestSession_GuestID gs = guestID ∧
                   GuestSession_Status gs = GuestSessionActive) (rows (guest_sessions d)))).

Definition GuestSessionRepo_GetActiveByLinkAndGuest (linkID : UUID) (guestID : option UUID)
    : M (option GuestSession) :=
  let* r := scanGuestSession (sql (λ _ _ d,
    match find_guest_session linkID guestID d with
    | Some gs => sql_ret gs d
    | None => inl NoRows
    end)) in
  match r with
  | inr gs => ret (Some gs)
  | inl err => if errors_Is err pgx_ErrNoRows then ret None else fail err
  end.

Definition GuestSessionRepo_ListByLink (linkID : UUID) : M (list GuestSession) :=
  wrap "pgx: list guest_sessions" (sql (λ _ _ d,
    sql_ret (order_desc GuestSession_StartedAt
               (filter (λ gs, GuestSession_SharedLinkID gs = linkID) (rows (guest_sessions d)))) d)).

Definition GuestSession_terminate (now : GoTime) (gs : GuestSession) : GuestSession :=
  mkGuestSession (GuestSession_ID gs) (GuestSession_SharedLinkID gs) (GuestSession_GuestID gs)
    GuestSessionTerminated (GuestSession_StartedAt gs) (GuestSession_LastRequestAt gs) (Some now).

Definition GuestSessionRepo_Terminate (id : UUID) : M unit :=
  sql (λ _ now d, sql_ret tt (set_guest_sessions (alter (GuestSession_terminate now) id) d)).

Definition GuestSession_touch (now : GoTime) (gs : GuestSession) : GuestSession :=
  mkGuestSession (GuestSession_ID gs) (GuestSession_SharedLinkID gs) (GuestSession_GuestID gs)
    (GuestSession_Status gs) (GuestSession_StartedAt gs) (Some now) (GuestSession_TerminatedAt gs).

Definition GuestSessionRepo_TouchLastRequest (id : UUID) : M unit :=
  sql (λ _ now d, sql_ret tt (set_guest_sessions (alter (GuestSession_touch now) id) d)).

#[export] Instance GuestSessionRepo : GuestSessionRepository := {|
  GuestSessions_Create := GuestSessionRepo_Create;
  GuestSessions_GetActiveByLinkAndGuest := GuestSessionRepo_GetActiveByLinkAndGuest;
  GuestSessions_ListByLink := GuestSessionRepo_ListByLink;
  GuestSessions_Terminate := GuestSessionRepo_Terminate;
  GuestSessions_TouchLastRequest := GuestSessionRepo_TouchLastRequest |}.

(** ** UsageCounterRepo *)

Definition UsageCounterRepo_GetByLink (linkID : UUID) : M UsageCounters :=
  scan_keep_norows "pgx: scan usage_counters" (sql (λ _ _ d, select_id (usage_counters d) linkID d)).

(** [INSERT .. ON CONFLICT (shared_link_id) DO UPDATE]: the row keeps its id. *)
Definition UsageCounterRepo_Upsert (c : UsageCounters) : M unit :=
  sql (λ id now d,
    let link := UsageCounters_SharedLinkID c in
    let row_id := default id (UsageCounters_ID <$> usage_counters d !! link) in
    let row := mkUsageCounters row_id link (UsageCounters_RequestCount c)
                 (UsageCounters_BytesTransferred c) (UsageCounters_ViolationCount c) now in
    sql_check (in_int32b (UsageCounters_RequestCount c) && in_int32b (UsageCounters_ViolationCount c))
              NumericValueOutOfRange $
    sql_check (references (shared_links d) link) ForeignKeyViolation $
    sql_ret tt (set_usage_counters <[link := row]> d)).

#[export] Instance UsageCounterRepo : UsageCounterRepository := {|
  Usage_GetByLink := UsageCounterRepo_GetByLink;
  Usage_Upsert := UsageCounterRepo_Upsert |}.

End defs.

(** Resolves the interface methods to those of this file. *)
Ltac repo_guests :=
  cbn [GuestRepo Guests_GetOrCreate Guests_List GuestSessionRepo GuestSessions_Create
       GuestSessions_GetActiveByLinkAndGuest GuestSessions_ListByLink
       GuestSessions_Terminate GuestSessions_TouchLastRequest UsageCounterRepo
       Usage_GetByLink Usage_Upsert].
