(* ===== verification/RepoLogs.v ===== *)
(** * internal/repository/pgx: access logs, terminations, events, stats (logs.go) *)

From S2P Require Import Prelude GoStrings Domain Schema Platform Effects Interfaces RepoLinks.

Open Scope go_scope.

Section defs.
Context {PL : Platform}.

(** The next value of a bigserial column. *)
Definition next_serial {A} (key : A → Z) (l : list A) : Z := (1 + foldr (λ a, Z.max (key a)) 0 l)%Z.

(** ** ProxyAccessLogRepo *)

Definition zeroTimeToNil (l : ProxyAccessLog) : option GoTime :=
  timestamptz <$> ProxyAccessLog_RequestedAt l.

(** The INSERT of one row. *)
Definition insert_log (now : GoTime) (l : ProxyAccessLog) (d : DB) : sql_result unit :=
  let row := mkProxyAccessLog (next_serial ProxyAccessLog_ID (proxy_access_logs d))
               (ProxyAccessLog_GuestSessionID l) (ProxyAccessLog_SharedLinkID l)
               (ProxyAccessLog_TargetURL l) (ProxyAccessLog_HTTPMethod l)
               (ProxyAccessLog_ResponseStatus l) (ProxyAccessLog_BytesTransferred l)
               (ProxyAccessLog_ResponseTimeMs l) (Some (coalesce (zeroTimeToNil l) now)) in
  sql_check (varchar 2048 (ProxyAccessLog_TargetURL l) && varchar 10 (ProxyAccessLog_HTTPMethod l))
            StringDataRightTruncation $
  sql_check (int4_opt (ProxyAccessLog_ResponseStatus l) && int4_opt (ProxyAccessLog_BytesTransferred l)
             && int4_opt (ProxyAccessLog_ResponseTimeMs l)) NumericValueOutOfRange $
  sql_check (references (shared_links d) (ProxyAccessLog_SharedLinkID l)
             && references_opt (guest_sessions d) (ProxyAccessLog_GuestSessionID l))
            ForeignKeyViolation $
  sql_ret tt (set_proxy_access_logs (λ ls, ls ++ [row]) d).

(** The statements of a batch, in the implicit transaction of its pipeline. *)
Fixpoint insert_logs (now : GoTime) (ls : list ProxyAccessLog) (d : DB) : sql_result unit :=
  match ls with
  | [] => sql_ret tt d
  | l :: ls' =>
      match insert_log now l d with
      | inl e => inl e
      | inr (_, d') => insert_logs now ls' d'
      end
  end.

Definition ProxyAccessLogRepo_Insert (l : ProxyAccessLog) : M unit :=
  wrap "pgx: insert proxy_access_log" (sql (λ _ now d, insert_log now l d)).

(** [ok] tells whether the querier exposes SendBatch; the pool does. *)
Definition ProxyAccessLogRepo_InsertBatch (ok : bool) (logs : list ProxyAccessLog) : M unit :=
  match logs with
  | [] => ret tt
  | _ =>
      if ok then
        wrap "pgx: batch insert proxy_access_logs" (sql (λ _ now d, insert_logs now logs d))
      else for_each logs ProxyAccessLogRepo_Insert
  end.

Definition requested_at (l : ProxyAccessLog) : Z := default 0%Z (ProxyAccessLog_RequestedAt l).

Definition ProxyAccessLogRepo_ListByLink (linkID : UUID) (lim : Z) : M (list ProxyAccessLog) :=
  wrap "pgx: list proxy_access_logs" (sql (λ _ _ d,
    sql_ret (limit lim (order_desc requested_at
      (filter (λ l, ProxyAccessLog_SharedLinkID l = linkID) (proxy_access_logs d)))) d)).

#[export] Instance ProxyAccessLogRepo : ProxyAccessLogRepository := {|
  ProxyAccessLogs_Insert := ProxyAccessLogRepo_Insert;
  ProxyAccessLogs_InsertBatch := ProxyAccessLogRepo_InsertBatch true;
  ProxyAccessLogs_ListByLink := ProxyAccessLogRepo_ListByLink |}.

(** ** LinkTerminationRepo *)

Definition reason_exists (code : string) : bool :=
  existsb (λ r : Z * RevocationReason, bool_decide (RevocationReason_Code r.2 = code)) revocation_reasons.

(** [INSERT .. SELECT .. FROM revocation_reasons WHERE code = $2]: no row, and
    no error, for an unknown code. *)
Definition LinkTerminationRepo_Create (t : LinkTermination) : M unit :=
  wrap "pgx: insert link_termination" (sql (λ id now d,
    if reason_exists (LinkTermination_ReasonCode t) then
      let row := mkLinkTermination id (LinkTermination_SharedLinkID t) (LinkTermination_ReasonCode t)
                   (LinkTermination_TerminatedBy t) (LinkTermination_Notes t) now in
      sql_check (fresh_in (link_terminations d) id) UniqueViolation $
      sql_check (references (shared_links d) (LinkTermination_SharedLinkID t)
                 && references_opt (users d) (LinkTermination_TerminatedBy t)) ForeignKeyViolation $
      sql_ret tt (set_link_terminations <[id := row]> d)
    else sql_ret tt d)).

Definition LinkTerminationRepo_ListReasons : M (list RevocationReason) :=
  wrap "pgx: list revocation_reasons" (sql (λ _ _ d, sql_ret (revocation_reasons.*2) d)).

Definition LinkTerminationRepo_GetByLink (linkID : UUID) : M (option LinkTermination) :=
  let* r := sql (λ _ _ d,
    match head (order_desc LinkTermination_TerminatedAt
            (filter (λ t, LinkTermination_SharedLinkID t = linkID) (rows (link_terminations d)))) with
    | Some t => sql_ret t d
    | None => inl NoRows
    end) in
  match r with
  | inr t => ret (Some t)
  | inl err => if errors_Is err pgx_ErrNoRows then ret None
               else fail (Wrap "pgx: scan link_termination" err)
  end.

#[export] Instance LinkTerminationRepo : LinkTerminationRepository := {|
  LinkTerminations_Create := LinkTerminationRepo_Create;
  LinkTerminations_GetByLink := LinkTerminationRepo_GetByLink;
  LinkTerminations_ListReasons := LinkTerminationRepo_ListReasons |}.

(** ** SecurityEventRepo *)

(** [Details] is marshalled before; the program passes none. *)
Definition SecurityEventRepo_Create (e : SecurityEvent) : M unit :=
  wrap "pgx: insert security_event" (sql (λ _ now d,
    let row := mkSecurityEvent (next_serial SecurityEvent_ID (security_events d))
                 (SecurityEvent_GuestSessionID e) (SecurityEvent_SharedLinkID e)
                 (SecurityEvent_EventType e) (SecurityEvent_TargetURL e)
                 (SecurityEvent_HTTPMethod e) (SecurityEvent_Details e) now in
    sql_check (varchar 50 (SecurityEvent_EventType e) && varchar_opt 2048 (SecurityEvent_TargetURL e)
               && varchar_opt 10 (SecurityEvent_HTTPMethod e)) StringDataRightTruncation $
    sql_check (references (shared_links d) (SecurityEvent_SharedLinkID e)
               && references_opt (guest_sessions d) (SecurityEvent_GuestSessionID e))
              ForeignKeyViolation $
    sql_ret tt (set_security_events (λ es, es ++ [row]) d))).

Definition SecurityEventRepo_ListByLink (linkID : UUID) (lim : Z) : M (list SecurityEvent) :=
  wrap "pgx: list security_events" (sql (λ _ _ d,
    sql_ret (limit lim (order_desc SecurityEvent_OccurredAt
      (filter (λ e, SecurityEvent_SharedLinkID e = linkID) (security_events d)))) d)).

Definition SecurityEventRepo_ListRecent (lim : Z) : M (list SecurityEvent) :=
  wrap "pgx: list recent security_events" (sql (λ _ _ d,
    sql_ret (limit lim (order_desc SecurityEvent_OccurredAt (security_events d))) d)).

#[export] Instance SecurityEventRepo : SecurityEventRepository := {|
  SecurityEvents_Create := SecurityEventRepo_Create;
  SecurityEvents_ListByLink := SecurityEventRepo_ListByLink;
  SecurityEvents_ListRecent := SecurityEventRepo_ListRecent |}.

(** ** StatsRepo *)

Definition StatsRepo_GetLinkStats (linkID : UUID) : M (option LinkStats) :=
  let* r := sql (λ _ _ d,
    match head (filter (λ s, LinkStats_SharedLinkID s = linkID) (mv_link_stats d)) with
    | Some s => sql_ret s d
    | None => inl NoRows
    end) in
  match r with
  | inr s => ret (Some s)
  | inl err => if errors_Is err pgx_ErrNoRows then ret None
               else fail (Wrap "pgx: scan mv_link_stats" err)
  end.

Definition min_opt (l : list Z) : option Z :=
  foldr (λ x acc, Some (match acc with Some y => Z.min x y | None => x end)) None l.
Definition max_opt (l : list Z) : option Z :=
  foldr (λ x acc, Some (match acc with Some y => Z.max x y | None => x end)) None l.

(** One row of the view (migration 00007): the aggregates of a link's logs. *)
Definition stats_row (d : DB) (sl : SharedLink) : option LinkStats :=
  os ← original_sessions d !! SharedLink_OriginalSessionID sl;
  ts ← target_sites d !! OriginalSession_TargetSiteID os;
  let logs := filter (λ l, ProxyAccessLog_SharedLinkID l = SharedLink_ID sl) (proxy_access_logs d) in
  let times : list Z := omap ProxyAccessLog_ResponseTimeMs logs in
  Some (mkLinkStats (TargetSite_ID ts) (TargetSite_Name ts) (TargetSite_BaseDomain ts)
          (SharedLink_ID sl) (Z.of_nat (length logs))
          (foldr Z.add 0%Z (omap ProxyAccessLog_BytesTransferred logs))
          (foldr Z.add 0%Z times, Z.of_nat (length times))
          (min_opt (omap ProxyAccessLog_RequestedAt logs))
          (max_opt (omap ProxyAccessLog_RequestedAt logs))).

Definition StatsRepo_RefreshMaterializedView : M unit :=
  wrap "pgx: refresh mv_link_stats" (sql (λ _ _ d,
    sql_ret tt (set_mv_link_stats (λ _, omap (stats_row d) (rows (shared_links d))) d))).

#[export] Instance StatsRepo : StatsRepository := {|
  Stats_GetLinkStats := StatsRepo_GetLinkStats;
  Stats_RefreshMaterializedView := StatsRepo_RefreshMaterializedView |}.

End defs.

(** Resolves the interface methods to those of this file. *)
Ltac repo_logs :=
  cbn [ProxyAccessLogRepo ProxyAccessLogs_Insert ProxyAccessLogs_InsertBatch
       ProxyAccessLogs_ListByLink LinkTerminationRepo LinkTerminations_Create
       LinkTerminations_GetByLink LinkTerminations_ListReasons SecurityEventRepo
       SecurityEvents_Create SecurityEvents_ListByLink SecurityEvents_ListRecent StatsRepo
       Stats_GetLinkStats Stats_RefreshMaterializedView].
