(* ===== verification/Registry.v ===== *)
(** * internal/repository/pgx: the registry of repositories (registry.go)

    The repositories over the tables, collected as the code collects them.  They
    keep no state but the querier, the database of the world; the ones of a
    transaction are the same functions ([Pool.WithTx] runs them on its state). *)

From S2P Require Import Prelude GoStrings Domain Schema Platform Effects Interfaces RepoUsers RepoSessions RepoLinks RepoGuests RepoLogs.

Open Scope go_scope.

(** ** Definitions *)

Section registry.
Context {PL : Platform}.

Record Repos := mkRepos {
  Repos_Users : UserRepository;
  Repos_Devices : DeviceRepository;
  Repos_APIKeys : APIKeyRepository;
  Repos_TargetSites : TargetSiteRepository;
  Repos_OriginalSessions : OriginalSessionRepository;
  Repos_SessionCookies : SessionCookieRepository;
  Repos_SessionTokens : SessionTokenRepository;
  Repos_SharedLinks : SharedLinkRepository;
  Repos_AccessPolicies : AccessPolicyRepository;
  Repos_Blacklist : BlacklistRepository;
  Repos_Guests : GuestRepository;
  Repos_GuestSessions : GuestSessionRepository;
  Repos_UsageCounters : UsageCounterRepository;
  Repos_ProxyAccessLogs : ProxyAccessLogRepository;
  Repos_LinkTerminations : LinkTerminationRepository;
  Repos_SecurityEvents : SecurityEventRepository;
  Repos_Stats : StatsRepository }.

Definition newRepos : Repos := {|
  Repos_Users := UserRepo;
  Repos_Devices := DeviceRepo;
  Repos_APIKeys := APIKeyRepo;
  Repos_TargetSites := TargetSiteRepo;
  Repos_OriginalSessions := OriginalSessionRepo;
  Repos_SessionCookies := SessionCookieRepo;
  Repos_SessionTokens := SessionTokenRepo;
  Repos_SharedLinks := SharedLinkRepo;
  Repos_AccessPolicies := AccessPolicyRepo;
  Repos_Blacklist := BlacklistRepo;
  Repos_Guests := GuestRepo;
  Repos_GuestSessions := GuestSessionRepo;
  Repos_UsageCounters := UsageCounterRepo;
  Repos_ProxyAccessLogs := ProxyAccessLogRepo;
  Repos_LinkTerminations := LinkTerminationRepo;
  Repos_SecurityEvents := SecurityEventRepo;
  Repos_Stats := StatsRepo |}.

Definition NewRepos : Repos := newRepos.
Definition NewTxRepos : Repos := newRepos.

End registry.
