(* ===== verification/Policy.v ===== *)
(** * internal/service: effective policy of a link (policy_resolver.go) *)

From S2P Require Import Prelude GoStrings Domain Schema Platform Effects Interfaces RepoLinks.

Open Scope go_scope.

(** ** Definitions *)

(** The switch of [minPtr]. *)
Definition minPtr (a b : option Z) : option Z :=
  match a, b with
  | None, _ => b
  | _, None => a
  | Some x, Some y => if (x <? y)%Z then a else b
  end.

Definition minInt64 (a b : Z) : Z := if (a <? b)%Z then a else b.

(** The body of the loop over the attached policies. *)
Definition resolve_step (effective : EffectivePolicy) (p : AccessPolicy) : EffectivePolicy :=
  mkEffectivePolicy
    (minPtr (EffectivePolicy_MaxRequests effective) (AccessPolicy_MaxRequests p))
    (minPtr (EffectivePolicy_MaxBytesTransferred effective) (AccessPolicy_MaxBytesTransferred p))
    (minPtr (EffectivePolicy_MaxTTLSeconds effective) (AccessPolicy_MaxTTLSeconds p))
    (match AccessPolicy_MaxViolationCount p with
     | Some v => minInt64 (EffectivePolicy_MaxViolationCount effective) v
     | None => EffectivePolicy_MaxViolationCount effective
     end).

Definition resolve_policies (ps : list AccessPolicy) : EffectivePolicy :=
  foldl resolve_step (mkEffectivePolicy None None None DefaultMaxViolationCount) ps.

Definition PolicyResolver_Resolve `{PL : Platform} `{!AccessPolicyRepository} (linkID : UUID)
    : M EffectivePolicy :=
  let! policies := wrap "service: list policies for link" (AccessPolicies_ListForLink linkID) in
  ret (resolve_policies policies).

(** [o] is the least of the limits that are set, and unset when none is. *)
Definition least_limit (limits : list (option Z)) (o : option Z) : Prop :=
  match o with
  | Some m => Some m ∈ limits ∧ ∀ m', Some m' ∈ limits → (m <= m')%Z
  | None => ∀ m', Some m' ∉ limits
  end.

(** The effective policy of a list of policies, field by field. *)
Definition most_restrictive (ps : list AccessPolicy) (e : EffectivePolicy) : Prop :=
  least_limit (AccessPolicy_MaxRequests <$> ps) (EffectivePolicy_MaxRequests e) ∧
  least_limit (AccessPolicy_MaxBytesTransferred <$> ps) (EffectivePolicy_MaxBytesTransferred e) ∧
  least_limit (AccessPolicy_MaxTTLSeconds <$> ps) (EffectivePolicy_MaxTTLSeconds e) ∧
  least_limit (Some 3%Z :: (AccessPolicy_MaxViolationCount <$> ps))
              (Some (EffectivePolicy_MaxViolationCount e)).

(** The same as a function. *)
Definition least (limits : list (option Z)) : option Z :=
  foldr (union_with (λ x y, Some (Z.min x y))) None limits.

Definition strictest (ps : list AccessPolicy) : EffectivePolicy :=
  mkEffectivePolicy (least (AccessPolicy_MaxRequests <$> ps))
    (least (AccessPolicy_MaxBytesTransferred <$> ps)) (least (AccessPolicy_MaxTTLSeconds <$> ps))
    (default 3%Z (least (Some 3%Z :: (AccessPolicy_MaxViolationCount <$> ps)))).

(** The policies attached to a link in the database. *)
Definition attached_policies (d : DB) (linkID : UUID) : list AccessPolicy :=
  filter (λ p, (linkID, AccessPolicy_ID p) ∈ link_policies d) (rows (access_policies d)).

(** [a] allows at most what [b] allows. *)
Definition limit_le (a b : option Z) : Prop :=
  match b with
  | None => True
  | Some y => ∃ x, a = Some x ∧ (x <= y)%Z
  end.

Definition tighter (a b : EffectivePolicy) : Prop :=
  limit_le (EffectivePolicy_MaxRequests a) (EffectivePolicy_MaxRequests b) ∧
  limit_le (EffectivePolicy_MaxBytesTransferred a) (EffectivePolicy_MaxBytesTransferred b) ∧
  limit_le (EffectivePolicy_MaxTTLSeconds a) (EffectivePolicy_MaxTTLSeconds b) ∧
  (EffectivePolicy_MaxViolationCount a <= EffectivePolicy_MaxViolationCount b)%Z.

(** ** Lemmas *)

Lemma least_limit_minPtr limits a b :
  least_limit limits a → least_limit (limits ++ [b]) (minPtr a b).
Proof.
  intros Ha. destruct a as [x|], b as [y|]; simpl in *.
  - destruct Ha as [Hin Hle]. destruct (Z.ltb_spec x y); simpl; split.
    + set_solver.
    + intros m' [?|?%list_elem_of_singleton]%elem_of_app; [auto|]. simplify_eq. lia.
    + set_solver.
    + intros m' [H'%Hle|?%list_elem_of_singleton]%elem_of_app; [lia|]. simplify_eq. lia.
  - destruct Ha as [Hin Hle]. split; [set_solver|].
    intros m' [?|?%list_elem_of_singleton]%elem_of_app; [auto|done].
  - split; [set_solver|].
    intros m' [[]%Ha|?%list_elem_of_singleton]%elem_of_app. simplify_eq. lia.
  - intros m' [[]%Ha|?%list_elem_of_singleton]%elem_of_app. done.
Qed.

Lemma least_limit_unique l l' a b :
  l ≡ₚ l' → least_limit l a → least_limit l' b → a = b.
Proof.
  intros Hp Ha Hb. destruct a as [x|], b as [y|]; simpl in *; [|..|done].
  - destruct Ha as [Hx Hax], Hb as [Hy Hby]. rewrite Hp in Hx. rewrite <-Hp in Hy.
    specialize (Hax _ Hy). specialize (Hby _ Hx). f_equal. lia.
  - destruct Ha as [Hx _]. rewrite Hp in Hx. by destruct (Hb x).
  - destruct Hb as [Hy _]. rewrite <-Hp in Hy. by destruct (Ha y).
Qed.

Lemma minInt64_minPtr a b : Some (minInt64 a b) = minPtr (Some a) (Some b).
Proof. unfold minInt64. simpl. by destruct (a <? b)%Z. Qed.

Lemma resolve_step_most_restrictive ps e p :
  most_restrictive ps e → most_restrictive (ps ++ [p]) (resolve_step e p).
Proof.
  intros (H1 & H2 & H3 & H4). unfold most_restrictive. rewrite !fmap_app. cbn [fmap list_fmap].
  split; [|split; [|split]]; try by apply least_limit_minPtr.
  unfold resolve_step; cbn [EffectivePolicy_MaxViolationCount]. destruct (AccessPolicy_MaxViolationCount p) as [v|] eqn:Hv.
  - rewrite minInt64_minPtr, app_comm_cons. by apply least_limit_minPtr.
  - rewrite app_comm_cons. by apply (least_limit_minPtr _ (Some _) None).
Qed.

Lemma resolve_policies_snoc ps p :
  resolve_policies (ps ++ [p]) = resolve_step (resolve_policies ps) p.
Proof. unfold resolve_policies. by rewrite foldl_snoc. Qed.

Lemma resolve_policies_spec ps : most_restrictive ps (resolve_policies ps).
Proof.
  induction ps as [|p ps IH] using rev_ind.
  - split; [|split; [|split]]; simpl; try (intros m' []%not_elem_of_nil).
    split; [left|]. intros m' ->%list_elem_of_singleton%(inj Some). done.
  - rewrite resolve_policies_snoc. by apply resolve_step_most_restrictive.
Qed.

Lemma most_restrictive_unique ps ps' e e' :
  ps ≡ₚ ps' → most_restrictive ps e → most_restrictive ps' e' → e = e'.
Proof.
  intros Hp (A1 & A2 & A3 & A4) (B1 & B2 & B3 & B4). destruct e as [r b t v], e' as [r' b' t' v'].
  simpl in *. f_equal.
  - by eapply least_limit_unique; [|exact A1|exact B1]; rewrite Hp.
  - by eapply least_limit_unique; [|exact A2|exact B2]; rewrite Hp.
  - by eapply least_limit_unique; [|exact A3|exact B3]; rewrite Hp.
  - apply (inj Some). by eapply least_limit_unique; [|exact A4|exact B4]; rewrite Hp.
Qed.

Lemma least_limit_least limits : least_limit limits (least limits).
Proof.
  induction limits as [|a limits IH]; [by intros m' ?%elem_of_nil|]. simpl.
  destruct a as [x|], (least limits) as [y|]; simpl in *.
  - destruct IH as [Hin Hle]. split.
    + destruct (Z.min_spec x y) as [[_ ->]|[_ ->]]; set_solver.
    + intros m' [?|?%Hle]%elem_of_cons; simplify_eq; lia.
  - split; [set_solver|]. intros m' [?|[]%IH]%elem_of_cons. simplify_eq. lia.
  - destruct IH as [Hin Hle]. split; [set_solver|]. intros m' [?|?]%elem_of_cons; [done|auto].
  - intros m' [?|[]%IH]%elem_of_cons. done.
Qed.

Lemma strictest_spec ps : most_restrictive ps (strictest ps).
Proof.
  split_and!; try apply least_limit_least. cbn [strictest EffectivePolicy_MaxViolationCount].
  pose proof (least_limit_least (Some 3%Z :: (AccessPolicy_MaxViolationCount <$> ps))) as Hl.
  destruct (least _) as [m|]; [done|]. exfalso. apply (Hl 3%Z). set_solver.
Qed.

Lemma resolve_strictest ps : resolve_policies ps = strictest ps.
Proof. eapply most_restrictive_unique; [done|apply resolve_policies_spec|apply strictest_spec]. Qed.

Lemma limit_le_minPtr_l a b : limit_le (minPtr a b) a.
Proof.
  destruct a as [x|]; [|done]. destruct b as [y|]; simpl; eauto with lia.
  destruct (Z.ltb_spec x y); eauto with lia.
Qed.

Lemma resolve_step_tighter e p : tighter (resolve_step e p) e.
Proof.
  split; [|split; [|split]]; try apply limit_le_minPtr_l. simpl.
  destruct (AccessPolicy_MaxViolationCount p); [|done]. unfold minInt64.
  destruct (Z.ltb_spec (EffectivePolicy_MaxViolationCount e) z); lia.
Qed.

(** Resolve with any repository: its error wrapped, or the policies it lists resolved. *)
Lemma run_Resolve `{PL : Platform} `{!AccessPolicyRepository} linkID w :
  run (PolicyResolver_Resolve linkID) w =
  ((run (AccessPolicies_ListForLink linkID) w).1,
   match (run (AccessPolicies_ListForLink linkID) w).2 with
   | inl e => inl (Wrap "service: list policies for link" e)
   | inr ps => inr (resolve_policies ps)
   end).
Proof.
  unfold PolicyResolver_Resolve. rewrite run_bind, run_wrap. simpl.
  by destruct (run (AccessPolicies_ListForLink linkID) w) as [w' [e|ps]].
Qed.

Section db.
Context {PL : Platform}.

Lemma run_ListForLink_inr linkID w w' ps :
  run (AccessPolicyRepo_ListForLink linkID) w = (w', inr ps) →
  ps = attached_policies (w_db w) linkID ∧ w' = set_db (w_db w) (tick w).
Proof.
  unfold AccessPolicyRepo_ListForLink. rewrite run_wrap.
  destruct (run (sql _) w) as [w1 [e|r]] eqn:E; simpl; [done|]. intros; simplify_eq.
  apply run_sql_inr in E as (d & E & ->). unfold attached_policies. by simplify_eq.
Qed.

(** Whatever the faults, what Resolve returns is the resolution of the attached policies. *)
Lemma run_Resolve_inr linkID w w' e :
  run (PolicyResolver_Resolve linkID) w = (w', inr e) →
  e = resolve_policies (attached_policies (w_db w) linkID) ∧ w' = tick w.
Proof.
  rewrite run_Resolve.
  destruct (run (AccessPolicies_ListForLink linkID) w) as [w1 [err|ps]] eqn:E; cbn [fst snd]; [done|].
  intros; simplify_eq. apply run_ListForLink_inr in E as [-> ->]. by destruct w.
Qed.

Lemma run_Resolve_ok `{!NoFaults PL} linkID w :
  run (PolicyResolver_Resolve linkID) w =
  (tick w, inr (resolve_policies (attached_policies (w_db w) linkID))).
Proof.
  rewrite run_Resolve. change (AccessPolicies_ListForLink linkID) with (AccessPolicyRepo_ListForLink linkID).
  unfold AccessPolicyRepo_ListForLink. rewrite run_wrap, run_sql_ok. by destruct w.
Qed.

Lemma all_atoms_Resolve (R : DB → DB → Prop) `{!Reflexive R} linkID :
  all_atoms (on_db R) (PolicyResolver_Resolve linkID).
Proof.
  apply all_atoms_bind; [|done]. do 2 apply all_atoms_wrap. apply all_atoms_sql; [done|].
  intros. by simplify_eq.
Qed.

End db.

#[export] Hint Resolve all_atoms_Resolve : go.

(** ** Properties *)

(** most-restrictive-wins.  Whatever the faults of the database, a policy
    that [Resolve] returns for a link has in each dimension the least limit set
    by the policies attached to the link through link_policies, no limit in a
    dimension where none is set, and for violations the least of those limits
    and of the default 3. *)
Theorem resolve_most_restrictive {PL : Platform} linkID w w' e
    (Hrun : run (PolicyResolver_Resolve linkID) w = (w', inr e)) :
  most_restrictive (attached_policies (w_db w) linkID) e ∧ w_db w' = w_db w.
Proof.
  apply run_Resolve_inr in Hrun as [-> ->]. split; [apply resolve_policies_spec|done].
Qed.

(** resolution does not depend on the order in which the database returns
    the policies, and attaching one more policy never loosens a limit. *)
Theorem resolve_order_and_tightening ps ps' p (Hperm : ps ≡ₚ ps') :
  resolve_policies ps = resolve_policies ps' ∧
  tighter (resolve_policies (p :: ps)) (resolve_policies ps).
Proof.
  split; [by eapply most_restrictive_unique; [exact Hperm|apply resolve_policies_spec..]|].
  replace (resolve_policies (p :: ps)) with (resolve_step (resolve_policies ps) p).
  - apply resolve_step_tighter.
  - rewrite <-resolve_policies_snoc.
    eapply most_restrictive_unique; [|apply resolve_policies_spec..].
    by rewrite (comm (++)).
Qed.

(** ** Witnesses *)

Definition demo_policy (id : UUID) (reqs viol : option Z) : AccessPolicy :=
  mkAccessPolicy id 1 "p" reqs None None viol 0.

Definition demo_policy_db : DB :=
  set_access_policies (λ _, {[ 7%N := demo_policy 7 (Some 100%Z) (Some 10%Z);
                               8%N := demo_policy 8 (Some 50%Z) None ]})
    (set_link_policies (λ _, {[ (5%N, 7%N); (5%N, 8%N) ]}) empty_DB).

Lemma resolve_most_restrictive_witness :
  ∃ e, most_restrictive (attached_policies demo_policy_db 5%N) e ∧
    EffectivePolicy_MaxRequests e = Some 50%Z ∧ EffectivePolicy_MaxViolationCount e = 3%Z.
Proof.
  eexists. split.
  - refine (proj1 (resolve_most_restrictive 5%N (demo_world demo_policy_db) _ _ _)).
    apply run_result. vm_compute. reflexivity.
  - split; reflexivity.
Defined.

Lemma resolve_order_and_tightening_witness :
  resolve_policies [demo_policy 7 (Some 100%Z) None; demo_policy 8 (Some 50%Z) None] =
  resolve_policies [demo_policy 8 (Some 50%Z) None; demo_policy 7 (Some 100%Z) None].
Proof.
  apply (resolve_order_and_tightening _ _ (demo_policy 9 None None)). apply Permutation_swap.
Defined.
