(* ===== verification/Blacklist.v ===== *)
(** * internal/service: the endpoint blacklist (blacklist_service.go)

    [MatchRules] over a loaded rule set, [Check] over a repository.  The regular
    expressions (RE2 syntax) are a parameter: [None] is a pattern that does not
    compile. *)

From S2P Require Import Prelude GoStrings Domain Schema Platform Effects Interfaces RepoLinks.

Open Scope go_scope.

(** ** Definitions *)

(** [regexp.MatchString(pattern, s)], [None] for its error. *)
Class RegexpLib := regexp_MatchString : string → string → option bool.

Definition pathMatches `{RegexpLib} (rule : BlacklistedEndpoint) (path : string) : bool :=
  if decide (BlacklistedEndpoint_PatternType rule = PatternTypeRegex) then
    match regexp_MatchString (BlacklistedEndpoint_Pattern rule) path with
    | None => true
    | Some matched => matched
    end
  else HasPrefix path (BlacklistedEndpoint_Pattern rule).

Fixpoint containsMethod (methods : list string) (method : string) : bool :=
  match methods with
  | [] => false
  | m :: methods' => if EqualFold m method then true else containsMethod methods' method
  end.

Fixpoint MatchRules `{RegexpLib} (rules : list BlacklistedEndpoint) (method path : string)
    : option BlacklistedEndpoint :=
  match rules with
  | [] => None
  | rule :: rules' =>
      if negb (pathMatches rule path) then MatchRules rules' method path
      else if (0 <? length (BlacklistedEndpoint_BlockedMethods rule))
              && negb (containsMethod (BlacklistedEndpoint_BlockedMethods rule) method)
      then MatchRules rules' method path
      else Some rule
  end.

Definition Blacklist_Check `{RegexpLib} `{PL : Platform} `{!BlacklistRepository}
    (linkID targetSiteID : UUID) (method path : string) : M (option BlacklistedEndpoint) :=
  let! rules := wrap "service: load blacklist rules" (Blacklist_RulesForLink linkID targetSiteID) in
  ret (MatchRules rules method path).

(** The rule applies to the path: a regular expression that matches or is
    malformed, and for any other pattern type a prefix. *)
Definition path_blocked `{RegexpLib} (rule : BlacklistedEndpoint) (path : string) : Prop :=
  (BlacklistedEndpoint_PatternType rule = PatternTypeRegex ∧
   regexp_MatchString (BlacklistedEndpoint_Pattern rule) path ≠ Some false) ∨
  (BlacklistedEndpoint_PatternType rule ≠ PatternTypeRegex ∧
   ∃ rest, path = (BlacklistedEndpoint_Pattern rule +:+ rest)%string).

(** The rule blocks the request: no listed method means every method. *)
Definition blocks `{RegexpLib} (rule : BlacklistedEndpoint) (method path : string) : Prop :=
  path_blocked rule path ∧
  (BlacklistedEndpoint_BlockedMethods rule = [] ∨
   ∃ m, m ∈ BlacklistedEndpoint_BlockedMethods rule ∧ EqualFold m method = true).

(** The rules of a link in the database, with their methods. *)
Definition link_rules (d : DB) (linkID targetSiteID : UUID) : list BlacklistedEndpoint :=
  (λ e, with_methods e (methods_of d (BlacklistedEndpoint_ID e))) <$> rules_for d linkID targetSiteID.

(** A matcher for the witnesses: a pattern that starts with "(" is malformed,
    any other one matches as a prefix. *)
Definition demo_regexp : RegexpLib := λ p s, if HasPrefix p "(" then None else Some (HasPrefix s p).

Definition demo_endpoint (id : UUID) (pattern typ : string) (methods : list string) : BlacklistedEndpoint :=
  mkBlacklistedEndpoint id 1 pattern typ None 0 methods.

(** Link 5 of site 3: the prefix "/admin" for every method of the site, and a
    malformed regular expression for POST on the link. *)
Definition demo_blacklist_db : DB :=
  set_blacklisted_endpoints (λ _, {[ 20%N := demo_endpoint 20 "/admin" PatternTypePrefix [];
                                     21%N := demo_endpoint 21 "(" PatternTypeRegex [] ]})
  (set_endpoint_blocked_methods (λ _, {[ (21%N, "POST") ]})
  (set_site_endpoint_rules (λ _, {[ (3%N, 20%N) ]})
  (set_link_endpoint_rules (λ _, {[ (5%N, 21%N) ]}) empty_DB))).

(** ** Lemmas *)

Section matching.
Context `{RegexpLib}.

Lemma pathMatches_spec rule path : pathMatches rule path = true ↔ path_blocked rule path.
Proof.
  unfold pathMatches, path_blocked. case_decide as Ht.
  - destruct (regexp_MatchString _ path) as [[]|]; naive_solver.
  - rewrite HasPrefix_spec. naive_solver.
Qed.

Lemma containsMethod_spec ms method :
  containsMethod ms method = true ↔ ∃ m, m ∈ ms ∧ EqualFold m method = true.
Proof.
  induction ms as [|m ms IH]; simpl.
  - split; [done|]. by intros (? & []%not_elem_of_nil & _).
  - destruct (EqualFold m method) eqn:E.
    + split; [|done]. intros _. exists m. split; [left|done].
    + rewrite IH. split.
      * intros (m' & ? & ?). exists m'. split; [by right|done].
      * intros (m' & [->|?]%elem_of_cons & ?); [congruence|eauto].
Qed.

#[export] Instance blocks_dec rule method path : Decision (blocks rule method path).
Proof.
  refine (cast_if (decide (pathMatches rule path = true ∧
     (BlacklistedEndpoint_BlockedMethods rule = [] ∨
      containsMethod (BlacklistedEndpoint_BlockedMethods rule) method = true))));
    unfold blocks; by rewrite <-pathMatches_spec, <-containsMethod_spec.
Defined.

Lemma MatchRules_cons rule rules method path :
  MatchRules (rule :: rules) method path =
  if decide (blocks rule method path) then Some rule else MatchRules rules method path.
Proof.
  simpl. destruct (decide (blocks rule method path)) as [[Hp Hm]|Hn].
  - rewrite (proj2 (pathMatches_spec rule path) Hp). simpl. destruct Hm as [->|Hm]; [done|].
    rewrite <-containsMethod_spec in Hm. by rewrite Hm, andb_false_r.
  - destruct (pathMatches rule path) eqn:Hp; [simpl|done].
    apply pathMatches_spec in Hp. destruct (BlacklistedEndpoint_BlockedMethods rule) eqn:Hms.
    { destruct Hn. unfold blocks. auto. }
    destruct (containsMethod _ method) eqn:Hc; [|done].
    destruct Hn. split; [done|]. right. rewrite Hms. by apply containsMethod_spec.
Qed.

Lemma MatchRules_None rules method path :
  MatchRules rules method path = None ↔ Forall (λ rule, ¬ blocks rule method path) rules.
Proof.
  induction rules as [|rule rules IH]; [done|]. rewrite MatchRules_cons, Forall_cons.
  case_decide; naive_solver.
Qed.

Lemma MatchRules_Some rules method path rule :
  MatchRules rules method path = Some rule ↔
  ∃ l1 l2, rules = l1 ++ rule :: l2 ∧ Forall (λ r, ¬ blocks r method path) l1 ∧ blocks rule method path.
Proof.
  induction rules as [|r rules IH].
  { split; [done|]. by intros ([] & ? & ? & _). }
  rewrite MatchRules_cons. case_decide as Hb.
  - split; [intros; simplify_eq; by exists [], rules|].
    intros ([|r' l1] & l2 & ? & Hf & _); simplify_eq/=; [done|]. by inversion Hf.
  - rewrite IH. split.
    + intros (l1 & l2 & -> & ? & ?). exists (r :: l1), l2. split_and!; [done|by constructor|done].
    + intros ([|r' l1] & l2 & ? & Hf & ?); simplify_eq/=; [done|].
      inversion Hf; subst. by exists l1, l2.
Qed.

End matching.

Section check.
Context {PL : Platform}.

Lemma run_load_methods_inr out w w' rules :
  run (load_methods out) w = (w', inr rules) →
  rules = (λ e, with_methods e (methods_of (w_db w) (BlacklistedEndpoint_ID e))) <$> out ∧
  w_db w' = w_db w ∧ w_redis w' = w_redis w ∧ w_hub w' = w_hub w ∧ w_alog w' = w_alog w ∧
  w_sent w' = w_sent w.
Proof.
  revert w rules. induction out as [|e out IH]; intros w rules; cbn [load_methods].
  { rewrite run_ret. intros; simplify_eq. auto 10. }
  unfold BlacklistRepo_blockedMethods. rewrite run_bind, run_wrap.
  destruct (run (sql _) w) as [w1 [err|ms]] eqn:E1; cbn [fst snd]; [done|].
  apply run_sql_inr in E1 as (d1 & E1 & ->). unfold sql_ret in E1. simplify_eq.
  rewrite run_bind. destruct (run (load_methods out) _) as [w2 [err|rest]] eqn:E2; cbn [fst snd]; [done|].
  rewrite run_ret. intros; simplify_eq. apply IH in E2 as (-> & ? & ? & ? & ? & ?). auto 10.
Qed.

Lemma run_RulesForLink_inr linkID siteID w w' rules :
  run (BlacklistRepo_RulesForLink linkID siteID) w = (w', inr rules) →
  rules = link_rules (w_db w) linkID siteID ∧
  w_db w' = w_db w ∧ w_redis w' = w_redis w ∧ w_hub w' = w_hub w ∧ w_alog w' = w_alog w ∧
  w_sent w' = w_sent w.
Proof.
  unfold BlacklistRepo_RulesForLink. rewrite run_bind, run_wrap.
  destruct (run (sql _) w) as [w1 [err|out]] eqn:E1; cbn [fst snd]; [done|].
  apply run_sql_inr in E1 as (d1 & E1 & ->). simplify_eq.
  intros E2. apply run_load_methods_inr in E2. exact E2.
Qed.

Context `{RegexpLib}.

Lemma run_Check_inr linkID siteID method path w w' o :
  run (Blacklist_Check linkID siteID method path) w = (w', inr o) →
  o = MatchRules (link_rules (w_db w) linkID siteID) method path ∧
  w_db w' = w_db w ∧ w_redis w' = w_redis w ∧ w_hub w' = w_hub w ∧ w_alog w' = w_alog w ∧
  w_sent w' = w_sent w.
Proof.
  unfold Blacklist_Check. rewrite run_bind, run_wrap.
  destruct (run (Blacklist_RulesForLink linkID siteID) w) as [w1 [err|rules]] eqn:E; cbn [fst snd]; [done|].
  rewrite run_ret. intros; simplify_eq. by apply run_RulesForLink_inr in E as (-> & ?).
Qed.

Lemma all_atoms_load_methods (R : DB → DB → Prop) `{!Reflexive R} out :
  all_atoms (on_db R) (load_methods out).
Proof.
  induction out as [|e out IH]; [done|]. cbn [load_methods].
  apply all_atoms_bind.
  - apply all_atoms_wrap, all_atoms_sql; [done|]. intros. unfold sql_ret in *. by simplify_eq.
  - intros ms. by apply all_atoms_bind.
Qed.

Lemma all_atoms_Check (R : DB → DB → Prop) `{!Reflexive R} linkID siteID method path :
  all_atoms (on_db R) (Blacklist_Check linkID siteID method path).
Proof.
  apply all_atoms_bind; [|done]. apply all_atoms_wrap, all_atoms_bind; [|intros; by apply all_atoms_load_methods].
  apply all_atoms_wrap, all_atoms_sql; [done|]. intros. by simplify_eq.
Qed.

End check.

#[export] Hint Resolve all_atoms_Check : go.

(** ** Properties *)

(** C28: MatchRules is exactly the blacklist policy: it finds nothing just when
    no rule blocks the request, and otherwise finds the first rule that does;
    a malformed regular expression and an empty method list both block. *)
Theorem MatchRules_correct `{RegexpLib} rules method path :
  match MatchRules rules method path with
  | None => ∀ rule, rule ∈ rules → ¬ blocks rule method path
  | Some rule =>
      ∃ l1 l2, rules = l1 ++ rule :: l2 ∧ blocks rule method path ∧
        ∀ r, r ∈ l1 → ¬ blocks r method path
  end.
Proof.
  destruct (MatchRules rules method path) as [rule|] eqn:E.
  - apply MatchRules_Some in E as (l1 & l2 & ? & Hf & ?).
    exists l1, l2. split_and!; [done..|]. by rewrite <-Forall_forall.
  - by rewrite <-Forall_forall, <-MatchRules_None.
Qed.

(** whatever the failures of the database, Check lets a request pass only
    when no rule attached to the link or to its site blocks it, and the rule it
    returns is one of those; it changes nothing. *)
Theorem Check_fail_closed `{RegexpLib} {PL : Platform} linkID siteID method path w w' o
    (Hrun : run (Blacklist_Check linkID siteID method path) w = (w', inr o)) :
  w_db w' = w_db w ∧ w_redis w' = w_redis w ∧
  match o with
  | None => ∀ rule, rule ∈ link_rules (w_db w) linkID siteID → ¬ blocks rule method path
  | Some rule => rule ∈ link_rules (w_db w) linkID siteID ∧ blocks rule method path
  end.
Proof.
  apply run_Check_inr in Hrun as (-> & ? & ? & _). split_and!; [done..|].
  destruct (MatchRules _ _ _) as [rule|] eqn:E.
  - apply MatchRules_Some in E as (l1 & l2 & -> & _ & ?). split; [set_solver|done].
  - by rewrite <-Forall_forall, <-MatchRules_None.
Qed.

(** A prefix is compared with the path as the guest wrote it: a path that names
    the same resource through an empty or a dot segment passes. *)
Lemma dot_segments_pass `{RegexpLib} :
  let rules := [mkBlacklistedEndpoint 1 1 "/admin" PatternTypePrefix None 0 []] in
  is_Some (MatchRules rules "GET" "/admin") ∧ MatchRules rules "GET" "//admin" = None ∧
  MatchRules rules "GET" "/./admin" = None ∧ MatchRules rules "GET" "/x/../admin" = None.
Proof. split_and!; [by eexists|done..]. Qed.

(** ** Witnesses *)

(** A POST to "/" is blocked by the malformed pattern, a GET is not. *)
Lemma Check_fail_closed_witness :
  (∃ rule, rule ∈ link_rules demo_blacklist_db 5 3 ∧ @blocks demo_regexp rule "post" "/") ∧
  (∀ rule, rule ∈ link_rules demo_blacklist_db 5 3 → ¬ @blocks demo_regexp rule "GET" "/").
Proof.
  split.
  - eexists. refine (proj2 (proj2 (@Check_fail_closed demo_regexp demo 5%N 3%N "post" "/"
      (demo_world demo_blacklist_db) _ (Some _) _))).
    apply run_result. vm_compute. reflexivity.
  - refine (proj2 (proj2 (@Check_fail_closed demo_regexp demo 5%N 3%N "GET" "/"
      (demo_world demo_blacklist_db) _ None _))).
    apply run_result. vm_compute. reflexivity.
Defined.
