(* ===== verification/Limiter.v ===== *)
(** * internal/limiter: usage counters in Redis (counter_store.go, sync_worker.go)

    [CounterStore] is a set of Redis pipelines; [counters_of] is the abstract
    state they implement (three integers per link) and [dirty] the set of links
    waiting for a flush.  [flushOnce] copies the counters of the dirty links to
    usage_counters. *)

From S2P Require Import Prelude GoStrings Domain Schema Platform Effects Interfaces RepoLinks RepoGuests PubSub.

Open Scope go_scope.

(** ** counter_store.go *)

Definition dirtySetKey : string := "sp:dirty_links".

Section store.
Context {PL : Platform}.

Definition requestsKey (linkID : UUID) : string := "sp:link:" +:+ uuid_String linkID +:+ ":requests".
Definition bytesKey (linkID : UUID) : string := "sp:link:" +:+ uuid_String linkID +:+ ":bytes".
Definition violationsKey (linkID : UUID) : string := "sp:link:" +:+ uuid_String linkID +:+ ":violations".

Definition CounterStore_WarmLoad (linkID : UUID) (requestCount bytesTransferred violationCount : Z)
    : M unit :=
  let* r := pipe_Exec [CSetNX (requestsKey linkID) requestCount;
                       CSetNX (bytesKey linkID) bytesTransferred;
                       CSetNX (violationsKey linkID) violationCount] in
  match r.2 with
  | Some err => fail (Wrap "limiter: warm load" err)
  | None => ret tt
  end.

Record Counters := mkCounters {
  Counters_Requests : Z;
  Counters_Bytes : Z;
  Counters_Violations : Z }.

(** [cmd.Int64()] fails on a command error and on a value that is no integer. *)
Definition intOrZero (cmd : redis_reply) : go_error + Z :=
  match cmd with
  | RGet (GetInt v) => inr v
  | RGet GetNil => inr 0%Z
  | _ => inl (Wrap "limiter: parse counter" ErrRedis)
  end.

(** [err != nil && !errors.Is(err, redis.Nil)] *)
Definition fatal (err : option go_error) : bool :=
  match err with Some e => negb (errors_Is e ErrRedisNil) | None => false end.

Definition CounterStore_Get (linkID : UUID) : M Counters :=
  let* r := pipe_Exec [CGet (requestsKey linkID); CGet (bytesKey linkID); CGet (violationsKey linkID)] in
  if fatal r.2 then fail (Wrap "limiter: get counters" (default ErrRedis r.2)) else
  match r.1 with
  | [reqCmd; bytesCmd; violCmd] =>
      let! reqs := lift (intOrZero reqCmd) in
      let! bytesV := lift (intOrZero bytesCmd) in
      let! viol := lift (intOrZero violCmd) in
      ret (mkCounters reqs bytesV viol)
  | _ => fail ErrRedis
  end.

Definition incrAndMarkDirty (linkID : UUID) (key : string) (delta : Z) : M Z :=
  let* r := pipe_Exec [CIncrBy key delta; CSAdd dirtySetKey (uuid_String linkID)] in
  match r.2 with
  | Some err => fail (Wrap ("limiter: increment " +:+ key) err)
  | None => match r.1 with RIncr (Some v) :: _ => ret v | _ => fail ErrRedis end
  end.

Definition CounterStore_IncrRequests (linkID : UUID) : M Z :=
  incrAndMarkDirty linkID (requestsKey linkID) 1.
Definition CounterStore_IncrBytes (linkID : UUID) (n : Z) : M Z :=
  incrAndMarkDirty linkID (bytesKey linkID) n.
Definition CounterStore_IncrViolations (linkID : UUID) : M Z :=
  incrAndMarkDirty linkID (violationsKey linkID) 1.

(** Members that are not identifiers are skipped. *)
Definition CounterStore_DirtyLinkIDs : M (list UUID) :=
  let* r := pipe_Exec [CSMembers dirtySetKey] in
  match r.2 with
  | Some err => fail (Wrap "limiter: list dirty links" err)
  | None => match r.1 with [RMembers raw] => ret (omap uuid_Parse raw : list UUID) | _ => fail ErrRedis end
  end.

Definition CounterStore_ClearDirty (linkID : UUID) : M unit :=
  let* r := pipe_Exec [CSRem dirtySetKey (uuid_String linkID)] in
  match r.2 with Some err => fail err | None => ret tt end.

(** ** sync_worker.go *)

(** The body of the loop of [flushOnce]; [continue] ends it. *)
Definition flush_link `{!UsageCounterRepository} (linkID : UUID) : P unit :=
  let* c := CounterStore_Get linkID in
  match c with
  | inl _ => Ret tt
  | inr counters =>
      let* u := Usage_Upsert (mkUsageCounters 0 linkID (Counters_Requests counters)
                                (Counters_Bytes counters) (Counters_Violations counters) 0) in
      match u with
      | inl _ => Ret tt
      | inr _ => let* _ := CounterStore_ClearDirty linkID in Ret tt
      end
  end.

Definition SyncWorker_flushOnce `{!UsageCounterRepository} : P unit :=
  let* r := CounterStore_DirtyLinkIDs in
  match r with
  | inl _ => Ret tt
  | inr linkIDs => for_all linkIDs flush_link
  end.

(** [Run] with the number of ticks before the context is cancelled; [None] is
    the panic of [time.NewTicker] on an interval that is not positive. *)
Fixpoint flush_ticks `{!UsageCounterRepository} (ticks : nat) : P unit :=
  match ticks with
  | O => Ret tt
  | S n => let* _ := SyncWorker_flushOnce in flush_ticks n
  end.

Definition SyncWorker_Run `{!UsageCounterRepository} (interval : Z) (ticks : nat) : option (P unit) :=
  if (interval <=? 0)%Z then None else Some (flush_ticks ticks).

(** ** Abstract state *)

Context `{!PlatformLaws PL}.

(** A counter that is absent counts as zero. *)
Definition cell (r : redis) (k : string) : Z :=
  match rview r !! k with Some (RInt z) => z | _ => 0%Z end.

Definition counters_of (r : redis) (linkID : UUID) : Counters :=
  mkCounters (cell r (requestsKey linkID)) (cell r (bytesKey linkID)) (cell r (violationsKey linkID)).

(** The members of the dirty set. *)
Definition dirty (r : redis) : gset string := members_of (rview r !! dirtySetKey).

Definition counter_key (k : string) : Prop :=
  ∃ linkID, k = requestsKey linkID ∨ k = bytesKey linkID ∨ k = violationsKey linkID.

Definition int_cell (r : redis) (k : string) : Prop :=
  match rview r !! k with None => True | Some (RInt z) => in_int64 z | Some _ => False end.

(** The part of the key space the program uses has the types it expects. *)
Record limiter_wf (r : redis) : Prop := {
  wf_cells k : counter_key k → int_cell r k;
  wf_dirty : match rview r !! dirtySetKey with None | Some (RSet _) => True | Some _ => False end }.

(** The increments the enforcement makes, and their effect on the counters. *)
Inductive usage_op : Type :=
| OpRequest
| OpBytes (n : Z)
| OpViolation.

Definition run_op (linkID : UUID) (op : usage_op) : M Z :=
  match op with
  | OpRequest => CounterStore_IncrRequests linkID
  | OpBytes n => CounterStore_IncrBytes linkID n
  | OpViolation => CounterStore_IncrViolations linkID
  end.

Definition amount (op : usage_op) : Z := match op with OpBytes n => n | _ => 1%Z end.

Definition add_op (op : usage_op) (c : Counters) : Counters :=
  match op with
  | OpRequest => mkCounters (Counters_Requests c + 1) (Counters_Bytes c) (Counters_Violations c)
  | OpBytes n => mkCounters (Counters_Requests c) (Counters_Bytes c + n) (Counters_Violations c)
  | OpViolation => mkCounters (Counters_Requests c) (Counters_Bytes c) (Counters_Violations c + 1)
  end.

Definition counters_in_int64 (c : Counters) : Prop :=
  in_int64 (Counters_Requests c) ∧ in_int64 (Counters_Bytes c) ∧ in_int64 (Counters_Violations c).

(** The durable counters of a link, as Redis values. *)
Definition seed (linkID : UUID) (c : Counters) : gmap string rvalue :=
  {[requestsKey linkID := RInt (Counters_Requests c)]} ∪
  {[bytesKey linkID := RInt (Counters_Bytes c)]} ∪
  {[violationsKey linkID := RInt (Counters_Violations c)]}.

(** usage_counters holds the counters Redis holds. *)
Definition durable (w : World) (linkID : UUID) : Prop :=
  ∃ row, usage_counters (w_db w) !! linkID = Some row ∧
    counters_of (w_redis w) linkID =
    mkCounters (UsageCounters_RequestCount row) (UsageCounters_BytesTransferred row)
               (UsageCounters_ViolationCount row).

(** The row of the link fits the columns of usage_counters, and its foreign key. *)
Definition flushable (w : World) (linkID : UUID) : Prop :=
  in_int32b (cell (w_redis w) (requestsKey linkID)) = true ∧
  in_int32b (cell (w_redis w) (violationsKey linkID)) = true ∧
  is_Some (shared_links (w_db w) !! linkID).

(** What flushing may do: the counters stay, a link leaves the dirty set only
    once its row is durable, and durable rows stay durable. *)
Record flushed (w w' : World) : Prop := {
  flushed_wf : limiter_wf (w_redis w');
  flushed_keys k : k ≠ dirtySetKey → rview (w_redis w') !! k = rview (w_redis w) !! k;
  flushed_sub : dirty (w_redis w') ⊆ dirty (w_redis w);
  flushed_dirty linkID : uuid_String linkID ∈ dirty (w_redis w) →
    uuid_String linkID ∈ dirty (w_redis w') ∨ durable w' linkID;
  flushed_durable linkID : durable w linkID → durable w' linkID;
  flushed_links : shared_links (w_db w') = shared_links (w_db w) }.

End store.

(** ** Lemmas: keys *)

Section keys.
Context {PL : Platform}.

Lemma key_bytes u suffix :
  rev (bytes ("sp:link:" +:+ uuid_String u +:+ suffix)) =
  rev (bytes suffix) ++ rev (bytes ("sp:link:" +:+ uuid_String u)).
Proof. by rewrite !bytes_app, !rev_app_distr, <-!app_assoc. Qed.

(** Keys with different suffixes differ. *)
Ltac key_neq :=
  intros E%(f_equal (λ s, rev (bytes s))); unfold requestsKey, bytesKey, violationsKey in E;
  rewrite !key_bytes in E; by simpl in E.

Lemma requests_bytes_neq u v : requestsKey u ≠ bytesKey v.
Proof. key_neq. Qed.
Lemma requests_violations_neq u v : requestsKey u ≠ violationsKey v.
Proof. key_neq. Qed.
Lemma bytes_violations_neq u v : bytesKey u ≠ violationsKey v.
Proof. key_neq. Qed.

Lemma counter_key_requests u : counter_key (requestsKey u).
Proof. exists u. auto. Qed.
Lemma counter_key_bytes u : counter_key (bytesKey u).
Proof. exists u. auto. Qed.
Lemma counter_key_violations u : counter_key (violationsKey u).
Proof. exists u. auto. Qed.

Lemma counter_key_not_dirty k : counter_key k → k ≠ dirtySetKey.
Proof. by intros (u & [->|[->| ->]]). Qed.

Lemma key_inj `{!PlatformLaws PL} u v suffix :
  "sp:link:" +:+ uuid_String u +:+ suffix = "sp:link:" +:+ uuid_String v +:+ suffix → u = v.
Proof.
  intros E%(f_equal bytes). rewrite !bytes_app in E. apply app_inv_head, app_inv_tail in E.
  apply uuid_String_inj. apply (f_equal of_bytes) in E. by rewrite !of_bytes_bytes in E.
Qed.

Lemma requestsKey_inj `{!PlatformLaws PL} u v : requestsKey u = requestsKey v → u = v.
Proof. apply key_inj. Qed.
Lemma bytesKey_inj `{!PlatformLaws PL} u v : bytesKey u = bytesKey v → u = v.
Proof. apply key_inj. Qed.
Lemma violationsKey_inj `{!PlatformLaws PL} u v : violationsKey u = violationsKey v → u = v.
Proof. apply key_inj. Qed.

End keys.

#[export] Hint Resolve counter_key_requests counter_key_bytes counter_key_violations : go.
#[export] Hint Resolve requests_bytes_neq requests_violations_neq bytes_violations_neq : go.
#[export] Hint Resolve not_eq_sym : go.

(** ** Lemmas: pipelines *)

Section pipes.
Context {PL : Platform}.

Lemma exec_cmds_cons c cs r :
  exec_cmds (c :: cs) r =
  ((exec_cmd c r).1 :: (exec_cmds cs (exec_cmd c r).2).1, (exec_cmds cs (exec_cmd c r).2).2).
Proof. simpl. destruct (exec_cmd c r) as [x r1]. simpl. by destruct (exec_cmds cs r1). Qed.

(** A pipeline under any faults: the first [e] commands are executed and the
    replies of the first [r] of them are read. *)
Lemma run_pipe cs w :
  ∃ e r, r ≤ e ∧ e ≤ length cs ∧
    run (pipe_Exec cs) w =
    (set_redis (exec_cmds (take e cs) (w_redis w)).2 (tick w),
     let xs := take r (exec_cmds (take e cs) (w_redis w)).1 ++ replicate (length cs - r) RLost in
     (xs, head (omap reply_error xs))).
Proof.
  rewrite run_pipe_Exec.
  destruct (default (length cs, length cs) (env_fault (w_tick w))) as [e0 r0].
  exists (e0 `min` length cs), (r0 `min` (e0 `min` length cs)). split_and!; [lia..|].
  rewrite <-take_take, firstn_all.
  pose proof (length_exec_cmds (take e0 cs) (w_redis w)) as Hl. rewrite length_take in Hl.
  destruct (exec_cmds (take e0 cs) (w_redis w)) as [xs r]. simpl in *.
  rewrite length_take, Hl. by rewrite <-Hl, <-take_take, firstn_all.
Qed.

End pipes.

(** ** Lemmas: the abstract state *)

Section state.
Context {PL : Platform} `{!PlatformLaws PL}.

Lemma cell_reply r k : int_cell r k →
  reply_of (rview r !! k) = GetInt (cell r k) ∨ (rview r !! k = None ∧ cell r k = 0%Z).
Proof. unfold int_cell, cell. destruct (rview r !! k) as [[z|s|]|]; [|done..|]; auto. Qed.

Lemma cell_in_int64 r k : int_cell r k → in_int64 (cell r k).
Proof. unfold int_cell, cell. destruct (rview r !! k) as [[z|s|]|]; done. Qed.

Lemma dirty_reply r : limiter_wf r →
  rview r !! dirtySetKey = Some (RSet (dirty r)) ∨ (rview r !! dirtySetKey = None ∧ dirty r = ∅).
Proof. intros [_ Hd]. unfold dirty. destruct (rview r !! dirtySetKey) as [[z|s|]|]; auto; done. Qed.

(** States that agree on the keys of the limiter. *)
Lemma limiter_wf_insert_counter r r' k z :
  limiter_wf r → counter_key k → in_int64 z → rview r' = <[k := RInt z]> (rview r) → limiter_wf r'.
Proof.
  intros [Hc Hd] Hk Hz E. split.
  - intros k' Hk'. unfold int_cell. rewrite E. destruct (decide (k = k')) as [->|Hne].
    + by rewrite lookup_insert_eq.
    + rewrite lookup_insert_ne by done. by apply Hc.
  - rewrite E, lookup_insert_ne by by apply counter_key_not_dirty. done.
Qed.

Lemma limiter_wf_dirty r r' :
  limiter_wf r → (∀ k, k ≠ dirtySetKey → rview r' !! k = rview r !! k) →
  match rview r' !! dirtySetKey with None | Some (RSet _) => True | Some _ => False end → limiter_wf r'.
Proof.
  intros [Hc Hd] Ho Hs. split; [|done]. intros k Hk. unfold int_cell.
  rewrite Ho by by apply counter_key_not_dirty. by apply Hc.
Qed.

Lemma redis_sadd_dirty r m :
  limiter_wf r →
  dirty (redis_sadd dirtySetKey m r) = {[m]} ∪ dirty r ∧
  (∀ k, k ≠ dirtySetKey → rview (redis_sadd dirtySetKey m r) !! k = rview r !! k) ∧
  limiter_wf (redis_sadd dirtySetKey m r).
Proof.
  intros Hwf. pose proof (redis_sadd_rview dirtySetKey m r (dirty r) (dirty_reply r Hwf)) as E.
  split_and!.
  - unfold dirty at 1. by rewrite E, lookup_insert_eq.
  - intros k Hk. by rewrite E, lookup_insert_ne.
  - apply (limiter_wf_dirty r); [done| |].
    + intros k Hk. by rewrite E, lookup_insert_ne.
    + by rewrite E, lookup_insert_eq.
Qed.

Lemma redis_srem_dirty r m :
  limiter_wf r →
  dirty (redis_srem dirtySetKey m r) = dirty r ∖ {[m]} ∧
  (∀ k, k ≠ dirtySetKey → rview (redis_srem dirtySetKey m r) !! k = rview r !! k) ∧
  limiter_wf (redis_srem dirtySetKey m r).
Proof.
  intros Hwf. destruct (dirty_reply r Hwf) as [E|[E Hd]].
  - pose proof (redis_srem_rview dirtySetKey m r (dirty r) E) as E'.
    assert (∀ k, k ≠ dirtySetKey → rview (redis_srem dirtySetKey m r) !! k = rview r !! k) as Ho.
    { intros k Hk. rewrite E'. case_decide; [by rewrite lookup_delete_ne|by rewrite lookup_insert_ne]. }
    split_and!; [|done|].
    + unfold dirty at 1. rewrite E'. case_decide as Hs.
      * rewrite lookup_delete_eq. simpl. done.
      * by rewrite lookup_insert_eq.
    + apply (limiter_wf_dirty r); [done..|]. rewrite E'.
      case_decide; [by rewrite lookup_delete_eq|by rewrite lookup_insert_eq].
  - pose proof (redis_srem_none dirtySetKey m r E) as E'. split_and!.
    + unfold dirty in *. rewrite E', E in *. simpl. set_solver.
    + intros k Hk. by rewrite E'.
    + destruct Hwf as [Hc Hw]. split; [|by rewrite E'].
      intros k Hk. unfold int_cell. rewrite E'. by apply Hc.
Qed.

Lemma redis_incrby_cell r k n :
  limiter_wf r → counter_key k → in_int64 n → in_int64 (cell r k + n) →
  ∃ r', redis_incrby k n r = Some ((cell r k + n)%Z, r') ∧ limiter_wf r' ∧
    cell r' k = (cell r k + n)%Z ∧ (∀ k', k' ≠ k → rview r' !! k' = rview r !! k') ∧
    is_Some (rview r' !! k).
Proof.
  intros Hwf Hk Hn Hz.
  destruct (redis_incrby_rview k n r (cell r k) Hn (cell_reply r k (wf_cells r Hwf k Hk)) Hz)
    as (r' & E & Hr').
  exists r'. split_and!; [done|by eapply limiter_wf_insert_counter| | |].
  - unfold cell at 1. by rewrite Hr', lookup_insert_eq.
  - intros k' Hk'. by rewrite Hr', lookup_insert_ne.
  - rewrite Hr', lookup_insert_eq. by eexists.
Qed.

(** What an increment may do to Redis: nothing, the increment, or the increment
    and the mark. *)
Definition incremented (key : string) (delta : Z) (m : string) (r r' : redis) : Prop :=
  limiter_wf r' ∧ cell r' key = (cell r key + delta)%Z ∧
  (∀ k, k ≠ key → k ≠ dirtySetKey → rview r' !! k = rview r !! k) ∧
  (dirty r' = dirty r ∨ dirty r' = {[m]} ∪ dirty r) ∧ is_Some (rview r' !! key).

Lemma run_incrAndMarkDirty linkID key delta w :
  limiter_wf (w_redis w) → counter_key key → in_int64 delta → in_int64 (cell (w_redis w) key + delta) →
  ∃ w' res, run (incrAndMarkDirty linkID key delta) w = (w', res) ∧
    w' = set_redis (w_redis w') (tick w) ∧
    match res with
    | inr v =>
        incremented key delta (uuid_String linkID) (w_redis w) (w_redis w') ∧
        v = (cell (w_redis w) key + delta)%Z ∧
        dirty (w_redis w') = {[uuid_String linkID]} ∪ dirty (w_redis w)
    | inl _ =>
        (w_redis w' = w_redis w ∨
         incremented key delta (uuid_String linkID) (w_redis w) (w_redis w')) ∧ ¬ NoFaults PL
    end.
Proof.
  intros Hwf Hk Hd Hz. unfold incrAndMarkDirty. rewrite run_pbind.
  destruct (redis_incrby_cell _ _ _ Hwf Hk Hd Hz) as (r1 & E1 & Hwf1 & Hc1 & Ho1 & Hs1).
  destruct (redis_sadd_dirty r1 (uuid_String linkID) Hwf1) as (Hd2 & Ho2 & Hwf2).
  assert (Hdirty : dirty r1 = dirty (w_redis w)).
  { unfold dirty. rewrite Ho1; [done|]. by apply not_eq_sym, counter_key_not_dirty. }
  assert (Hinc : incremented key delta (uuid_String linkID) (w_redis w)
                   (redis_sadd dirtySetKey (uuid_String linkID) r1)).
  { split_and!; [done| | | |].
    - unfold cell at 1. rewrite Ho2 by by apply counter_key_not_dirty. exact Hc1.
    - intros k Hk1 Hk2. by rewrite Ho2, Ho1.
    - right. by rewrite Hd2, Hdirty.
    - by rewrite Ho2 by by apply counter_key_not_dirty. }
  destruct (run_pipe [CIncrBy key delta; CSAdd dirtySetKey (uuid_String linkID)] w) as (e & n & Hne & He & Hrun).
  assert (n < 2 → ¬ NoFaults PL) as Hfault.
  { intros Hlt HNF. rewrite run_pipe_ok, !exec_cmds_cons in Hrun. cbn [exec_cmd] in Hrun.
    rewrite E1 in Hrun.
    apply (f_equal (λ x, x.2.1)) in Hrun. simpl in Hrun.
    destruct n as [|[|n]]; [..|lia]; simpl in Hrun; [done|].
    by destruct (exec_cmds _ _) as [[|x [|y xs]] r']; simplify_eq/=. }
  rewrite Hrun. simpl in He.
  assert (Hcases : (e = 0 ∧ n = 0) ∨ (e = 1 ∧ n = 0) ∨ (e = 1 ∧ n = 1) ∨ (e = 2 ∧ n = 0) ∨
                   (e = 2 ∧ n = 1) ∨ (e = 2 ∧ n = 2)) by lia.
  destruct Hcases as [[-> ->]|[[-> ->]|[[-> ->]|[[-> ->]|[[-> ->]|[-> ->]]]]]];
    simpl; rewrite ?E1; simpl; do 2 eexists; (split; [done|]); simpl; (split; [by destruct w|]).
  - split; [by left|]. apply Hfault. lia.
  - split; [|apply Hfault; lia]. right. split_and!; auto.
  - split; [|apply Hfault; lia]. right. split_and!; auto.
  - split; [|apply Hfault; lia]. by right.
  - split; [|apply Hfault; lia]. by right.
  - split_and!; [exact Hinc|done|]. by rewrite Hd2, Hdirty.
Qed.

Lemma run_Get linkID w :
  limiter_wf (w_redis w) →
  ∃ res, run (CounterStore_Get linkID) w = (tick w, res) ∧
    match res with inr c => c = counters_of (w_redis w) linkID | inl _ => ¬ NoFaults PL end.
Proof.
  intros Hwf. unfold CounterStore_Get. rewrite run_pbind.
  set (cs := [CGet (requestsKey linkID); CGet (bytesKey linkID); CGet (violationsKey linkID)]).
  assert (∀ e, (exec_cmds (take e cs) (w_redis w)).2 = w_redis w) as Hsame.
  { intros e. destruct e as [|[|[|e]]]; simpl; by rewrite ?take_nil. }
  assert (∀ k, counter_key k → redis_get k (w_redis w) = GetInt (cell (w_redis w) k) ∨
    (redis_get k (w_redis w) = GetNil ∧ cell (w_redis w) k = 0%Z)) as Hcell.
  { intros k Hk. rewrite redis_get_rview.
    destruct (cell_reply _ _ (wf_cells _ Hwf k Hk)) as [->|[-> ->]]; auto. }
  pose proof (Hcell _ (counter_key_requests linkID)) as H1.
  pose proof (Hcell _ (counter_key_bytes linkID)) as H2.
  pose proof (Hcell _ (counter_key_violations linkID)) as H3. clear Hcell.
  destruct (run_pipe cs w) as (e & n & Hne & He & Hrun).
  assert (n < 3 → ¬ NoFaults PL) as Hfault.
  { intros Hlt HNF. rewrite run_pipe_ok in Hrun. apply (f_equal (λ x, last x.2.1)) in Hrun.
    destruct n as [|[|[|n]]]; [..|lia]; simpl in Hrun; try done;
    by destruct e as [|[|[|e]]]; simpl in Hrun; rewrite ?take_nil in Hrun. }
  rewrite Hrun, Hsame. cbn [fst snd].
  replace (set_redis (w_redis w) (tick w)) with (tick w) by by destruct w.
  destruct n as [|[|[|n]]].
  - simpl. eexists. split; [done|]. apply Hfault. lia.
  - destruct e as [|e]; [simpl in He; lia|]. cbn [take cs exec_cmds exec_cmd].
    destruct (exec_cmds (take e _) _). simpl.
    destruct H1 as [-> | [-> _]]; simpl; (eexists; split; [done|]; apply Hfault; lia).
  - destruct e as [|[|e]]; [simpl in He; lia..|]. cbn [take cs exec_cmds exec_cmd].
    destruct (exec_cmds (take e _) _). simpl.
    destruct H1 as [-> | [-> _]], H2 as [-> | [-> _]]; simpl;
      (eexists; split; [done|]; apply Hfault; lia).
  - assert (e = 3 ∧ n = 0) as [-> ->] by (simpl in He; lia). exists (inr (counters_of (w_redis w) linkID)).
    split; [|done]. unfold counters_of. simpl.
    destruct H1 as [-> | [-> ->]], H2 as [-> | [-> ->]], H3 as [-> | [-> ->]]; done.
Qed.

(** SETNX adds what is missing. *)
Lemma rview_setnx_union k v r : in_int64 v →
  rview (redis_setnx k v r) = rview r ∪ {[k := RInt v]}.
Proof.
  intros Hv. rewrite rview_setnx by done. apply map_eq. intros k'. rewrite lookup_union.
  destruct (decide (k = k')) as [->|Hne].
  - rewrite lookup_singleton_eq. destruct (rview r !! k') eqn:E; rewrite ?lookup_insert_eq, ?E; done.
  - rewrite lookup_singleton_ne by done. rewrite right_id_L by apply _.
    destruct (rview r !! k); [done|]. by rewrite lookup_insert_ne.
Qed.

Lemma limiter_wf_union r r' (m : gmap string rvalue) :
  limiter_wf r → (∀ k v, m !! k = Some v → counter_key k ∧ ∃ z, v = RInt z ∧ in_int64 z) →
  rview r' = rview r ∪ m → limiter_wf r'.
Proof.
  intros [Hc Hd] Hm E. split.
  - intros k Hk. specialize (Hc k Hk). unfold int_cell in *. rewrite E, lookup_union.
    destruct (rview r !! k) as [[z|s|]|]; [|done..|].
    + by rewrite union_Some_l.
    + rewrite left_id_L by apply _. destruct (m !! k) as [v|] eqn:Ev; [|done].
      by destruct (Hm _ _ Ev) as (_ & z & -> & ?).
  - rewrite E, lookup_union. destruct (m !! dirtySetKey) as [v|] eqn:Ev.
    { destruct (Hm _ _ Ev) as [Hk%counter_key_not_dirty _]. done. }
    by rewrite right_id_L by apply _.
Qed.

Lemma seed_lookup linkID c k v : counters_in_int64 c →
  seed linkID c !! k = Some v → counter_key k ∧ ∃ z, v = RInt z ∧ in_int64 z.
Proof.
  unfold seed. intros (H1 & H2 & H3).
  intros [[[<- <-]%lookup_singleton_Some|[_ [<- <-]%lookup_singleton_Some]]%lookup_union_Some_raw
         |[_ [<- <-]%lookup_singleton_Some]]%lookup_union_Some_raw; eauto with go.
Qed.

Lemma run_WarmLoad linkID c w :
  limiter_wf (w_redis w) → counters_in_int64 c →
  ∃ w' res,
    run (CounterStore_WarmLoad linkID (Counters_Requests c) (Counters_Bytes c) (Counters_Violations c)) w
      = (w', res) ∧
    w' = set_redis (w_redis w') (tick w) ∧ limiter_wf (w_redis w') ∧
    (∃ m, m ⊆ seed linkID c ∧ rview (w_redis w') = rview (w_redis w) ∪ m) ∧
    match res with
    | inr _ => rview (w_redis w') = rview (w_redis w) ∪ seed linkID c
    | inl _ => ¬ NoFaults PL
    end.
Proof.
  intros Hwf Hc. pose proof Hc as (H1 & H2 & H3). unfold CounterStore_WarmLoad. rewrite run_pbind.
  set (cs := [CSetNX _ _; CSetNX _ _; CSetNX _ _]).
  destruct (run_pipe cs w) as (e & n & Hne & He & Hrun).
  assert (n < 3 → ¬ NoFaults PL) as Hfault.
  { intros Hlt HNF. rewrite run_pipe_ok in Hrun. apply (f_equal (λ x, last x.2.1)) in Hrun.
    destruct n as [|[|[|n]]]; [..|lia]; simpl in Hrun; try done;
    by destruct e as [|[|[|e]]]; simpl in Hrun; rewrite ?take_nil in Hrun. }
  assert (∃ m, m ⊆ seed linkID c ∧ (e = 3 → m = seed linkID c) ∧
    rview (exec_cmds (take e cs) (w_redis w)).2 = rview (w_redis w) ∪ m) as (m & Hm & Hm3 & Hv).
  { unfold seed, cs. destruct e as [|[|[|[|e]]]]; [..|simpl in He; lia]; simpl.
    - exists ∅. split; [apply map_empty_subseteq|]. split; [done|]. by rewrite map_union_empty.
    - exists {[requestsKey linkID := RInt (Counters_Requests c)]}.
      split_and!; [|done|by apply rview_setnx_union]. etrans; apply map_union_subseteq_l.
    - exists ({[requestsKey linkID := RInt (Counters_Requests c)]} ∪
              {[bytesKey linkID := RInt (Counters_Bytes c)]}).
      split_and!; [|done|by rewrite !rview_setnx_union, <-map_union_assoc].
      apply map_union_subseteq_l.
    - eexists. split; [reflexivity|]. split; [done|]. by rewrite !rview_setnx_union, !map_union_assoc. }
  rewrite Hrun. cbn [fst snd].
  assert (Hwf' : limiter_wf (exec_cmds (take e cs) (w_redis w)).2).
  { eapply limiter_wf_union; [done| |done]. intros k v Hk. eapply seed_lookup; [done|].
    by eapply lookup_weaken. }
  destruct (decide (n = 3)) as [->|Hn].
  - assert (e = 3) as -> by (simpl in He; lia). specialize (Hm3 eq_refl). subst m.
    simpl. do 2 eexists. split; [done|]. simpl. split; [by destruct w|]. split; [done|].
    split; [|done]. eauto.
  - assert (n < 3) as Hlt by (simpl in He; lia).
    destruct (head (omap reply_error _)) as [err|] eqn:Eerr.
    + do 2 eexists. split; [done|]. simpl. split; [by destruct w|]. split; [done|].
      split; [by eauto|by apply Hfault].
    + exfalso. simpl in He. destruct e as [|[|[|[|e]]]]; [..|lia];
        (destruct n as [|[|[|n]]]; [..|lia]); simpl in Eerr; try done; lia.
Qed.

Lemma run_ClearDirty linkID w :
  limiter_wf (w_redis w) →
  ∃ w' res, run (CounterStore_ClearDirty linkID) w = (w', res) ∧ w_db w' = w_db w ∧
    (w_redis w' = w_redis w ∨ w_redis w' = redis_srem dirtySetKey (uuid_String linkID) (w_redis w)) ∧
    (NoFaults PL → w_redis w' = redis_srem dirtySetKey (uuid_String linkID) (w_redis w)).
Proof.
  intros Hwf. unfold CounterStore_ClearDirty. rewrite run_pbind.
  destruct (run_pipe [CSRem dirtySetKey (uuid_String linkID)] w) as (e & n & Hne & He & Hrun).
  assert (NoFaults PL → e = 1) as Hnf.
  { intros HNF. rewrite run_pipe_ok in Hrun. apply (f_equal (λ x, head x.2.1)) in Hrun.
    simpl in He. destruct e as [|[|e]]; [|done|lia]. by destruct n. }
  rewrite Hrun. simpl in He. cbn [fst snd].
  assert (∀ (o : option go_error) v, ∃ w' res,
    run match o with Some err => fail err | None => ret tt end v = (w', res) ∧ w' = v) as Hend.
  { intros [err|] v; eauto. }
  edestruct Hend as (w' & res & -> & ->). do 2 eexists. split; [done|].
  destruct e as [|[|e]]; [..|lia]; simpl; split_and!; auto.
  intros HNF. by specialize (Hnf HNF).
Qed.

Lemma run_DirtyLinkIDs w :
  ∃ res, run CounterStore_DirtyLinkIDs w = (tick w, res) ∧
    match res with
    | inr ids => ids = omap uuid_Parse (redis_smembers dirtySetKey (w_redis w))
    | inl _ => ¬ NoFaults PL
    end.
Proof.
  unfold CounterStore_DirtyLinkIDs. rewrite run_pbind.
  destruct (run_pipe [CSMembers dirtySetKey] w) as (e & n & Hne & He & Hrun).
  simpl in He. rewrite Hrun. destruct n as [|[|n]]; [| |lia].
  - simpl. destruct e as [|[|e]]; [..|lia]; simpl; replace (set_redis (w_redis w) (tick w)) with (tick w)
      by by destruct w.
    all: eexists; split; [done|]; intros HNF; rewrite run_pipe_ok in Hrun;
      by apply (f_equal (λ x, head x.2.1)) in Hrun.
  - assert (e = 1) as -> by lia. simpl.
    replace (set_redis (w_redis w) (tick w)) with (tick w) by by destruct w.
    eexists. by split.
Qed.

Lemma dirty_ids linkID w :
  linkID ∈ (omap uuid_Parse (redis_smembers dirtySetKey (w_redis w)) : list UUID) ↔
  ∃ s, s ∈ dirty (w_redis w) ∧ uuid_Parse s = Some linkID.
Proof.
  rewrite list_elem_of_omap. unfold dirty. setoid_rewrite redis_smembers_rview.
  by setoid_rewrite elem_of_elements.
Qed.

Lemma counters_of_same r r' linkID :
  (∀ k, k ≠ dirtySetKey → rview r' !! k = rview r !! k) → counters_of r' linkID = counters_of r linkID.
Proof.
  intros Hk. unfold counters_of, cell.
  by rewrite !Hk by (apply counter_key_not_dirty; auto with go).
Qed.

Lemma flushed_refl w : limiter_wf (w_redis w) → flushed w w.
Proof. intros H. split; auto. Qed.

Lemma flushed_trans w1 w2 w3 : flushed w1 w2 → flushed w2 w3 → flushed w1 w3.
Proof.
  intros H1 H2. split.
  - apply H2.
  - intros k Hk. rewrite (flushed_keys _ _ H2) by done. by apply H1.
  - etrans; [apply H2|apply H1].
  - intros l Hl. destruct (flushed_dirty _ _ H1 l Hl) as [H|H].
    + by apply (flushed_dirty _ _ H2).
    + right. by apply (flushed_durable _ _ H2).
  - intros l Hl. by apply H2, H1.
  - by rewrite (flushed_links _ _ H2), (flushed_links _ _ H1).
Qed.

(** Only the clock moved. *)
Lemma flushed_tick w : limiter_wf (w_redis w) → flushed w (tick w).
Proof. intros H. split; auto. Qed.

(** The row of a link is written with the current counters. *)
Lemma flushed_upsert linkID row d w :
  limiter_wf (w_redis w) →
  usage_counters d = <[linkID := row]> (usage_counters (w_db w)) →
  shared_links d = shared_links (w_db w) →
  counters_of (w_redis w) linkID = mkCounters (UsageCounters_RequestCount row)
     (UsageCounters_BytesTransferred row) (UsageCounters_ViolationCount row) →
  flushed w (set_db d (tick w)) ∧ durable (set_db d (tick w)) linkID.
Proof.
  intros Hwf Hu Hs Hc.
  assert (Hd : durable (set_db d (tick w)) linkID).
  { exists row. simpl. by rewrite Hu, lookup_insert_eq. }
  split; [|done]. split; simpl; auto.
  intros l (row' & Hr' & Hc'). destruct (decide (l = linkID)) as [->|Hne]; [done|].
  exists row'. simpl. by rewrite Hu, lookup_insert_ne by done.
Qed.

Lemma flushed_clear linkID w w' :
  limiter_wf (w_redis w) → durable w linkID → w_db w' = w_db w →
  w_redis w' = redis_srem dirtySetKey (uuid_String linkID) (w_redis w) →
  flushed w w' ∧ uuid_String linkID ∉ dirty (w_redis w').
Proof.
  intros Hwf Hdur Edb Er.
  destruct (redis_srem_dirty (w_redis w) (uuid_String linkID) Hwf) as (Hd & Hk & Hwf').
  rewrite <-Er in Hd, Hk, Hwf'.
  assert (∀ l, durable w l → durable w' l) as Hdd.
  { intros l (row & Hrow & Hc). exists row. by rewrite Edb, (counters_of_same (w_redis w)). }
  split; [split|]; auto.
  - rewrite Hd. set_solver.
  - intros l Hl. rewrite Hd. destruct (decide (uuid_String l = uuid_String linkID)) as [E|Hne].
    + right. apply uuid_String_inj in E as ->. auto.
    + left. set_solver.
  - by rewrite Edb.
  - rewrite Hd. set_solver.
Qed.

Lemma run_Upsert c w :
  limiter_wf (w_redis w) →
  counters_of (w_redis w) (UsageCounters_SharedLinkID c) =
    mkCounters (UsageCounters_RequestCount c) (UsageCounters_BytesTransferred c)
               (UsageCounters_ViolationCount c) →
  ∃ w' res, run (UsageCounterRepo_Upsert c) w = (w', res) ∧ flushed w w' ∧ w_redis w' = w_redis w ∧
    (res = inr tt → durable w' (UsageCounters_SharedLinkID c)) ∧
    (NoFaults PL → flushable w (UsageCounters_SharedLinkID c) → res = inr tt).
Proof.
  intros Hwf Hc. unfold UsageCounterRepo_Upsert, sql. rewrite run_atom.
  assert (H0 : ∀ A (e : A) flt, env_fault (w_tick w) = Some flt →
    flushed w (tick w) ∧ w_redis (tick w) = w_redis w ∧ (NoFaults PL → False)).
  { intros A e flt Hf. split_and!; [by apply flushed_tick|done|].
    intros HNF. pose proof (no_fault (w_tick w)). congruence. }
  set (stmt := sql_check _ _ _).
  assert (Hstmt : (∃ e, stmt = inl e ∧ ¬ flushable w (UsageCounters_SharedLinkID c)) ∨
    ∃ d, stmt = inr (tt, d) ∧ flushed w (set_db d (tick w)) ∧
      durable (set_db d (tick w)) (UsageCounters_SharedLinkID c)).
  { subst stmt. unfold flushable. pose proof Hc as Hc'. injection Hc' as Hr _ Hv. rewrite Hr, Hv.
    destruct (in_int32b (UsageCounters_RequestCount c)) eqn:E1; simpl; [|left; eexists; split; [done|]; naive_solver].
    destruct (in_int32b (UsageCounters_ViolationCount c)) eqn:E2; simpl; [|left; eexists; split; [done|]; naive_solver].
    destruct (references (shared_links (w_db w)) (UsageCounters_SharedLinkID c)) eqn:E3; simpl.
    - right. eexists. split; [done|]. eapply flushed_upsert; simpl; [done..|]. exact Hc.
    - left. eexists. split; [done|]. rewrite <-references_spec, E3. naive_solver. }
  clearbody stmt.
  destruct (env_fault (w_tick w)) as [[[|k] j]|] eqn:Hf.
  - destruct (H0 _ tt _ eq_refl) as (? & ? & ?). do 2 eexists. split; [done|].
    split_and!; [done..|]. naive_solver.
  - destruct (H0 _ tt _ eq_refl) as (? & ? & ?).
    destruct Hstmt as [(e & -> & _)|(d & -> & ? & ?)]; do 2 eexists; (split; [done|]);
      split_and!; try done; naive_solver.
  - destruct Hstmt as [(e & -> & ?)|(d & -> & ? & ?)]; do 2 eexists; (split; [done|]);
      split_and!; try done. by apply flushed_tick.
Qed.

Lemma run_flush_link linkID w :
  limiter_wf (w_redis w) →
  flushed w (run (flush_link linkID) w).1 ∧
  (NoFaults PL → flushable w linkID →
   durable (run (flush_link linkID) w).1 linkID ∧
   uuid_String linkID ∉ dirty (w_redis (run (flush_link linkID) w).1)).
Proof.
  intros Hwf. unfold flush_link. rewrite run_pbind.
  destruct (run_Get linkID w Hwf) as (res & -> & Hres). cbn [fst snd].
  destruct res as [err|c]; cbn [run fst snd].
  { split; [by apply flushed_tick|]. done. }
  subst c. rewrite run_pbind.
  set (c := mkUsageCounters _ _ _ _ _ _).
  destruct (run_Upsert c (tick w) Hwf eq_refl) as (w1 & r1 & E1 & Hf1 & Er1 & Hd1 & Hn1).
  change (Usage_Upsert c) with (UsageCounterRepo_Upsert c). rewrite E1. cbn [fst snd].
  assert (Hf : flushed w w1) by (eapply flushed_trans; [by apply flushed_tick|exact Hf1]).
  destruct r1 as [err|[]]; cbn [run fst snd].
  { split; [done|]. intros HNF Hfl. by specialize (Hn1 HNF Hfl). }
  specialize (Hd1 eq_refl). rewrite run_pbind.
  assert (Hwf1 : limiter_wf (w_redis w1)) by apply Hf1.
  destruct (run_ClearDirty linkID w1 Hwf1) as (w2 & r2 & -> & Edb & Hred & Hnf). cbn [run fst snd].
  assert (Hclear : w_redis w2 = redis_srem dirtySetKey (uuid_String linkID) (w_redis w1) →
    flushed w1 w2 ∧ uuid_String linkID ∉ dirty (w_redis w2)) by (intros; by apply flushed_clear).
  split.
  - eapply flushed_trans; [exact Hf|]. destruct Hred as [E|E]; [|by apply Hclear].
    split; rewrite ?E, ?Edb; auto. intros l (row & Hrow & Hc). exists row. by rewrite Edb, E.
  - intros HNF _. destruct (Hclear (Hnf HNF)) as [Hf2 Hnot]. split; [|done].
    by apply (flushed_durable _ _ Hf2).
Qed.

Lemma flushable_flushed w w' linkID : flushed w w' → flushable w linkID → flushable w' linkID.
Proof.
  intros Hf. unfold flushable, cell. rewrite (flushed_links _ _ Hf).
  by rewrite !(flushed_keys _ _ Hf) by (apply counter_key_not_dirty; auto with go).
Qed.

Lemma run_flush_links ids w :
  limiter_wf (w_redis w) →
  flushed w (run (for_all ids flush_link) w).1 ∧
  (NoFaults PL → ∀ linkID, linkID ∈ ids → flushable w linkID →
   durable (run (for_all ids flush_link) w).1 linkID ∧
   uuid_String linkID ∉ dirty (w_redis (run (for_all ids flush_link) w).1)).
Proof.
  revert w. induction ids as [|id ids IH]; intros w Hwf; cbn [for_all].
  { split; [by apply flushed_refl|]. by intros _ ? []%not_elem_of_nil. }
  rewrite run_pbind. destruct (run_flush_link id w Hwf) as [Hf Hd].
  destruct (IH (run (flush_link id) w).1) as [Hf' Hd']; [apply Hf|].
  split; [by eapply flushed_trans|]. intros HNF l Hl Hfl.
  destruct (decide (l ∈ ids)) as [Hin|Hnot].
  - apply Hd'; [done..|]. by eapply flushable_flushed.
  - assert (l = id) as -> by set_solver. destruct (Hd HNF Hfl) as [H1 H2]. split.
    + by apply (flushed_durable _ _ Hf').
    + intros H3. apply H2. by apply (flushed_sub _ _ Hf').
Qed.

Lemma run_flushOnce w :
  limiter_wf (w_redis w) →
  flushed w (run SyncWorker_flushOnce w).1 ∧
  (NoFaults PL → ∀ linkID, uuid_String linkID ∈ dirty (w_redis w) → flushable w linkID →
   durable (run SyncWorker_flushOnce w).1 linkID ∧
   uuid_String linkID ∉ dirty (w_redis (run SyncWorker_flushOnce w).1)).
Proof.
  intros Hwf. unfold SyncWorker_flushOnce. rewrite run_pbind.
  destruct (run_DirtyLinkIDs w) as (res & -> & Hres). cbn [fst snd].
  destruct res as [err|ids]; cbn [run fst snd].
  { split; [by apply flushed_tick|done]. }
  destruct (run_flush_links ids (tick w) Hwf) as [Hf Hd]. split.
  - eapply flushed_trans; [by apply flushed_tick|exact Hf].
  - intros HNF l Hl Hfl. apply Hd; [done| |done]. subst ids. apply dirty_ids.
    eauto using uuid_Parse_String.
Qed.

Definition op_key (linkID : UUID) (op : usage_op) : string :=
  match op with
  | OpRequest => requestsKey linkID
  | OpBytes _ => bytesKey linkID
  | OpViolation => violationsKey linkID
  end.

Lemma run_op_incr linkID op : run_op linkID op = incrAndMarkDirty linkID (op_key linkID op) (amount op).
Proof. by destruct op. Qed.

Lemma counter_key_op linkID op : counter_key (op_key linkID op).
Proof. destruct op; simpl; auto with go. Qed.

(** One increment, on the abstract state. *)
Lemma incremented_counters linkID op m r r' l :
  incremented (op_key linkID op) (amount op) m r r' →
  counters_of r' l = if decide (linkID = l) then add_op op (counters_of r l) else counters_of r l.
Proof.
  intros (_ & Hkey & Hother & _).
  assert (∀ k, k ≠ op_key linkID op → counter_key k → cell r' k = cell r k) as Hc.
  { intros k Hk Hck. unfold cell. rewrite Hother; [done..|by apply counter_key_not_dirty]. }
  unfold counters_of. case_decide as Hl.
  - subst l. destruct op; simpl in *; rewrite Hkey; f_equal; apply Hc; auto with go.
  - destruct op; simpl in *; f_equal; apply Hc; auto with go;
      by intros E%eq_sym; (apply requestsKey_inj in E || apply bytesKey_inj in E || apply violationsKey_inj in E).
Qed.

Lemma cell_op_key r linkID op :
  cell r (op_key linkID op) =
  match op with
  | OpRequest => Counters_Requests (counters_of r linkID)
  | OpBytes _ => Counters_Bytes (counters_of r linkID)
  | OpViolation => Counters_Violations (counters_of r linkID)
  end.
Proof. by destruct op. Qed.

Definition counters_le (a b : Counters) : Prop :=
  (Counters_Requests a <= Counters_Requests b)%Z ∧ (Counters_Bytes a <= Counters_Bytes b)%Z ∧
  (Counters_Violations a <= Counters_Violations b)%Z.

Lemma add_op_le op c : (0 <= amount op)%Z → counters_le c (add_op op c).
Proof. unfold counters_le. destruct op; simpl; lia. Qed.

Lemma counters_of_in_int64 r l : limiter_wf r → counters_in_int64 (counters_of r l).
Proof.
  intros Hwf. split_and!; simpl; apply cell_in_int64, wf_cells; auto with go.
Qed.

Lemma counters_in_int64_between a b c :
  counters_in_int64 a → counters_in_int64 c → counters_le a b → counters_le b c → counters_in_int64 b.
Proof. unfold counters_in_int64, counters_le, in_int64. lia. Qed.

Lemma limiter_wf_empty r : rview r = ∅ → limiter_wf r.
Proof.
  intros E. split; [|by rewrite E, lookup_empty].
  intros k _. unfold int_cell. by rewrite E, lookup_empty.
Qed.

Lemma run_op_spec linkID op w :
  limiter_wf (w_redis w) → in_int64 (amount op) →
  counters_in_int64 (add_op op (counters_of (w_redis w) linkID)) →
  ∃ w' res, run (run_op linkID op) w = (w', res) ∧ w' = set_redis (w_redis w') (tick w) ∧
    match res with
    | inr v =>
        incremented (op_key linkID op) (amount op) (uuid_String linkID) (w_redis w) (w_redis w') ∧
        v = (cell (w_redis w) (op_key linkID op) + amount op)%Z ∧
        dirty (w_redis w') = {[uuid_String linkID]} ∪ dirty (w_redis w)
    | inl _ =>
        (w_redis w' = w_redis w ∨
         incremented (op_key linkID op) (amount op) (uuid_String linkID) (w_redis w) (w_redis w')) ∧
        ¬ NoFaults PL
    end.
Proof.
  intros Hwf Hn (H1 & H2 & H3). rewrite run_op_incr.
  apply run_incrAndMarkDirty; [done|apply counter_key_op|done|].
  destruct op; simpl in *; done.
Qed.

End state.

#[export] Hint Resolve counters_of_in_int64 limiter_wf_empty : go.

(** ** The abstract store

    A map from links and counters to integers, and a set of marked links; an
    increment that leaves the 64-bit range is an error and marks the link all
    the same, since Redis executes every command of a pipeline. *)

Inductive usage_field : Type := FieldRequests | FieldBytes | FieldViolations.

#[export] Instance usage_field_eq_dec : EqDecision usage_field.
Proof. solve_decision. Defined.

#[export] Instance usage_field_countable : Countable usage_field.
Proof.
  refine (inj_countable' (λ f, match f with FieldRequests => 0 | FieldBytes => 1 | FieldViolations => 2 end)
    (λ n, match n with 0 => FieldRequests | 1 => FieldBytes | _ => FieldViolations end) _).
  by intros [].
Defined.

Record UsageStore := mkUsageStore {
  us_counts : gmap (UUID * usage_field) Z;
  us_dirty : gset UUID }.

Inductive store_op : Type :=
| Increment (linkID : UUID) (op : usage_op)
| Snapshot (linkID : UUID)
| WarmUp (linkID : UUID) (c : Counters)
| ListDirty
| Unmark (linkID : UUID).

Inductive store_reply : Type :=
| Failed
| Count (n : Z)
| Counts (c : Counters)
| Marked (ids : list UUID)
| Stored.

(** Arguments are Go values of type int64. *)
Definition store_op_int64 (op : store_op) : Prop :=
  match op with
  | Increment _ o => in_int64 (amount o)
  | WarmUp _ c => counters_in_int64 c
  | _ => True
  end.

Definition op_field (op : usage_op) : usage_field :=
  match op with OpRequest => FieldRequests | OpBytes _ => FieldBytes | OpViolation => FieldViolations end.

Definition count_of (s : UsageStore) (linkID : UUID) (f : usage_field) : Z :=
  default 0%Z (us_counts s !! (linkID, f)).

Definition load_missing (linkID : UUID) (f : usage_field) (n : Z) (m : gmap (UUID * usage_field) Z)
    : gmap (UUID * usage_field) Z :=
  match m !! (linkID, f) with None => <[(linkID, f) := n]> m | Some _ => m end.

Definition store_step (op : store_op) (s : UsageStore) : UsageStore * store_reply :=
  match op with
  | Increment l o =>
      let n := (count_of s l (op_field o) + amount o)%Z in
      let marked := {[l]} ∪ us_dirty s in
      if in_int64b n then (mkUsageStore (<[(l, op_field o) := n]> (us_counts s)) marked, Count n)
      else (mkUsageStore (us_counts s) marked, Failed)
  | Snapshot l =>
      (s, Counts (mkCounters (count_of s l FieldRequests) (count_of s l FieldBytes) (count_of s l FieldViolations)))
  | WarmUp l c =>
      (mkUsageStore (load_missing l FieldViolations (Counters_Violations c)
        (load_missing l FieldBytes (Counters_Bytes c)
        (load_missing l FieldRequests (Counters_Requests c) (us_counts s)))) (us_dirty s), Stored)
  | ListDirty => (s, Marked (elements (us_dirty s)))
  | Unmark l => (mkUsageStore (us_counts s) (us_dirty s ∖ {[l]}), Stored)
  end.

Fixpoint store_steps (ops : list store_op) (s : UsageStore) : UsageStore * list store_reply :=
  match ops with
  | [] => (s, [])
  | op :: ops' =>
      let '(s1, r) := store_step op s in
      let '(s2, rs) := store_steps ops' s1 in (s2, r :: rs)
  end.

(** Redis keeps no order on the members of a set. *)
Definition same_reply (r r' : store_reply) : Prop :=
  match r, r' with Marked ids, Marked ids' => ids ≡ₚ ids' | _, _ => r = r' end.

Section abstract_store.
Context {PL : Platform}.

(** The operations of the counter store, with their results. *)
Definition store_reply_of {A} (f : A → store_reply) (r : go_error + A) : P store_reply :=
  Ret (match r with inr a => f a | inl _ => Failed end).

Definition run_store_op (op : store_op) : P store_reply :=
  match op with
  | Increment l o => let* r := run_op l o in store_reply_of Count r
  | Snapshot l => let* r := CounterStore_Get l in store_reply_of Counts r
  | WarmUp l c => let* r := CounterStore_WarmLoad l (Counters_Requests c) (Counters_Bytes c) (Counters_Violations c) in
      store_reply_of (λ _, Stored) r
  | ListDirty => let* r := CounterStore_DirtyLinkIDs in store_reply_of Marked r
  | Unmark l => let* r := CounterStore_ClearDirty l in store_reply_of (λ _, Stored) r
  end.

Fixpoint run_store (ops : list store_op) : P (list store_reply) :=
  match ops with
  | [] => Ret []
  | op :: ops' => let* r := run_store_op op in let* rs := run_store ops' in Ret (r :: rs)
  end.

Definition field_key (linkID : UUID) (f : usage_field) : string :=
  match f with
  | FieldRequests => requestsKey linkID
  | FieldBytes => bytesKey linkID
  | FieldViolations => violationsKey linkID
  end.

Context `{!PlatformLaws PL}.

Record represents (r : redis) (s : UsageStore) : Prop := {
  rep_wf : limiter_wf r;
  rep_counts l f : rview r !! field_key l f = RInt <$> us_counts s !! (l, f);
  rep_dirty : dirty r = set_map uuid_String (us_dirty s) }.

Lemma field_key_inj l f l' f' : field_key l f = field_key l' f' → (l, f) = (l', f').
Proof.
  destruct f, f'; simpl; intros E;
    first [by rewrite (requestsKey_inj l l' E)|by rewrite (bytesKey_inj l l' E)|by rewrite (violationsKey_inj l l' E)|
           exfalso; revert E; solve [auto with go | apply not_eq_sym; auto with go]].
Qed.

Lemma counter_key_field l f : counter_key (field_key l f).
Proof. destruct f; simpl; auto with go. Qed.

Lemma rep_cell r s l f : represents r s → cell r (field_key l f) = count_of s l f.
Proof. intros Hr. unfold cell, count_of. rewrite (rep_counts _ _ Hr). by destruct (_ !! _). Qed.

(** Writing a counter, on both sides. *)
Lemma represents_insert r r' s l f n :
  represents r s → in_int64 n → rview r' = <[field_key l f := RInt n]> (rview r) →
  represents r' (mkUsageStore (<[(l, f) := n]> (us_counts s)) (us_dirty s)).
Proof.
  intros Hr Hn E. split.
  - eapply limiter_wf_insert_counter; [apply Hr|apply counter_key_field|exact Hn|exact E].
  - intros l' f'. cbn [us_counts]. rewrite E. destruct (decide ((l, f) = (l', f'))) as [[= <- <-]|Hne].
    + by rewrite !lookup_insert_eq.
    + rewrite !lookup_insert_ne; [apply Hr|done|]. by intros ?%field_key_inj.
  - cbn [us_dirty]. rewrite <-(rep_dirty _ _ Hr). unfold dirty. rewrite E, lookup_insert_ne; [done|].
    apply counter_key_not_dirty, counter_key_field.
Qed.

Lemma represents_setnx r s l f n :
  represents r s → in_int64 n →
  represents (redis_setnx (field_key l f) n r) (mkUsageStore (load_missing l f n (us_counts s)) (us_dirty s)).
Proof.
  intros Hr Hn. pose proof (rview_setnx (field_key l f) n r Hn) as E. rewrite (rep_counts _ _ Hr) in E.
  unfold load_missing. destruct (us_counts s !! (l, f)) as [z|] eqn:Ez; simpl in E.
  - destruct s as [m d]. cbn [us_counts us_dirty]. destruct Hr as [Hwf Hc Hd]. split.
    + by destruct Hwf as [H1 H2]; split; [intros k Hk; unfold int_cell; rewrite E; by apply H1|rewrite E].
    + intros l' f'. by rewrite E.
    + unfold dirty. by rewrite E.
  - by apply (represents_insert r).
Qed.

(** Changing the marks, on both sides. *)
Lemma represents_marks r r' s D :
  represents r s → limiter_wf r' → (∀ k, k ≠ dirtySetKey → rview r' !! k = rview r !! k) →
  dirty r' = set_map uuid_String D → represents r' (mkUsageStore (us_counts s) D).
Proof.
  intros Hr Hwf Ho Hd. split; [done| |done]. intros l f. cbn [us_counts].
  rewrite Ho by apply counter_key_not_dirty, counter_key_field. apply Hr.
Qed.

Lemma represents_sadd r s l :
  represents r s → represents (redis_sadd dirtySetKey (uuid_String l) r) (mkUsageStore (us_counts s) ({[l]} ∪ us_dirty s)).
Proof.
  intros Hr. destruct (redis_sadd_dirty r (uuid_String l) (rep_wf _ _ Hr)) as (Hd & Ho & Hwf).
  apply (represents_marks r); [done..|]. rewrite Hd, (rep_dirty _ _ Hr). set_solver.
Qed.

Lemma represents_srem r s l :
  represents r s → represents (redis_srem dirtySetKey (uuid_String l) r) (mkUsageStore (us_counts s) (us_dirty s ∖ {[l]})).
Proof.
  intros Hr. destruct (redis_srem_dirty r (uuid_String l) (rep_wf _ _ Hr)) as (Hd & Ho & Hwf).
  apply (represents_marks r); [done..|]. rewrite Hd, (rep_dirty _ _ Hr). apply set_eq. intros x.
  rewrite elem_of_difference, !elem_of_map, elem_of_singleton. split.
  - intros ((u & -> & Hu) & Hne). exists u. split; [done|]. apply elem_of_difference. split; [done|].
    rewrite elem_of_singleton. congruence.
  - intros (u & -> & [Hu Hne]%elem_of_difference). split; [by eauto|].
    intros ->%uuid_String_inj. by apply Hne, elem_of_singleton.
Qed.

Lemma represents_incrby r s l f n :
  represents r s → in_int64 n →
  let z := (count_of s l f + n)%Z in
  if in_int64b z
  then ∃ r', redis_incrby (field_key l f) n r = Some (z, r') ∧
             represents r' (mkUsageStore (<[(l, f) := z]> (us_counts s)) (us_dirty s))
  else redis_incrby (field_key l f) n r = None.
Proof.
  intros Hr Hn z. pose proof (wf_cells _ (rep_wf _ _ Hr) _ (counter_key_field l f)) as Hcell.
  apply cell_reply in Hcell. rewrite (rep_cell _ _ _ _ Hr) in Hcell. destruct (in_int64b z) eqn:Ez.
  - apply in_int64b_spec in Ez. destruct (redis_incrby_rview _ n r _ Hn Hcell Ez) as (r' & E & Ev).
    exists r'. split; [done|]. by apply (represents_insert r).
  - eapply redis_incrby_overflow; [done|exact Hcell|]. intros Hz%in_int64b_spec. fold z in Hz. congruence.
Qed.

(** The identifiers behind the members of the dirty set. *)
Lemma elements_ids (D : gset UUID) :
  elements (set_map uuid_String D : gset string) ≡ₚ uuid_String <$> elements D.
Proof.
  apply NoDup_Permutation; [apply NoDup_elements| |].
  - apply (NoDup_fmap_2_strong uuid_String); [|apply NoDup_elements]. intros u v _ _. apply uuid_String_inj.
  - intros x. rewrite elem_of_elements, elem_of_map, list_elem_of_fmap. by setoid_rewrite elem_of_elements.
Qed.

Lemma omap_ids (ids : list UUID) : omap uuid_Parse (uuid_String <$> ids) = ids.
Proof. induction ids as [|u ids IH]; [done|]. csimpl. by rewrite uuid_Parse_String, IH. Qed.

(** Each operation implements the step of its own. *)
Lemma run_store_op_spec `{!NoFaults PL} op w s :
  represents (w_redis w) s → store_op_int64 op →
  let '(w', r) := run (run_store_op op) w in
  let '(s', r') := store_step op s in
  same_reply r r' ∧ represents (w_redis w') s' ∧ w_db w' = w_db w.
Proof.
  intros Hr Hop. destruct op as [l o|l|l c| |l]; unfold run_store_op, store_reply_of; rewrite run_pbind.
  - rewrite run_op_incr. unfold incrAndMarkDirty. rewrite run_pbind.
    assert (op_key l o = field_key l (op_field o)) as -> by by destruct o.
    pose proof (represents_incrby _ s l (op_field o) (amount o) Hr Hop) as Hi. cbn [store_step] in *.
    rewrite run_pipe_ok, !exec_cmds_cons. cbn [exec_cmd exec_cmds]. destruct (in_int64b _).
    + destruct Hi as (r1 & -> & Hr1). simpl. split_and!; [done| |done]. by apply (represents_sadd r1 _ l) in Hr1.
    + rewrite Hi. simpl. split_and!; [done| |done]. by apply represents_sadd.
  - destruct (run_Get l w (rep_wf _ _ Hr)) as (res & -> & Hres). destruct res as [e|c]; [by destruct Hres|].
    subst c. simpl. split_and!; [|done|done]. unfold counters_of.
    by rewrite <-!(rep_cell _ _ _ _ Hr).
  - destruct Hop as (H1 & H2 & H3). unfold CounterStore_WarmLoad. rewrite run_pbind, run_pipe_ok, !exec_cmds_cons. simpl.
    split_and!; [done| |done].
    exact (represents_setnx _ _ l FieldViolations _ (represents_setnx _ _ l FieldBytes _
      (represents_setnx _ _ l FieldRequests _ Hr H1) H2) H3).
  - unfold CounterStore_DirtyLinkIDs. rewrite run_pbind, run_pipe_ok, !exec_cmds_cons. simpl.
    split_and!; [|by destruct w|done]. pose proof (redis_smembers_rview dirtySetKey (w_redis w)) as Hm.
    fold (dirty (w_redis w)) in Hm. rewrite (rep_dirty _ _ Hr) in Hm.
    unfold same_reply. rewrite Hm. by rewrite elements_ids, omap_ids.
  - unfold CounterStore_ClearDirty. rewrite run_pbind, run_pipe_ok, !exec_cmds_cons. simpl.
    split_and!; [done| |done]. by apply represents_srem.
Qed.

End abstract_store.

(** ** Properties *)

(** C21: the counter store implements a map from links to three integers and a
    set of marked links.  Any sequence of its operations (increments by any
    int64, reads, warm loads, listing and removing marks), run without failures,
    gives the results and leaves the state of the same operations on the map: an
    increment returns the new count, or fails, without effect on the count, when
    it would leave the 64-bit range, and marks its link in either case; a warm
    load fills in the counters that are missing; a listing has the marked links
    in some order. *)
Theorem counters_refine {PL : Platform} `{!PlatformLaws PL} `{!NoFaults PL} ops w s
    (Hrep : represents (w_redis w) s) (Hops : Forall store_op_int64 ops) :
  let '(w', replies) := run (run_store ops) w in
  let '(s', replies') := store_steps ops s in
  Forall2 same_reply replies replies' ∧ represents (w_redis w') s' ∧ w_db w' = w_db w.
Proof.
  revert w s Hrep. induction Hops as [|op ops Hop Hops IH]; intros w s Hrep; cbn [run_store store_steps].
  { split_and!; [constructor|done..]. }
  rewrite run_pbind. pose proof (run_store_op_spec op w s Hrep Hop) as Hstep.
  destruct (run (run_store_op op) w) as [w1 r], (store_step op s) as [s1 r']. cbn [fst snd].
  destruct Hstep as (Hr & Hrep1 & Hdb). rewrite run_pbind. specialize (IH w1 s1 Hrep1).
  destruct (run (run_store ops) w1) as [w2 rs], (store_steps ops s1) as [s2 rs']. cbn [fst snd run].
  destruct IH as (Hrs & Hrep2 & Hdb2). split_and!; [by constructor|done|congruence].
Qed.

(** an increment under any failure of the connection to Redis.  If it
    returns a value, that value is the exact new count, the counter holds it and
    the link is marked; if it returns an error, the counter holds the old or the
    new count.  No other counter changes in either case. *)
Theorem increment_under_faults {PL : Platform} `{!PlatformLaws PL} linkID op w w' res
    (Hwf : limiter_wf (w_redis w)) (Hn : in_int64 (amount op))
    (Hfit : counters_in_int64 (add_op op (counters_of (w_redis w) linkID)))
    (Hrun : run (run_op linkID op) w = (w', res)) :
  limiter_wf (w_redis w') ∧ w_db w' = w_db w ∧
  (∀ l, l ≠ linkID → counters_of (w_redis w') l = counters_of (w_redis w) l) ∧
  match res with
  | inr v =>
      counters_of (w_redis w') linkID = add_op op (counters_of (w_redis w) linkID) ∧
      v = cell (w_redis w') (op_key linkID op) ∧ uuid_String linkID ∈ dirty (w_redis w')
  | inl _ =>
      counters_of (w_redis w') linkID = counters_of (w_redis w) linkID ∨
      counters_of (w_redis w') linkID = add_op op (counters_of (w_redis w) linkID)
  end.
Proof.
  destruct (run_op_spec linkID op w Hwf Hn Hfit) as (w1 & res1 & E & Ew & Hres).
  rewrite Hrun in E. injection E as <- <-.
  assert (Hdb : w_db w' = w_db w) by by rewrite Ew.
  assert (Hother : ∀ r', incremented (op_key linkID op) (amount op) (uuid_String linkID) (w_redis w) r' →
    ∀ l, counters_of r' l = if decide (linkID = l) then add_op op (counters_of (w_redis w) l)
                            else counters_of (w_redis w) l).
  { intros r' Hinc l. by eapply incremented_counters. }
  destruct res as [err|v].
  - destruct Hres as [[->|Hinc] _]; [by split_and!; auto|].
    split_and!; [apply Hinc|done| |right; by rewrite Hother, decide_True].
    intros l Hl. by rewrite Hother, decide_False by done.
  - destruct Hres as (Hinc & -> & Hd). split_and!; [apply Hinc|done| |by rewrite Hother, decide_True| |].
    + intros l Hl. by rewrite Hother, decide_False by done.
    + by destruct Hinc as (_ & -> & _).
    + rewrite Hd. set_solver.
Qed.

(** warm loading has SETNX semantics.  Whatever the failures, no value that
    is in Redis changes; a load that succeeds adds exactly the durable counters
    that were missing; and once it has succeeded every later load, with any
    values and however it fails, is without effect. *)
Theorem WarmLoad_spec {PL : Platform} `{!PlatformLaws PL} linkID c w
    (Hwf : limiter_wf (w_redis w)) (Hc : counters_in_int64 c) :
  let load c := CounterStore_WarmLoad linkID (Counters_Requests c) (Counters_Bytes c)
                  (Counters_Violations c) in
  let '(w1, res) := run (load c) w in
  limiter_wf (w_redis w1) ∧ rview (w_redis w) ⊆ rview (w_redis w1) ∧
  (res = inr tt →
   rview (w_redis w1) = rview (w_redis w) ∪ seed linkID c ∧
   ∀ c' w2, counters_in_int64 c' → w_redis w2 = w_redis w1 →
     rview (w_redis (run (load c') w2).1) = rview (w_redis w1)).
Proof.
  intros load. subst load. cbv beta.
  destruct (run_WarmLoad linkID c w Hwf Hc) as (w1 & res & -> & _ & Hwf1 & (m & Hm & Hv) & Hres).
  split_and!; [done|rewrite Hv; apply map_union_subseteq_l|]. intros ->.
  split; [done|]. intros c' w2 Hc' E2. rewrite <-E2 in Hwf1, Hres |- *.
  destruct (run_WarmLoad linkID c' w2 Hwf1 Hc') as (w3 & res' & -> & _ & _ & (m' & Hm' & Hv') & _).
  cbn [fst]. rewrite Hv'. apply map_eq. intros k. rewrite lookup_union.
  destruct (m' !! k) as [v'|] eqn:Ek; [|by rewrite right_id_L by apply _].
  assert (is_Some (seed linkID c !! k)) as [v Hk].
  { apply (lookup_weaken _ _ _ _ Ek) in Hm'. revert Hm'. unfold seed.
    rewrite !lookup_union_is_Some, !lookup_singleton_is_Some.
    intros H%mk_is_Some. by rewrite !lookup_union_is_Some, !lookup_singleton_is_Some in H. }
  rewrite Hres, lookup_union, Hk. by destruct (rview (w_redis w) !! k).
Qed.

(** C22: flushing loses nothing.  Whatever fails, [flushOnce] changes no counter,
    and a link leaves the dirty set only when its row of usage_counters holds
    its counters; a row that holds them keeps them.  Without failures, every
    dirty link whose counters fit the columns is flushed. *)
Theorem flushOnce_spec {PL : Platform} `{!PlatformLaws PL} w (Hwf : limiter_wf (w_redis w)) :
  let w' := (run SyncWorker_flushOnce w).1 in
  (∀ l, counters_of (w_redis w') l = counters_of (w_redis w) l) ∧
  (∀ l, uuid_String l ∈ dirty (w_redis w) → uuid_String l ∈ dirty (w_redis w') ∨ durable w' l) ∧
  (∀ l, durable w l → durable w' l) ∧
  (NoFaults PL → ∀ l, uuid_String l ∈ dirty (w_redis w) → flushable w l →
     durable w' l ∧ uuid_String l ∉ dirty (w_redis w')).
Proof.
  intros w'. subst w'. destruct (run_flushOnce w Hwf) as [[] Hn]. split_and!; auto.
  intros l. by apply counters_of_same.
Qed.

(** ** Witnesses *)

Definition demo_ops : list (UUID * usage_op) :=
  [(5%N, OpRequest); (5%N, OpBytes 100); (6%N, OpRequest); (5%N, OpViolation)].

Lemma demo_counters_empty l : counters_of (PL := demo) (∅ : gmap string rvalue) l = mkCounters 0 0 0.
Proof. reflexivity. Qed.

Lemma demo_wf : limiter_wf (PL := demo) (w_redis (demo_world empty_DB)).
Proof. by apply limiter_wf_empty. Qed.

Definition demo_store_ops : list store_op :=
  [WarmUp 5%N (mkCounters 1 0 2); Increment 5%N (OpBytes (two63 - 1)); Increment 5%N (OpBytes 1);
   Increment 6%N OpRequest; WarmUp 5%N (mkCounters 7 7 7); ListDirty; Unmark 6%N; ListDirty; Snapshot 5%N].

Lemma demo_represents : represents (PL := demo) (w_redis (demo_world empty_DB)) (mkUsageStore ∅ ∅).
Proof.
  split; [apply demo_wf| |].
  - intros l f. cbn [us_counts]. rewrite lookup_empty. exact (lookup_empty _).
  - cbn [us_dirty]. by rewrite set_map_empty.
Qed.

Lemma counters_refine_witness :
  ∃ ids, ids ≡ₚ [5%N; 6%N] ∧
  (run (run_store (PL := demo) demo_store_ops) (demo_world empty_DB)).2 =
  [Stored; Count (two63 - 1); Failed; Count 1; Stored; Marked ids; Stored; Marked [5%N];
   Counts (mkCounters 1 (two63 - 1) 2)].
Proof.
  pose proof (counters_refine demo_store_ops (demo_world empty_DB) (mkUsageStore ∅ ∅) demo_represents) as H.
  destruct (run _ _) as [w' replies], (store_steps _ _) as [s' replies'] eqn:E.
  apply (f_equal snd) in E. vm_compute in E. cbn [snd] in *. subst replies'.
  destruct H as (H & _).
  { repeat constructor; unfold in_int64, two63; simpl; lia. }
  repeat match goal with
  | H : Forall2 _ _ (_ :: _) |- _ => apply Forall2_cons_inv_r in H as (? & ? & ? & H & ->)
  | H : Forall2 _ _ [] |- _ => apply Forall2_nil_inv_r in H; subst
  end.
  repeat match goal with
  | H : same_reply ?r (Marked _) |- _ => destruct r; simpl in H; try discriminate H
  | H : same_reply ?r ?r' |- _ => assert (r = r') by (destruct r; exact H); clear H; subst r
  end.
  match goal with H : Permutation ?ids (_ :: _ :: _), H1 : Permutation _ (_ :: []) |- _ =>
    apply Permutation_singleton_r in H1; subst; exists ids; split; [rewrite H; apply perm_swap|reflexivity] end.
Defined.

Lemma demo_fit d l op : (0 <= amount op < two63)%Z →
  counters_in_int64 (add_op op (counters_of (w_redis (demo_world d)) l)).
Proof.
  unfold demo_world. cbn [w_redis]. rewrite demo_counters_empty.
  unfold counters_in_int64, in_int64, two63. destruct op; simpl; lia.
Qed.

Lemma increment_under_faults_witness :
  ∃ w', run (run_op (PL := demo) 5%N (OpBytes 100)) (demo_world empty_DB) = (w', inr 100%Z) ∧
    @uuid_String demo 5%N ∈ dirty (w_redis w').
Proof.
  eexists. split; [apply run_result; vm_compute; reflexivity|].
  eapply (increment_under_faults 5%N (OpBytes 100) (demo_world empty_DB) _ (inr 100%Z)).
  - apply demo_wf.
  - unfold in_int64, two63. simpl. lia.
  - by apply demo_fit.
  - apply run_result. vm_compute. reflexivity.
Defined.

Lemma WarmLoad_spec_witness :
  let '(w1, res) := run (CounterStore_WarmLoad (PL := demo) 5%N 7 700 0) (demo_world empty_DB) in
  res = inr tt ∧ rview (w_redis w1) = rview (w_redis (demo_world empty_DB)) ∪ seed (PL := demo) 5%N (mkCounters 7 700 0).
Proof.
  pose proof (WarmLoad_spec 5%N (mkCounters 7 700 0) (demo_world empty_DB) demo_wf) as H.
  cbv zeta beta in H. cbn [Counters_Requests Counters_Bytes Counters_Violations] in H.
  destruct (run (CounterStore_WarmLoad 5%N 7 700 0) (demo_world empty_DB)) as [w1 res] eqn:E.
  assert (res = inr tt) as Hr by (apply (f_equal snd) in E; vm_compute in E; by rewrite <-E).
  split; [done|]. apply H; [|done]. unfold counters_in_int64, in_int64, two63. simpl. lia.
Defined.

(** A database with link 5, and Redis after one request of it. *)
Definition demo_link : SharedLink := mkSharedLink 5 2 "tok" LinkStatusActive None 0 None.

Definition demo_link_db : DB := set_shared_links (λ _, {[ 5%N := demo_link ]}) empty_DB.

Definition demo_dirty_world : World (PL := demo) :=
  (run (CounterStore_IncrRequests (PL := demo) 5%N) (demo_world demo_link_db)).1.

Lemma demo_dirty_wf : limiter_wf (w_redis demo_dirty_world).
Proof.
  destruct (run_op_spec 5%N OpRequest (demo_world demo_link_db)) as (w1 & res & E & _ & Hres).
  - by apply limiter_wf_empty.
  - unfold in_int64, two63. simpl. lia.
  - by apply demo_fit.
  - unfold demo_dirty_world. change (CounterStore_IncrRequests (PL := demo) 5%N) with (run_op (PL := demo) 5%N OpRequest).
    rewrite E. cbn [fst]. destruct res as [err|v]; [by destruct Hres as [_ []]|]. apply Hres.
Qed.

Lemma flushOnce_spec_witness :
  durable (run SyncWorker_flushOnce demo_dirty_world).1 5%N ∧
  @uuid_String demo 5%N ∉ dirty (w_redis (run SyncWorker_flushOnce demo_dirty_world).1).
Proof.
  apply (flushOnce_spec demo_dirty_world demo_dirty_wf).
  - apply _.
  - vm_compute. reflexivity.
  - split_and!; [vm_compute; reflexivity..|]. eexists. vm_compute. reflexivity.
Defined.

(** A request counted between the GET and the SREM of the flush: its mark is
    cleared with the old counters in usage_counters. *)
Definition lost_update_schedule : list nat :=
  replicate 6 0 ++ replicate 3 1 ++ replicate 3 0.

Definition lost_update_end : list (P (PL := demo) unit) * World (PL := demo) :=
  schedule lost_update_schedule
    [SyncWorker_flushOnce; (let* _ := CounterStore_IncrRequests 5%N in Ret tt)] demo_dirty_world.

(** Flushing and counting concurrently can leave a link that is neither dirty
    nor durable. *)
Lemma lost_update :
  rtc pool_step ([SyncWorker_flushOnce; (let* _ := CounterStore_IncrRequests 5%N in Ret tt)], demo_dirty_world)
                lost_update_end ∧
  forallb finished lost_update_end.1 = true ∧
  counters_of (w_redis lost_update_end.2) 5%N = mkCounters 2 0 0 ∧
  UsageCounters_RequestCount <$> usage_counters (w_db lost_update_end.2) !! 5%N = Some 1%Z ∧
  dirty (w_redis lost_update_end.2) = ∅.
Proof.
  split; [apply schedule_pool|]. split_and!; vm_compute; reflexivity.
Qed.
