(* ===== verification/Links.v ===== *)
(** * internal/service: creating and terminating links (link_service.go) *)

From S2P Require Import Prelude GoStrings Encoding Domain Schema Platform Effects Interfaces RepoLinks RepoSessions RepoLogs.

Open Scope go_scope.

(** ** Definitions *)

Definition ErrSessionNotOwned := ErrNew "service: original_session does not belong to this user".
Definition ErrSessionNotActive := ErrNew "service: original_session is not active".
Definition ErrLinkNotOwned := ErrNew "service: shared_link does not belong to this user".
Definition ErrLinkAlreadyTerminated := ErrNew "service: shared_link is already terminated".

(** [TTL] is a [time.Duration]; zero or less means no expires_at. *)
Record CreateLinkInput := mkCreateLinkInput {
  CreateLinkInput_OriginalSessionID : UUID;
  CreateLinkInput_Label : string;
  CreateLinkInput_TTL : Z;
  CreateLinkInput_PolicyIDs : list UUID;
  CreateLinkInput_EndpointIDs : list UUID }.

(** [domain.SharedLink{}] *)
Definition SharedLink_zero : SharedLink := mkSharedLink uuid_Nil uuid_Nil "" "" None 0 None.

Section service.
Context {PL : Platform}.

Definition generateLinkToken : M string :=
  let! raw := wrap "service: generate link token" (rand_Read 24) in
  ret (RawURLEncoding_EncodeToString raw).

(** The row [CreateLink] inserts. *)
Definition new_link (input : CreateLinkInput) (token : string) (expiry : option GoTime) : SharedLink :=
  mkSharedLink uuid_Nil (CreateLinkInput_OriginalSessionID input) token ""
    (nullIfEmpty (CreateLinkInput_Label input)) 0 expiry.

(** [if in.TTL > 0 { expiry := time.Now().Add(in.TTL); .. }] *)
Definition link_expiry (ttl : Z) : P (option GoTime) :=
  if (0 <? ttl)%Z then (let* now := time_Now in Ret (Some (now + ttl)%Z)) else Ret None.

Section interfaces.
Context `{!OriginalSessionRepository} `{!SharedLinkRepository} `{!AccessPolicyRepository}
  `{!BlacklistRepository} `{!LinkTerminationRepository}.

(** The two loops that attach policies and rules. *)
Definition attach_all (linkID : UUID) (policies endpoints : list UUID) : M unit :=
  let! _ := for_each policies (λ policyID,
    wrap ("service: attach policy " +:+ uuid_String policyID)
         (AccessPolicies_AttachToLink linkID policyID)) in
  for_each endpoints (λ endpointID,
    wrap ("service: attach blacklist rule " +:+ uuid_String endpointID)
         (Blacklist_AttachToLink linkID endpointID)).

(** The checks of [CreateLink], up to the creation of the link. *)
Definition create_row (userID : UUID) (input : CreateLinkInput) : M SharedLink :=
  let! session := wrap "service: load original_session"
                    (OriginalSessions_GetByID (CreateLinkInput_OriginalSessionID input)) in
  if decide (OriginalSession_UserID session ≠ userID) then fail ErrSessionNotOwned else
  if decide (OriginalSession_Status session ≠ SessionStatusActive) then fail ErrSessionNotActive else
  let! token := generateLinkToken in
  let* expiry := link_expiry (CreateLinkInput_TTL input) in
  wrap "service: create shared_link" (SharedLinks_Create (new_link input token expiry)).

(** The link is returned also when attaching fails. *)
Definition LinkService_CreateLink (userID : UUID) (input : CreateLinkInput)
    : P (SharedLink * option go_error) :=
  let* r := create_row userID input in
  match r with
  | inl err => Ret (SharedLink_zero, Some err)
  | inr created =>
      let* a := attach_all (SharedLink_ID created) (CreateLinkInput_PolicyIDs input)
                  (CreateLinkInput_EndpointIDs input) in
      match a with
      | inl err => Ret (created, Some err)
      | inr _ => Ret (created, None)
      end
  end.

(** The part shared by the two terminations, from the loaded link on. *)
Definition terminate_link (linkID : UUID) (term : LinkTermination) : M unit :=
  let! _ := wrap "service: update shared_link status"
              (SharedLinks_UpdateStatus linkID LinkStatusTerminated) in
  wrap "service: record link_termination" (LinkTerminations_Create term).

Definition LinkService_TerminateLink (userID linkID : UUID) (notes : string) : M unit :=
  let! owner := wrap "service: resolve link owner" (SharedLinks_OwnerUserID linkID) in
  if decide (owner ≠ userID) then fail ErrLinkNotOwned else
  let! link := wrap "service: load shared_link" (SharedLinks_GetByID linkID) in
  if decide (SharedLink_Status link = LinkStatusTerminated) then fail ErrLinkAlreadyTerminated else
  terminate_link linkID
    (mkLinkTermination uuid_Nil linkID ReasonManual (Some userID) (nullIfEmpty notes) 0).

Definition LinkService_AutoTerminate (linkID : UUID) (reasonCode : string) : M unit :=
  let! link := wrap "service: load shared_link" (SharedLinks_GetByID linkID) in
  if decide (SharedLink_Status link = LinkStatusTerminated) then ret tt else
  terminate_link linkID (mkLinkTermination uuid_Nil linkID reasonCode None None 0).

End interfaces.

(** ** Specifications *)

(** The link is in the table, terminated. *)
Definition terminated (d : DB) (linkID : UUID) : Prop :=
  ∃ l, shared_links d !! linkID = Some l ∧ SharedLink_Status l = LinkStatusTerminated.

(** Rows of shared_links stay, keep everything but their status, and a
    terminated one stays terminated. *)
Definition links_kept (d d' : DB) : Prop :=
  ∀ id l, shared_links d !! id = Some l →
    ∃ s, shared_links d' !! id = Some (SharedLink_with_status s l) ∧
      (SharedLink_Status l = LinkStatusTerminated → s = LinkStatusTerminated).

(** The database after a termination of [linkID]: its status and one more
    record, drawn under the identifier [id] at the time [now]. *)
Definition terminated_db (linkID : UUID) (term : LinkTermination) (id : UUID) (now : GoTime) (d : DB) : DB :=
  set_link_terminations <[id := mkLinkTermination id (LinkTermination_SharedLinkID term)
      (LinkTermination_ReasonCode term) (LinkTermination_TerminatedBy term)
      (LinkTermination_Notes term) now]>
    (set_shared_links (alter (SharedLink_with_status LinkStatusTerminated) linkID) d).

(** The row [CreateLink] adds for a token drawn as [raw]. *)
Definition link_row (input : CreateLinkInput) (raw : string) (expiry : option GoTime) (id : UUID)
    (now : GoTime) : SharedLink :=
  mkSharedLink id (CreateLinkInput_OriginalSessionID input) (RawURLEncoding_EncodeToString raw)
    LinkStatusActive (nullIfEmpty (CreateLinkInput_Label input)) now (timestamptz <$> expiry).

(** [expires_at] for a TTL: the time [now] plus the TTL, if positive. *)
Definition expiry_of (now : GoTime) (ttl : Z) (expiry : option GoTime) : Prop :=
  match expiry with
  | None => (ttl <= 0)%Z
  | Some t => (0 < ttl)%Z ∧ t = (now + ttl)%Z
  end.

(** The termination records of a link. *)
Definition terminations_of (d : DB) (linkID : UUID) : list LinkTermination :=
  filter (λ t, LinkTermination_SharedLinkID t = linkID) (rows (link_terminations d)).

End service.

(** ** Lemmas *)

Lemma SharedLink_with_status_id l : SharedLink_with_status (SharedLink_Status l) l = l.
Proof. by destruct l. Qed.

#[export] Instance links_kept_preorder : PreOrder links_kept.
Proof.
  split.
  - intros d id l Hl. exists (SharedLink_Status l). by rewrite SharedLink_with_status_id.
  - intros d1 d2 d3 H1 H2 id l Hl.
    destruct (H1 id l Hl) as (s & Hs & Ht). destruct (H2 _ _ Hs) as (s' & Hs' & Ht').
    exists s'. split; [exact Hs'|]. intros H. apply Ht', Ht, H.
Qed.

Lemma links_kept_same d d' : shared_links d' = shared_links d → links_kept d d'.
Proof. intros E id l Hl. exists (SharedLink_Status l). by rewrite E, SharedLink_with_status_id. Qed.

Lemma links_kept_insert d d' id l :
  shared_links d !! id = None → shared_links d' = <[id := l]> (shared_links d) → links_kept d d'.
Proof.
  intros Hn E id' l' Hl'. exists (SharedLink_Status l'). split; [|done].
  rewrite E, SharedLink_with_status_id, lookup_insert_ne; [done|congruence].
Qed.

Lemma links_kept_terminate d d' id :
  shared_links d' = alter (SharedLink_with_status LinkStatusTerminated) id (shared_links d) →
  links_kept d d'.
Proof.
  intros E id' l Hl. rewrite E. destruct (decide (id = id')) as [->|Hne].
  - exists LinkStatusTerminated. by rewrite lookup_alter_eq, Hl.
  - exists (SharedLink_Status l). by rewrite lookup_alter_ne, SharedLink_with_status_id.
Qed.

Lemma links_kept_terminated d d' id : links_kept d d' → terminated d id → terminated d' id.
Proof.
  intros Hk (l & Hl & Ht). destruct (Hk id l Hl) as (s & Hs & Hs').
  exists (SharedLink_with_status s l). split; [done|]. simpl. auto.
Qed.

#[export] Hint Resolve links_kept_insert links_kept_terminate : go.

Lemma terminated_db_terminated linkID term id now d :
  is_Some (shared_links d !! linkID) → terminated (terminated_db linkID term id now d) linkID.
Proof. intros [l Hl]. eexists. simpl. by rewrite lookup_alter_eq, Hl. Qed.

Lemma terminated_db_records linkID term id now d :
  link_terminations d !! id = None → LinkTermination_SharedLinkID term = linkID →
  terminations_of (terminated_db linkID term id now d) linkID ≡ₚ
  mkLinkTermination id linkID (LinkTermination_ReasonCode term) (LinkTermination_TerminatedBy term)
    (LinkTermination_Notes term) now :: terminations_of d linkID.
Proof.
  intros Hf Hl. unfold terminations_of, rows. simpl.
  rewrite map_to_list_insert by done. simpl. rewrite filter_cons_True by done. by rewrite Hl.
Qed.

#[export] Instance terminated_dec d linkID : Decision (terminated d linkID).
Proof.
  destruct (shared_links d !! linkID) as [l|] eqn:E.
  - destruct (decide (SharedLink_Status l = LinkStatusTerminated)).
    + left. by exists l.
    + right. intros (l' & ? & ?). congruence.
  - right. intros (l' & ? & _). congruence.
Defined.

(** *** Runs *)

Section runs.
Context {PL : Platform}.

Lemma run_GetByID_link id w :
  ∃ res, run (SharedLinkRepo_GetByID id) w = (tick w, res) ∧
    (∀ l, res = inr l → shared_links (w_db w) !! id = Some l) ∧
    (NoFaults PL → ∀ l, shared_links (w_db w) !! id = Some l → res = inr l).
Proof.
  unfold SharedLinkRepo_GetByID, scanSharedLink. rewrite run_wrap. read_row res.
  eexists. split; [done|]. unfold select_id in *. split.
  - intros l Hl. destruct res as [e|l']; simplify_eq. specialize (Hread _ eq_refl). by invert_stmt.
  - intros HNF l Hl. rewrite (Hok HNF). by rewrite Hl.
Qed.

Lemma run_OwnerUserID linkID w :
  ∃ res, run (SharedLinkRepo_OwnerUserID linkID) w = (tick w, res) ∧
    (∀ u, res = inr u → ∃ l, shared_links (w_db w) !! linkID = Some l ∧ link_owner (w_db w) l = Some u) ∧
    (NoFaults PL → res = match shared_links (w_db w) !! linkID ≫= link_owner (w_db w) with
                         | Some u => inr u
                         | None => inl (Wrap "pgx: owner_user_id" pgx_ErrNoRows)
                         end).
Proof.
  unfold SharedLinkRepo_OwnerUserID. rewrite run_wrap. read_row res.
  eexists. split; [done|]. split.
  - intros u Hu. destruct res as [e|u']; simplify_eq. specialize (Hread _ eq_refl). invert_stmt.
    match goal with E : _ ≫= _ = Some _ |- _ => apply bind_Some in E as (l & ? & ?) end. eauto.
  - intros HNF. rewrite (Hok HNF). by destruct (_ ≫= _).
Qed.

(** The two writes of a termination, under any faults. *)
Lemma run_terminate_link linkID term w :
  LinkTermination_SharedLinkID term = linkID →
  reason_exists (LinkTermination_ReasonCode term) = true →
  ∃ w' res, run (terminate_link linkID term) w = (w', res) ∧
    w_redis w' = w_redis w ∧ w_hub w' = w_hub w ∧ w_alog w' = w_alog w ∧ w_sent w' = w_sent w ∧
    (w_db w' = w_db w ∧ res ≠ inr tt ∨
     w_db w' = set_shared_links (alter (SharedLink_with_status LinkStatusTerminated) linkID) (w_db w)
       ∧ res ≠ inr tt ∨
     ∃ id now, link_terminations (w_db w) !! id = None ∧
       w_db w' = terminated_db linkID term id now (w_db w)).
Proof.
  intros Hl Hr. unfold terminate_link. repo_links. repo_logs. rewrite run_bind, run_wrap.
  unfold SharedLinkRepo_UpdateStatus. write_cases; [..|shelve].
  - do 2 eexists. split; [done|]. split_and!; [done..|]. by left.
  - rewrite run_wrap. unfold LinkTerminationRepo_Create. rewrite run_wrap.
    rewrite Hr. write_cases.
    + do 2 eexists. split; [done|]. split_and!; [done..|]. right. by left.
    + do 2 eexists. split; [done|]. split_and!; [done..|]. right. right.
      do 2 eexists. split; [by apply fresh_in_spec|done].
    + do 2 eexists. split; [done|]. split_and!; [done..|]. right. right.
      do 2 eexists. split; [by apply fresh_in_spec|done].
  Unshelve. do 2 eexists. split; [done|]. split_and!; [done..|]. right. by left.
Qed.

Lemma run_terminate_link_ok `{!NoFaults PL} linkID term w :
  LinkTermination_SharedLinkID term = linkID →
  reason_exists (LinkTermination_ReasonCode term) = true →
  is_Some (shared_links (w_db w) !! linkID) →
  references_opt (users (w_db w)) (LinkTermination_TerminatedBy term) = true →
  link_terminations (w_db w) !! env_uuid (S (w_tick w)) = None →
  run (terminate_link linkID term) w =
  (set_db (terminated_db linkID term (env_uuid (S (w_tick w)))
            (timestamptz (env_now (S (w_tick w)))) (w_db w)) (tick (tick w)), inr tt).
Proof.
  intros Hl Hr [l Hlink] Hu Hf. unfold terminate_link. repo_links. repo_logs.
  unfold SharedLinkRepo_UpdateStatus, LinkTerminationRepo_Create.
  rewrite run_bind, run_wrap, run_sql_ok. cbn [fst snd].
  rewrite run_wrap, run_wrap, run_sql_ok, Hr. simpl.
  unfold sql_check, fresh_in. rewrite bool_decide_eq_true_2 by done.
  unfold references. rewrite bool_decide_eq_true_2; [|rewrite Hl, lookup_alter_eq, Hlink; eauto].
  rewrite andb_true_l. unfold references_opt in *. by rewrite Hu.
Qed.

(** The record of a manual termination. *)
Definition manual_termination (userID linkID : UUID) (notes : string) : LinkTermination :=
  mkLinkTermination uuid_Nil linkID ReasonManual (Some userID) (nullIfEmpty notes) 0.

(** A termination by [userID]: refused, or of a link of the caller, in two
    statements of which the second may fail. *)
Lemma run_TerminateLink userID linkID notes w :
  let res := run (LinkService_TerminateLink userID linkID notes) w in
  w_db res.1 = w_db w ∧ res.2 ≠ inr tt ∨
  ∃ l, shared_links (w_db w) !! linkID = Some l ∧ link_owner (w_db w) l = Some userID ∧
    SharedLink_Status l ≠ LinkStatusTerminated ∧
    (w_db res.1 = w_db w ∧ res.2 ≠ inr tt ∨
     w_db res.1 = set_shared_links (alter (SharedLink_with_status LinkStatusTerminated) linkID) (w_db w) ∧
       res.2 ≠ inr tt ∨
     ∃ id now, link_terminations (w_db w) !! id = None ∧
       w_db res.1 = terminated_db linkID (manual_termination userID linkID notes) id now (w_db w)).
Proof.
  unfold LinkService_TerminateLink. repo_links. rewrite run_bind, run_wrap.
  destruct (run_OwnerUserID linkID w) as (r1 & -> & Ho & _). cbn [fst snd].
  destruct r1 as [e|owner]; [by left|]. case_decide as Hown; [by left|]. subst owner.
  destruct (Ho _ eq_refl) as (l & Hl & Hlo). rewrite run_bind, run_wrap.
  destruct (run_GetByID_link linkID (tick w)) as (r2 & -> & Hg & _). cbn [fst snd].
  destruct r2 as [e|l']; [by left|]. specialize (Hg _ eq_refl). simpl in Hg. rewrite Hl in Hg. simplify_eq.
  case_decide as Ht; [by left|]. right. exists l'. split_and!; [done..|].
  destruct (run_terminate_link linkID (manual_termination userID linkID notes) (tick (tick w)))
    as (w1 & res & E & _ & _ & _ & _ & Hcases); [done..|].
  unfold manual_termination in E at 1. by rewrite E.
Qed.

(** A statement that adds one pair to a table. *)
Lemma run_attach_policy linkID l x w0 w :
  w_db w = set_link_policies (union (list_to_set (pair linkID <$> l))) w0 →
  w_db (run (AccessPolicyRepo_AttachToLink linkID x) w).1 =
    set_link_policies (union (list_to_set (pair linkID <$> (l ++ [x])))) w0 ∨
  w_db (run (AccessPolicyRepo_AttachToLink linkID x) w).1 =
    set_link_policies (union (list_to_set (pair linkID <$> l))) w0 ∧
  (run (AccessPolicyRepo_AttachToLink linkID x) w).2 ≠ inr tt.
Proof.
  intros E. unfold AccessPolicyRepo_AttachToLink.
  assert (Hadd : set_link_policies (union {[(linkID, x)]}) (w_db w) =
    set_link_policies (union (list_to_set (pair linkID <$> (l ++ [x])))) w0).
  { rewrite E. unfold set_link_policies. simpl. f_equal.
    rewrite fmap_app, list_to_set_app_L. simpl. set_solver. }
  write_cases; [right; split; [exact E|done]|left; exact Hadd|left; exact Hadd].
Qed.

Lemma run_attach_rule linkID l x w0 w :
  w_db w = set_link_endpoint_rules (union (list_to_set (pair linkID <$> l))) w0 →
  w_db (run (BlacklistRepo_AttachToLink linkID x) w).1 =
    set_link_endpoint_rules (union (list_to_set (pair linkID <$> (l ++ [x])))) w0 ∨
  w_db (run (BlacklistRepo_AttachToLink linkID x) w).1 =
    set_link_endpoint_rules (union (list_to_set (pair linkID <$> l))) w0 ∧
  (run (BlacklistRepo_AttachToLink linkID x) w).2 ≠ inr tt.
Proof.
  intros E. unfold BlacklistRepo_AttachToLink.
  assert (Hadd : set_link_endpoint_rules (union {[(linkID, x)]}) (w_db w) =
    set_link_endpoint_rules (union (list_to_set (pair linkID <$> (l ++ [x])))) w0).
  { rewrite E. unfold set_link_endpoint_rules. simpl. f_equal.
    rewrite fmap_app, list_to_set_app_L. simpl. set_solver. }
  write_cases; [right; split; [exact E|done]|left; exact Hadd|left; exact Hadd].
Qed.

Lemma run_wrap_cases {A} msg (m : M A) (w : World) (r : A) :
  (run (wrap msg m) w).1 = (run m w).1 ∧ ((run (wrap msg m) w).2 = inr r ↔ (run m w).2 = inr r).
Proof. rewrite run_wrap. destruct (run m w) as [w1 [e|a]]; simpl; split; done. Qed.

(** The database with the given pairs attached. *)
Definition attached_db (linkID : UUID) (ps es : list UUID) (d : DB) : DB :=
  set_link_endpoint_rules (union (list_to_set (pair linkID <$> es)))
    (set_link_policies (union (list_to_set (pair linkID <$> ps))) d).

(** Attaching stops at the first failure: what is attached is a prefix. *)
Lemma run_attach_all linkID ps es w :
  ∃ ps' es', ps' `prefix_of` ps ∧ es' `prefix_of` es ∧
    w_db (run (attach_all linkID ps es) w).1 = attached_db linkID ps' es' (w_db w) ∧
    ((run (attach_all linkID ps es) w).2 = inr tt → ps' = ps ∧ es' = es).
Proof.
  unfold attach_all. repo_links. rewrite run_bind.
  destruct (run_for_each (λ l w', w_db w' = set_link_policies (union (list_to_set (pair linkID <$> l))) (w_db w))
    (λ policyID, wrap ("service: attach policy " +:+ uuid_String policyID)
                      (AccessPolicyRepo_AttachToLink linkID policyID)) ps w)
    as (ps' & Hps & Hdb & Hok).
  - unfold set_link_policies. simpl. rewrite (left_id_L ∅ (∪)). by destruct (w_db w).
  - intros l x w1 _ H1. destruct (run_wrap_cases ("service: attach policy " +:+ uuid_String x)
      (AccessPolicyRepo_AttachToLink linkID x) w1 tt) as [-> ->]. by apply run_attach_policy.
  - set (r1 := run (for_each ps _) w) in *. clearbody r1. destruct r1 as [w1 [e|[]]]; cbn [fst snd] in *.
    { exists ps', []. split_and!; [done|apply prefix_nil| |done].
      unfold attached_db. rewrite Hdb. unfold set_link_endpoint_rules. simpl.
      by rewrite (left_id_L ∅ (∪)). }
    specialize (Hok eq_refl) as ->.
    destruct (run_for_each (λ l w', w_db w' = set_link_endpoint_rules (union (list_to_set (pair linkID <$> l))) (w_db w1))
      (λ endpointID, wrap ("service: attach blacklist rule " +:+ uuid_String endpointID)
                      (BlacklistRepo_AttachToLink linkID endpointID)) es w1)
      as (es' & Hes & Hdb' & Hok').
    + unfold set_link_endpoint_rules. simpl. rewrite (left_id_L ∅ (∪)). by destruct (w_db w1).
    + intros l x w2 _ H2. destruct (run_wrap_cases ("service: attach blacklist rule " +:+ uuid_String x)
        (BlacklistRepo_AttachToLink linkID x) w2 tt) as [-> ->]. by apply run_attach_rule.
    + exists ps, es'. split_and!; [done|done|by rewrite Hdb', Hdb|]. intros H. split; [done|]. by apply Hok'.
Qed.

Lemma run_OriginalSession_GetByID id w :
  ∃ res, run (OriginalSessionRepo_GetByID id) w = (tick w, res) ∧
    (∀ s, res = inr s → original_sessions (w_db w) !! id = Some s) ∧
    (NoFaults PL → ∀ s, original_sessions (w_db w) !! id = Some s → res = inr s).
Proof.
  unfold OriginalSessionRepo_GetByID, scanOriginalSession. rewrite run_wrap. read_row res.
  eexists. split; [done|]. unfold select_id in *. split.
  - intros l Hl. destruct res as [e|l']; simplify_eq. specialize (Hread _ eq_refl). by invert_stmt.
  - intros HNF l Hl. rewrite (Hok HNF). by rewrite Hl.
Qed.

Lemma run_link_expiry ttl w :
  expiry_of (env_now (w_tick w)) ttl (run (link_expiry ttl) w).2 ∧ w_db (run (link_expiry ttl) w).1 = w_db w.
Proof.
  unfold link_expiry. destruct (Z.ltb_spec 0 ttl); [|by split].
  rewrite run_pbind. unfold time_Now. rewrite run_atom. simpl. split; [|done]. eauto.
Qed.

Lemma run_generateLinkToken w :
  run generateLinkToken w =
  (tick w, match env_random (w_tick w) 24 with
           | Some raw => inr (RawURLEncoding_EncodeToString raw)
           | None => inl (Wrap "service: generate link token" ErrRand)
           end).
Proof.
  unfold generateLinkToken. rewrite run_bind, run_wrap.
  assert (run (rand_Read 24) w =
    (tick w, match env_random (w_tick w) 24 with Some s => inr s | None => inl ErrRand end)) as ->
    by (unfold rand_Read; by rewrite run_atom).
  by destruct (env_random (w_tick w) 24).
Qed.

(** The inserting half of CreateLink, under any faults. *)
Lemma run_create_row userID input w :
  let '(w', res) := run (create_row userID input) w in
  (w_db w' = w_db w ∧ ∃ e, res = inl e) ∨
  ∃ session raw expiry id now,
    original_sessions (w_db w) !! CreateLinkInput_OriginalSessionID input = Some session ∧
    OriginalSession_UserID session = userID ∧ OriginalSession_Status session = SessionStatusActive ∧
    env_random (S (w_tick w)) 24 = Some raw ∧
    expiry_of (env_now (S (S (w_tick w)))) (CreateLinkInput_TTL input) expiry ∧
    shared_links (w_db w) !! id = None ∧
    w_db w' = set_shared_links <[id := link_row input raw expiry id now]> (w_db w) ∧
    ((∃ e, res = inl e) ∨ res = inr (link_row input raw expiry id now)).
Proof.
  unfold create_row. repo_sessions. repo_links. rewrite run_bind, run_wrap.
  destruct (run_OriginalSession_GetByID (CreateLinkInput_OriginalSessionID input) w)
    as (res & -> & Hs & _). cbn [fst snd].
  destruct res as [e|session]; [left; split; [done|by eexists]|]. specialize (Hs _ eq_refl).
  case_decide as Hu; [left; split; [done|by eexists]|].
  case_decide as Ha; [left; split; [done|by eexists]|].
  rewrite run_bind, run_generateLinkToken. cbn [fst snd w_tick tick].
  destruct (env_random (S (w_tick w)) 24) as [raw|] eqn:Er; [|left; split; [done|by eexists]].
  rewrite run_pbind.
  destruct (run_link_expiry (CreateLinkInput_TTL input) (tick (tick w))) as [Hexp Hdb].
  destruct (run (link_expiry _) _) as [w1 expiry]. cbn [fst snd] in *. rewrite run_wrap.
  unfold SharedLinkRepo_Create, scanSharedLink. rewrite run_wrap. write_cases.
  - left. split; [exact Hdb|by eexists].
  - right. rewrite Hdb in *. do 5 eexists. split_and!; [done..|by eexists|done|by apply fresh_in_spec|done|].
    by right.
  - right. rewrite Hdb in *. do 5 eexists. split_and!; [done..|by eexists|done|by apply fresh_in_spec|done|].
    left. by eexists.
Qed.

(** A link that CreateLink returned without an error. *)
Lemma run_CreateLink_row userID input w w' link :
  run (LinkService_CreateLink userID input) w = (w', (link, None)) →
  ∃ session raw expiry id now,
    original_sessions (w_db w) !! CreateLinkInput_OriginalSessionID input = Some session ∧
    OriginalSession_UserID session = userID ∧
    expiry_of (env_now (S (S (w_tick w)))) (CreateLinkInput_TTL input) expiry ∧
    link = link_row input raw expiry id now.
Proof.
  unfold LinkService_CreateLink. rewrite run_pbind. pose proof (run_create_row userID input w) as Hrow.
  destruct (run (create_row _ _) w) as [w1 res]. cbn [fst snd].
  destruct Hrow as [[_ [e ->]]|(session & raw & expiry & id & now & Hs & Hu & _ & _ & He & _ & _ & Hres)]; [done|].
  destruct Hres as [[e ->]| ->]; [done|]. rewrite run_pbind. destruct (run _ w1) as [w2 [e|[]]]; [done|].
  intros Hl. injection Hl as _ <-. by exists session, raw, expiry, id, now.
Qed.

End runs.

(** ** Properties *)

(** C36: whatever fails, CreateLink adds at most one link, and only for an active
    session of the caller: a fresh active row whose token is the base64url text
    of 24 random bytes, with an expiry exactly when the TTL is positive.  It
    attaches to that link, and to no other, a prefix of the requested policies
    and rules, and all of them when it reports success; when it reports an error
    the link may be there, active, with only some of them. *)
Theorem CreateLink_correct {PL : Platform} userID input w w' link err
    (Hrun : run (LinkService_CreateLink userID input) w = (w', (link, err))) :
  (w_db w' = w_db w ∧ err ≠ None) ∨
  ∃ session raw expiry id now ps es,
    original_sessions (w_db w) !! CreateLinkInput_OriginalSessionID input = Some session ∧
    OriginalSession_UserID session = userID ∧ OriginalSession_Status session = SessionStatusActive ∧
    env_random (S (w_tick w)) 24 = Some raw ∧
    expiry_of (env_now (S (S (w_tick w)))) (CreateLinkInput_TTL input) expiry ∧
    shared_links (w_db w) !! id = None ∧
    ps `prefix_of` CreateLinkInput_PolicyIDs input ∧ es `prefix_of` CreateLinkInput_EndpointIDs input ∧
    w_db w' = attached_db id ps es
                (set_shared_links <[id := link_row input raw expiry id now]> (w_db w)) ∧
    (err = None → link = link_row input raw expiry id now ∧
       ps = CreateLinkInput_PolicyIDs input ∧ es = CreateLinkInput_EndpointIDs input).
Proof.
  unfold LinkService_CreateLink in Hrun. rewrite run_pbind in Hrun.
  pose proof (run_create_row userID input w) as Hrow.
  destruct (run (create_row userID input) w) as [w1 res]. cbn [fst snd] in Hrun.
  destruct Hrow as [[Hdb [e ->]]|(session & raw & expiry & id & now & ? & ? & ? & ? & ? & ? & Hdb & Hres)].
  { cbn [run] in Hrun. simplify_eq. by left. }
  right. exists session, raw, expiry, id, now. destruct Hres as [[e ->]| ->].
  { cbn [run] in Hrun. simplify_eq. exists [], []. split_and!; try done; try apply prefix_nil.
    unfold attached_db, set_link_endpoint_rules, set_link_policies. simpl.
    rewrite !(left_id_L ∅ (∪)). rewrite Hdb. by destruct (w_db w). }
  rewrite run_pbind in Hrun.
  destruct (run_attach_all (SharedLink_ID (link_row input raw expiry id now))
    (CreateLinkInput_PolicyIDs input) (CreateLinkInput_EndpointIDs input) w1)
    as (ps & es & Hps & Hes & Hdb' & Hok).
  exists ps, es. rewrite Hdb in Hdb'.
  destruct (run (attach_all _ _ _) w1) as [w2 [e|[]]]; cbn [run fst snd] in *; simplify_eq;
    split_and!; try done. intros _. split; [done|]. by apply Hok.
Qed.

(** whatever fails, TerminateLink has an effect only for the owner of the
    link, found through original_sessions, and only on a link that is not yet
    terminated; when it succeeds the link is terminated, there is exactly one
    new record, with the reason "manual" and the caller, and nothing else
    changed.  A caller who is not the owner never gets success. *)
Theorem TerminateLink_correct {PL : Platform} userID linkID notes w w' res
    (Hrun : run (LinkService_TerminateLink userID linkID notes) w = (w', res)) :
  (w_db w' ≠ w_db w ∨ res = inr tt →
     ∃ l, shared_links (w_db w) !! linkID = Some l ∧ link_owner (w_db w) l = Some userID ∧
          SharedLink_Status l ≠ LinkStatusTerminated) ∧
  (res = inr tt → ∃ id now, link_terminations (w_db w) !! id = None ∧
     w_db w' = terminated_db linkID (mkLinkTermination uuid_Nil linkID ReasonManual (Some userID)
                                       (nullIfEmpty notes) 0) id now (w_db w)).
Proof.
  pose proof (run_TerminateLink userID linkID notes w) as Hc. rewrite Hrun in Hc. cbn [fst snd] in Hc.
  destruct Hc as [[Hdb Hne]|(l & Hl & Ho & Hs & Hc)].
  - split; [by intros [?|?]|done].
  - split; [by eauto|]. intros ->. destruct Hc as [[_ []]|[[_ []]|?]]; done.
Qed.

(** TerminateLink without failures, on every branch: a link that cannot be
    resolved to an owner, a caller who is not the owner, a link already
    terminated, and a link of the caller, which is terminated. *)
Theorem TerminateLink_outcomes {PL : Platform} `{!NoFaults PL} userID linkID notes w
    (Huser : is_Some (users (w_db w) !! userID))
    (Hfresh : link_terminations (w_db w) !! env_uuid (3 + w_tick w) = None) :
  let '(w', res) := run (LinkService_TerminateLink userID linkID notes) w in
  match shared_links (w_db w) !! linkID ≫= link_owner (w_db w) with
  | None => (∃ e, res = inl e ∧ errors_Is e pgx_ErrNoRows = true) ∧ w_db w' = w_db w
  | Some owner =>
      if decide (owner ≠ userID) then res = inl ErrLinkNotOwned ∧ w_db w' = w_db w
      else if decide (terminated (w_db w) linkID)
      then res = inl ErrLinkAlreadyTerminated ∧ w_db w' = w_db w
      else res = inr tt ∧ terminated (w_db w') linkID ∧
           ∃ t, terminations_of (w_db w') linkID ≡ₚ t :: terminations_of (w_db w) linkID ∧
                LinkTermination_ReasonCode t = ReasonManual ∧
                LinkTermination_TerminatedBy t = Some userID
  end.
Proof.
  unfold LinkService_TerminateLink. repo_links. rewrite run_bind, run_wrap.
  destruct (run_OwnerUserID linkID w) as (r1 & -> & _ & Hok). rewrite (Hok _). cbn [fst snd].
  destruct (shared_links (w_db w) !! linkID) as [l|] eqn:El; simpl; [|by split; [eexists|]].
  destruct (link_owner (w_db w) l) as [owner|] eqn:Eo; simpl; [|by split; [eexists|]].
  case_decide as Hown; [done|]. rewrite run_bind, run_wrap.
  destruct (run_GetByID_link linkID (tick w)) as (r2 & -> & _ & Hg). rewrite (Hg _ l El). cbn [fst snd].
  destruct (decide (SharedLink_Status l = LinkStatusTerminated)) as [Ht|Ht].
  { rewrite run_fail, decide_True; [done|]. by exists l. }
  rewrite (run_terminate_link_ok linkID) by (simpl; rewrite ?El; eauto; subst; by apply references_spec).
  rewrite decide_False by (intros (l' & ? & ?); congruence).
  split_and!; [done|apply terminated_db_terminated; by eexists|].
  eexists. split; [by apply terminated_db_records|done].
Qed.

(** AutoTerminate is idempotent: without failures it terminates an existing
    link with exactly one new record, of the given reason and with no user, and
    a second call changes nothing and succeeds. *)
Theorem AutoTerminate_idempotent {PL : Platform} `{!NoFaults PL} linkID reason l w
    (Hl : shared_links (w_db w) !! linkID = Some l)
    (Hactive : SharedLink_Status l ≠ LinkStatusTerminated)
    (Hreason : reason_exists reason = true)
    (Hfresh : link_terminations (w_db w) !! env_uuid (2 + w_tick w) = None) :
  let '(w1, res1) := run (LinkService_AutoTerminate linkID reason) w in
  res1 = inr tt ∧ terminated (w_db w1) linkID ∧
  (∃ t, terminations_of (w_db w1) linkID ≡ₚ t :: terminations_of (w_db w) linkID ∧
        LinkTermination_ReasonCode t = reason ∧ LinkTermination_TerminatedBy t = None) ∧
  ∀ reason', let '(w2, res2) := run (LinkService_AutoTerminate linkID reason') w1 in
    res2 = inr tt ∧ w_db w2 = w_db w1.
Proof.
  unfold LinkService_AutoTerminate at 1. repo_links. rewrite run_bind, run_wrap.
  destruct (run_GetByID_link linkID w) as (r1 & -> & _ & Hg). rewrite (Hg _ l Hl). cbn [fst snd].
  rewrite decide_False by done.
  rewrite (run_terminate_link_ok linkID) by (simpl; rewrite ?Hl; eauto).
  set (w1 := set_db _ _).
  assert (Ht : terminated (w_db w1) linkID) by (apply terminated_db_terminated; by eexists).
  split_and!; [done|done|eexists; split; [by apply terminated_db_records|done]|].
  intros reason'. unfold LinkService_AutoTerminate. repo_links. rewrite run_bind, run_wrap.
  destruct Ht as (l1 & Hl1 & Hs1).
  destruct (run_GetByID_link linkID w1) as (r2 & -> & _ & Hg1). rewrite (Hg1 _ l1 Hl1). cbn [fst snd].
  by rewrite decide_True.
Qed.

(** ** Witnesses *)

(** User 1 owns session 2 of site 3, shared as link 5 with policy 7. *)
Definition demo_session : OriginalSession :=
  mkOriginalSession 2 1 3 None SessionStatusActive None 0 None.

Definition demo_site : TargetSite := mkTargetSite 3 "example.com" "Example" "https://example.com" 0.

Definition demo_user (id : UUID) : User :=
  mkUser id "u@example.com" "" None 0 0.

Definition demo_shared_link : SharedLink := mkSharedLink 5 2 "tok" LinkStatusActive None 0 None.

Definition demo_db : DB :=
  set_users (λ _, {[ 1%N := demo_user 1; 9%N := demo_user 9 ]})
  (set_target_sites (λ _, {[ 3%N := demo_site ]})
  (set_original_sessions (λ _, {[ 2%N := demo_session ]})
  (set_shared_links (λ _, {[ 5%N := demo_shared_link ]})
  (set_access_policies (λ _, {[ 7%N := mkAccessPolicy 7 1 "p" (Some 2%Z) None None None 0 ]})
  (set_link_policies (λ _, {[ (5%N, 7%N) ]}) empty_DB))))).

Definition demo_input : CreateLinkInput := mkCreateLinkInput 2 "guest" 60000000000 [7%N] [].

Definition demo_created : World (PL := demo) * (SharedLink * option go_error) :=
  run (LinkService_CreateLink 1%N demo_input) (demo_world demo_db).

Lemma CreateLink_correct_witness :
  demo_created.2.2 = None ∧ ∃ id row, shared_links demo_db !! id = None ∧
    shared_links (w_db demo_created.1) !! id = Some row ∧ (id, 7%N) ∈ link_policies (w_db demo_created.1).
Proof.
  assert (Herr : demo_created.2.2 = None) by (vm_compute; reflexivity). split; [exact Herr|].
  destruct demo_created as [w1 [l e]] eqn:E. cbn [fst snd] in Herr. subst e.
  destruct (CreateLink_correct 1%N demo_input (demo_world demo_db) w1 l None E) as [[_ []]|H]; [done|].
  destruct H as (session & raw & expiry & id & now & ps & es & _ & _ & _ & _ & _ & Hn & _ & _ & Ew & Hok).
  destruct (Hok eq_refl) as (_ & -> & ->). exists id. eexists. cbn [fst]. rewrite Ew.
  split_and!; [exact Hn|apply lookup_insert_eq|].
  apply elem_of_union_l. simpl. set_solver.
Defined.

Lemma TerminateLink_correct_witness :
  ∃ w', run (LinkService_TerminateLink (PL := demo) 1%N 5%N "done") (demo_world demo_db) = (w', inr tt) ∧
    ∃ id now, link_terminations demo_db !! id = None ∧
      w_db w' = terminated_db 5%N (mkLinkTermination uuid_Nil 5 ReasonManual (Some 1%N) (Some "done") 0)
                  id now demo_db.
Proof.
  eexists. split; [apply run_result; vm_compute; reflexivity|].
  eapply (TerminateLink_correct 1%N 5%N "done" (demo_world demo_db)); [|reflexivity].
  apply run_result. vm_compute. reflexivity.
Defined.

Lemma TerminateLink_outcomes_witness :
  (run (LinkService_TerminateLink (PL := demo) 9%N 5%N "") (demo_world demo_db)).2 = inl ErrLinkNotOwned.
Proof.
  pose proof (TerminateLink_outcomes 9%N 5%N "" (demo_world demo_db)) as H.
  destruct (run (LinkService_TerminateLink 9%N 5%N "") (demo_world demo_db)) as [w' res].
  apply H; [by eexists|reflexivity].
Defined.

Lemma AutoTerminate_idempotent_witness :
  let '(w1, res1) := run (LinkService_AutoTerminate (PL := demo) 5%N ReasonTTLExpired) (demo_world demo_db) in
  res1 = inr tt ∧ terminated (w_db w1) 5%N.
Proof.
  pose proof (AutoTerminate_idempotent 5%N ReasonTTLExpired demo_shared_link (demo_world demo_db)) as H.
  destruct (run (LinkService_AutoTerminate 5%N ReasonTTLExpired) (demo_world demo_db)) as [w1 res1].
  destruct H as (? & ? & _); [reflexivity|discriminate|reflexivity|reflexivity|]. by split.
Defined.

(** *** Behaviour under concurrency and failures *)

Definition ignore {PL : Platform} {A} (m : M A) : P unit := let* _ := m in Ret tt.

(** Two automatic terminations that both read the link before either writes it
    record two terminations. *)
Definition double_termination_end : list (P (PL := demo) unit) * World (PL := demo) :=
  schedule ([0; 1] ++ replicate 2 0 ++ replicate 2 1)
    [ignore (LinkService_AutoTerminate 5%N ReasonRequestLimit);
     ignore (LinkService_AutoTerminate 5%N ReasonTrafficLimit)] (demo_world demo_db).

Lemma double_termination :
  rtc pool_step ([ignore (LinkService_AutoTerminate 5%N ReasonRequestLimit);
                  ignore (LinkService_AutoTerminate 5%N ReasonTrafficLimit)], demo_world demo_db)
                double_termination_end ∧
  forallb finished double_termination_end.1 = true ∧
  length (terminations_of (w_db double_termination_end.2) 5%N) = 2.
Proof. split; [apply schedule_pool|]. split; vm_compute; reflexivity. Qed.

(** A platform on which the interaction number [n] fails. *)
Definition demo_fault (n : nat) : Platform :=
  demo_with (λ n, Z.of_nat n * 1000000000)%Z
    (λ m, if decide (m = n) then Some (0, 0) else None) demo_rand.

Definition fault_world (n : nat) (d : DB) : World (PL := demo_fault n) :=
  mkWorld (PL := demo_fault n) d (∅ : gmap string rvalue) PubSub.PubSub.NewHub [] [] 0.

(** When recording the termination fails, the link stays terminated without a
    record, and a retry is refused. *)
Lemma unrecorded_termination :
  let '(w1, r1) := run (LinkService_TerminateLink 1%N 5%N "") (fault_world 3 demo_db) in
  r1 ≠ inr tt ∧ terminated (w_db w1) 5%N ∧ terminations_of (w_db w1) 5%N = [] ∧
  let '(w2, r2) := run (LinkService_TerminateLink 1%N 5%N "") w1 in
  r2 = inl ErrLinkAlreadyTerminated ∧ terminations_of (w_db w2) 5%N = [].
Proof.
  destruct (run (LinkService_TerminateLink 1%N 5%N "") (fault_world 3 demo_db)) as [w1 r1] eqn:E1.
  destruct (run (LinkService_TerminateLink 1%N 5%N "") w1) as [w2 r2] eqn:E2.
  apply (f_equal fst) in E1 as E1w. apply (f_equal snd) in E1 as E1r. simpl fst in E1w.
  subst w1. apply (f_equal fst) in E2 as E2w. apply (f_equal snd) in E2 as E2r. cbn [fst snd] in *. subst.
  split_and!; [by vm_compute| |by vm_compute|by vm_compute|by vm_compute].
  eexists. split; vm_compute; reflexivity.
Qed.
