(* ===== verification/Enforcement.v ===== *)
(** * internal/service: enforcement of limits (enforcement_service.go)

    [BeforeProxy] decides whether a request may be forwarded, [AfterProxy]
    counts it.  [verdict] is the specification of the decision: a function of
    the attached policies, the rules, the clock and the counters. *)

From S2P Require Import Prelude GoStrings Domain Http PubSub Schema Platform Effects Interfaces RepoLinks RepoGuests RepoLogs Policy Blacklist Limiter Links.

Open Scope go_scope.

(** ** Definitions *)

(** The results of [BeforeProxy]: ok, statusCode, message, err. *)
Record Admission := mkAdmission {
  adm_ok : bool;
  adm_status : Z;
  adm_message : string;
  adm_err : option go_error }.

(** [time.Duration(n) * time.Second] *)
Definition seconds (n : Z) : Z := n *64 1000000000.

Section service.
Context {PL : Platform} `{RegexpLib}.
Context `{!OriginalSessionRepository} `{!SharedLinkRepository} `{!AccessPolicyRepository}
  `{!BlacklistRepository} `{!LinkTerminationRepository} `{!UsageCounterRepository}
  `{!SecurityEventRepository}.

(** [e.hub != nil] *)
Context (hub : bool).

Definition Enforcement_publish (evtType : string) (linkID : UUID) (message : string) : P unit :=
  if hub then
    (let* now := time_Now in hub_Publish (PubSub.mkEvent evtType linkID message now))
  else Ret tt.

Definition Enforcement_autoTerminate (linkID : UUID) (reason : string) : P unit :=
  let* r := LinkService_AutoTerminate linkID reason in
  match r with
  | inl _ => Ret tt
  | inr _ => Enforcement_publish PubSub.EventLinkTerminated linkID
               ("link auto-terminated: " +:+ reason)
  end.

Definition Enforcement_warmLoad (linkID : UUID) : M unit :=
  let* r := Usage_GetByLink linkID in
  match r with
  | inl err =>
      if errors_Is err pgx_ErrNoRows then CounterStore_WarmLoad linkID 0 0 0 else fail err
  | inr usage =>
      CounterStore_WarmLoad linkID (UsageCounters_RequestCount usage)
        (UsageCounters_BytesTransferred usage) (UsageCounters_ViolationCount usage)
  end.

(** The counter is 0 when the increment failed. *)
Definition Enforcement_recordViolation (link : LinkWithSession) (guestSessionID : UUID)
    (effective : EffectivePolicy) (method path : string) : P Admission :=
  let id := SharedLink_ID (LinkWithSession_Link link) in
  let* _ := SecurityEvents_Create
              (mkSecurityEvent 0 (Some guestSessionID) id EventBlacklistViolation (Some path)
                 (Some method) None 0) in
  let* _ := Enforcement_publish PubSub.EventBlacklistViolation id
              (method +:+ " " +:+ path +:+ " was blocked by blacklist") in
  let* v := CounterStore_IncrViolations id in
  let violations := match v with inr n => n | inl _ => 0%Z end in
  if (EffectivePolicy_MaxViolationCount effective <=? violations)%Z then
    (let* _ := Enforcement_autoTerminate id ReasonViolationLimit in
     Ret (mkAdmission false StatusForbidden "link terminated: too many blacklist violations" None))
  else
    Ret (mkAdmission false StatusForbidden "this path is not accessible through this shared link" None).

(** [limit != nil && count >= *limit] *)
Definition reached (count : Z) (limit : option Z) : bool :=
  match limit with Some l => (l <=? count)%Z | None => false end.

Definition internal_error (err : go_error) : Admission :=
  mkAdmission false StatusInternalServerError "internal error" (Some err).

(** The numeric limits, from [counters.Get] on. *)
Definition check_counters (id : UUID) (effective : EffectivePolicy) : P Admission :=
  let* c := CounterStore_Get id in
  match c with
  | inl err => Ret (internal_error err)
  | inr snapshot =>
      if reached (Counters_Requests snapshot) (EffectivePolicy_MaxRequests effective) then
        (let* _ := Enforcement_autoTerminate id ReasonRequestLimit in
         Ret (mkAdmission false StatusForbidden "request limit reached" None))
      else if reached (Counters_Bytes snapshot) (EffectivePolicy_MaxBytesTransferred effective) then
        (let* _ := Enforcement_autoTerminate id ReasonTrafficLimit in
         Ret (mkAdmission false StatusForbidden "traffic limit reached" None))
      else if (EffectivePolicy_MaxViolationCount effective <=? Counters_Violations snapshot)%Z then
        (let* _ := Enforcement_autoTerminate id ReasonViolationLimit in
         Ret (mkAdmission false StatusForbidden "violation limit reached" None))
      else Ret (mkAdmission true StatusOK "" None)
  end.

(** [time.Now().After(deadline)], when the policy sets a TTL. *)
Definition ttl_expired (createdAt : GoTime) (ttl : option Z) : P bool :=
  match ttl with
  | None => Ret false
  | Some n =>
      let deadline := (createdAt + seconds n)%Z in
      let* now := time_Now in Ret (deadline <? now)%Z
  end.

Definition Enforcement_BeforeProxy (link : LinkWithSession) (guestSessionID : UUID)
    (forwardPath method : string) : P Admission :=
  let id := SharedLink_ID (LinkWithSession_Link link) in
  let* wl := Enforcement_warmLoad id in
  match wl with
  | inl err => Ret (internal_error err)
  | inr _ =>
    let* eff := PolicyResolver_Resolve id in
    match eff with
    | inl err => Ret (internal_error err)
    | inr effective =>
      let* chk := Blacklist_Check id (TargetSite_ID (LinkWithSession_TargetSite link)) method forwardPath in
      match chk with
      | inl err => Ret (internal_error err)
      | inr (Some _) => Enforcement_recordViolation link guestSessionID effective method forwardPath
      | inr None =>
        let* expired := ttl_expired (SharedLink_CreatedAt (LinkWithSession_Link link))
                          (EffectivePolicy_MaxTTLSeconds effective) in
        if (expired : bool) then
          (let* _ := Enforcement_autoTerminate id ReasonTTLExpired in
           Ret (mkAdmission false StatusGone "link TTL (from access policy) has expired" None))
        else check_counters id effective
      end
    end
  end.

(** [guestSessionID] and [statusCode] are not used by the code. *)
Definition Enforcement_AfterProxy (link : LinkWithSession) (guestSessionID : UUID) (statusCode : Z)
    (bytesTransferred : Z) : P unit :=
  let id := SharedLink_ID (LinkWithSession_Link link) in
  let* _ := CounterStore_IncrRequests id in
  let* _ := CounterStore_IncrBytes id bytesTransferred in
  let* eff := PolicyResolver_Resolve id in
  match eff with
  | inl _ => Ret tt
  | inr effective =>
      let* c := CounterStore_Get id in
      match c with
      | inl _ => Ret tt
      | inr snapshot =>
          if reached (Counters_Requests snapshot) (EffectivePolicy_MaxRequests effective) then
            Enforcement_autoTerminate id ReasonRequestLimit
          else if reached (Counters_Bytes snapshot) (EffectivePolicy_MaxBytesTransferred effective) then
            Enforcement_autoTerminate id ReasonTrafficLimit
          else Ret tt
      end
  end.

End service.

(** ** Specification *)

(** An event of the link was published, or there is no hub. *)
Definition published (hub : bool) (evtType : string) (id : UUID) (message : string) (h h' : PubSub.Hub) : Prop :=
  if hub then ∃ now, h' = default h (PubSub.Publish (PubSub.mkEvent evtType id message now) h) else h' = h.

(** The durable counters of a link. *)
Definition usage_of (d : DB) (linkID : UUID) : Counters :=
  match usage_counters d !! linkID with
  | Some row => mkCounters (UsageCounters_RequestCount row) (UsageCounters_BytesTransferred row)
                  (UsageCounters_ViolationCount row)
  | None => mkCounters 0 0 0
  end.

(** The counters enforcement works with: those in Redis, and for the ones that
    are not there the durable ones. *)
Definition effective_counters {PL : Platform} `{!PlatformLaws PL} (w : World) (linkID : UUID) : Counters :=
  let pick k durable :=
    match rview (w_redis w) !! k with Some (RInt z) => z | _ => durable end in
  let u := usage_of (w_db w) linkID in
  mkCounters (pick (requestsKey linkID) (Counters_Requests u))
             (pick (bytesKey linkID) (Counters_Bytes u))
             (pick (violationsKey linkID) (Counters_Violations u)).

Inductive verdict : Type :=
| Admit
| Blocked
| Refuse (reason : string).

(** A count that has come to its limit. *)
Definition at_limit (count : Z) (limit : option Z) : bool :=
  match limit with Some l => negb (count <? l)%Z | None => false end.

(** The first limit the counters have reached. *)
Definition limit_reached (effective : EffectivePolicy) (c : Counters) : option string :=
  if at_limit (Counters_Requests c) (EffectivePolicy_MaxRequests effective) then Some ReasonRequestLimit
  else if at_limit (Counters_Bytes c) (EffectivePolicy_MaxBytesTransferred effective)
  then Some ReasonTrafficLimit
  else if (EffectivePolicy_MaxViolationCount effective <=? Counters_Violations c)%Z
  then Some ReasonViolationLimit
  else None.

(** The TTL of the policy has passed at time [now]. *)
Definition ttl_over (createdAt : GoTime) (ttl : option Z) (now : GoTime) : bool :=
  match ttl with Some n => (createdAt + seconds n <? now)%Z | None => false end.

(** What should happen to a request: a blocked path comes before every limit,
    the TTL before the counters. *)
Definition judge (effective : EffectivePolicy) (blocked : bool) (createdAt now : GoTime) (c : Counters)
    : verdict :=
  if blocked then Blocked
  else if ttl_over createdAt (EffectivePolicy_MaxTTLSeconds effective) now then Refuse ReasonTTLExpired
  else match limit_reached effective c with Some reason => Refuse reason | None => Admit end.

(** Well-formed worlds: the Redis keys have their types and the durable
    counters are 64-bit integers. *)
Record world_wf {PL : Platform} `{!PlatformLaws PL} (w : World) : Prop := {
  wf_redis : limiter_wf (w_redis w);
  wf_usage linkID : counters_in_int64 (usage_of (w_db w) linkID) }.

(** Nothing is sent to the target site or to the access log, and the clock does
    not go back. *)
Definition keeps_io {PL : Platform} (w w' : World) : Prop :=
  w_alog w' = w_alog w ∧ w_sent w' = w_sent w ∧ w_tick w ≤ w_tick w'.

(** ** Lemmas *)

#[export] Instance keeps_io_preorder {PL : Platform} : PreOrder keeps_io.
Proof. unfold keeps_io. split; [by split|]. intros ? ? ? (? & ? & ?) (? & ? & ?). split_and!; [congruence..|lia]. Qed.

Section lemmas.
Context {PL : Platform}.

Lemma keeps_io_same w w' :
  w_alog w' = w_alog w → w_sent w' = w_sent w → w_tick w ≤ w_tick w' → keeps_io w w'.
Proof. by unfold keeps_io. Qed.

Lemma io_sql {A} (stmt : UUID → GoTime → DB → sql_result A) : all_atoms keeps_io (sql stmt).
Proof.
  split; [|done]. intros w. cbn -[keeps_io].
  destruct (env_fault (w_tick w)) as [[[|k] j]|]; simpl; [by apply keeps_io_same; simpl; auto| |];
    destruct (stmt _ _ (w_db w)) as [e|[r d']]; by apply keeps_io_same; simpl; auto.
Qed.

Lemma io_pipe_cmds cs : all_atoms keeps_io (pipe_cmds cs).
Proof.
  induction cs as [|c cs IH]; [done|]. cbn [pipe_cmds]. apply all_atoms_pbind.
  - split; [|done]. intros w. by destruct (exec_cmd c (w_redis w)).
  - intros x. by apply all_atoms_pbind.
Qed.

Lemma io_pipe cs : all_atoms keeps_io (pipe_Exec cs).
Proof.
  unfold pipe_Exec. apply all_atoms_pbind.
  - split; [|done]. intros w. apply keeps_io_same; simpl; auto.
  - intros f. apply all_atoms_pbind; [apply io_pipe_cmds|done].
Qed.

Lemma io_time : all_atoms keeps_io time_Now.
Proof. apply all_atoms_time. intros w. apply keeps_io_same; simpl; auto. Qed.
Lemma io_rand n : all_atoms keeps_io (rand_Read n).
Proof. apply all_atoms_rand. intros w. apply keeps_io_same; simpl; auto. Qed.
Lemma io_hub e : all_atoms keeps_io (hub_Publish e).
Proof. by split. Qed.

End lemmas.

(** Decomposition for [keeps_io], where every interaction qualifies. *)
Ltac io_step :=
  lazymatch goal with
  | |- all_atoms _ (sql _) => apply io_sql
  | |- all_atoms _ (pipe_Exec _) => apply io_pipe
  | |- all_atoms _ time_Now => apply io_time
  | |- all_atoms _ (rand_Read _) => apply io_rand
  | |- all_atoms _ (hub_Publish _) => apply io_hub
  | |- _ => atoms_step
  end.
Ltac io_atoms := repeat io_step.

Section io.
Context {PL : Platform} `{RegexpLib}.

Lemma io_CounterStore_Get id : all_atoms keeps_io (CounterStore_Get id).
Proof. unfold CounterStore_Get. io_atoms. Qed.
Lemma io_incrAndMarkDirty id k n : all_atoms keeps_io (incrAndMarkDirty id k n).
Proof. unfold incrAndMarkDirty. io_atoms. Qed.
Lemma io_warmLoad id : all_atoms keeps_io (Enforcement_warmLoad id).
Proof.
  unfold Enforcement_warmLoad. repo_guests. unfold UsageCounterRepo_GetByLink, scan_keep_norows, CounterStore_WarmLoad.
  io_atoms.
Qed.
Lemma io_Resolve id : all_atoms keeps_io (PolicyResolver_Resolve id).
Proof. unfold PolicyResolver_Resolve. repo_links. unfold AccessPolicyRepo_ListForLink. io_atoms. Qed.
Lemma io_load_methods out : all_atoms keeps_io (load_methods out).
Proof.
  induction out as [|e out IH]; [done|]. cbn [load_methods]. unfold BlacklistRepo_blockedMethods.
  io_atoms. exact IH.
Qed.
Lemma io_Check linkID siteID method path : all_atoms keeps_io (Blacklist_Check linkID siteID method path).
Proof.
  unfold Blacklist_Check. repo_links. unfold BlacklistRepo_RulesForLink. io_atoms. apply io_load_methods.
Qed.
Lemma io_publish hub evt id msg : all_atoms keeps_io (Enforcement_publish hub evt id msg).
Proof. unfold Enforcement_publish. io_atoms. Qed.
Lemma io_autoTerminate hub id reason : all_atoms keeps_io (Enforcement_autoTerminate hub id reason).
Proof.
  unfold Enforcement_autoTerminate, LinkService_AutoTerminate, terminate_link. repo_links. repo_logs.
  unfold SharedLinkRepo_GetByID, scanSharedLink, SharedLinkRepo_UpdateStatus, LinkTerminationRepo_Create.
  io_atoms. apply io_publish.
Qed.

#[local] Hint Resolve io_CounterStore_Get io_incrAndMarkDirty io_warmLoad io_Resolve io_Check
  io_publish io_autoTerminate : go.

Lemma io_check_counters hub id eff : all_atoms keeps_io (check_counters hub id eff).
Proof. unfold check_counters. io_atoms; auto with go. Qed.

#[local] Hint Resolve io_check_counters : go.

Lemma io_BeforeProxy hub link gs path method :
  all_atoms keeps_io (Enforcement_BeforeProxy hub link gs path method).
Proof.
  unfold Enforcement_BeforeProxy, Enforcement_recordViolation, ttl_expired.
  repo_logs. unfold SecurityEventRepo_Create, CounterStore_IncrViolations.
  io_atoms; auto with go.
Qed.

Lemma io_AfterProxy hub link gs status n :
  all_atoms keeps_io (Enforcement_AfterProxy hub link gs status n).
Proof.
  unfold Enforcement_AfterProxy, CounterStore_IncrRequests, CounterStore_IncrBytes.
  io_atoms; auto with go.
Qed.

(** The clock after a program that keeps the outputs. *)
Lemma io_tick {A} (p : P A) w : all_atoms keeps_io p → w_tick w ≤ w_tick (run p w).1.
Proof. intros Hp. by apply (all_atoms_run keeps_io p w) in Hp as (_ & _ & ?). Qed.

End io.

Section runs.
Context {PL : Platform} `{!PlatformLaws PL} `{RegexpLib}.

Lemma run_publish hub evt id msg w :
  ∃ w', run (Enforcement_publish hub evt id msg) w = (w', tt) ∧
    w_db w' = w_db w ∧ w_redis w' = w_redis w ∧ published hub evt id msg (w_hub w) (w_hub w').
Proof.
  unfold Enforcement_publish, published. destruct hub; [|by eexists].
  rewrite run_pbind. unfold time_Now, hub_Publish. rewrite !run_atom. cbn [fst snd].
  eexists. split_and!; [done..|]. by eexists.
Qed.

(** Automatic termination under any faults: the status and at most one record. *)
Lemma run_autoTerminate hub id reason w :
  reason_exists reason = true →
  ∃ w', run (Enforcement_autoTerminate hub id reason) w = (w', tt) ∧ w_redis w' = w_redis w ∧
    (w_db w' = w_db w ∨
     w_db w' = set_shared_links (alter (SharedLink_with_status LinkStatusTerminated) id) (w_db w) ∨
     ∃ t now, link_terminations (w_db w) !! t = None ∧
       w_db w' = terminated_db id (mkLinkTermination uuid_Nil id reason None None 0) t now (w_db w)).
Proof.
  intros Hr. unfold Enforcement_autoTerminate. rewrite run_pbind.
  assert (∃ w1 res, run (LinkService_AutoTerminate id reason) w = (w1, res) ∧ w_redis w1 = w_redis w ∧
    (w_db w1 = w_db w ∨
     w_db w1 = set_shared_links (alter (SharedLink_with_status LinkStatusTerminated) id) (w_db w) ∨
     ∃ t now, link_terminations (w_db w) !! t = None ∧
       w_db w1 = terminated_db id (mkLinkTermination uuid_Nil id reason None None 0) t now (w_db w)))
    as (w1 & res & -> & Er & Hdb).
  { unfold LinkService_AutoTerminate. repo_links. rewrite run_bind, run_wrap.
    destruct (run_GetByID_link id w) as (r1 & -> & _). cbn [fst snd].
    destruct r1 as [e|l]; [do 2 eexists; split; [done|]; split; [done|]; by left|].
    case_decide; [do 2 eexists; split; [done|]; split; [done|]; by left|].
    destruct (run_terminate_link id (mkLinkTermination uuid_Nil id reason None None 0) (tick w))
      as (w1 & res & -> & ? & _ & _ & _ & Hc); [done..|].
    do 2 eexists. split; [done|]. split; [done|]. destruct Hc as [[? _]|[[? _]|?]]; auto. }
  destruct res as [e|[]]; cbn [run fst snd]; [by eexists|].
  destruct (run_publish hub PubSub.EventLinkTerminated id ("link auto-terminated: " +:+ reason) w1)
    as (w2 & -> & Edb & Er2 & _). eexists. rewrite Edb, Er2. by split_and!.
Qed.

(** Without faults, a link that is not yet terminated is. *)
Lemma run_autoTerminate_ok `{!NoFaults PL} hub id reason l w :
  shared_links (w_db w) !! id = Some l → SharedLink_Status l ≠ LinkStatusTerminated →
  reason_exists reason = true →
  link_terminations (w_db w) !! env_uuid (2 + w_tick w) = None →
  ∃ w' now, run (Enforcement_autoTerminate hub id reason) w = (w', tt) ∧ w_redis w' = w_redis w ∧
    w_db w' = terminated_db id (mkLinkTermination uuid_Nil id reason None None 0)
                (env_uuid (2 + w_tick w)) now (w_db w) ∧
    published hub PubSub.EventLinkTerminated id ("link auto-terminated: " +:+ reason) (w_hub w) (w_hub w').
Proof.
  intros Hl Ha Hr Hf. unfold Enforcement_autoTerminate. rewrite run_pbind.
  unfold LinkService_AutoTerminate. repo_links. rewrite run_bind, run_wrap.
  destruct (run_GetByID_link id w) as (r1 & -> & _ & Hg). rewrite (Hg _ l Hl). cbn [fst snd].
  rewrite decide_False by done.
  rewrite (run_terminate_link_ok id) by (simpl; rewrite ?Hl; eauto). cbn [fst snd].
  set (w1 := set_db _ _).
  destruct (run_publish hub PubSub.EventLinkTerminated id ("link auto-terminated: " +:+ reason) w1)
    as (w2 & -> & Edb & Er2 & Hh). do 2 eexists. split; [done|]. rewrite Edb, Er2. by split_and!.
Qed.

Lemma run_GetByLink id w :
  ∃ res, run (UsageCounterRepo_GetByLink id) w = (tick w, res) ∧
    match res with
    | inr row => usage_counters (w_db w) !! id = Some row
    | inl err => (errors_Is err pgx_ErrNoRows = true → usage_counters (w_db w) !! id = None) ∧
                 (NoFaults PL → errors_Is err pgx_ErrNoRows = true)
    end.
Proof.
  unfold UsageCounterRepo_GetByLink, scan_keep_norows. rewrite run_pbind. read_row res.
  destruct res as [e|row].
  - assert (Hnone : errors_Is e pgx_ErrNoRows = true → usage_counters (w_db w) !! id = None).
    { destruct (Herr _ eq_refl) as [->|(e' & -> & E)]; [done|]. unfold select_id in E.
      by destruct (usage_counters (w_db w) !! id). }
    assert (Hnf : NoFaults PL → errors_Is e pgx_ErrNoRows = true).
    { intros HNF. specialize (Hok HNF). unfold select_id in Hok.
      by destruct (usage_counters (w_db w) !! id); simplify_eq. }
    destruct (errors_Is e pgx_ErrNoRows) eqn:Ee; eexists; (split; [done|]); simpl.
    + rewrite Ee. by split.
    + rewrite Ee. by split.
  - eexists. split; [done|]. specialize (Hread _ eq_refl). unfold select_id in Hread.
    by destruct (usage_counters (w_db w) !! id); simplify_eq.
Qed.

(** Warm loading under any faults. *)
Lemma run_warmLoad id w :
  world_wf w →
  ∃ w' res, run (Enforcement_warmLoad id) w = (w', res) ∧ (w_db w' = w_db w ∧ w_hub w' = w_hub w) ∧
    limiter_wf (w_redis w') ∧
    (∃ m, m ⊆ seed id (usage_of (w_db w) id) ∧ rview (w_redis w') = rview (w_redis w) ∪ m) ∧
    match res with
    | inr _ => rview (w_redis w') = rview (w_redis w) ∪ seed id (usage_of (w_db w) id)
    | inl _ => ¬ NoFaults PL
    end.
Proof.
  intros [Hr Hu]. specialize (Hu id). unfold Enforcement_warmLoad. repo_guests. rewrite run_pbind.
  destruct (run_GetByLink id w) as (res & -> & Hres). cbn [fst snd].
  assert (Hload : ∃ w' res, run (CounterStore_WarmLoad id (Counters_Requests (usage_of (w_db w) id))
      (Counters_Bytes (usage_of (w_db w) id)) (Counters_Violations (usage_of (w_db w) id))) (tick w) = (w', res) ∧
    (w_db w' = w_db w ∧ w_hub w' = w_hub w) ∧ limiter_wf (w_redis w') ∧
    (∃ m, m ⊆ seed id (usage_of (w_db w) id) ∧ rview (w_redis w') = rview (w_redis w) ∪ m) ∧
    match res with
    | inr _ => rview (w_redis w') = rview (w_redis w) ∪ seed id (usage_of (w_db w) id)
    | inl _ => ¬ NoFaults PL
    end).
  { destruct (run_WarmLoad id (usage_of (w_db w) id) (tick w) Hr Hu) as (w' & r & E & Ew & ?).
    exists w', r. split; [exact E|]. split; [by rewrite Ew|done]. }
  assert (Hsame : ¬ NoFaults PL → ∃ m, m ⊆ seed id (usage_of (w_db w) id) ∧
    rview (w_redis (tick w)) = rview (w_redis w) ∪ m).
  { intros _. exists ∅. split; [apply map_empty_subseteq|]. by rewrite map_union_empty. }
  unfold usage_of in *. destruct res as [err|row].
  - destruct Hres as [Hnone Hnf]. destruct (errors_Is err pgx_ErrNoRows).
    + rewrite Hnone in * by done. exact Hload.
    + rewrite run_fail. do 2 eexists. split; [done|].
      assert (¬ NoFaults PL) by (intros HNF; by specialize (Hnf HNF)). split_and!; auto.
  - rewrite Hres in *. exact Hload.
Qed.

(** After a successful warm load the counters in Redis are the effective ones. *)
Lemma warmLoad_counters id w r' :
  limiter_wf (w_redis w) →
  rview r' = rview (w_redis w) ∪ seed id (usage_of (w_db w) id) →
  counters_of r' id = effective_counters w id.
Proof.
  intros Hwf E. unfold counters_of, effective_counters, cell. rewrite E.
  assert (Hpick : ∀ k z, counter_key k → seed id (usage_of (w_db w) id) !! k = Some (RInt z) →
    match (rview (w_redis w) ∪ seed id (usage_of (w_db w) id)) !! k with Some (RInt z) => z | _ => 0%Z end =
    match rview (w_redis w) !! k with Some (RInt z) => z | _ => z end).
  { intros k z Hk Hs. pose proof (wf_cells _ Hwf k Hk) as Hc. unfold int_cell in Hc.
    rewrite lookup_union, Hs. destruct (rview (w_redis w) !! k) as [[]|]; done. }
  f_equal; apply Hpick; auto with go; unfold seed.
  - by rewrite !lookup_union, lookup_singleton_eq, !lookup_singleton_ne by auto with go.
  - by rewrite !lookup_union, lookup_singleton_eq, !lookup_singleton_ne by auto with go.
  - by rewrite !lookup_union, lookup_singleton_eq, !lookup_singleton_ne by auto with go.
Qed.

(** Warm loading touches no other link. *)
Lemma warmLoad_others id c l r r' :
  l ≠ id → rview r' = rview r ∪ seed id c → counters_of r' l = counters_of r l.
Proof.
  intros Hl E.
  assert (∀ k, k ≠ requestsKey id → k ≠ bytesKey id → k ≠ violationsKey id → cell r' k = cell r k) as Hk.
  { intros k H1 H2 H3. unfold cell. rewrite E, lookup_union. unfold seed.
    rewrite !lookup_union, !lookup_singleton_ne by done. by destruct (rview r !! k) as [[]|]. }
  unfold counters_of. f_equal; apply Hk; auto with go; intros F;
    (apply requestsKey_inj in F || apply bytesKey_inj in F || apply violationsKey_inj in F); by auto.
Qed.

(** *** BeforeProxy *)

Lemma run_ttl_expired created ttl w :
  ∃ n w', run (ttl_expired created ttl) w = (w', ttl_over created ttl (env_now n)) ∧ w_tick w ≤ n ∧
    w_db w' = w_db w ∧ w_redis w' = w_redis w.
Proof.
  exists (w_tick w). unfold ttl_expired. destruct ttl as [z|]; [|by eexists].
  rewrite run_pbind. unfold time_Now. rewrite run_atom. by eexists.
Qed.

Lemma ttl_tick created ttl w : w_tick w ≤ w_tick (run (ttl_expired created ttl) w).1.
Proof. apply io_tick. unfold ttl_expired. io_atoms. Qed.

Lemma reached_at_limit count limit : reached count limit = at_limit count limit.
Proof. destruct limit as [l|]; [|done]. simpl. by rewrite Z.ltb_antisym, negb_involutive. Qed.

(** The limits the admission is compared with are exactly [limit_reached]. *)
Lemma run_check_counters hub id eff w :
  limiter_wf (w_redis w) →
  ∃ w' a, run (check_counters hub id eff) w = (w', a) ∧ w_redis w' = w_redis w ∧
    ((adm_ok a = false ∧ ∃ e, a = internal_error e) ∧ w_db w' = w_db w ∧ ¬ NoFaults PL ∨
     match limit_reached eff (counters_of (w_redis w) id) with
     | None => a = mkAdmission true StatusOK "" None ∧ w_db w' = w_db w
     | Some reason =>
         adm_ok a = false ∧ adm_status a = StatusForbidden ∧ adm_err a = None ∧
         reason_exists reason = true ∧
         run (Enforcement_autoTerminate hub id reason) (tick w) = (w', tt)
     end).
Proof.
  intros Hwf. unfold check_counters. rewrite run_pbind.
  destruct (run_Get id w Hwf) as (res & -> & Hres). cbn [fst snd]. destruct res as [err|c].
  { do 2 eexists. split; [done|]. split; [done|]. left. split_and!; [done|by eexists|done|done]. }
  subst c. unfold limit_reached. rewrite !reached_at_limit. set (c := counters_of _ id).
  assert (Hend : ∀ reason msg, reason_exists reason = true →
    ∃ w' a, run (let* _ := Enforcement_autoTerminate hub id reason in
                 Ret (mkAdmission false StatusForbidden msg None)) (tick w) = (w', a) ∧
      w_redis w' = w_redis w ∧ adm_ok a = false ∧ adm_status a = StatusForbidden ∧ adm_err a = None ∧
      reason_exists reason = true ∧
      run (Enforcement_autoTerminate hub id reason) (tick w) = (w', tt)).
  { intros reason msg Hr. rewrite run_pbind.
    destruct (run_autoTerminate hub id reason (tick w) Hr) as (w' & E & Er & _). rewrite E.
    do 2 eexists. split; [done|]. split; [exact Er|]. by split_and!. }
  destruct (at_limit (Counters_Requests c) _).
  { destruct (Hend ReasonRequestLimit "request limit reached") as (w' & a & E & Er & Ha); [done|].
    exists w', a. split; [exact E|]. split; [exact Er|]. by right. }
  destruct (at_limit (Counters_Bytes c) _).
  { destruct (Hend ReasonTrafficLimit "traffic limit reached") as (w' & a & E & Er & Ha); [done|].
    exists w', a. split; [exact E|]. split; [exact Er|]. by right. }
  destruct (_ <=? Counters_Violations c)%Z.
  { destruct (Hend ReasonViolationLimit "violation limit reached") as (w' & a & E & Er & Ha); [done|].
    exists w', a. split; [exact E|]. split; [exact Er|]. by right. }
  do 2 eexists. split; [done|]. split; [done|]. by right.
Qed.

(** A blocked request is never admitted. *)
Lemma run_recordViolation_refuses hub link gs eff method path w :
  adm_ok (run (Enforcement_recordViolation hub link gs eff method path) w).2 = false ∧
  adm_status (run (Enforcement_recordViolation hub link gs eff method path) w).2 = StatusForbidden ∧
  adm_err (run (Enforcement_recordViolation hub link gs eff method path) w).2 = None.
Proof.
  unfold Enforcement_recordViolation. rewrite !run_pbind.
  destruct (_ <=? _)%Z; [rewrite run_pbind|]; done.
Qed.

(** The effective policy, the blacklist's answer and the verdict of a request
    in a world. *)
Definition link_policy (w : World) (id : UUID) : EffectivePolicy :=
  strictest (attached_policies (w_db w) id).

Definition path_is_blocked (w : World) (link : LinkWithSession) (method path : string) : bool :=
  bool_decide (Exists (λ rule, blocks rule method path)
    (link_rules (w_db w) (SharedLink_ID (LinkWithSession_Link link))
       (TargetSite_ID (LinkWithSession_TargetSite link)))).

Lemma path_is_blocked_MatchRules w link method path :
  path_is_blocked w link method path =
  bool_decide (is_Some (MatchRules (link_rules (w_db w) (SharedLink_ID (LinkWithSession_Link link))
    (TargetSite_ID (LinkWithSession_TargetSite link))) method path)).
Proof.
  unfold path_is_blocked. apply bool_decide_ext. destruct (MatchRules _ _ _) as [rule|] eqn:E.
  - apply MatchRules_Some in E as (l1 & l2 & -> & _ & Hb). split; [by eexists|]. intros _.
    apply Exists_app. right. by left.
  - apply MatchRules_None in E. split; [|by intros []].
    intros H1. by apply Forall_Exists_neg in E.
Qed.

Definition verdict_at (w : World) (link : LinkWithSession) (method path : string) (now : GoTime) : verdict :=
  let id := SharedLink_ID (LinkWithSession_Link link) in
  judge (link_policy w id) (path_is_blocked w link method path)
    (SharedLink_CreatedAt (LinkWithSession_Link link)) now (effective_counters w id).

Lemma run_Check_ok `{!NoFaults PL} linkID siteID method path w :
  ∃ w', run (Blacklist_Check linkID siteID method path) w =
    (w', inr (MatchRules (link_rules (w_db w) linkID siteID) method path)) ∧
    w_db w' = w_db w ∧ w_redis w' = w_redis w ∧ w_hub w' = w_hub w.
Proof.
  destruct (run (Blacklist_Check linkID siteID method path) w) as [w' [e|o]] eqn:E.
  - exfalso. revert E. unfold Blacklist_Check. repo_links. unfold BlacklistRepo_RulesForLink.
    rewrite run_bind, run_wrap, run_bind, run_wrap, run_sql_ok. cbn [fst snd].
    set (w1 := set_db _ _). generalize (rules_for (w_db w) linkID siteID). intros rules.
    assert (∃ w2 l, run (load_methods rules) w1 = (w2, inr l)) as (w2 & l & ->).
    { generalize w1. clear w1. induction rules as [|r rules IH]; intros w1; cbn [load_methods]; [by do 2 eexists|].
      unfold BlacklistRepo_blockedMethods. rewrite run_bind, run_wrap, run_sql_ok. unfold sql_ret. cbn [fst snd].
      rewrite run_bind. destruct (IH (set_db (w_db w1) (tick w1))) as (w2 & l & ->). by do 2 eexists. }
    done.
  - apply run_Check_inr in E as (-> & ? & ? & ? & _). by exists w'.
Qed.

(** BeforeProxy under any faults: an admission satisfies the specification. *)
Lemma run_BeforeProxy_admit hub link gs path method w :
  world_wf w →
  adm_ok (run (Enforcement_BeforeProxy hub link gs path method) w).2 = true →
  let id := SharedLink_ID (LinkWithSession_Link link) in
  let '(w', a) := run (Enforcement_BeforeProxy hub link gs path method) w in
  a = mkAdmission true StatusOK "" None ∧ w_db w' = w_db w ∧ limiter_wf (w_redis w') ∧
  rview (w_redis w') = rview (w_redis w) ∪ seed id (usage_of (w_db w) id) ∧
  ∃ n, w_tick w ≤ n ∧ verdict_at w link method path (env_now n) = Admit.
Proof.
  intros Hwf. unfold Enforcement_BeforeProxy. set (id := SharedLink_ID _). cbv zeta.
  rewrite run_pbind. pose proof (io_tick _ w (io_warmLoad id)) as Ht1.
  destruct (run_warmLoad id w Hwf) as (w1 & r1 & E1 & [Edb1 Ehub1] & Hwf1 & _ & Hr1).
  rewrite E1 in *. cbn [fst snd] in *. destruct r1 as [err|[]]; [done|].
  pose proof (warmLoad_counters id w _ (wf_redis _ Hwf) Hr1) as Hc1. rewrite run_pbind.
  destruct (run (PolicyResolver_Resolve id) w1) as [w2 [err|eff]] eqn:E2; cbn [fst snd]; [done|].
  apply run_Resolve_inr in E2 as [-> ->]. rewrite resolve_strictest, run_pbind.
  pose proof (io_tick _ (tick w1) (io_Check id (TargetSite_ID (LinkWithSession_TargetSite link)) method path)) as Ht3.
  destruct (run (Blacklist_Check id _ method path) (tick w1)) as [w3 [err|o]] eqn:E3; cbn [fst snd] in *; [done|].
  apply run_Check_inr in E3 as (-> & Edb3 & Er3 & _).
  cbn [w_db w_redis w_tick tick] in *. rewrite Edb1 in *.
  destruct (MatchRules _ method path) as [rule|] eqn:Em.
  { by rewrite (proj1 (run_recordViolation_refuses _ _ _ _ _ _ _)). }
  rewrite run_pbind.
  destruct (run_ttl_expired (SharedLink_CreatedAt (LinkWithSession_Link link))
    (EffectivePolicy_MaxTTLSeconds (strictest (attached_policies (w_db w) id))) w3)
    as (n & w4 & -> & Hn & Edb4 & Er4). cbn [fst snd].
  destruct (ttl_over _ _ (env_now n)) eqn:Ettl; [by rewrite run_pbind|].
  destruct (run_check_counters hub id (strictest (attached_policies (w_db w) id)) w4)
    as (w5 & a & -> & Er5 & Hcase); [by rewrite Er4, Er3|]. cbn [fst snd].
  destruct Hcase as [([Ha _] & _)|Hcase]; [congruence|].
  rewrite Er4, Er3, Hc1 in Hcase.
  destruct (limit_reached _ _) as [reason|] eqn:El; [by destruct Hcase as [-> _]|].
  destruct Hcase as [-> Edb5]. intros _.
  split; [done|]. rewrite Edb5, Edb4, Edb3, Er5, Er4, Er3. split_and!; [done..|].
  exists n. split; [lia|]. unfold verdict_at, judge, link_policy. rewrite path_is_blocked_MatchRules. fold id.
  rewrite Em, bool_decide_eq_false_2 by by intros []. by rewrite Ettl, El.
Qed.

(** The three counters of the link are in Redis. *)
Definition loaded (r : redis) (id : UUID) : Prop :=
  is_Some (rview r !! requestsKey id) ∧ is_Some (rview r !! bytesKey id) ∧
  is_Some (rview r !! violationsKey id).

Lemma loaded_seed r r' id c : rview r' = rview r ∪ seed id c → loaded r' id.
Proof.
  intros E. unfold loaded, seed in *. rewrite E, !lookup_union_is_Some, !lookup_singleton_is_Some. auto 10.
Qed.

Lemma loaded_effective w id :
  limiter_wf (w_redis w) → loaded (w_redis w) id → effective_counters w id = counters_of (w_redis w) id.
Proof.
  intros Hwf (H1 & H2 & H3). unfold effective_counters, counters_of, cell.
  assert (Hpick : ∀ k d, counter_key k → is_Some (rview (w_redis w) !! k) →
    match rview (w_redis w) !! k with Some (RInt z) => z | _ => d end =
    match rview (w_redis w) !! k with Some (RInt z) => z | _ => 0%Z end).
  { intros k d Hk [v E]. pose proof (wf_cells _ Hwf k Hk) as Hc. unfold int_cell in Hc.
    rewrite E in *. by destruct v. }
  f_equal; apply Hpick; auto with go.
Qed.

(** An increment keeps the counters loaded. *)
Lemma loaded_incremented id op m r r' :
  loaded r id → incremented (op_key id op) (amount op) m r r' → loaded r' id.
Proof.
  intros (H1 & H2 & H3) (_ & _ & Ho & _ & Hs).
  assert (∀ k, counter_key k → is_Some (rview r !! k) → is_Some (rview r' !! k)) as Hk.
  { intros k Hk Hsk. destruct (decide (k = op_key id op)) as [->|Hne]; [done|].
    rewrite Ho; [done|done|by apply counter_key_not_dirty]. }
  split_and!; apply Hk; auto with go.
Qed.

(** Identifiers drawn from now on are new for link_terminations. *)
Definition fresh_terminations (w : World) : Prop :=
  ∀ n, w_tick w ≤ n → link_terminations (w_db w) !! env_uuid n = None.

Lemma fresh_terminations_mono w w' :
  w_tick w ≤ w_tick w' → link_terminations (w_db w') = link_terminations (w_db w) →
  fresh_terminations w → fresh_terminations w'.
Proof. intros Ht E Hf n Hn. rewrite E. apply Hf. lia. Qed.

(** The effect of a termination for [reason] on the link and its records. *)
Definition terminated_for (id : UUID) (reason : string) (d d' : DB) : Prop :=
  terminated d' id ∧
  ∃ t, terminations_of d' id ≡ₚ t :: terminations_of d id ∧ LinkTermination_ReasonCode t = reason ∧
       LinkTermination_TerminatedBy t = None.

Lemma run_autoTerminate_for `{!NoFaults PL} hub id reason l w :
  shared_links (w_db w) !! id = Some l → SharedLink_Status l ≠ LinkStatusTerminated →
  reason_exists reason = true → fresh_terminations w →
  terminated_for id reason (w_db w) (w_db (run (Enforcement_autoTerminate hub id reason) w).1) ∧
  w_redis (run (Enforcement_autoTerminate hub id reason) w).1 = w_redis w ∧
  published hub PubSub.EventLinkTerminated id ("link auto-terminated: " +:+ reason)
    (w_hub w) (w_hub (run (Enforcement_autoTerminate hub id reason) w).1) ∧
  security_events (w_db (run (Enforcement_autoTerminate hub id reason) w).1) = security_events (w_db w).
Proof.
  intros Hl Ha Hr Hf.
  assert (Hfree : link_terminations (w_db w) !! env_uuid (2 + w_tick w) = None) by (apply Hf; lia).
  destruct (run_autoTerminate_ok hub id reason l w Hl Ha Hr Hfree)
    as (w' & now & -> & Er & Edb & Hhub). cbn [fst]. rewrite Edb. split_and!; [|done..].
  split; [apply terminated_db_terminated; by eexists|].
  eexists. split; [by apply terminated_db_records|done].
Qed.

(** Up to the decision, BeforeProxy without faults. *)
Lemma run_BeforeProxy_ok `{!NoFaults PL} hub link gs path method w :
  world_wf w →
  let id := SharedLink_ID (LinkWithSession_Link link) in
  ∃ n w3, w_tick w ≤ n ∧ w_tick w ≤ w_tick w3 ∧ w_db w3 = w_db w ∧ limiter_wf (w_redis w3) ∧
    counters_of (w_redis w3) id = effective_counters w id ∧ loaded (w_redis w3) id ∧
    match verdict_at w link method path (env_now n) with
    | Admit => run (Enforcement_BeforeProxy hub link gs path method) w = (w3, mkAdmission true StatusOK "" None)
    | Blocked => w_hub w3 = w_hub w ∧
        run (Enforcement_BeforeProxy hub link gs path method) w =
        run (Enforcement_recordViolation hub link gs (link_policy w id) method path) w3
    | Refuse reason =>
        reason_exists reason = true ∧
        ∃ a, run (Enforcement_BeforeProxy hub link gs path method) w =
             ((run (Enforcement_autoTerminate hub id reason) w3).1, a) ∧
          adm_ok a = false ∧ adm_err a = None ∧
          adm_status a = if decide (reason = ReasonTTLExpired) then StatusGone else StatusForbidden
    end.
Proof.
  intros Hwf. unfold Enforcement_BeforeProxy. set (id := SharedLink_ID _). cbv zeta.
  rewrite run_pbind. pose proof (io_tick _ w (io_warmLoad id)) as Ht1.
  destruct (run_warmLoad id w Hwf) as (w1 & r1 & E1 & [Edb1 Ehub1] & Hwf1 & _ & Hr1).
  rewrite E1 in *. cbn [fst snd] in *. destruct r1 as [err|[]]; [by destruct Hr1|].
  pose proof (warmLoad_counters id w _ (wf_redis _ Hwf) Hr1) as Hc1.
  pose proof (loaded_seed _ _ _ _ Hr1) as Hld1.
  rewrite run_pbind, run_Resolve_ok, resolve_strictest. cbn [fst snd]. rewrite run_pbind.
  pose proof (io_tick _ (tick w1) (io_Check id (TargetSite_ID (LinkWithSession_TargetSite link)) method path)) as Ht3.
  destruct (run_Check_ok id (TargetSite_ID (LinkWithSession_TargetSite link)) method path (tick w1))
    as (w3 & E3 & Edb3 & Er3 & Ehub3). rewrite E3 in *. cbn [fst snd w_db w_redis w_tick tick] in *.
  rewrite Edb1 in *. unfold verdict_at, judge, link_policy. rewrite path_is_blocked_MatchRules. fold id.
  destruct (MatchRules _ method path) as [rule|] eqn:Em.
  { exists (w_tick w), w3. rewrite bool_decide_eq_true_2 by by eexists.
    rewrite Edb3, Er3. split_and!; auto; [lia..|]. by rewrite Ehub3. }
  rewrite bool_decide_eq_false_2 by by intros []. rewrite run_pbind.
  pose proof (ttl_tick (SharedLink_CreatedAt (LinkWithSession_Link link))
    (EffectivePolicy_MaxTTLSeconds (strictest (attached_policies (w_db w) id))) w3) as Ht4.
  destruct (run_ttl_expired (SharedLink_CreatedAt (LinkWithSession_Link link))
    (EffectivePolicy_MaxTTLSeconds (strictest (attached_policies (w_db w) id))) w3)
    as (n & w4 & E4 & Hn & Edb4 & Er4). rewrite E4 in *. cbn [fst snd] in *.
  exists n. destruct (ttl_over _ _ (env_now n)) eqn:Ettl.
  { exists w4. rewrite Edb4, Edb3, Er4, Er3. split_and!; auto; try lia.
    eexists. rewrite run_pbind. split; [reflexivity|]. by split_and!. }
  destruct (run_check_counters hub id (strictest (attached_policies (w_db w) id)) w4)
    as (w5 & a & E5 & Er5 & Hcase); [by rewrite Er4, Er3|]. rewrite E5.
  destruct Hcase as [(_ & _ & [])|Hcase]; [done|]. rewrite Er4, Er3, Hc1 in Hcase.
  destruct (limit_reached _ _) as [reason|] eqn:El.
  - destruct Hcase as (Ha & Has & Hae & Hr & Hrun). exists (tick w4).
    change (w_db (tick w4)) with (w_db w4). change (w_redis (tick w4)) with (w_redis w4).
    rewrite Edb4, Edb3, Er4, Er3. split_and!; auto; [lia|cbn [tick w_tick]; lia|].
    exists a. rewrite Hrun. split_and!; auto.
    rewrite decide_False; [done|]. intros ->. revert El. unfold limit_reached. by repeat case_match.
  - destruct Hcase as [-> Edb5]. exists w5. rewrite Edb5, Edb4, Edb3, Er5, Er4, Er3.
    pose proof (io_tick _ w4 (io_check_counters hub id
      (strictest (attached_policies (w_db w) id)))) as Ht5.
    rewrite E5 in Ht5. cbn [fst] in Ht5. split_and!; auto; lia.
Qed.

(** *** Violations *)

(** The event fits the columns of security_events and their foreign keys. *)
Definition event_fits (d : DB) (id gs : UUID) (path method : string) : bool :=
  varchar 2048 path && varchar 10 method && references (shared_links d) id
  && references (guest_sessions d) gs.

Definition violation_event (link : LinkWithSession) (gs : UUID) (path method : string) (n : Z)
    (now : GoTime) : SecurityEvent :=
  mkSecurityEvent n (Some gs) (SharedLink_ID (LinkWithSession_Link link)) EventBlacklistViolation
    (Some path) (Some method) None now.

Lemma run_SecurityEvent_Create `{!NoFaults PL} link gs path method w :
  ∃ w' r, run (SecurityEventRepo_Create (mkSecurityEvent 0 (Some gs)
      (SharedLink_ID (LinkWithSession_Link link)) EventBlacklistViolation (Some path) (Some method) None 0)) w
    = (w', r) ∧ w_redis w' = w_redis w ∧ w_tick w' = S (w_tick w) ∧ w_hub w' = w_hub w ∧
    if event_fits (w_db w) (SharedLink_ID (LinkWithSession_Link link)) gs path method
    then ∃ n now, w_db w' = set_security_events (λ es, es ++ [violation_event link gs path method n now]) (w_db w)
    else w_db w' = w_db w.
Proof.
  unfold SecurityEventRepo_Create. rewrite run_wrap, run_sql_ok. simpl. unfold event_fits.
  destruct (varchar 2048 path); simpl; [|by do 2 eexists].
  destruct (varchar 10 method); simpl; [|by do 2 eexists].
  destruct (references (shared_links (w_db w)) _); simpl; [|by do 2 eexists].
  destruct (references (guest_sessions (w_db w)) gs); simpl; [|by do 2 eexists].
  do 2 eexists. split; [done|]. split_and!; [done..|]. by do 2 eexists.
Qed.

Lemma run_recordViolation_ok `{!NoFaults PL} hub link gs eff method path w :
  let id := SharedLink_ID (LinkWithSession_Link link) in
  limiter_wf (w_redis w) → counters_in_int64 (add_op OpViolation (counters_of (w_redis w) id)) →
  ∃ w1, w_tick w ≤ w_tick w1 ∧
    incremented (violationsKey id) 1 (uuid_String id) (w_redis w) (w_redis w1) ∧
    published hub PubSub.EventBlacklistViolation id (method +:+ " " +:+ path +:+ " was blocked by blacklist")
      (w_hub w) (w_hub w1) ∧
    (if event_fits (w_db w) id gs path method
     then ∃ n now, w_db w1 = set_security_events (λ es, es ++ [violation_event link gs path method n now]) (w_db w)
     else w_db w1 = w_db w) ∧
    (run (Enforcement_recordViolation hub link gs eff method path) w).1 =
    if (EffectivePolicy_MaxViolationCount eff <=? Counters_Violations (counters_of (w_redis w) id) + 1)%Z
    then (run (Enforcement_autoTerminate hub id ReasonViolationLimit) w1).1 else w1.
Proof.
  intros id Hwf Hfit. unfold Enforcement_recordViolation. fold id. cbv zeta. repo_logs. rewrite run_pbind.
  destruct (run_SecurityEvent_Create link gs path method w) as (w1 & r1 & E1 & Er1 & Et1 & Eh1 & Hev).
  fold id in E1, Hev. rewrite E1. cbn [fst snd]. rewrite run_pbind.
  destruct (run_publish hub PubSub.EventBlacklistViolation id
    (method +:+ " " +:+ path +:+ " was blocked by blacklist") w1) as (w2 & E2 & Edb2 & Er2 & Hpub).
  pose proof (io_tick _ w1 (io_publish hub PubSub.EventBlacklistViolation id
    (method +:+ " " +:+ path +:+ " was blocked by blacklist"))) as Ht2.
  rewrite E2 in *. cbn [fst snd] in *. rewrite run_pbind.
  change (CounterStore_IncrViolations id) with (run_op id OpViolation).
  destruct (run_op_spec id OpViolation w2) as (w3 & r3 & E3 & Ew3 & Hr3);
    [by rewrite Er2, Er1|unfold in_int64, two63; simpl; lia|by rewrite Er2, Er1|].
  rewrite E3. cbn [fst snd]. destruct r3 as [e|v]; [by destruct Hr3 as [_ []]|].
  destruct Hr3 as (Hinc & -> & _). rewrite Er2, Er1 in *. simpl in Hinc.
  rewrite Eh1 in Hpub.
  exists w3. rewrite Ew3. cbn [w_tick w_db w_redis w_hub set_redis tick]. rewrite Edb2. split_and!; [lia|done..|].
  rewrite <-Ew3. simpl. destruct (_ <=? _)%Z; [by rewrite run_pbind|done].
Qed.

(** *** AfterProxy *)

Lemma run_AfterProxy_ok `{!NoFaults PL} hub link gs status n w :
  let id := SharedLink_ID (LinkWithSession_Link link) in
  let c := add_op (OpBytes n) (add_op OpRequest (counters_of (w_redis w) id)) in
  limiter_wf (w_redis w) → in_int64 n → counters_in_int64 c → (0 <= n)%Z →
  ∃ w1, w_tick w ≤ w_tick w1 ∧ (w_db w1 = w_db w ∧ w_hub w1 = w_hub w) ∧ limiter_wf (w_redis w1) ∧
    counters_of (w_redis w1) id = c ∧ (∀ l, l ≠ id → counters_of (w_redis w1) l = counters_of (w_redis w) l) ∧
    (loaded (w_redis w) id → loaded (w_redis w1) id) ∧
    (run (Enforcement_AfterProxy hub link gs status n) w).1 =
    if at_limit (Counters_Requests c) (EffectivePolicy_MaxRequests (link_policy w id))
    then (run (Enforcement_autoTerminate hub id ReasonRequestLimit) w1).1
    else if at_limit (Counters_Bytes c) (EffectivePolicy_MaxBytesTransferred (link_policy w id))
    then (run (Enforcement_autoTerminate hub id ReasonTrafficLimit) w1).1 else w1.
Proof.
  intros id c Hwf Hn Hfit Hpos. unfold Enforcement_AfterProxy. fold id. cbv zeta. rewrite run_pbind.
  change (CounterStore_IncrRequests id) with (run_op id OpRequest).
  change (CounterStore_IncrBytes id n) with (run_op id (OpBytes n)).
  assert (Hfit1 : counters_in_int64 (add_op OpRequest (counters_of (w_redis w) id))).
  { eapply counters_in_int64_between; [by apply counters_of_in_int64|exact Hfit|by apply add_op_le|].
    apply add_op_le. done. }
  destruct (run_op_spec id OpRequest w Hwf) as (w1 & r1 & -> & Ew1 & Hr1);
    [unfold in_int64, two63; simpl; lia|done|]. cbn [fst snd].
  destruct r1 as [e|v1]; [by destruct Hr1 as [_ []]|]. destruct Hr1 as (Hinc1 & _ & _).
  pose proof (incremented_counters id OpRequest _ _ _ id Hinc1) as Hc1. rewrite decide_True in Hc1 by done.
  rewrite run_pbind.
  destruct (run_op_spec id (OpBytes n) w1) as (w2 & r2 & -> & Ew2 & Hr2);
    [apply Hinc1|done|by rewrite Hc1|]. cbn [fst snd].
  destruct r2 as [e|v2]; [by destruct Hr2 as [_ []]|]. destruct Hr2 as (Hinc2 & _ & _).
  pose proof (incremented_counters id (OpBytes n) _ _ _ id Hinc2) as Hc2. rewrite decide_True in Hc2 by done.
  rewrite Hc1 in Hc2. fold c in Hc2.
  assert (Edb2 : w_db w2 = w_db w) by by rewrite Ew2, Ew1.
  assert (Et2 : w_tick w2 = 2 + w_tick w) by by rewrite Ew2, Ew1.
  rewrite run_pbind, run_Resolve_ok. cbn [fst snd]. rewrite run_pbind.
  assert (Hwf2 : limiter_wf (w_redis (tick w2))) by apply Hinc2.
  destruct (run_Get id (tick w2) Hwf2) as (r3 & -> & Hr3). cbn [fst snd].
  destruct r3 as [e|c3]; [done|]. change (w_redis (tick w2)) with (w_redis w2) in *.
  rewrite Hc2 in Hr3. subst c3. exists (tick (tick w2)).
  change (w_redis (tick (tick w2))) with (w_redis w2). change (w_db (tick (tick w2))) with (w_db w2).
  split_and!; [cbn [w_tick tick]; lia|done|by cbn; rewrite Ew2, Ew1|done|done| | |].
  - intros l Hl. rewrite (incremented_counters id (OpBytes n) _ _ _ l Hinc2), decide_False by done.
    by rewrite (incremented_counters id OpRequest _ _ _ l Hinc1), decide_False by done.
  - intros Hld. eapply loaded_incremented; [|exact Hinc2]. by eapply loaded_incremented; [|exact Hinc1].
  - unfold link_policy. rewrite Edb2, !reached_at_limit, <-resolve_strictest. by repeat case_match.
Qed.

End runs.

(** ** Requests one after the other *)

Section serve.
Context {PL : Platform} `{RegexpLib}.

(** A guest request as the enforcement sees it: path, method and the number of
    bytes its response will have. *)
Record GuestRequest := mkGuestRequest { gr_path : string; gr_method : string; gr_bytes : Z }.

(** The admission, and for an admitted request the count that follows it. *)
Definition serve (hub : bool) (link : LinkWithSession) (gs : UUID) (q : GuestRequest) : P bool :=
  let* a := Enforcement_BeforeProxy hub link gs (gr_path q) (gr_method q) in
  if adm_ok a then
    (let* _ := Enforcement_AfterProxy hub link gs StatusOK (gr_bytes q) in Ret true)
  else Ret false.

(** The number of admitted requests. *)
Fixpoint serve_all (hub : bool) (link : LinkWithSession) (gs : UUID) (qs : list GuestRequest) : P nat :=
  match qs with
  | [] => Ret 0
  | q :: qs' =>
      let* b := serve hub link gs q in
      let* n := serve_all hub link gs qs' in
      Ret ((if (b : bool) then 1 else 0) + n)
  end.

End serve.

(** Enforcement leaves the configuration of the link alone. *)
Definition keeps_config (d d' : DB) : Prop :=
  access_policies d' = access_policies d ∧ link_policies d' = link_policies d ∧
  usage_counters d' = usage_counters d.

#[export] Instance keeps_config_preorder : PreOrder keeps_config.
Proof. unfold keeps_config. split; [by split|]. intros ? ? ? (? & ? & ?) (? & ? & ?). split_and!; congruence. Qed.

Section atoms.
Context {PL : Platform} `{RegexpLib}.
Context (R : DB → DB → Prop) `{!PreOrder R}.

(** What a relation on databases must allow for the enforcement to respect it. *)
Class EnforcementStep := {
  step_terminate d id : R d (set_shared_links (alter (SharedLink_with_status LinkStatusTerminated) id) d);
  step_record d id t :
    fresh_in (link_terminations d) id = true → LinkTermination_ID t = id →
    references (shared_links d) (LinkTermination_SharedLinkID t) = true →
    references_opt (users d) (LinkTermination_TerminatedBy t) = true →
    R d (set_link_terminations <[id := t]> d);
  step_event d e :
    references (shared_links d) (SecurityEvent_SharedLinkID e) = true →
    references_opt (guest_sessions d) (SecurityEvent_GuestSessionID e) = true →
    R d (set_security_events (λ es, es ++ [e]) d) }.

Context `{!EnforcementStep}.

Lemma atoms_AutoTerminate_step id reason : all_atoms (on_db R) (LinkService_AutoTerminate id reason).
Proof.
  unfold LinkService_AutoTerminate, terminate_link. repo_links. repo_logs.
  unfold SharedLinkRepo_GetByID, scanSharedLink, SharedLinkRepo_UpdateStatus, LinkTerminationRepo_Create, select_id.
  atoms; invert_stmt; [apply step_terminate| |reflexivity].
  match goal with Hr : _ && _ = true |- _ => apply andb_true_iff in Hr as [? ?] end. by apply step_record.
Qed.

Lemma atoms_publish hub evt id msg : all_atoms (on_db R) (Enforcement_publish hub evt id msg).
Proof. unfold Enforcement_publish. atoms. Qed.

Lemma atoms_autoTerminate_step hub id reason : all_atoms (on_db R) (Enforcement_autoTerminate hub id reason).
Proof. unfold Enforcement_autoTerminate. atoms; auto using atoms_AutoTerminate_step, atoms_publish. Qed.

Lemma atoms_Get id : all_atoms (on_db R) (CounterStore_Get id).
Proof. unfold CounterStore_Get. atoms. Qed.

Lemma atoms_incr id k n : all_atoms (on_db R) (incrAndMarkDirty id k n).
Proof. unfold incrAndMarkDirty. atoms. Qed.

Lemma atoms_warmLoad id : all_atoms (on_db R) (Enforcement_warmLoad id).
Proof.
  unfold Enforcement_warmLoad. repo_guests.
  unfold UsageCounterRepo_GetByLink, scan_keep_norows, CounterStore_WarmLoad, select_id. atoms.
Qed.

#[local] Hint Resolve atoms_autoTerminate_step atoms_publish atoms_Get atoms_incr atoms_warmLoad : go.

Lemma atoms_check_counters hub id eff : all_atoms (on_db R) (check_counters hub id eff).
Proof. unfold check_counters. atoms; auto with go. Qed.

Lemma atoms_recordViolation hub link gs eff method path :
  all_atoms (on_db R) (Enforcement_recordViolation hub link gs eff method path).
Proof.
  unfold Enforcement_recordViolation, CounterStore_IncrViolations. repo_logs. unfold SecurityEventRepo_Create.
  atoms; auto with go. invert_stmt.
  match goal with Hr : references _ _ && _ = true |- _ => apply andb_true_iff in Hr as [? ?] end.
  by apply step_event.
Qed.

#[local] Hint Resolve atoms_check_counters atoms_recordViolation : go.

Lemma atoms_BeforeProxy hub link gs path method :
  all_atoms (on_db R) (Enforcement_BeforeProxy hub link gs path method).
Proof.
  unfold Enforcement_BeforeProxy, ttl_expired. cbv zeta.
  apply all_atoms_pbind; [auto with go|]. intros [e|[]]; [done|].
  apply all_atoms_pbind; [apply all_atoms_Resolve; apply _|]. intros [e|eff]; [done|].
  apply all_atoms_pbind; [apply all_atoms_Check; apply _|]. intros [e|[rule|]]; [done|auto with go|].
  atoms; auto with go.
Qed.

Lemma atoms_AfterProxy hub link gs status n :
  all_atoms (on_db R) (Enforcement_AfterProxy hub link gs status n).
Proof.
  unfold Enforcement_AfterProxy, CounterStore_IncrRequests, CounterStore_IncrBytes. cbv zeta.
  apply all_atoms_pbind; [auto with go|]. intros _. apply all_atoms_pbind; [auto with go|]. intros _.
  apply all_atoms_pbind; [apply all_atoms_Resolve; apply _|]. intros [e|eff]; [done|].
  atoms; auto with go.
Qed.

End atoms.

#[export] Instance config_step : EnforcementStep keeps_config.
Proof. split; by intros. Qed.

Section quota.
Context {PL : Platform} `{!PlatformLaws PL} `{RegexpLib} `{!NoFaults PL}.
Context (hub : bool) (link : LinkWithSession) (gs : UUID).
Local Abbreviation id := (SharedLink_ID (LinkWithSession_Link link)).

(** The most a request can add to the counters. *)
Definition add_request (n : Z) (c : Counters) : Counters :=
  mkCounters (Counters_Requests c + 1) (Counters_Bytes c + n) (Counters_Violations c + 1).

Lemma keeps_config_usage w w' :
  keeps_config (w_db w) (w_db w') →
  (∀ l, usage_of (w_db w') l = usage_of (w_db w) l) ∧ link_policy w' id = link_policy w id.
Proof.
  intros (Ha & Hl & Hu). split; [intros l; unfold usage_of; by rewrite Hu|].
  unfold link_policy, attached_policies. by rewrite Ha, Hl.
Qed.

Lemma autoTerminate_redis reason w :
  reason_exists reason = true →
  w_redis (run (Enforcement_autoTerminate hub id reason) w).1 = w_redis w.
Proof. intros Hr. by destruct (run_autoTerminate hub id reason w Hr) as (w' & -> & Er & _). Qed.

Lemma serve_config q w : keeps_config (w_db w) (w_db (run (serve hub link gs q) w).1).
Proof.
  apply (all_atoms_run (on_db keeps_config)). unfold serve. apply all_atoms_pbind.
  - apply atoms_BeforeProxy; apply _.
  - intros a. destruct (adm_ok a); [|done]. apply all_atoms_pbind; [apply atoms_AfterProxy; apply _|done].
Qed.

Lemma loaded_world w w' :
  world_wf w → keeps_config (w_db w) (w_db w') → limiter_wf (w_redis w') → loaded (w_redis w') id →
  world_wf w' ∧ effective_counters w' id = counters_of (w_redis w') id.
Proof.
  intros [_ Hu] Hc Hr Hld. split; [|by apply loaded_effective].
  split; [done|]. intros l. rewrite (proj1 (keeps_config_usage w w' Hc)). apply Hu.
Qed.

(** What [AfterProxy] leaves in Redis. *)
Lemma AfterProxy_counts status n w :
  limiter_wf (w_redis w) → loaded (w_redis w) id → (0 <= n < two63)%Z →
  counters_in_int64 (add_op (OpBytes n) (add_op OpRequest (counters_of (w_redis w) id))) →
  let r := w_redis (run (Enforcement_AfterProxy hub link gs status n) w).1 in
  limiter_wf r ∧ loaded r id ∧
  counters_of r id = add_op (OpBytes n) (add_op OpRequest (counters_of (w_redis w) id)).
Proof.
  intros Hwf Hld Hn Hfit. destruct (run_AfterProxy_ok hub link gs status n w) as
    (w4 & _ & _ & Hwf4 & Hc4 & _ & Hld4 & Erun); [done|unfold in_int64, two63 in *; lia|done|lia|].
  assert (w_redis (run (Enforcement_AfterProxy hub link gs status n) w).1 = w_redis w4) as ->.
  { rewrite Erun. by repeat case_match; rewrite ?autoTerminate_redis. }
  split_and!; auto.
Qed.

(** What a violation leaves there. *)
Lemma recordViolation_counts eff method path w :
  limiter_wf (w_redis w) → loaded (w_redis w) id → counters_in_int64 (add_op OpViolation (counters_of (w_redis w) id)) →
  let r := w_redis (run (Enforcement_recordViolation hub link gs eff method path) w).1 in
  limiter_wf r ∧ loaded r id ∧ counters_of r id = add_op OpViolation (counters_of (w_redis w) id).
Proof.
  intros Hwf Hld Hfit.
  destruct (run_recordViolation_ok hub link gs eff method path w Hwf) as (w4 & _ & Hinc & _ & _ & Erun).
  { revert Hfit. unfold counters_in_int64. simpl. tauto. }
  assert (w_redis (run (Enforcement_recordViolation hub link gs eff method path) w).1 = w_redis w4) as ->.
  { rewrite Erun. case_match; by rewrite ?autoTerminate_redis. }
  pose proof (incremented_counters id OpViolation _ _ _ id Hinc) as Hc4. rewrite decide_True in Hc4 by done.
  split_and!; [apply Hinc|by eapply (loaded_incremented id OpViolation)|done].
Qed.

(** What a request may do to the counters, admitted or not. *)
Definition one_request (n : Z) (w w' : World) (b : bool) : Prop :=
  let c := effective_counters w id in let c' := effective_counters w' id in
  world_wf w' ∧ link_policy w' id = link_policy w id ∧
  counters_le c c' ∧ counters_le c' (add_request n c) ∧
  Counters_Requests c' = (Counters_Requests c + if b then 1 else 0)%Z ∧
  (b = true → at_limit (Counters_Requests c) (EffectivePolicy_MaxRequests (link_policy w id)) = false).

Lemma one_request_loaded n (w w' : World) (b : bool) c' :
  world_wf w → keeps_config (w_db w) (w_db w') →
  limiter_wf (w_redis w') ∧ loaded (w_redis w') id ∧ counters_of (w_redis w') id = c' →
  counters_le (effective_counters w id) c' → counters_le c' (add_request n (effective_counters w id)) →
  Counters_Requests c' = (Counters_Requests (effective_counters w id) + if b then 1 else 0)%Z →
  (b = true → at_limit (Counters_Requests (effective_counters w id))
     (EffectivePolicy_MaxRequests (link_policy w id)) = false) →
  one_request n w w' b.
Proof.
  intros Hwf Hcfg (Hr & Hld & <-) H1 H2 H3 H4. unfold one_request.
  destruct (loaded_world w w' Hwf Hcfg Hr Hld) as [? ->]. split_and!; auto. by apply keeps_config_usage.
Qed.

Lemma run_serve_ok q w :
  world_wf w → (0 <= gr_bytes q < two63)%Z →
  counters_in_int64 (add_request (gr_bytes q) (effective_counters w id)) →
  let '(w', b) := run (serve hub link gs q) w in one_request (gr_bytes q) w w' b.
Proof.
  intros Hwf Hn Hfit. pose proof (serve_config q w) as Hcfg.
  destruct (run_BeforeProxy_ok hub link gs (gr_path q) (gr_method q) w Hwf)
    as (n & w3 & _ & _ & Edb3 & Hwf3 & Hc3 & Hld3 & Hv).
  pose proof (counters_of_in_int64 (w_redis w3) id Hwf3) as Hint. rewrite Hc3 in Hint.
  unfold serve in *. rewrite run_pbind in *.
  destruct (verdict_at w link (gr_method q) (gr_path q) (env_now n)) as [| |reason] eqn:Ev.
  - rewrite Hv in *. cbn [fst snd adm_ok] in *. rewrite run_pbind in *.
    eapply one_request_loaded; [done|exact Hcfg|apply AfterProxy_counts; [done..|]| | | |]; rewrite ?Hc3.
    + revert Hfit Hint. unfold counters_in_int64, in_int64, add_request. simpl. lia.
    + unfold counters_le. simpl. lia.
    + unfold counters_le. simpl. lia.
    + done.
    + intros _. revert Ev. unfold verdict_at, judge, limit_reached. by repeat case_match.
  - pose proof (run_recordViolation_refuses hub link gs (link_policy w id) (gr_method q) (gr_path q) w3) as (Hok & _).
    destruct Hv as [_ Hv]. rewrite Hv in *. rewrite Hok in *.
    eapply one_request_loaded; [done|exact Hcfg|apply recordViolation_counts; [done..|]| | | |done]; rewrite ?Hc3.
    + revert Hfit Hint. unfold counters_in_int64, in_int64, add_request. simpl. lia.
    + unfold counters_le. simpl. lia.
    + unfold counters_le. simpl. lia.
    + simpl. lia.
  - destruct Hv as (Hr & a & Ea & Hok & _). rewrite Ea in *. cbn [fst snd] in *. rewrite Hok in *.
    eapply (one_request_loaded _ _ _ _ (counters_of (w_redis w3) id)); [done|exact Hcfg| | | | |done]; rewrite ?Hc3.
    + by rewrite (autoTerminate_redis reason).
    + unfold counters_le. lia.
    + unfold counters_le. simpl. lia.
    + lia.
Qed.

(** The most a sequence of requests can add. *)
Definition add_requests (qs : list GuestRequest) (c : Counters) : Counters :=
  foldl (λ c q, add_request (gr_bytes q) c) c qs.

Lemma add_request_mono n c c' : counters_le c c' → counters_le (add_request n c) (add_request n c').
Proof. unfold counters_le. simpl. lia. Qed.

Lemma counters_le_trans a b c : counters_le a b → counters_le b c → counters_le a c.
Proof. unfold counters_le. lia. Qed.

Lemma add_requests_mono qs c c' : counters_le c c' → counters_le (add_requests qs c) (add_requests qs c').
Proof.
  revert c c'. induction qs as [|q qs IH]; intros c c' Hle; [done|]. apply IH. by apply add_request_mono.
Qed.

Lemma add_requests_ge qs c :
  Forall (λ q, (0 <= gr_bytes q < two63)%Z) qs → counters_le c (add_requests qs c).
Proof.
  intros Hq. revert c. induction Hq as [|q qs Hq _ IH]; intros c; [unfold counters_le; simpl; lia|].
  eapply counters_le_trans; [|apply IH]. unfold counters_le. simpl. lia.
Qed.

Lemma effective_in_int64 w l : world_wf w → counters_in_int64 (effective_counters w l).
Proof.
  intros [Hr Hu]. specialize (Hu l) as (U1 & U2 & U3). unfold effective_counters. split_and!; simpl.
  all: match goal with |- in_int64 match rview _ !! ?k with _ => _ end =>
    assert (int_cell (w_redis w) k) as Hk by (apply wf_cells; auto with go); unfold int_cell in Hk;
    by destruct (rview (w_redis w) !! k) as [[]|] end.
Qed.

Lemma run_serve_all qs w m :
  world_wf w → EffectivePolicy_MaxRequests (link_policy w id) = Some m →
  Forall (λ q, (0 <= gr_bytes q < two63)%Z) qs →
  counters_in_int64 (add_requests qs (effective_counters w id)) →
  let '(w', k) := run (serve_all hub link gs qs) w in
  (Z.of_nat k <= Z.max 0 (m - Counters_Requests (effective_counters w id)))%Z ∧
  Counters_Requests (effective_counters w' id) =
    (Counters_Requests (effective_counters w id) + Z.of_nat k)%Z.
Proof.
  intros Hwf Hm Hqs. revert w Hwf Hm. induction Hqs as [|q qs Hq Hqs IH]; intros w Hwf Hm Hfit.
  { simpl. lia. }
  cbn [serve_all]. rewrite run_pbind.
  pose proof (effective_in_int64 w id Hwf) as Hint.
  pose proof (add_requests_ge qs (add_request (gr_bytes q) (effective_counters w id)) Hqs) as Hge.
  assert (Hfit1 : counters_in_int64 (add_request (gr_bytes q) (effective_counters w id))).
  { eapply counters_in_int64_between; [exact Hint|exact Hfit| |exact Hge]. unfold counters_le. simpl. lia. }
  pose proof (run_serve_ok q w Hwf Hq Hfit1) as H1.
  destruct (run (serve hub link gs q) w) as [w1 b]. cbn [fst snd].
  destruct H1 as (Hwf1 & Hpol & Hle1 & Hle2 & Hreq & Hlim). rewrite run_pbind.
  rewrite <-Hpol in Hm. specialize (IH w1 Hwf1 Hm).
  destruct (run (serve_all hub link gs qs) w1) as [w2 k]. cbn [run fst snd].
  destruct IH as [IH1 IH2].
  { eapply counters_in_int64_between; [apply (effective_in_int64 w1 id Hwf1)|exact Hfit| |].
    - by apply add_requests_ge.
    - exact (add_requests_mono qs _ _ Hle2). }
  rewrite Hpol in Hm. destruct b; [|lia]. specialize (Hlim eq_refl). rewrite Hm in Hlim.
  cbn [at_limit] in Hlim. apply negb_false_iff, Z.ltb_lt in Hlim. lia.
Qed.

End quota.

(** ** Properties *)

(** whatever fails, a request is admitted only if the specification admits
    it: no rule of the link or its site blocks the path, the TTL of the most
    restrictive policy has not passed at a reading of the clock taken during
    the request, and no counter (the one in Redis, or the durable one where
    Redis has none) has reached its limit.  Admitting changes no table, and in
    Redis only adds the missing counters. *)
Theorem BeforeProxy_admits_only {PL : Platform} `{!PlatformLaws PL} `{RegexpLib} hub link gs path method w w' a
    (Hwf : world_wf w)
    (Hrun : run (Enforcement_BeforeProxy hub link gs path method) w = (w', a))
    (Hok : adm_ok a = true) :
  let id := SharedLink_ID (LinkWithSession_Link link) in
  let effective := link_policy w id in
  let c := effective_counters w id in
  (∀ rule, rule ∈ link_rules (w_db w) id (TargetSite_ID (LinkWithSession_TargetSite link)) →
           ¬ blocks rule method path) ∧
  (∃ n, w_tick w ≤ n ∧
     ttl_over (SharedLink_CreatedAt (LinkWithSession_Link link)) (EffectivePolicy_MaxTTLSeconds effective)
       (env_now n) = false) ∧
  (∀ m, EffectivePolicy_MaxRequests effective = Some m → (Counters_Requests c < m)%Z) ∧
  (∀ m, EffectivePolicy_MaxBytesTransferred effective = Some m → (Counters_Bytes c < m)%Z) ∧
  (Counters_Violations c < EffectivePolicy_MaxViolationCount effective)%Z ∧
  w_db w' = w_db w ∧ counters_of (w_redis w') id = c.
Proof.
  pose proof (run_BeforeProxy_admit hub link gs path method w Hwf) as H1.
  rewrite Hrun in H1. destruct (H1 Hok) as (_ & Hdb & _ & Hv & n & Hn & Hj). clear H1.
  unfold verdict_at, judge in Hj. set (id := SharedLink_ID _) in *. cbv zeta.
  destruct (path_is_blocked w link method path) eqn:Eb; [done|].
  destruct (ttl_over _ _ (env_now n)) eqn:Et; [done|].
  unfold limit_reached in Hj. destruct (at_limit (Counters_Requests _) _) eqn:Er; [done|].
  destruct (at_limit (Counters_Bytes _) _) eqn:Ey; [done|].
  destruct (Z.leb_spec (EffectivePolicy_MaxViolationCount (link_policy w id))
    (Counters_Violations (effective_counters w id))) as [|Hviol]; [done|].
  split_and!.
  - apply bool_decide_eq_false, not_Exists_Forall in Eb; [by apply Forall_forall|apply _].
  - by exists n.
  - intros m Hm. rewrite Hm in Er. by apply negb_false_iff, Z.ltb_lt in Er.
  - intros m Hm. rewrite Hm in Ey. by apply negb_false_iff, Z.ltb_lt in Ey.
  - done.
  - done.
  - by apply warmLoad_counters; [apply Hwf|].
Qed.

(** C14: without failures BeforeProxy implements the specification [judge] on
    every branch: it admits with 200, refuses a blocked path with 403, an
    expired TTL with 410 and a reached limit with 403, never with an error; and
    a refusal for a limit leaves the link terminated with one new record of that
    reason. *)
Theorem BeforeProxy_implements_judge {PL : Platform} `{!PlatformLaws PL} `{RegexpLib} `{!NoFaults PL}
    hub link gs path method l w
    (Hwf : world_wf w)
    (Hl : shared_links (w_db w) !! SharedLink_ID (LinkWithSession_Link link) = Some l)
    (Hactive : SharedLink_Status l ≠ LinkStatusTerminated)
    (Hfresh : fresh_terminations w) :
  let id := SharedLink_ID (LinkWithSession_Link link) in
  let '(w', a) := run (Enforcement_BeforeProxy hub link gs path method) w in
  adm_err a = None ∧ ∃ n, w_tick w ≤ n ∧
  match verdict_at w link method path (env_now n) with
  | Admit => adm_ok a = true ∧ adm_status a = StatusOK ∧ w_db w' = w_db w
  | Blocked => adm_ok a = false ∧ adm_status a = StatusForbidden
  | Refuse reason =>
      adm_ok a = false ∧
      adm_status a = (if decide (reason = ReasonTTLExpired) then StatusGone else StatusForbidden) ∧
      terminated_for id reason (w_db w) (w_db w') ∧ counters_of (w_redis w') id = effective_counters w id
  end.
Proof.
  intros id.
  destruct (run_BeforeProxy_ok hub link gs path method w Hwf)
    as (n & w3 & Hn & Ht3 & Edb3 & Hwf3 & Hc3 & _ & Hv). fold id in Hc3, Hv.
  destruct (run (Enforcement_BeforeProxy hub link gs path method) w) as [w' a].
  destruct (verdict_at w link method path (env_now n)) as [| |reason] eqn:Ev.
  - simplify_eq. split; [done|]. exists n. by rewrite Ev.
  - pose proof (run_recordViolation_refuses hub link gs (link_policy w id) method path w3) as (H1 & H2 & H3).
    destruct Hv as [_ Hv]. rewrite <-Hv in *. split; [done|]. exists n. by rewrite Ev.
  - destruct Hv as (Hr & a' & E & Hok & He & Hs). simplify_eq. split; [done|]. exists n. rewrite Ev.
    destruct (run_autoTerminate_for hub id reason l w3) as (Hterm & Er & _); [by rewrite Edb3|done..| |].
    { by eapply fresh_terminations_mono; [|by rewrite Edb3|]. }
    rewrite Edb3 in Hterm. split_and!; [done..|]. by rewrite Er.
Qed.

(** C20: a blocked request, without failures, is refused with 403, counts exactly
    one violation and no request or byte, is recorded in security_events when
    the event fits the table, is published to the hub, and terminates the link
    (reason "violation_limit", with a second event) exactly when the count
    reaches the policy's limit. *)
Theorem blocked_request_effects {PL : Platform} `{!PlatformLaws PL} `{RegexpLib} `{!NoFaults PL}
    hub link gs path method l w
    (Hwf : world_wf w)
    (Hl : shared_links (w_db w) !! SharedLink_ID (LinkWithSession_Link link) = Some l)
    (Hactive : SharedLink_Status l ≠ LinkStatusTerminated)
    (Hfresh : fresh_terminations w)
    (Hblocked : path_is_blocked w link method path = true)
    (Hfit : counters_in_int64
              (add_op OpViolation (effective_counters w (SharedLink_ID (LinkWithSession_Link link))))) :
  let id := SharedLink_ID (LinkWithSession_Link link) in
  let c := effective_counters w id in
  let '(w', a) := run (Enforcement_BeforeProxy hub link gs path method) w in
  adm_ok a = false ∧ adm_status a = StatusForbidden ∧
  counters_of (w_redis w') id = add_op OpViolation c ∧
  (event_fits (w_db w) id gs path method = true →
   ∃ n now, security_events (w_db w') = security_events (w_db w) ++ [violation_event link gs path method n now]) ∧
  ∃ h, published hub PubSub.EventBlacklistViolation id (method +:+ " " +:+ path +:+ " was blocked by blacklist")
         (w_hub w) h ∧
  (if (EffectivePolicy_MaxViolationCount (link_policy w id) <=? Counters_Violations c + 1)%Z
   then terminated_for id ReasonViolationLimit (w_db w) (w_db w') ∧
        published hub PubSub.EventLinkTerminated id ("link auto-terminated: " +:+ ReasonViolationLimit) h (w_hub w')
   else shared_links (w_db w') = shared_links (w_db w) ∧
        link_terminations (w_db w') = link_terminations (w_db w) ∧ w_hub w' = h).
Proof.
  intros id c.
  destruct (run_BeforeProxy_ok hub link gs path method w Hwf)
    as (n & w3 & Hn & Ht3 & Edb3 & Hwf3 & Hc3 & _ & Hv). fold id c in Hc3, Hv.
  unfold verdict_at, judge in Hv. rewrite Hblocked in Hv. destruct Hv as [Hhub3 Hv]. rewrite Hv.
  pose proof (run_recordViolation_refuses hub link gs (link_policy w id) method path w3) as (H1 & H2 & _).
  destruct (run_recordViolation_ok hub link gs (link_policy w id) method path w3 Hwf3)
    as (w4 & Ht4 & Hinc & Hpub & Hev & Erun); [by fold id; rewrite Hc3|]. fold id in Hinc, Hpub, Hev, Erun.
  rewrite Hhub3 in Hpub.
  rewrite Hc3, Edb3 in *.
  pose proof (incremented_counters id OpViolation _ _ _ id Hinc) as Hc4. rewrite decide_True, Hc3 in Hc4 by done.
  assert (Hevs : event_fits (w_db w) id gs path method = true →
    ∃ n now, security_events (w_db w4) = security_events (w_db w) ++ [violation_event link gs path method n now]).
  { intros E. rewrite E in Hev. destruct Hev as (k & now & ->). by exists k, now. }
  assert (Hsame : shared_links (w_db w4) = shared_links (w_db w) ∧
                  link_terminations (w_db w4) = link_terminations (w_db w)).
  { destruct (event_fits _ _ _ _ _); [destruct Hev as (? & ? & ->)|rewrite Hev]; done. }
  destruct (run (Enforcement_recordViolation hub link gs (link_policy w id) method path) w3) as [w' a].
  cbn [fst snd] in *. split; [done|]. split; [done|].
  destruct (_ <=? _)%Z; subst w'; [|destruct Hsame; by split_and!; [..|exists (w_hub w4)]].
  destruct Hsame as [Hs1 Hs2].
  destruct (run_autoTerminate_for hub id ReasonViolationLimit l w4) as (Hterm & Er & Hpub2 & Ee);
    [by rewrite Hs1|done|done| |].
  { eapply fresh_terminations_mono; [|exact Hs2|exact Hfresh]. lia. }
  rewrite Er, Ee. split_and!; [done|done|]. exists (w_hub w4). split; [done|]. split; [|done].
  destruct Hterm as (Ht & t & Hp & Hrest). split; [done|]. exists t. split; [|done]. rewrite Hp. unfold terminations_of. by rewrite Hs2.
Qed.

(** C19: counting a request, without failures: exactly one request and the bytes
    of its response are added to the counters of its link and of no other, and
    the link is terminated, with one record of the right reason and an event
    published to the hub, exactly when the new counts reach a limit of its
    policy. *)
Theorem AfterProxy_effects {PL : Platform} `{!PlatformLaws PL} `{!NoFaults PL} hub link gs status n l w
    (Hwf : limiter_wf (w_redis w)) (Hn : (0 <= n < two63)%Z)
    (Hl : shared_links (w_db w) !! SharedLink_ID (LinkWithSession_Link link) = Some l)
    (Hactive : SharedLink_Status l ≠ LinkStatusTerminated)
    (Hfresh : fresh_terminations w)
    (Hfit : counters_in_int64 (add_op (OpBytes n) (add_op OpRequest
              (counters_of (w_redis w) (SharedLink_ID (LinkWithSession_Link link)))))) :
  let id := SharedLink_ID (LinkWithSession_Link link) in
  let c := add_op (OpBytes n) (add_op OpRequest (counters_of (w_redis w) id)) in
  let w' := (run (Enforcement_AfterProxy hub link gs status n) w).1 in
  counters_of (w_redis w') id = c ∧
  (∀ l, l ≠ id → counters_of (w_redis w') l = counters_of (w_redis w) l) ∧
  match limit_reached (mkEffectivePolicy (EffectivePolicy_MaxRequests (link_policy w id))
          (EffectivePolicy_MaxBytesTransferred (link_policy w id)) None
          (Counters_Violations c + 1)) c with
  | Some reason => terminated_for id reason (w_db w) (w_db w') ∧
      published hub PubSub.EventLinkTerminated id ("link auto-terminated: " +:+ reason) (w_hub w) (w_hub w')
  | None => w_db w' = w_db w ∧ w_hub w' = w_hub w
  end.
Proof.
  intros id c w'.
  destruct (run_AfterProxy_ok hub link gs status n w) as (w1 & Ht & [Edb Ehub] & Hwf1 & Hc & Ho & _ & Erun);
    [done|unfold in_int64, two63 in *; lia|done|lia|]. fold id c in Hc, Ho, Erun. subst w'. rewrite Erun.
  unfold limit_reached. cbn [EffectivePolicy_MaxRequests EffectivePolicy_MaxBytesTransferred
    EffectivePolicy_MaxViolationCount].
  assert (Hterm : ∀ reason, reason_exists reason = true →
    (terminated_for id reason (w_db w) (w_db (run (Enforcement_autoTerminate hub id reason) w1).1) ∧
     published hub PubSub.EventLinkTerminated id ("link auto-terminated: " +:+ reason)
       (w_hub w) (w_hub (run (Enforcement_autoTerminate hub id reason) w1).1)) ∧
    w_redis (run (Enforcement_autoTerminate hub id reason) w1).1 = w_redis w1).
  { intros reason Hr. rewrite <-Edb, <-Ehub. destruct (run_autoTerminate_for hub id reason l w1) as (? & ? & ? & _);
      [by rewrite Edb|done|done| |by split_and!]. by eapply fresh_terminations_mono; [|by rewrite Edb|]. }
  destruct (at_limit (Counters_Requests c) _).
  { destruct (Hterm ReasonRequestLimit) as [[??] ->]; [done|]. by split_and!. }
  destruct (at_limit (Counters_Bytes c) _).
  { destruct (Hterm ReasonTrafficLimit) as [[??] ->]; [done|]. by split_and!. }
  destruct (Z.leb_spec (Counters_Violations c + 1) (Counters_Violations c)); [lia|]. by split_and!.
Qed.

(** C13: the request limit is enforced.  Of any sequence of requests handled one
    after the other without failures, at most as many are admitted as the
    policy's limit leaves over, whatever their paths and sizes, and each
    admitted one is counted. *)
Theorem quota_enforced {PL : Platform} `{!PlatformLaws PL} `{RegexpLib} `{!NoFaults PL}
    hub link gs qs w m
    (Hwf : world_wf w)
    (Hm : EffectivePolicy_MaxRequests (link_policy w (SharedLink_ID (LinkWithSession_Link link))) = Some m)
    (Hbytes : Forall (λ q, (0 <= gr_bytes q < two63)%Z) qs)
    (Hfit : counters_in_int64
              (add_requests qs (effective_counters w (SharedLink_ID (LinkWithSession_Link link))))) :
  let id := SharedLink_ID (LinkWithSession_Link link) in
  let '(w', admitted) := run (serve_all hub link gs qs) w in
  (Z.of_nat admitted <= Z.max 0 (m - Counters_Requests (effective_counters w id)))%Z ∧
  Counters_Requests (effective_counters w' id) =
    (Counters_Requests (effective_counters w id) + Z.of_nat admitted)%Z.
Proof. intros id. by apply run_serve_all. Qed.

(** C23: restarting Redis loses nothing that was flushed.  When a dirty link has
    been flushed without failures and Redis then loses all its data, the warm
    load of the next request restores exactly the counters the link had. *)
Theorem restart_restores_counters {PL : Platform} `{!PlatformLaws PL} `{!NoFaults PL} id w w2
    (Hwf : world_wf w)
    (Hdirty : uuid_String id ∈ dirty (w_redis w)) (Hfl : flushable w id)
    (Hdb : w_db w2 = w_db (run SyncWorker_flushOnce w).1)
    (Hlost : rview (w_redis w2) = ∅) :
  let '(w3, res) := run (Enforcement_warmLoad id) w2 in
  res = inr tt ∧ counters_of (w_redis w3) id = counters_of (w_redis w) id.
Proof.
  destruct (run_flushOnce w (wf_redis _ Hwf)) as [Hf Hn].
  destruct (Hn _ id Hdirty Hfl) as [(row & Hrow & Hc) _].
  rewrite (counters_of_same (w_redis w)) in Hc by apply Hf.
  assert (Hu : usage_of (w_db w2) id = counters_of (w_redis w) id).
  { unfold usage_of. by rewrite Hdb, Hrow. }
  assert (Hwf2 : limiter_wf (w_redis w2)) by by apply limiter_wf_empty.
  unfold Enforcement_warmLoad. repo_guests. rewrite run_pbind.
  destruct (run_GetByLink id w2) as (res & -> & Hres). rewrite Hdb, Hrow in Hres. cbn [fst snd].
  destruct res as [err|row2].
  { destruct Hres as [H1 H2]. by specialize (H1 (H2 _)). }
  simplify_eq.
  destruct (run_WarmLoad id (usage_of (w_db w2) id) (tick w2)) as (w3 & r3 & E3 & _ & _ & _ & Hr3);
    [done|rewrite Hu; apply counters_of_in_int64, Hwf|].
  rewrite Hu, Hc in E3. cbn [Counters_Requests Counters_Bytes Counters_Violations] in E3. rewrite E3.
  destruct r3 as [e|[]]; [done|]. split; [done|].
  rewrite (warmLoad_counters id w2) by done. rewrite <-Hu.
  unfold effective_counters. rewrite Hlost, !lookup_empty. by destruct (usage_of (w_db w2) id).
Qed.

(** ** Witnesses *)

Definition demo_lws : LinkWithSession := mkLinkWithSession demo_shared_link demo_session demo_site 1.

#[local] Existing Instance demo_regexp.

(** The demo database with the prefix rule "/admin" on the link's site. *)
Definition demo_enf_db : DB :=
  set_blacklisted_endpoints (λ _, {[ 20%N := demo_endpoint 20 "/admin" PatternTypePrefix [] ]})
  (set_site_endpoint_rules (λ _, {[ (3%N, 20%N) ]}) demo_db).

Definition demo_enf : World (PL := demo) := demo_world demo_enf_db.

Lemma demo_enf_wf : world_wf demo_enf.
Proof.
  split; [by apply limiter_wf_empty|]. intros l. unfold usage_of, demo_enf, demo_world.
  cbn [w_db]. change (usage_counters demo_enf_db) with (∅ : gmap UUID UsageCounters).
  rewrite lookup_empty. unfold counters_in_int64, in_int64, two63. simpl. lia.
Qed.

Lemma demo_enf_fresh : fresh_terminations demo_enf.
Proof. intros n _. apply lookup_empty. Qed.

Lemma demo_enf_counters l : effective_counters demo_enf l = mkCounters 0 0 0.
Proof. reflexivity. Qed.

Definition demo_admission (path : string) : World (PL := demo) * Admission :=
  run (Enforcement_BeforeProxy true demo_lws 30%N path "GET") demo_enf.

Lemma BeforeProxy_admits_only_witness :
  adm_ok (demo_admission "/").2 = true ∧
  ∀ rule, rule ∈ link_rules demo_enf_db 5 3 → ¬ blocks rule "GET" "/".
Proof.
  assert (Hok : adm_ok (demo_admission "/").2 = true) by (vm_compute; reflexivity). split; [exact Hok|].
  destruct (demo_admission "/") as [w' a] eqn:E.
  apply (BeforeProxy_admits_only true demo_lws 30%N "/" "GET" demo_enf w' a demo_enf_wf E Hok).
Defined.

Lemma BeforeProxy_implements_judge_witness :
  adm_err (demo_admission "/admin").2 = None ∧ adm_status (demo_admission "/admin").2 = StatusForbidden.
Proof.
  pose proof (BeforeProxy_implements_judge true demo_lws 30%N "/admin" "GET" demo_shared_link demo_enf
    demo_enf_wf eq_refl) as H. unfold demo_admission.
  destruct (run (Enforcement_BeforeProxy true demo_lws 30%N "/admin" "GET") demo_enf) as [w' a].
  destruct H as [He (n & _ & Hv)]; [discriminate|apply demo_enf_fresh|]. split; [exact He|].
  assert (verdict_at demo_enf demo_lws "GET" "/admin" (@env_now demo n) = Blocked) as E by reflexivity.
  rewrite E in Hv. apply Hv.
Defined.

Lemma blocked_request_effects_witness :
  counters_of (w_redis (demo_admission "/admin/users").1) 5%N = mkCounters 0 0 1.
Proof.
  pose proof (blocked_request_effects true demo_lws 30%N "/admin/users" "GET" demo_shared_link demo_enf
    demo_enf_wf eq_refl) as H. unfold demo_admission.
  destruct (run (Enforcement_BeforeProxy true demo_lws 30%N "/admin/users" "GET") demo_enf) as [w' a].
  destruct H as (_ & _ & Hc & _).
  - discriminate.
  - apply demo_enf_fresh.
  - reflexivity.
  - rewrite demo_enf_counters. unfold counters_in_int64, in_int64, two63. simpl. lia.
  - exact Hc.
Defined.

Lemma AfterProxy_effects_witness :
  counters_of (w_redis (run (Enforcement_AfterProxy true demo_lws 30%N 200 1000) demo_enf).1) 5%N
  = mkCounters 1 1000 0.
Proof.
  destruct (AfterProxy_effects true demo_lws 30%N 200 1000 demo_shared_link demo_enf) as [Hc _].
  - apply demo_enf_wf.
  - unfold two63. lia.
  - reflexivity.
  - discriminate.
  - apply demo_enf_fresh.
  - change (counters_in_int64 (mkCounters 1 1000 0)).
    unfold counters_in_int64, in_int64, two63. simpl. lia.
  - exact Hc.
Defined.

(** Three requests under a limit of two. *)
Definition demo_requests : list GuestRequest :=
  [mkGuestRequest "/" "GET" 10; mkGuestRequest "/a" "GET" 10; mkGuestRequest "/b" "GET" 10].

Lemma quota_enforced_witness :
  ((run (serve_all true demo_lws 30%N demo_requests) demo_enf).2 <= 2)%nat.
Proof.
  pose proof (quota_enforced true demo_lws 30%N demo_requests demo_enf 2 demo_enf_wf) as H.
  destruct (run (serve_all true demo_lws 30%N demo_requests) demo_enf) as [w' k].
  destruct H as [Hk _].
  - reflexivity.
  - repeat constructor; simpl; unfold two63; lia.
  - rewrite demo_enf_counters. unfold counters_in_int64, in_int64, two63. simpl. lia.
  - rewrite demo_enf_counters in Hk. simpl in *. lia.
Defined.

(** The world after a flush and the loss of Redis' data. *)
Definition demo_restarted : World (PL := demo) :=
  set_redis (∅ : @redis demo) (run SyncWorker_flushOnce demo_dirty_world).1.

Lemma set_redis_db {PL : Platform} r (w : World) : w_db (set_redis r w) = w_db w.
Proof. done. Qed.

Lemma set_redis_redis {PL : Platform} r (w : World) : w_redis (set_redis r w) = r.
Proof. done. Qed.

Lemma restart_restores_counters_witness :
  counters_of (w_redis (run (Enforcement_warmLoad (PL := demo) 5%N) demo_restarted).1) 5%N = mkCounters 1 0 0.
Proof.
  set (w2 := demo_restarted). pose proof (restart_restores_counters 5%N demo_dirty_world w2) as H.
  destruct (run (Enforcement_warmLoad 5%N) w2) as [w3 r]. destruct H as [_ Hc].
  - split; [apply demo_dirty_wf|]. intros l. unfold usage_of.
    change (usage_counters (w_db demo_dirty_world)) with (∅ : gmap UUID UsageCounters).
    rewrite lookup_empty. unfold counters_in_int64, in_int64, two63. simpl. lia.
  - vm_compute. reflexivity.
  - split_and!; [vm_compute; reflexivity..|]. eexists. vm_compute. reflexivity.
  - apply set_redis_db.
  - unfold w2, demo_restarted. rewrite set_redis_redis. reflexivity.
  - cbn [fst]. etransitivity; [exact Hc|]. vm_compute. reflexivity.
Defined.

(** *** Over-admission under concurrency *)

Definition demo_forward : P (PL := demo) unit :=
  atom (λ w, (set_sent (w_sent w ++ [mkRequest "GET" (mkURL "https" "example.com" "/" "") ∅ "" "" ""]) w, tt)).

(** A request that is forwarded when it is admitted, and then counted. *)
Definition demo_handle : P (PL := demo) unit :=
  let* a := Enforcement_BeforeProxy true demo_lws 30%N "/" "GET" in
  if adm_ok a then
    (let* _ := demo_forward in Enforcement_AfterProxy true demo_lws 30%N StatusOK 10)
  else Ret tt.

Definition over_admission_end : list (P (PL := demo) unit) * World (PL := demo) :=
  schedule (concat (replicate 40 [0; 1; 2; 3])) [demo_handle; demo_handle; demo_handle; demo_handle] demo_enf.

(** Four concurrent requests are all forwarded under a limit of two: each reads
    the counters before any is counted. *)
Lemma over_admission :
  EffectivePolicy_MaxRequests (link_policy demo_enf 5%N) = Some 2%Z ∧
  rtc pool_step ([demo_handle; demo_handle; demo_handle; demo_handle], demo_enf) over_admission_end ∧
  forallb finished over_admission_end.1 = true ∧
  length (w_sent over_admission_end.2) = 4 ∧
  Counters_Requests (counters_of (w_redis over_admission_end.2) 5%N) = 4%Z.
Proof. split; [reflexivity|]. split; [apply schedule_pool|]. split_and!; vm_compute; reflexivity. Qed.
