(* ===== verification/Crypto.v ===== *)
(** * internal/crypto: encryption of credentials (aesgcm.go)

    AES-256-GCM itself is the class [AEAD]: sealing and opening under a key and
    a nonce, with the laws of an authenticated cipher.  The stored form, base64
    of nonce and sealed text, is modelled as written. *)

From Stdlib Require Import Ascii.
From S2P Require Import Prelude GoStrings Encoding Domain Schema Platform Effects.

Open Scope go_scope.

(** ** Definitions *)

(** [cipher.AEAD] of [cipher.NewGCM(aes.NewCipher(key))]. *)
Class AEAD := {
  aead_Seal : string → string → string → string;
  aead_Open : string → string → string → option string }.

(** Opening is the inverse of sealing, and accepts nothing else. *)
Class AEADLaws (A : AEAD) : Prop :=
  aead_Open_Seal key nonce c p : aead_Open key nonce c = Some p ↔ c = aead_Seal key nonce p.

(** [aead.NonceSize()] of GCM. *)
Definition NonceSize : nat := 12.

Record Cipher := mkCipher { Cipher_key : string }.

(** [aes.NewCipher] and [cipher.NewGCM] accept every 32-byte key. *)
Definition Crypto_New (key : string) : go_error + Cipher :=
  if decide (String.length key ≠ 32) then inl (ErrNew "crypto: key must be 32 bytes")
  else inr (mkCipher key).

Section cipher.
Context `{AEAD} {PL : Platform}.

(** The text stored for a plaintext and a nonce: [Seal(nonce, nonce, ..)]
    appends to the nonce. *)
Definition stored_form (c : Cipher) (nonce plaintext : string) : string :=
  StdEncoding_EncodeToString (nonce +:+ aead_Seal (Cipher_key c) nonce plaintext).

Definition Cipher_Encrypt (c : Cipher) (plaintext : string) : M string :=
  let! nonce := wrap "crypto: nonce" (rand_Read NonceSize) in
  ret (stored_form c nonce plaintext).

Definition Cipher_Decrypt (c : Cipher) (stored : string) : go_error + string :=
  match StdEncoding_DecodeString stored with
  | None => inl (ErrNew "crypto: not valid base64")
  | Some sealed =>
      if String.length sealed <? NonceSize then inl (ErrNew "crypto: ciphertext too short")
      else
        let nonce := take_string NonceSize sealed in
        let ciphertext := drop_string NonceSize sealed in
        match aead_Open (Cipher_key c) nonce ciphertext with
        | None => inl (ErrNew "crypto: decrypt failed")
        | Some plaintext => inr plaintext
        end
  end.

End cipher.

(** A toy cipher for the witnesses: the key and the nonce are a header of the
    sealed text. *)
Definition demo_aead : AEAD := {|
  aead_Seal key nonce p := key +:+ nonce +:+ p;
  aead_Open key nonce c :=
    if HasPrefix c (key +:+ nonce) then Some (TrimPrefix c (key +:+ nonce)) else None |}.

Definition demo_key : string := "0123456789abcdef0123456789abcdef".

(** ** Lemmas *)

#[export] Instance demo_aead_laws : AEADLaws demo_aead.
Proof.
  intros key nonce c p. simpl. rewrite <-string_app_assoc. split.
  - destruct (HasPrefix c (key +:+ nonce)) eqn:E; [|done]. apply HasPrefix_spec in E as [t ->].
    rewrite TrimPrefix_app. by intros; simplify_eq.
  - intros ->. by rewrite HasPrefix_app, TrimPrefix_app.
Qed.

Section lemmas.
Context `{AEAD} {PL : Platform}.

Lemma run_Encrypt c p w :
  run (Cipher_Encrypt c p) w =
  (tick w, match env_random (w_tick w) NonceSize with
           | Some nonce => inr (stored_form c nonce p)
           | None => inl (Wrap "crypto: nonce" ErrRand)
           end).
Proof.
  unfold Cipher_Encrypt. rewrite run_bind, run_wrap.
  assert (run (rand_Read NonceSize) w =
    (tick w, match env_random (w_tick w) NonceSize with Some s => inr s | None => inl ErrRand end)) as ->
    by (unfold rand_Read; by rewrite run_atom).
  by destruct (env_random (w_tick w) NonceSize).
Qed.

Context `{!AEADLaws _}.

Lemma Decrypt_stored_form c nonce p :
  String.length nonce = NonceSize → Cipher_Decrypt c (stored_form c nonce p) = inr p.
Proof.
  intros Hn. unfold Cipher_Decrypt, stored_form. rewrite StdEncoding_roundtrip, string_length_app, Hn.
  destruct (Nat.ltb_spec (NonceSize + String.length (aead_Seal (Cipher_key c) nonce p)) NonceSize); [lia|].
  rewrite <-Hn, take_string_app, drop_string_app.
  by rewrite (proj2 (aead_Open_Seal (Cipher_key c) nonce _ p)).
Qed.

Lemma Encrypt_Decrypt c p w w' s :
  run (Cipher_Encrypt c p) w = (w', inr s) → Cipher_Decrypt c s = inr p ∧ w' = tick w.
Proof.
  rewrite run_Encrypt. destruct (env_random (w_tick w) NonceSize) as [nonce|] eqn:E; [|done].
  intros; simplify_eq. split; [|done]. apply Decrypt_stored_form. by eapply env_random_length.
Qed.

End lemmas.

(** ** Properties *)

(** decrypting what Encrypt returned gives the plaintext back, with any
    authenticated cipher, any key and any source of randomness; and Encrypt
    fails only when the randomness does. *)
Theorem Encrypt_Decrypt_roundtrip `{AEAD} `{!AEADLaws _} {PL : Platform} c plaintext w :
  match run (Cipher_Encrypt c plaintext) w with
  | (w', inr stored) => Cipher_Decrypt c stored = inr plaintext ∧ w_db w' = w_db w
  | (w', inl err) => errors_Is err ErrRand = true ∧ env_rand (w_tick w) = None ∧ w_db w' = w_db w
  end.
Proof.
  destruct (run (Cipher_Encrypt c plaintext) w) as [w' [err|stored]] eqn:E.
  - rewrite run_Encrypt in E. unfold env_random in E.
    destruct (env_rand (w_tick w)); simplify_eq/=. done.
  - by apply Encrypt_Decrypt in E as [? ->].
Qed.

(** a stored value decrypts only if it is the base64 text of a 12-byte nonce
    followed by the sealed form of the plaintext under that nonce and the key:
    any other stored value, in particular a tampered one, is an error. *)
Theorem Decrypt_authentic `{AEAD} `{!AEADLaws _} c stored plaintext :
  Cipher_Decrypt c stored = inr plaintext ↔
  ∃ nonce, String.length nonce = NonceSize ∧
    StdEncoding_DecodeString stored = Some (nonce +:+ aead_Seal (Cipher_key c) nonce plaintext).
Proof.
  unfold Cipher_Decrypt. split.
  - destruct (StdEncoding_DecodeString stored) as [sealed|]; [|done].
    destruct (Nat.ltb_spec (String.length sealed) NonceSize) as [|Hlen]; [done|].
    destruct (aead_Open _ _ _) as [p|] eqn:Eo; [|done]. intros; simplify_eq.
    apply aead_Open_Seal in Eo. exists (take_string NonceSize sealed).
    rewrite <-Eo, take_drop_string. split; [by apply take_string_length|done].
  - intros (nonce & Hn & ->). rewrite string_length_app, Hn.
    destruct (Nat.ltb_spec (NonceSize + String.length (aead_Seal (Cipher_key c) nonce plaintext)) NonceSize); [lia|].
    rewrite <-Hn, take_string_app, drop_string_app.
    by rewrite (proj2 (aead_Open_Seal (Cipher_key c) nonce _ plaintext)).
Qed.

Lemma Encrypt_Decrypt_roundtrip_witness :
  let stored := match (run (Cipher_Encrypt (PL := demo) (H := demo_aead) (mkCipher demo_key) "secret")
                      (demo_world empty_DB)).2 with inr s => s | inl _ => EmptyString end in
  Cipher_Decrypt (H := demo_aead) (mkCipher demo_key) stored = inr "secret".
Proof.
  pose proof (@Encrypt_Decrypt_roundtrip demo_aead demo_aead_laws demo (mkCipher demo_key) "secret"
                (demo_world empty_DB)) as Hr.
  intros stored. subst stored.
  destruct (run (Cipher_Encrypt (PL := demo) (H := demo_aead) (mkCipher demo_key) "secret")
              (demo_world empty_DB)) as [w' [err|stored]]; cbn [fst snd].
  - destruct Hr as (_ & Hrand & _). exfalso. revert Hrand. by vm_compute.
  - exact (proj1 Hr).
Defined.

Lemma Decrypt_authentic_witness :
  ∃ nonce, String.length nonce = NonceSize ∧
    StdEncoding_DecodeString (stored_form (H := demo_aead) (mkCipher demo_key) "abcdefghijkl" "secret") =
    Some (nonce +:+ aead_Seal (AEAD := demo_aead) demo_key nonce "secret").
Proof.
  apply (proj1 (@Decrypt_authentic demo_aead demo_aead_laws (mkCipher demo_key) _ _)). by vm_compute.
Defined.
