(* ===== verification/Import.v ===== *)
(** * internal/service: importing an owner's session (session_import.go)

    [Import] stores the credentials encrypted.  It is not a transaction: an
    error leaves the rows written so far. *)

From S2P Require Import Prelude GoStrings Encoding Domain Schema Platform Effects Interfaces RepoLinks RepoSessions Crypto.

Open Scope go_scope.

(** ** Definitions *)

Record CookieInput := mkCookieInput {
  CookieInput_Name : string;
  CookieInput_Value : string;
  CookieInput_Domain : string;
  CookieInput_Path : string;
  CookieInput_Secure : bool;
  CookieInput_HTTPOnly : bool;
  CookieInput_SameSite : string }.

Record TokenInput := mkTokenInput {
  TokenInput_TokenType : string;
  TokenInput_HeaderName : string;
  TokenInput_Value : string }.

(** [if v != "" { field = &v }] *)
Definition unless_empty (v : string) : option string :=
  if decide (v ≠ EmptyString) then Some v else None.

Definition cookie_row (sid : UUID) (c : CookieInput) (enc : string) : SessionCookie :=
  mkSessionCookie uuid_Nil sid (CookieInput_Name c) enc (unless_empty (CookieInput_Domain c))
    (CookieInput_Path c) (CookieInput_Secure c) (CookieInput_HTTPOnly c)
    (unless_empty (CookieInput_SameSite c)) None 0.

Definition token_row (sid : UUID) (t : TokenInput) (enc : string) : SessionToken :=
  let tokenType := if decide (TokenInput_TokenType t = EmptyString) then "bearer" else TokenInput_TokenType t in
  mkSessionToken uuid_Nil sid (Some tokenType) (unless_empty (TokenInput_HeaderName t)) enc None 0.

Section service.
Context {PL : Platform} `{AEAD}.
Context `{!TargetSiteRepository} `{!OriginalSessionRepository} `{!SessionCookieRepository}
  `{!SessionTokenRepository}.

Definition encrypt_cookies (cipher : Cipher) (sid : UUID) (inputs : list CookieInput) : M (list SessionCookie) :=
  for_map inputs (λ c,
    let! enc := wrap ("service: encrypt cookie " +:+ CookieInput_Name c)
                  (Cipher_Encrypt cipher (CookieInput_Value c)) in
    ret (cookie_row sid c enc)).

Definition encrypt_tokens (cipher : Cipher) (sid : UUID) (inputs : list TokenInput) : M (list SessionToken) :=
  for_map inputs (λ t,
    let! enc := wrap "service: encrypt token" (Cipher_Encrypt cipher (TokenInput_Value t)) in
    ret (token_row sid t enc)).

Definition store_cookies (cipher : Cipher) (sid : UUID) (inputs : list CookieInput) : M unit :=
  if 0 <? length inputs then
    (let! rows := encrypt_cookies cipher sid inputs in
     wrap "service: store session_cookies" (SessionCookies_CreateBatch rows))
  else ret tt.

Definition store_tokens (cipher : Cipher) (sid : UUID) (inputs : list TokenInput) : M unit :=
  if 0 <? length inputs then
    (let! rows := encrypt_tokens cipher sid inputs in
     wrap "service: store session_tokens" (SessionTokens_CreateBatch rows))
  else ret tt.

Definition SessionImportService_Import (cipher : Cipher) (userID : UUID)
    (baseDomain siteName baseURL : string) (cookieInputs : list CookieInput)
    (tokenInputs : list TokenInput) : M OriginalSession :=
  let! site := wrap "service: resolve target site"
                 (TargetSites_GetOrCreateByDomain baseDomain siteName baseURL) in
  let! session := wrap "service: create original_session"
                    (OriginalSessions_Create
                       (mkOriginalSession uuid_Nil userID (TargetSite_ID site) None "" None 0 None)) in
  let! _ := store_cookies cipher (OriginalSession_ID session) cookieInputs in
  let! _ := store_tokens cipher (OriginalSession_ID session) tokenInputs in
  ret session.

End service.

(** ** Specification *)

(** The rows of one session. *)
Definition cookies_of (sid : UUID) (d : DB) : list SessionCookie :=
  filter (λ c, SessionCookie_OriginalSessionID c = sid) (rows (session_cookies d)).

Definition tokens_of (sid : UUID) (d : DB) : list SessionToken :=
  filter (λ t, SessionToken_OriginalSessionID t = sid) (rows (session_tokens d)).

(** The rows of the tables refer to rows that exist, under their own key. *)
Record sessions_wf (d : DB) : Prop := {
  sw_cookies : ∀ id c, session_cookies d !! id = Some c →
    is_Some (original_sessions d !! SessionCookie_OriginalSessionID c);
  sw_tokens : ∀ id t, session_tokens d !! id = Some t →
    is_Some (original_sessions d !! SessionToken_OriginalSessionID t);
  sw_sites : ∀ id s, target_sites d !! id = Some s → TargetSite_ID s = id;
  sw_sessions : ∀ id s, original_sessions d !! id = Some s →
    OriginalSession_ID s = id ∧ is_Some (target_sites d !! OriginalSession_TargetSiteID s) }.

(** The cookie stored for an input, with its value decrypted. *)
Definition cookie_stored `{AEAD} (cipher : Cipher) (c : CookieInput) (row : SessionCookie) : Prop :=
  SessionCookie_Name row = CookieInput_Name c ∧
  Cipher_Decrypt cipher (SessionCookie_ValueEncrypted row) = inr (CookieInput_Value c) ∧
  SessionCookie_Domain row = unless_empty (CookieInput_Domain c) ∧
  SessionCookie_Path row = (if decide (CookieInput_Path c = EmptyString) then "/" else CookieInput_Path c) ∧
  SessionCookie_Secure row = CookieInput_Secure c ∧
  SessionCookie_HTTPOnly row = CookieInput_HTTPOnly c ∧
  SessionCookie_SameSite row = unless_empty (CookieInput_SameSite c).

Definition token_stored `{AEAD} (cipher : Cipher) (t : TokenInput) (row : SessionToken) : Prop :=
  Cipher_Decrypt cipher (SessionToken_ValueEncrypted row) = inr (TokenInput_Value t) ∧
  SessionToken_HeaderName row = unless_empty (TokenInput_HeaderName t).

(** Tables that importing does not touch, and rows it does not change. *)
Definition only_adds (d d' : DB) : Prop :=
  target_sites d ⊆ target_sites d' ∧ original_sessions d ⊆ original_sessions d' ∧
  session_cookies d ⊆ session_cookies d' ∧ session_tokens d ⊆ session_tokens d' ∧
  users d' = users d ∧ shared_links d' = shared_links d ∧ access_policies d' = access_policies d ∧
  link_policies d' = link_policies d ∧ usage_counters d' = usage_counters d ∧
  link_terminations d' = link_terminations d.

(** ** Lemmas *)

#[export] Instance only_adds_preorder : PreOrder only_adds.
Proof.
  unfold only_adds. split; [intros d; by split_and!|].
  intros ? ? ? (? & ? & ? & ? & ? & ? & ? & ? & ? & ?) (? & ? & ? & ? & ? & ? & ? & ? & ? & ?).
  split_and!; solve [by etrans|congruence].
Qed.

(** Every statement of Import adds rows only, and keeps the tables well formed. *)
Definition adds_and_keeps_wf (d d' : DB) : Prop := only_adds d d' ∧ (sessions_wf d → sessions_wf d').

#[export] Instance adds_and_keeps_wf_preorder : PreOrder adds_and_keeps_wf.
Proof. unfold adds_and_keeps_wf. split; [by intros|]. intros ? ? ? [? ?] [? ?]. split; [by etrans|auto]. Qed.

Lemma rows_insert {V} (m : gmap UUID V) id v : m !! id = None → rows (<[id := v]> m) ≡ₚ v :: rows m.
Proof. intros Hid. unfold rows. by rewrite map_to_list_insert. Qed.

Lemma filter_rows_insert {V} (P : V → Prop) `{∀ x, Decision (P x)} (m : gmap UUID V) id v :
  m !! id = None →
  filter P (rows (<[id := v]> m)) ≡ₚ if decide (P v) then v :: filter P (rows m) else filter P (rows m).
Proof. intros Hid. rewrite rows_insert by done. by rewrite filter_cons. Qed.

Section lemmas.
Context {PL : Platform} `{AEAD}.

(** The row a batch inserts for a cookie, but for its id and its creation time. *)
Definition inserted_cookie (c row : SessionCookie) : Prop :=
  ∃ id now, row = mkSessionCookie id (SessionCookie_OriginalSessionID c) (SessionCookie_Name c)
    (SessionCookie_ValueEncrypted c) (SessionCookie_Domain c)
    (coalesce (nullIfEmptyPath (SessionCookie_Path c)) "/") (SessionCookie_Secure c)
    (SessionCookie_HTTPOnly c) (SessionCookie_SameSite c) (timestamptz <$> SessionCookie_ExpiresAt c) now.

Definition inserted_token (t row : SessionToken) : Prop :=
  ∃ id now, row = mkSessionToken id (SessionToken_OriginalSessionID t) (SessionToken_TokenType t)
    (SessionToken_HeaderName t) (SessionToken_ValueEncrypted t) (timestamptz <$> SessionToken_ExpiresAt t) now.

(** The database after the first cookies of a batch. *)
Definition after_cookies (sid : UUID) (d0 : DB) (l : list SessionCookie) (d : DB) : Prop :=
  ∃ m new, d = set_session_cookies (λ _, m) d0 ∧ Forall2 inserted_cookie l new ∧
    cookies_of sid d ≡ₚ new ++ cookies_of sid d0 ∧
    (∀ sid', sid' ≠ sid → cookies_of sid' d ≡ₚ cookies_of sid' d0).

Definition after_tokens (sid : UUID) (d0 : DB) (l : list SessionToken) (d : DB) : Prop :=
  ∃ m new, d = set_session_tokens (λ _, m) d0 ∧ Forall2 inserted_token l new ∧
    tokens_of sid d ≡ₚ new ++ tokens_of sid d0 ∧
    (∀ sid', sid' ≠ sid → tokens_of sid' d ≡ₚ tokens_of sid' d0).

Lemma after_cookies_nil sid d : after_cookies sid d [] d.
Proof. exists (session_cookies d), []. split_and!; [by destruct d|constructor|done..]. Qed.

Lemma after_tokens_nil sid d : after_tokens sid d [] d.
Proof. exists (session_tokens d), []. split_and!; [by destruct d|constructor|done..]. Qed.

Lemma after_cookies_insert sid d0 l d c row id :
  after_cookies sid d0 l d → inserted_cookie c row → SessionCookie_OriginalSessionID c = sid →
  session_cookies d !! id = None →
  after_cookies sid d0 (l ++ [c]) (set_session_cookies <[id := row]> d).
Proof.
  intros (m & new & -> & HF & Hp & Hother) Hrow Hsid Hid.
  assert (SessionCookie_OriginalSessionID row = sid) as Hrsid by (by destruct Hrow as (? & ? & ->)).
  exists (<[id := row]> m), (new ++ [row]). split_and!; [done|by apply Forall2_app; auto|..].
  - unfold cookies_of. cbn [session_cookies set_session_cookies].
    rewrite filter_rows_insert, decide_True by done. unfold cookies_of in Hp.
    cbn [session_cookies set_session_cookies] in Hp. rewrite Hp, <-app_assoc. apply Permutation_middle.
  - intros sid' Hne. unfold cookies_of. cbn [session_cookies set_session_cookies].
    rewrite filter_rows_insert, decide_False by (try done; congruence). by apply Hother.
Qed.

Lemma after_tokens_insert sid d0 l d c row id :
  after_tokens sid d0 l d → inserted_token c row → SessionToken_OriginalSessionID c = sid →
  session_tokens d !! id = None →
  after_tokens sid d0 (l ++ [c]) (set_session_tokens <[id := row]> d).
Proof.
  intros (m & new & -> & HF & Hp & Hother) Hrow Hsid Hid.
  assert (SessionToken_OriginalSessionID row = sid) as Hrsid by (by destruct Hrow as (? & ? & ->)).
  exists (<[id := row]> m), (new ++ [row]). split_and!; [done|by apply Forall2_app; auto|..].
  - unfold tokens_of. cbn [session_tokens set_session_tokens].
    rewrite filter_rows_insert, decide_True by done. unfold tokens_of in Hp.
    cbn [session_tokens set_session_tokens] in Hp. rewrite Hp, <-app_assoc. apply Permutation_middle.
  - intros sid' Hne. unfold tokens_of. cbn [session_tokens set_session_tokens].
    rewrite filter_rows_insert, decide_False by (try done; congruence). by apply Hother.
Qed.

(** A batch, whatever fails: a prefix of it is inserted, all of it on success. *)
Lemma run_cookie_batch sid rows w :
  Forall (λ c, SessionCookie_OriginalSessionID c = sid) rows →
  ∃ l, l `prefix_of` rows ∧
    after_cookies sid (w_db w) l (w_db (run (SessionCookieRepo_CreateBatch rows) w).1) ∧
    ((run (SessionCookieRepo_CreateBatch rows) w).2 = inr tt → l = rows).
Proof.
  intros Hsid. rewrite Forall_forall in Hsid.
  apply (run_for_each (λ l w', after_cookies sid (w_db w) l (w_db w'))); [apply after_cookies_nil|].
  intros l c w1 Hc H1. specialize (Hsid c Hc). rewrite run_wrap. write_cases; [by right|left..];
    match goal with Hf : fresh_in _ _ = true |- _ => apply fresh_in_spec in Hf end; (eapply after_cookies_insert; eauto; by eexists _, _).
Qed.

Lemma run_token_batch sid rows w :
  Forall (λ t, SessionToken_OriginalSessionID t = sid) rows →
  ∃ l, l `prefix_of` rows ∧
    after_tokens sid (w_db w) l (w_db (run (SessionTokenRepo_CreateBatch rows) w).1) ∧
    ((run (SessionTokenRepo_CreateBatch rows) w).2 = inr tt → l = rows).
Proof.
  intros Hsid. rewrite Forall_forall in Hsid.
  apply (run_for_each (λ l w', after_tokens sid (w_db w) l (w_db w'))); [apply after_tokens_nil|].
  intros l t w1 Ht H1. specialize (Hsid t Ht). rewrite run_wrap. write_cases; [by right|left..];
    match goal with Hf : fresh_in _ _ = true |- _ => apply fresh_in_spec in Hf end; (eapply after_tokens_insert; eauto; by eexists _, _).
Qed.

Lemma adds_site d id s :
  target_sites d !! id = None → TargetSite_ID s = id →
  adds_and_keeps_wf d (set_target_sites <[id := s]> d).
Proof.
  intros Hid Hs. split; [split_and!; simpl; try done; by apply insert_subseteq|].
  intros [H1 H2 H3 H4]. split; simpl; auto.
  - intros i s'. rewrite lookup_insert_Some. intros [[<- <-]|[_ ?]]; auto.
  - intros i s' [? [x Hx]]%H4. split; [done|]. rewrite lookup_insert_is_Some'. eauto.
Qed.

Lemma adds_session d id s :
  original_sessions d !! id = None → OriginalSession_ID s = id →
  is_Some (target_sites d !! OriginalSession_TargetSiteID s) →
  adds_and_keeps_wf d (set_original_sessions <[id := s]> d).
Proof.
  intros Hid Hs Ht. split; [split_and!; simpl; try done; by apply insert_subseteq|].
  intros [H1 H2 H3 H4]. split; simpl; auto.
  - intros i c Hc%H1. rewrite lookup_insert_is_Some'. auto.
  - intros i c Hc%H2. rewrite lookup_insert_is_Some'. auto.
  - intros i s'. rewrite lookup_insert_Some. intros [[<- <-]|[_ ?]]; auto.
Qed.

Lemma adds_cookie d id c :
  session_cookies d !! id = None → is_Some (original_sessions d !! SessionCookie_OriginalSessionID c) →
  adds_and_keeps_wf d (set_session_cookies <[id := c]> d).
Proof.
  intros Hid Hc. split; [split_and!; simpl; try done; by apply insert_subseteq|].
  intros [H1 H2 H3 H4]. split; simpl; auto.
  intros i c'. rewrite lookup_insert_Some. intros [[<- <-]|[_ ?]]; eauto.
Qed.

Lemma adds_token d id t :
  session_tokens d !! id = None → is_Some (original_sessions d !! SessionToken_OriginalSessionID t) →
  adds_and_keeps_wf d (set_session_tokens <[id := t]> d).
Proof.
  intros Hid Hc. split; [split_and!; simpl; try done; by apply insert_subseteq|].
  intros [H1 H2 H3 H4]. split; simpl; auto.
  intros i c'. rewrite lookup_insert_Some. intros [[<- <-]|[_ ?]]; eauto.
Qed.

Lemma atoms_Encrypt cipher p : all_atoms (on_db adds_and_keeps_wf) (Cipher_Encrypt cipher p).
Proof. unfold Cipher_Encrypt. atoms. Qed.

Lemma atoms_Import cipher userID baseDomain siteName baseURL cs ts :
  all_atoms (on_db adds_and_keeps_wf)
    (SessionImportService_Import cipher userID baseDomain siteName baseURL cs ts).
Proof.
  unfold SessionImportService_Import, store_cookies, store_tokens, encrypt_cookies, encrypt_tokens. repo_sessions.
  unfold TargetSiteRepo_GetOrCreateByDomain, TargetSiteRepo_Create, scanTargetSite, OriginalSessionRepo_Create,
    scanOriginalSession, SessionCookieRepo_CreateBatch, SessionTokenRepo_CreateBatch, select_row.
  atoms; try apply atoms_Encrypt;
    match goal with Hs : _ = inr _ |- _ => cbv zeta in Hs; invert_stmt end; try done;
    repeat match goal with
    | Hf : fresh_in _ _ = true |- _ => apply fresh_in_spec in Hf
    | Hr : _ && _ = true |- _ => apply andb_true_iff in Hr as [? ?]
    | Hr : references _ _ = true |- _ => apply references_spec in Hr
    end; auto using adds_site, adds_session, adds_cookie, adds_token.
Qed.

(** What Encrypt leaves of the database. *)
Lemma Encrypt_db cipher p w : w_db (run (Cipher_Encrypt cipher p) w).1 = w_db w.
Proof. by rewrite run_Encrypt. Qed.

Lemma run_import_site baseDomain siteName baseURL w w1 site :
  sessions_wf (w_db w) →
  run (TargetSiteRepo_GetOrCreateByDomain baseDomain siteName baseURL) w = (w1, inr site) →
  (∃ m, w_db w1 = set_target_sites (λ _, m) (w_db w)) ∧
  target_sites (w_db w1) !! TargetSite_ID site = Some site ∧ TargetSite_BaseDomain site = baseDomain.
Proof.
  intros Hwf. unfold TargetSiteRepo_GetOrCreateByDomain, TargetSiteRepo_Create, scanTargetSite.
  rewrite run_pbind, run_wrap. cbn [fst snd]. read_row res. destruct res as [e|s].
  - rewrite run_wrap_inr. intros (d & Hs & ->)%run_sql_inr. cbv zeta in Hs. invert_stmt. simpl.
    split; [by eexists|]. by rewrite lookup_insert_eq.
  - rewrite run_ret. intros ?. simplify_eq. specialize (Hread site eq_refl). unfold select_row in Hread.
    invert_stmt. simplify_eq/=.
    match goal with Hf : find_first _ _ = Some _ |- _ => apply find_first_Some in Hf as [Hin Hb] end.
    apply elem_of_rows in Hin as [id Hid]. apply bool_decide_eq_true in Hb.
    split; [exists (target_sites (w_db w)); by destruct (w_db w)|]. split; [|done].
    by rewrite (sw_sites _ Hwf _ _ Hid).
Qed.

(** For a known domain the name and the URL of the caller are not used: the
    credentials will be sent to the URL of whoever named the domain first. *)
Lemma known_domain_keeps_url `{!NoFaults PL} baseDomain name url w id s :
  target_sites (w_db w) !! id = Some s → TargetSite_BaseDomain s = baseDomain →
  ∃ s', run (TargetSiteRepo_GetOrCreateByDomain baseDomain name url) w = (tick w, inr s') ∧
    ∃ id', target_sites (w_db w) !! id' = Some s'.
Proof.
  intros Hs Hd. unfold TargetSiteRepo_GetOrCreateByDomain, scanTargetSite. rewrite run_pbind, run_wrap.
  cbn [fst snd]. read_row res. specialize (Hok _). unfold select_row in *.
  destruct (find_first _ _) as [s'|] eqn:Hf.
  - subst res. rewrite run_ret. apply find_first_Some in Hf as [Hin _]. apply elem_of_rows in Hin as [id' Hin].
    eauto.
  - exfalso. rewrite find_first_None in Hf. assert (s ∈ rows (target_sites (w_db w))) as Hin by (apply elem_of_rows; eauto).
    apply Hf in Hin. by rewrite bool_decide_eq_true_2 in Hin.
Qed.

Lemma import_site_db baseDomain siteName baseURL w :
  ∃ m, w_db (run (TargetSiteRepo_GetOrCreateByDomain baseDomain siteName baseURL) w).1 =
       set_target_sites (λ _, m) (w_db w).
Proof.
  unfold TargetSiteRepo_GetOrCreateByDomain, TargetSiteRepo_Create, scanTargetSite.
  rewrite run_pbind, run_wrap. cbn [fst snd]. read_row res.
  assert (w_db w = set_target_sites (λ _, target_sites (w_db w)) (w_db w)) as Hid by (by destruct (w_db w)).
  destruct res as [e|s]; [|by rewrite run_ret; eauto].
  rewrite run_wrap. write_cases; [by eauto|by eexists..].
Qed.

Lemma fresh_session (d : DB) : ∃ sid, original_sessions d !! sid = None.
Proof. exists (fresh (dom (original_sessions d))). apply not_elem_of_dom, is_fresh. Qed.

Lemma run_import_session userID siteID w :
  let r := run (OriginalSessionRepo_Create (mkOriginalSession uuid_Nil userID siteID None "" None 0 None)) w in
  ∃ sid m, original_sessions (w_db w) !! sid = None ∧
    w_db r.1 = set_original_sessions (λ _, m) (w_db w) ∧
    ∀ s, r.2 = inr s → m = <[sid := s]> (original_sessions (w_db w)) ∧
      ∃ now, s = mkOriginalSession sid userID siteID None SessionStatusActive None now None.
Proof.
  intros r. subst r. unfold OriginalSessionRepo_Create, scanOriginalSession. rewrite run_wrap. write_cases.
  - destruct (fresh_session (w_db w)) as [sid Hsid]. exists sid, (original_sessions (w_db w)).
    split_and!; [done|by destruct w as [[]]|done].
  - match goal with Hf : fresh_in _ _ = true |- _ => apply fresh_in_spec in Hf end.
    eexists _, _. split_and!; [done|done|]. intros s Hs'. simplify_eq/=. eauto.
  - match goal with Hf : fresh_in _ _ = true |- _ => apply fresh_in_spec in Hf end.
    by eexists _, _.
Qed.

(** A fresh session has no rows. *)
Lemma fresh_session_rows d sid :
  sessions_wf d → original_sessions d !! sid = None → cookies_of sid d = [] ∧ tokens_of sid d = [].
Proof.
  intros Hwf Hsid. split; apply elem_of_nil_inv; intros x [Hx [id Hid]%elem_of_rows]%list_elem_of_filter.
  - apply (sw_cookies _ Hwf) in Hid as [? ?]. congruence.
  - apply (sw_tokens _ Hwf) in Hid as [? ?]. congruence.
Qed.

Context `{!AEADLaws _}.

Lemma run_encrypt_cookies cipher sid inputs w w' rows :
  run (encrypt_cookies cipher sid inputs) w = (w', inr rows) →
  Forall2 (λ c row, ∃ enc, row = cookie_row sid c enc ∧
             Cipher_Decrypt cipher enc = inr (CookieInput_Value c)) inputs rows.
Proof.
  apply run_for_map. intros c w0 w0' row. rewrite run_bind_inr.
  intros (w1 & enc & [He _]%run_wrap_inr%Encrypt_Decrypt & Hr). rewrite run_ret in Hr. simplify_eq. eauto.
Qed.

Lemma run_encrypt_tokens cipher sid inputs w w' rows :
  run (encrypt_tokens cipher sid inputs) w = (w', inr rows) →
  Forall2 (λ t row, ∃ enc, row = token_row sid t enc ∧
             Cipher_Decrypt cipher enc = inr (TokenInput_Value t)) inputs rows.
Proof.
  apply run_for_map. intros c w0 w0' row. rewrite run_bind_inr.
  intros (w1 & enc & [He _]%run_wrap_inr%Encrypt_Decrypt & Hr). rewrite run_ret in Hr. simplify_eq. eauto.
Qed.

Lemma encrypt_cookies_db cipher sid inputs w :
  w_db (run (encrypt_cookies cipher sid inputs) w).1 = w_db w.
Proof.
  symmetry. apply (all_atoms_run (on_db eq)). unfold encrypt_cookies, Cipher_Encrypt. atoms.
Qed.

Lemma encrypt_tokens_db cipher sid inputs w :
  w_db (run (encrypt_tokens cipher sid inputs) w).1 = w_db w.
Proof.
  symmetry. apply (all_atoms_run (on_db eq)). unfold encrypt_tokens, Cipher_Encrypt. atoms.
Qed.

(** The two storing phases, whatever fails. *)
Lemma run_store_cookies cipher sid inputs w :
  let r := run (store_cookies cipher sid inputs) w in
  ∃ l, after_cookies sid (w_db w) l (w_db r.1) ∧
    (r.2 = inr tt → ∃ new, Forall2 (cookie_stored cipher) inputs new ∧
       cookies_of sid (w_db r.1) ≡ₚ new ++ cookies_of sid (w_db w)).
Proof.
  intros r. subst r. unfold store_cookies.
  destruct inputs as [|c0 inputs0]; [by exists []; split; [apply after_cookies_nil|exists []]|].
  set (inputs := c0 :: inputs0). change (0 <? length inputs) with true. cbv iota. rewrite run_bind.
  pose proof (encrypt_cookies_db cipher sid inputs w) as Hdb.
  destruct (run (encrypt_cookies cipher sid inputs) w) as [w1 [e|rows]] eqn:E; cbn [fst snd] in *.
  { exists []. rewrite Hdb. by split; [apply after_cookies_nil|]. }
  apply run_encrypt_cookies in E. repo_sessions. rewrite run_wrap. cbn [fst snd].
  destruct (run_cookie_batch sid rows w1) as (l & _ & Hl & Hok).
  { clear -E. induction E as [|? ? ? ? (enc & -> & _)]; by constructor. }
  rewrite Hdb in Hl. exists l. split; [done|]. intros Hres.
  destruct (run (SessionCookieRepo_CreateBatch rows) w1) as [w2 [e|[]]]; simplify_eq/=.
  specialize (Hok eq_refl) as ->. destruct Hl as (m & new & _ & HF & Hp & _). exists new. split; [|done].
  clear -E HF. revert new HF. induction E as [|c row cs rows (enc & -> & He) _ IH]; intros new HF;
    inversion HF as [|? ? ? ? (id & now & ->) HF']; subst; constructor; [|auto].
  unfold cookie_stored, cookie_row, nullIfEmptyPath. simpl. split_and!; try done. by case_decide.
Qed.

Lemma run_store_tokens cipher sid inputs w :
  let r := run (store_tokens cipher sid inputs) w in
  ∃ l, after_tokens sid (w_db w) l (w_db r.1) ∧
    (r.2 = inr tt → ∃ new, Forall2 (token_stored cipher) inputs new ∧
       tokens_of sid (w_db r.1) ≡ₚ new ++ tokens_of sid (w_db w)).
Proof.
  intros r. subst r. unfold store_tokens.
  destruct inputs as [|c0 inputs0]; [by exists []; split; [apply after_tokens_nil|exists []]|].
  set (inputs := c0 :: inputs0). change (0 <? length inputs) with true. cbv iota. rewrite run_bind.
  pose proof (encrypt_tokens_db cipher sid inputs w) as Hdb.
  destruct (run (encrypt_tokens cipher sid inputs) w) as [w1 [e|rows]] eqn:E; cbn [fst snd] in *.
  { exists []. rewrite Hdb. by split; [apply after_tokens_nil|]. }
  apply run_encrypt_tokens in E. repo_sessions. rewrite run_wrap. cbn [fst snd].
  destruct (run_token_batch sid rows w1) as (l & _ & Hl & Hok).
  { clear -E. induction E as [|? ? ? ? (enc & -> & _)]; by constructor. }
  rewrite Hdb in Hl. exists l. split; [done|]. intros Hres.
  destruct (run (SessionTokenRepo_CreateBatch rows) w1) as [w2 [e|[]]]; simplify_eq/=.
  specialize (Hok eq_refl) as ->. destruct Hl as (m & new & _ & HF & Hp & _). exists new. split; [|done].
  clear -E HF. revert new HF. induction E as [|c row cs rows (enc & -> & He) _ IH]; intros new HF;
    inversion HF as [|? ? ? ? (id & now & ->) HF']; subst; constructor; [|auto]. done.
Qed.

(** Import, whatever fails: the rows of other sessions stay, and on success the
    rows of the new session are the inputs. *)
Lemma run_Import cipher userID baseDomain siteName baseURL cs ts w :
  sessions_wf (w_db w) →
  let r := run (SessionImportService_Import cipher userID baseDomain siteName baseURL cs ts) w in
  ∃ sid, original_sessions (w_db w) !! sid = None ∧
    (∀ sid', sid' ≠ sid → cookies_of sid' (w_db r.1) ≡ₚ cookies_of sid' (w_db w) ∧
                          tokens_of sid' (w_db r.1) ≡ₚ tokens_of sid' (w_db w)) ∧
    match r.2 with
    | inl _ => True
    | inr s =>
        OriginalSession_ID s = sid ∧ original_sessions (w_db r.1) = <[sid := s]> (original_sessions (w_db w)) ∧
        OriginalSession_UserID s = userID ∧ OriginalSession_Status s = SessionStatusActive ∧
        (∃ site, target_sites (w_db r.1) !! OriginalSession_TargetSiteID s = Some site ∧
                 TargetSite_BaseDomain site = baseDomain) ∧
        (∃ cs', cookies_of sid (w_db r.1) ≡ₚ cs' ∧ Forall2 (cookie_stored cipher) cs cs') ∧
        (∃ ts', tokens_of sid (w_db r.1) ≡ₚ ts' ∧ Forall2 (token_stored cipher) ts ts')
    end.
Proof.
  intros Hwf r. subst r. unfold SessionImportService_Import. repo_sessions. rewrite run_bind, run_wrap. cbn [fst snd].
  pose proof (import_site_db baseDomain siteName baseURL w) as [mt Ht].
  destruct (run (TargetSiteRepo_GetOrCreateByDomain _ _ _) w) as [w1 [e|site]] eqn:Esite; cbn [fst snd] in *.
  { destruct (fresh_session (w_db w)) as [sid Hsid]. exists sid. by rewrite Ht. }
  apply run_import_site in Esite as (_ & Hsite & Hdom); [|done].
  rewrite run_bind, run_wrap. cbn [fst snd].
  destruct (run_import_session userID (TargetSite_ID site) w1) as (sid & ms & Hsid & Hs & Hok).
  destruct (run (OriginalSessionRepo_Create _) w1) as [w2 [e|s]]; cbn [fst snd] in *.
  { exists sid. rewrite Hs, Ht. rewrite Ht in Hsid. done. }
  destruct (Hok s eq_refl) as (-> & now & ->). rewrite Ht in Hsid.
  cbn [OriginalSession_ID]. exists sid. split; [exact Hsid|].
  destruct (fresh_session_rows _ sid Hwf Hsid) as [Hc0 Ht0].
  rewrite run_bind. destruct (run_store_cookies cipher sid cs w2) as (lc & (mc & nc & Hc & _ & _ & Hco) & Hcok).
  assert (∀ i, tokens_of i (w_db (run (store_cookies cipher sid cs) w2).1) = tokens_of i (w_db w)) as Htk
    by (intros; by rewrite Hc, Hs, Ht).
  assert (∀ i, cookies_of i (w_db w2) = cookies_of i (w_db w)) as Hck by (intros; by rewrite Hs, Ht).
  destruct (run (store_cookies cipher sid cs) w2) as [w3 [e|[]]]; cbn [fst snd] in *.
  { split; [|done]. intros i Hi. by rewrite Htk, (Hco i Hi), Hck. }
  destruct (Hcok eq_refl) as (new & HF & Hp). clear Hcok.
  rewrite run_bind. destruct (run_store_tokens cipher sid ts w3) as (lt & (mt' & nt & Htd & _ & _ & Hto) & Htok).
  assert (∀ i, cookies_of i (w_db (run (store_tokens cipher sid ts) w3).1) = cookies_of i (w_db w3)) as Hck'
    by (intros; by rewrite Htd).
  destruct (run (store_tokens cipher sid ts) w3) as [w4 [e|[]]]; cbn [fst snd] in *.
  { split; [|done]. intros i Hi. by rewrite Hck', (Hto i Hi), Htk, (Hco i Hi), Hck. }
  rewrite run_ret. cbn [fst snd]. split.
  { intros i Hi. by rewrite Hck', (Hto i Hi), Htk, (Hco i Hi), Hck. }
  destruct (Htok eq_refl) as (newt & HFt & Hpt). split_and!; try done.
  - by rewrite Htd, Hc, Hs, Ht.
  - exists site. by rewrite Htd, Hc, Hs.
  - exists new. by rewrite Hck', Hp, Hck, Hc0, app_nil_r.
  - exists newt. by rewrite Hpt, Htk, Ht0, app_nil_r.
Qed.

End lemmas.

(** ** Properties *)

(** a successful Import, whatever failed before its replies came, creates
    one active session of the user, for a site with the given domain, and stores
    under it exactly the given cookies and tokens: decrypting the stored values
    with the same key gives the imported values back. *)
Theorem Import_stores {PL : Platform} `{AEAD} `{!AEADLaws _} cipher userID baseDomain siteName baseURL cs ts w w' s
  (Hwf : sessions_wf (w_db w))
  (Hrun : run (SessionImportService_Import cipher userID baseDomain siteName baseURL cs ts) w = (w', inr s)) :
  let sid := OriginalSession_ID s in
  original_sessions (w_db w) !! sid = None ∧
  original_sessions (w_db w') = <[sid := s]> (original_sessions (w_db w)) ∧
  OriginalSession_UserID s = userID ∧ OriginalSession_Status s = SessionStatusActive ∧
  (∃ site, target_sites (w_db w') !! OriginalSession_TargetSiteID s = Some site ∧
           TargetSite_BaseDomain site = baseDomain) ∧
  (∃ cs', cookies_of sid (w_db w') ≡ₚ cs' ∧ Forall2 (cookie_stored cipher) cs cs') ∧
  (∃ ts', tokens_of sid (w_db w') ≡ₚ ts' ∧ Forall2 (token_stored cipher) ts ts').
Proof.
  destruct (run_Import cipher userID baseDomain siteName baseURL cs ts w Hwf) as (sid & Hsid & _ & Hres).
  rewrite Hrun in Hres. cbn [fst snd] in Hres. destruct Hres as (<- & Hres). by split.
Qed.

(** whatever fails, Import only adds rows, to the four tables of sessions; it
    changes neither the credentials of an existing session nor any other table,
    and it keeps the references between the tables well formed. *)
Theorem Import_frame {PL : Platform} `{AEAD} `{!AEADLaws _} cipher userID baseDomain siteName baseURL cs ts w
  (Hwf : sessions_wf (w_db w)) :
  let w' := (run (SessionImportService_Import cipher userID baseDomain siteName baseURL cs ts) w).1 in
  only_adds (w_db w) (w_db w') ∧ sessions_wf (w_db w') ∧
  ∀ sid, is_Some (original_sessions (w_db w) !! sid) →
    cookies_of sid (w_db w') ≡ₚ cookies_of sid (w_db w) ∧ tokens_of sid (w_db w') ≡ₚ tokens_of sid (w_db w).
Proof.
  intros w'. destruct (all_atoms_run (on_db adds_and_keeps_wf) _ w
    (atoms_Import cipher userID baseDomain siteName baseURL cs ts)) as [Ha Hk].
  split_and!; [done|by apply Hk|]. intros sid [x Hx].
  destruct (run_Import cipher userID baseDomain siteName baseURL cs ts w Hwf) as (sid0 & Hsid & Hother & _).
  apply Hother. congruence.
Qed.

(** ** Witnesses *)

Definition demo_import_db : DB :=
  set_users (λ _, {[ 7%N := mkUser 7 "owner@example.org" "hash" None 0 0 ]}) empty_DB.

Definition demo_cookies : list CookieInput :=
  [mkCookieInput "sid" "s3cret" "" "" true true ""; mkCookieInput "theme" "dark" ".example.org" "/app" false false "Lax"].

Definition demo_tokens : list TokenInput := [mkTokenInput "" "X-Api-Key" "k3y"; mkTokenInput "bearer" "" "Bearer abc"].

(** The import run on the concrete platform and cipher. *)
Definition demo_import :=
  run (SessionImportService_Import (PL := demo) (H := demo_aead) (mkCipher demo_key) 7%N "example.org" "Example"
         "https://example.org" demo_cookies demo_tokens) (demo_world demo_import_db).

Lemma demo_import_wf : sessions_wf demo_import_db.
Proof. split; intros id x; simpl; by rewrite lookup_empty. Qed.

Lemma Import_stores_witness :
  ∃ s cs', (demo_import).2 = inr s ∧ OriginalSession_UserID s = 7%N ∧
    cookies_of (OriginalSession_ID s) (w_db (demo_import).1) ≡ₚ cs' ∧
    Forall2 (cookie_stored (H := demo_aead) (mkCipher demo_key)) demo_cookies cs'.
Proof.
  destruct demo_import as [w' [e|s]] eqn:E.
  { exfalso. apply (f_equal (λ r, match r.2 with inl _ => true | inr _ => false end)) in E.
    vm_compute in E. discriminate E. }
  destruct (@Import_stores demo demo_aead demo_aead_laws (mkCipher demo_key) 7%N "example.org" "Example"
    "https://example.org" demo_cookies demo_tokens (demo_world demo_import_db) w' s demo_import_wf E)
    as (_ & _ & Hu & _ & _ & (cs' & Hp & HF) & _).
  exists s, cs'. by split_and!.
Defined.

Lemma Import_frame_witness :
  sessions_wf (w_db (demo_import).1).
Proof.
  apply (@Import_frame demo demo_aead demo_aead_laws (mkCipher demo_key) 7%N "example.org" "Example"
    "https://example.org" demo_cookies demo_tokens (demo_world demo_import_db) demo_import_wf).
Defined.
