(* ===== verification/Injector.v ===== *)
(** * internal/proxy: the owner's credentials on the outgoing request (injector.go) *)

From Stdlib Require Import Ascii.
From S2P Require Import Prelude GoStrings Encoding Domain Http Schema Platform Effects Interfaces RepoLinks RepoSessions Crypto Import.

Open Scope go_scope.

(** ** Definitions *)

Record InjectionPlan := mkInjectionPlan {
  InjectionPlan_Cookies : list Cookie;
  InjectionPlan_Headers : gmap string (list string) }.

(** The header a token is sent in. *)
Definition token_header (name : option string) : string :=
  match name with
  | Some n => if decide (n ≠ EmptyString) then n else "Authorization"
  | None => "Authorization"
  end.

Section build.
Context {PL : Platform} `{AEAD} `{!SessionCookieRepository} `{!SessionTokenRepository}.

Definition plan_cookie (cipher : Cipher) (c : SessionCookie) : go_error + Cookie :=
  match Cipher_Decrypt cipher (SessionCookie_ValueEncrypted c) with
  | inl err => inl (Wrap ("proxy: decrypt session_cookie " +:+ SessionCookie_Name c) err)
  | inr value => inr (mkCookie (SessionCookie_Name c) value)
  end.

(** One token added to the headers of the plan. *)
Definition plan_token (cipher : Cipher) (headers : gmap string (list string)) (t : SessionToken)
    : go_error + gmap string (list string) :=
  match Cipher_Decrypt cipher (SessionToken_ValueEncrypted t) with
  | inl err => inl (Wrap "proxy: decrypt session_token" err)
  | inr value => inr (Header_Add headers (token_header (SessionToken_HeaderName t)) value)
  end.

Fixpoint plan_tokens (cipher : Cipher) (ts : list SessionToken) (headers : gmap string (list string))
    : go_error + gmap string (list string) :=
  match ts with
  | [] => inr headers
  | t :: ts' =>
      match plan_token cipher headers t with
      | inl err => inl err
      | inr headers' => plan_tokens cipher ts' headers'
      end
  end.

Definition BuildInjectionPlan (cipher : Cipher) (originalSessionID : UUID) : M InjectionPlan :=
  let! cookieRows := wrap "proxy: load session_cookies" (SessionCookies_ListBySession originalSessionID) in
  let! cookies := for_map cookieRows (λ c, lift (plan_cookie cipher c)) in
  let! tokenRows := wrap "proxy: load session_tokens" (SessionTokens_ListBySession originalSessionID) in
  let! headers := lift (plan_tokens cipher tokenRows ∅) in
  ret (mkInjectionPlan cookies headers).

End build.

(** [for _, v := range values { out.Header.Add(name, v) }] *)
Definition add_values (h : gmap string (list string)) (nv : string * list string) : gmap string (list string) :=
  foldl (λ h v, Header_Add h nv.1 v) h nv.2.

(** Apply on the header of the outgoing request, the range over [p.Headers]
    visiting the entries in the order [entries]. *)
Definition apply_in_order (cookies : list Cookie) (entries : list (string * list string))
    (out : gmap string (list string)) : gmap string (list string) :=
  let h := Header_Del (Header_Del out "Cookie") "Authorization" in
  foldl add_values (foldl AddCookie h cookies) entries.

Definition InjectionPlan_Apply (p : InjectionPlan) (out : gmap string (list string)) : gmap string (list string) :=
  apply_in_order (InjectionPlan_Cookies p) (map_to_list (InjectionPlan_Headers p)) out.

(** ** Specification *)

Definition cookie_pair (c : Cookie) : string :=
  sanitizeCookieName (Cookie_Name c) +:+ "=" +:+ sanitizeCookieValue (Cookie_Value c).

(** The Cookie header of the plan's cookies: pairs separated by semicolons. *)
Fixpoint cookie_line (cs : list Cookie) : string :=
  match cs with
  | [] => EmptyString
  | [c] => cookie_pair c
  | c :: cs' => cookie_pair c +:+ "; " +:+ cookie_line cs'
  end.

Definition cookie_values (cs : list Cookie) : list string :=
  match cs with [] => [] | _ => [cookie_line cs] end.

(** Keys are in canonical form, as [Header.Add] leaves them. *)
Definition canonical_keys (h : gmap string (list string)) : Prop :=
  ∀ k, is_Some (h !! k) → CanonicalHeaderKey k = k.

(** The values sent under a key: the guest's own only for the keys that are not
    deleted, then the owner's cookies, then the owner's headers. *)
Definition sent_values (p : InjectionPlan) (guest : gmap string (list string)) (k : string) : list string :=
  (if decide (k = "Cookie" ∨ k = "Authorization") then [] else default [] (guest !! k)) ++
  (if decide (k = "Cookie") then cookie_values (InjectionPlan_Cookies p) else []) ++
  default [] (InjectionPlan_Headers p !! k).

(** ** Lemmas *)

Lemma canonical_Cookie : CanonicalHeaderKey "Cookie" = "Cookie".
Proof. reflexivity. Qed.
Lemma canonical_Authorization : CanonicalHeaderKey "Authorization" = "Authorization".
Proof. reflexivity. Qed.

(** Lower and upper case of a byte, twice. *)
Lemma case_idem c :
  to_upper (to_upper c) = to_upper c ∧ to_lower (to_lower c) = to_lower c ∧
  (validHeaderFieldByte (to_upper c) = validHeaderFieldByte c) ∧
  (validHeaderFieldByte (to_lower c) = validHeaderFieldByte c) ∧
  (to_upper c = "-"%char ↔ c = "-"%char) ∧ (to_lower c = "-"%char ↔ c = "-"%char).
Proof.
  destruct c as [[] [] [] [] [] [] [] []]; vm_compute; repeat split; congruence.
Qed.

Lemma canonical_bytes_valid u l :
  forallb validHeaderFieldByte (canonical_bytes u l) = forallb validHeaderFieldByte l.
Proof.
  revert u. induction l as [|c l IH]; intros u; simpl; [done|]. rewrite IH. f_equal.
  destruct (case_idem c) as (_ & _ & Hu & Hl & _). by destruct u.
Qed.

Lemma canonical_bytes_idem u l : canonical_bytes u (canonical_bytes u l) = canonical_bytes u l.
Proof.
  revert u. induction l as [|c l IH]; intros u; simpl; [done|].
  destruct (case_idem c) as (Hu & Hl & _ & _ & Hdu & Hdl). f_equal; [by destruct u|].
  assert (bool_decide ((if u then to_upper c else to_lower c) = "-"%char) = bool_decide (c = "-"%char)) as ->
    by (destruct u; by apply bool_decide_ext).
  apply IH.
Qed.

Lemma CanonicalHeaderKey_idem s : CanonicalHeaderKey (CanonicalHeaderKey s) = CanonicalHeaderKey s.
Proof.
  unfold CanonicalHeaderKey. destruct (forallb validHeaderFieldByte (bytes s)) eqn:E.
  - by rewrite bytes_of_bytes, canonical_bytes_valid, E, canonical_bytes_idem.
  - by rewrite E.
Qed.

(** Adding values under a canonical key. *)
Lemma add_values_lookup h k vs k' :
  CanonicalHeaderKey k = k →
  default [] (add_values h (k, vs) !! k') = default [] (h !! k') ++ (if decide (k = k') then vs else []).
Proof.
  intros Hk. unfold add_values. simpl. revert h. induction vs as [|v vs IH]; intros h; simpl.
  { case_decide; by rewrite app_nil_r. }
  rewrite IH. unfold Header_Add. rewrite Hk. case_decide as Hkk; subst.
  - rewrite lookup_insert_eq. simpl. by rewrite <-app_assoc.
  - by rewrite lookup_insert_ne.
Qed.

Lemma foldl_add_values es h k :
  Forall (λ e, CanonicalHeaderKey e.1 = e.1) es →
  default [] (foldl add_values h es !! k) =
  default [] (h !! k) ++ (es ≫= λ e, if decide (e.1 = k) then e.2 else []).
Proof.
  intros Hes. revert h. induction Hes as [|[k' vs] es Hk Hes IH]; intros h; simpl; [by rewrite app_nil_r|].
  rewrite IH, add_values_lookup by done. by rewrite <-app_assoc.
Qed.

(** The entries of a map under one key, in whatever order they are visited. *)
Lemma entries_of_key (m : gmap string (list string)) es k :
  es ≡ₚ map_to_list m →
  (es ≫= λ e, if decide (e.1 = k) then e.2 else []) = default [] (m !! k).
Proof.
  intros Hp.
  assert (NoDup es.*1) as Hnd by (rewrite Hp; apply NoDup_fst_map_to_list).
  assert (∀ i v, (i, v) ∈ es ↔ m !! i = Some v) as Hes.
  { intros i v. rewrite Hp. apply elem_of_map_to_list. }
  clear Hp. destruct (m !! k) as [v|] eqn:E; simpl.
  - apply Hes in E. clear Hes. induction es as [|[k' v'] es IH]; [by apply not_elem_of_nil in E|].
    csimpl in *. apply NoDup_cons in Hnd as [Hn Hnd]. apply elem_of_cons in E as [E|E].
    + simplify_eq. rewrite decide_True by done.
      assert ((es ≫= λ e, if decide (e.1 = k') then e.2 else []) = []) as ->; [|by rewrite app_nil_r].
      clear -Hn. induction es as [|[k v] es IH]; [done|]. csimpl in *. apply not_elem_of_cons in Hn as [? ?].
      rewrite decide_False by done. by apply IH.
    + rewrite decide_False; [by apply IH|]. intros ->. apply Hn, list_elem_of_fmap. by exists (k, v).
  - assert (∀ v, (k, v) ∉ es) as Hn by (intros v Hv%Hes; congruence). clear -Hn.
    induction es as [|[k' v'] es IH]; [done|]. csimpl. rewrite decide_False; [apply IH|].
    + intros v Hv. apply (Hn v). by right.
    + intros ->. apply (Hn v'). left.
Qed.

Lemma cookie_pair_nonempty c : cookie_pair c ≠ EmptyString.
Proof.
  unfold cookie_pair. intros H. apply (f_equal String.length) in H.
  rewrite !string_length_app in H. simpl in H. lia.
Qed.

(** The Cookie header as cookies are added, from a header that holds [cur]. *)
Lemma AddCookie_fold cs h cur :
  h !! "Cookie" = Some [cur] → cur ≠ EmptyString →
  foldl AddCookie h cs !! "Cookie" =
  Some [match cs with [] => cur | _ => cur +:+ "; " +:+ cookie_line cs end].
Proof.
  revert h cur. induction cs as [|c cs IH]; intros h cur Hh Hcur; [done|]. cbn [foldl].
  rewrite (IH _ (cur +:+ "; " +:+ cookie_pair c)).
  - destruct cs; [done|]. cbn [cookie_line]. by rewrite !string_app_assoc.
  - unfold AddCookie, Header_Get. rewrite canonical_Cookie, Hh. simpl. rewrite decide_False by done.
    exact (Header_Set_lookup h "Cookie" _).
  - intros H. apply (f_equal String.length) in H. rewrite !string_length_app in H. simpl in H. lia.
Qed.

Lemma AddCookie_empty cs h :
  h !! "Cookie" = None → default [] (foldl AddCookie h cs !! "Cookie") = cookie_values cs.
Proof.
  intros Hh. destruct cs as [|c cs]; simpl; [by rewrite Hh|].
  rewrite (AddCookie_fold cs _ (cookie_pair c)).
  - simpl. by destruct cs.
  - unfold AddCookie, Header_Get. rewrite canonical_Cookie, Hh. simpl.
    exact (Header_Set_lookup h "Cookie" _).
  - apply cookie_pair_nonempty.
Qed.

Lemma foldl_AddCookie_ne cs h k : k ≠ "Cookie" → foldl AddCookie h cs !! k = h !! k.
Proof.
  intros Hk. revert h. induction cs as [|c cs IH]; intros h; simpl; [done|].
  rewrite IH. by apply AddCookie_lookup_ne.
Qed.

Lemma apply_lookup p out es k :
  canonical_keys (InjectionPlan_Headers p) → es ≡ₚ map_to_list (InjectionPlan_Headers p) →
  default [] (apply_in_order (InjectionPlan_Cookies p) es out !! k) = sent_values p out k.
Proof.
  intros Hcan Hes. unfold apply_in_order, sent_values. rewrite foldl_add_values.
  - rewrite (entries_of_key _ _ _ Hes), app_assoc. f_equal.
    destruct (decide (k = "Cookie")) as [->|Hk].
    + rewrite decide_True by auto. apply AddCookie_empty.
      rewrite Header_Del_lookup_ne by done. apply (Header_Del_lookup out "Cookie").
    + rewrite foldl_AddCookie_ne, app_nil_r by done.
      destruct (decide (k = "Authorization")) as [->|Ha].
      * rewrite decide_True by auto. exact (f_equal (default []) (Header_Del_lookup (Header_Del out "Cookie") "Authorization")).
      * rewrite decide_False by tauto. by rewrite !Header_Del_lookup_ne.
  - rewrite Forall_forall. intros [i v] Hin. rewrite Hes in Hin. apply elem_of_map_to_list in Hin.
    apply Hcan. simpl. eauto.
Qed.

Section build_lemmas.
Context {PL : Platform} `{AEAD}.

Lemma plan_tokens_spec cipher ts h h' :
  plan_tokens cipher ts h = inr h' →
  ∃ vals, Forall2 (λ t v, Cipher_Decrypt cipher (SessionToken_ValueEncrypted t) = inr v) ts vals ∧
    (canonical_keys h → canonical_keys h') ∧
    ∀ k, default [] (h' !! k) = default [] (h !! k) ++
      (zip ts vals ≫= λ tv, if decide (CanonicalHeaderKey (token_header (SessionToken_HeaderName tv.1)) = k)
                            then [tv.2] else []).
Proof.
  revert h. induction ts as [|t ts IH]; intros h; simpl.
  { intros; simplify_eq. exists []. split_and!; [constructor|done|]. intros k. by rewrite app_nil_r. }
  unfold plan_token. destruct (Cipher_Decrypt cipher _) as [e|v] eqn:E; [done|].
  intros (vals & HF & Hc & Hk)%IH. exists (v :: vals). split_and!; [by constructor|..].
  - intros Hh. apply Hc. intros k [x Hx]. unfold Header_Add in Hx.
    apply lookup_insert_Some in Hx as [[<- _]|[_ Hx]]; [apply CanonicalHeaderKey_idem|].
    apply Hh. eauto.
  - intros k. rewrite Hk. unfold Header_Add. csimpl. case_decide as Hkk.
    + rewrite Hkk, lookup_insert_eq. simpl. by rewrite <-app_assoc.
    + by rewrite lookup_insert_ne.
Qed.

(** A plan that was built is the decryption of every row of the session. *)
Lemma run_Build cipher sid w w' plan :
  run (BuildInjectionPlan cipher sid) w = (w', inr plan) →
  w_db w' = w_db w ∧
  Forall2 (λ row c, Cookie_Name c = SessionCookie_Name row ∧
             Cipher_Decrypt cipher (SessionCookie_ValueEncrypted row) = inr (Cookie_Value c))
    (cookies_of sid (w_db w)) (InjectionPlan_Cookies plan) ∧
  plan_tokens cipher (tokens_of sid (w_db w)) ∅ = inr (InjectionPlan_Headers plan).
Proof.
  unfold BuildInjectionPlan. repo_sessions.
  unfold SessionCookieRepo_ListBySession, SessionTokenRepo_ListBySession.
  rewrite run_bind, run_wrap, run_wrap. cbn [fst snd]. read_row res. destruct res as [e|crows]; [done|].
  specialize (Hread crows eq_refl). unfold sql_ret in Hread. simplify_eq.
  rewrite run_bind_inr. intros (w1 & cookies & Hc & Hrest).
  assert (w_db w1 = w_db w) as Hdb1.
  { pose proof (all_atoms_run (on_db eq) (for_map (filter (λ c, SessionCookie_OriginalSessionID c = sid)
      (rows (session_cookies (w_db w)))) (λ c, lift (plan_cookie cipher c))) (tick w)) as Ha.
    rewrite Hc in Ha. symmetry. apply Ha. atoms. }
  apply (run_for_map (λ row c, Cookie_Name c = SessionCookie_Name row ∧
    Cipher_Decrypt cipher (SessionCookie_ValueEncrypted row) = inr (Cookie_Value c))) in Hc;
    [|intros x v v' y; unfold lift, plan_cookie; simpl; destruct (Cipher_Decrypt _ _); intros; by simplify_eq].
  revert Hrest. rewrite run_bind, run_wrap, run_wrap. cbn [fst snd]. read_row res. destruct res as [e|trows]; [done|].
  specialize (Hread trows eq_refl). unfold sql_ret in Hread. simplify_eq.
  rewrite run_bind_inr. intros (w2 & headers & Ht & Hret). rewrite run_ret in Hret. simplify_eq.
  unfold lift in Ht. cbn [run] in Ht. clear Herr Hok Herr0 Hok0. simplify_eq. split_and!; [exact Hdb1|exact Hc|]. unfold tokens_of. rewrite <-Hdb1. assumption.
Qed.

Lemma run_lift {A} (r : go_error + A) w : run (lift r) w = (w, r).
Proof. done. Qed.

Lemma for_map_lift {A B} (f : A → go_error + B) xs w :
  (run (for_map xs (λ x, lift (f x))) w).1 = w ∧
  ((∃ ys, (run (for_map xs (λ x, lift (f x))) w).2 = inr ys) ↔ Forall (λ x, ∃ y, f x = inr y) xs).
Proof.
  induction xs as [|x xs [IH1 IH2]]; cbn [for_map].
  { rewrite run_ret. split; [done|]. split; [constructor|eauto]. }
  rewrite run_bind, Forall_cons, run_lift. cbn [fst snd].
  destruct (f x) as [e|y]; [split; [done|]; split; [by intros [? ?]|by intros [[? ?] _]]|].
  rewrite run_bind. destruct (run (for_map xs _) w) as [w1 [e|ys]]; cbn [fst snd] in *; subst.
  - split; [done|]. rewrite <-IH2. split; [by intros [? ?]|by intros [_ [? ?]]].
  - split; [done|]. rewrite <-IH2. split; [by eauto|by eauto].
Qed.

Definition decryptable (cipher : Cipher) (stored : string) : Prop :=
  ∃ p, Cipher_Decrypt cipher stored = inr p.

Lemma plan_tokens_total cipher ts h :
  (∃ h', plan_tokens cipher ts h = inr h') ↔
  Forall (λ t, decryptable cipher (SessionToken_ValueEncrypted t)) ts.
Proof.
  unfold decryptable. revert h. induction ts as [|t ts IH]; intros h; simpl.
  { split; [constructor|eauto]. }
  unfold plan_token. rewrite Forall_cons. destruct (Cipher_Decrypt cipher _) as [e|v].
  - split; [by intros [? ?]|by intros [[? ?] _]].
  - rewrite IH. split; [by eauto|by intros [_ ?]].
Qed.

Lemma plan_cookie_total cipher c :
  (∃ y, plan_cookie cipher c = inr y) ↔ decryptable cipher (SessionCookie_ValueEncrypted c).
Proof.
  unfold plan_cookie, decryptable. destruct (Cipher_Decrypt cipher _) as [e|v]; [|by split; eauto].
  split; by intros [? ?].
Qed.

End build_lemmas.

(** The values of the imported tokens that go under a key. *)
Definition token_input_values (k : string) (ts : list TokenInput) : list string :=
  TokenInput_Value <$> filter (λ t, CanonicalHeaderKey (token_header (unless_empty (TokenInput_HeaderName t))) = k) ts.

Lemma token_values_zip `{AEAD} cipher k ts rows vals :
  Forall2 (token_stored cipher) ts rows →
  Forall2 (λ t v, Cipher_Decrypt cipher (SessionToken_ValueEncrypted t) = inr v) rows vals →
  (zip rows vals ≫= λ tv, if decide (CanonicalHeaderKey (token_header (SessionToken_HeaderName tv.1)) = k)
                          then [tv.2] else []) = token_input_values k ts.
Proof.
  intros HF. revert vals. induction HF as [|t row ts rows [Hv Hn] HF IH]; intros vals Hvals;
    inversion Hvals as [|? v ? vals' Hd Hvals']; subst; [done|].
  rewrite Hv in Hd. simplify_eq. csimpl. rewrite (IH _ Hvals'), Hn. unfold token_input_values.
  rewrite filter_cons. by case_decide.
Qed.

(** Decrypting in another order gives the same values in another order. *)
Lemma Forall2_reorder {A B} (R : A → B → Prop) xs xs' ys :
  Forall2 R xs ys → xs ≡ₚ xs' → ∃ ys', Forall2 R xs' ys' ∧ zip xs ys ≡ₚ zip xs' ys' ∧ ys ≡ₚ ys'.
Proof.
  intros HF Hp. revert ys HF. induction Hp as [|x l l' Hp IH|x y l|l1 l2 l3 H1 IH1 H2 IH2]; intros ys HF.
  - inversion HF; subst. by exists [].
  - inversion HF as [|? b ? bs Hb HF']; subst. destruct (IH bs HF') as (bs' & ? & ? & ?).
    exists (b :: bs'). split_and!; [by constructor|by simpl; constructor|by constructor].
  - inversion HF as [|? b ? bs Hb HF']; subst. inversion HF' as [|? c ? cs Hc HF'']; subst.
    exists (c :: b :: cs). split_and!; [by repeat constructor|simpl; apply perm_swap|apply perm_swap].
  - destruct (IH1 ys HF) as (ys1 & HF1 & ? & ?). destruct (IH2 ys1 HF1) as (ys2 & ? & ? & ?).
    exists ys2. split_and!; [done|by etrans|by etrans].
Qed.

(** The plan of stored credentials. *)
Lemma stored_plan {PL : Platform} `{AEAD} cipher sid cs ts cs' ts' w w' plan :
  Forall2 (cookie_stored cipher) cs cs' → Forall2 (token_stored cipher) ts ts' →
  cookies_of sid (w_db w) ≡ₚ cs' → tokens_of sid (w_db w) ≡ₚ ts' →
  run (BuildInjectionPlan cipher sid) w = (w', inr plan) →
  InjectionPlan_Cookies plan ≡ₚ (λ c, mkCookie (CookieInput_Name c) (CookieInput_Value c)) <$> cs ∧
  (∀ k, default [] (InjectionPlan_Headers plan !! k) ≡ₚ token_input_values k ts) ∧
  canonical_keys (InjectionPlan_Headers plan).
Proof.
  intros HFc HFt Hcookies Htokens (_ & HFp & Hp)%run_Build.
  apply plan_tokens_spec in Hp as (vals & HFv & Hcan & Hk). split_and!.
  - destruct (Forall2_reorder _ _ _ _ HFp Hcookies) as (pcs & HFp' & _ & ->).
    clear -HFp' HFc. revert pcs HFp'. induction HFc as [|c row cs rows Hrow HFc IH]; intros pcs HFp';
      inversion HFp' as [|? pc ? pcs' [Hn Hd] HF']; subst; csimpl; [done|].
    destruct Hrow as (Hname & Hdec & _). rewrite Hdec in Hd. simplify_eq.
    rewrite (IH _ HF'), Hd, <-Hname, <-Hn. by destruct pc.
  - intros k. rewrite Hk, lookup_empty. csimpl.
    destruct (Forall2_reorder _ _ _ _ HFv Htokens) as (vals' & HFv' & Hz & _). rewrite Hz.
    by rewrite (token_values_zip cipher k ts ts' vals' HFt HFv').
  - apply Hcan. intros i [x Hx]. by rewrite lookup_empty in Hx.
Qed.

(** ** Properties *)

(** C18: the headers of the outgoing request.  For a plan that was built, in
    whatever order Go visits the plan's map and whatever the guest sent: no
    value of the guest's Cookie or Authorization header is forwarded; Cookie
    carries the owner's cookies; and every other header keeps the guest's own
    values, followed by the owner's. *)
Theorem Apply_replaces_credentials {PL : Platform} `{AEAD} cipher sid w w' plan entries guest
  (Hbuild : run (BuildInjectionPlan cipher sid) w = (w', inr plan))
  (Horder : entries ≡ₚ map_to_list (InjectionPlan_Headers plan)) k :
  default [] (apply_in_order (InjectionPlan_Cookies plan) entries guest !! k) = sent_values plan guest k.
Proof.
  apply apply_lookup; [|done]. apply run_Build in Hbuild as (_ & _ & Ht).
  apply plan_tokens_spec in Ht as (_ & _ & Hc & _). apply Hc. intros i [x Hx]. by rewrite lookup_empty in Hx.
Qed.

(** C15: what an owner imports is what the target site receives.  After a
    successful Import, and whenever the rows of its session are still those, a
    plan built for the session has exactly the imported cookies, and under each
    header exactly the values of the tokens imported for it (Authorization for
    those without a header name) - each as often as it was imported, but in the
    order in which the database lists the rows, which is no particular one. *)
Theorem Import_inject_roundtrip {PL : Platform} `{AEAD} `{!AEADLaws _}
  cipher userID baseDomain siteName baseURL cs ts w w1 s w2 w3 plan
  (Hwf : sessions_wf (w_db w))
  (Himport : run (SessionImportService_Import cipher userID baseDomain siteName baseURL cs ts) w = (w1, inr s))
  (Hcookies : cookies_of (OriginalSession_ID s) (w_db w2) ≡ₚ cookies_of (OriginalSession_ID s) (w_db w1))
  (Htokens : tokens_of (OriginalSession_ID s) (w_db w2) ≡ₚ tokens_of (OriginalSession_ID s) (w_db w1))
  (Hbuild : run (BuildInjectionPlan cipher (OriginalSession_ID s)) w2 = (w3, inr plan)) :
  InjectionPlan_Cookies plan ≡ₚ (λ c, mkCookie (CookieInput_Name c) (CookieInput_Value c)) <$> cs ∧
  ∀ k, default [] (InjectionPlan_Headers plan !! k) ≡ₚ token_input_values k ts.
Proof.
  pose proof (run_Import cipher userID baseDomain siteName baseURL cs ts w Hwf) as (sid & _ & _ & Hres).
  rewrite Himport in Hres. cbn [fst snd] in Hres.
  destruct Hres as (<- & _ & _ & _ & _ & (cs' & Hc & HFc) & (ts' & Ht & HFt)).
  rewrite Hc in Hcookies. rewrite Ht in Htokens.
  by destruct (stored_plan cipher _ cs ts cs' ts' w2 w3 plan HFc HFt Hcookies Htokens Hbuild) as (? & ? & _).
Qed.

(** building a plan is all or nothing: without failures of the database it
    succeeds exactly when every stored cookie and token of the session decrypts
    under the key; a single value that does not (tampered with, or of another
    key) is an error and no request is made. *)
Theorem Build_all_or_nothing {PL : Platform} `{AEAD} `{!NoFaults PL} cipher sid w :
  (∃ plan, (run (BuildInjectionPlan cipher sid) w).2 = inr plan) ↔
  Forall (λ c, decryptable cipher (SessionCookie_ValueEncrypted c)) (cookies_of sid (w_db w)) ∧
  Forall (λ t, decryptable cipher (SessionToken_ValueEncrypted t)) (tokens_of sid (w_db w)).
Proof.
  unfold BuildInjectionPlan. repo_sessions.
  unfold SessionCookieRepo_ListBySession, SessionTokenRepo_ListBySession.
  rewrite run_bind, run_wrap, run_wrap, run_sql_ok. cbn [sql_ret fst snd]. rewrite run_bind.
  pose proof (for_map_lift (plan_cookie cipher) (cookies_of sid (w_db w)) (set_db (w_db w) (tick w))) as [Hw Hiff].
  fold (cookies_of sid (w_db w)). destruct (run (for_map (cookies_of _ _) _) _) as [w1 [e|cookies]]; cbn [fst snd] in *.
  { split; [by intros [? ?]|]. intros [Hc _]. destruct Hiff as [_ Hiff].
    destruct Hiff as [? ?]; [|done]. eapply Forall_impl; [exact Hc|]. intros c. apply plan_cookie_total. }
  subst w1. rewrite run_bind, run_wrap, run_wrap, run_sql_ok. cbn [sql_ret fst snd].
  rewrite run_bind, run_lift. cbn [fst snd w_db set_db tick]. fold (tokens_of sid (w_db w)).
  rewrite <-(plan_tokens_total cipher _ ∅).
  assert (Forall (λ c, decryptable cipher (SessionCookie_ValueEncrypted c)) (cookies_of sid (w_db w))) as Hall.
  { destruct Hiff as [Hiff _]. eapply Forall_impl; [apply Hiff; eauto|]. intros c. apply plan_cookie_total. }
  destruct (plan_tokens cipher _ ∅) as [e|h]; split.
  - by intros [? ?].
  - by intros [_ [? ?]].
  - intros _. split; [done|by eexists].
  - intros _. by eexists.
Qed.

(** ** Witnesses *)

Definition demo_guest : gmap string (list string) :=
  {[ "Cookie" := ["stolen=1"]; "Authorization" := ["Bearer guest"]; "Accept" := ["*/*"] ]}.

Definition demo_plan :=
  run (BuildInjectionPlan (PL := demo) (H := demo_aead) (mkCipher demo_key) 1002%N) (demo_import.1).

Definition demo_plan_of : InjectionPlan :=
  match demo_plan.2 with inr p => p | inl _ => mkInjectionPlan [] ∅ end.

Lemma demo_plan_result : demo_plan.2 = inr demo_plan_of.
Proof. vm_compute. reflexivity. Qed.

Lemma demo_plan_run : demo_plan = (demo_plan.1, inr demo_plan_of).
Proof. rewrite <-demo_plan_result. apply surjective_pairing. Qed.

Lemma Apply_replaces_credentials_witness :
  default [] (InjectionPlan_Apply demo_plan_of demo_guest !! "Cookie") = ["theme=dark; sid=s3cret"] ∧
  default [] (InjectionPlan_Apply demo_plan_of demo_guest !! "Authorization") = ["Bearer abc"] ∧
  ∀ k, default [] (InjectionPlan_Apply demo_plan_of demo_guest !! k) = sent_values demo_plan_of demo_guest k.
Proof.
  split; [vm_compute; reflexivity|]. split; [vm_compute; reflexivity|]. intros k.
  apply (@Apply_replaces_credentials demo demo_aead (mkCipher demo_key) 1002%N demo_import.1 demo_plan.1);
    [apply demo_plan_run|done].
Defined.

Definition demo_session : OriginalSession :=
  match demo_import.2 with inr s => s | inl _ => mkOriginalSession 0 0 0 None "" None 0 None end.

Lemma demo_import_result : demo_import.2 = inr demo_session.
Proof. vm_compute. reflexivity. Qed.

Lemma demo_import_run : demo_import = (demo_import.1, inr demo_session).
Proof. rewrite <-demo_import_result. apply surjective_pairing. Qed.

Lemma Import_inject_roundtrip_witness :
  InjectionPlan_Cookies demo_plan_of ≡ₚ [mkCookie "sid" "s3cret"; mkCookie "theme" "dark"] ∧
  ∀ k, default [] (InjectionPlan_Headers demo_plan_of !! k) ≡ₚ token_input_values k demo_tokens.
Proof.
  apply (@Import_inject_roundtrip demo demo_aead demo_aead_laws (mkCipher demo_key) 7%N "example.org" "Example"
    "https://example.org" demo_cookies demo_tokens (demo_world demo_import_db) demo_import.1 demo_session
    demo_import.1 demo_plan.1 demo_plan_of demo_import_wf demo_import_run); [done|done|].
  assert (OriginalSession_ID demo_session = 1002%N) as -> by (vm_compute; reflexivity). apply demo_plan_run.
Defined.

Lemma Build_all_or_nothing_witness :
  Forall (λ c, decryptable (H := demo_aead) (mkCipher demo_key) (SessionCookie_ValueEncrypted c))
    (cookies_of 1002%N (w_db demo_import.1)).
Proof.
  apply (@Build_all_or_nothing demo demo_aead _ (mkCipher demo_key) 1002%N demo_import.1).
  exists demo_plan_of. vm_compute. reflexivity.
Defined.
