(* ===== verification/Auth.v ===== *)
(** * internal/service: owner authentication (auth_service.go)

    Passwords, JWTs and API keys.  bcrypt, SHA-256 and golang-jwt are the
    classes below, with the laws their documentation states. *)

From Stdlib Require Import Ascii.
From S2P Require Import Prelude GoStrings Encoding Domain Schema Platform Effects Interfaces RepoLinks RepoUsers.

Open Scope go_scope.

(** ** Libraries *)

(** golang.org/x/crypto/bcrypt: the hash of a password under the random source,
    or an error (too long a password, no randomness), and the comparison. *)
Class Bcrypt := {
  bcrypt_Generate : option (nat → ascii) → string → go_error + string;
  bcrypt_Compare : string → string → bool }.

Class BcryptLaws (B : Bcrypt) : Prop :=
  bcrypt_Compare_Generate rnd password hash :
    bcrypt_Generate rnd password = inr hash → bcrypt_Compare hash password = true.

(** crypto/sha256 *)
Class SHA256 := sha256_Sum256 : string → string.

Class SHA256Laws (S : SHA256) : Prop := sha256_length s : String.length (sha256_Sum256 s) = 32.

(** github.com/golang-jwt/jwt/v5.  The claims the program reads or writes; the
    times in nanoseconds. *)
Record MapClaims := mkMapClaims {
  claim_sub : option string;
  claim_exp : option GoTime;
  claim_iat : option GoTime }.

Inductive jwt_method : Type :=
| SigningMethodHMAC (hash : Z)
| SigningMethodOther (alg : string).

Definition SigningMethodHS256 : jwt_method := SigningMethodHMAC 256.

(** [jwt_Parse token keyfunc now]: the claims of a token that is valid at [now];
    [jwt_verifies m key token]: the token's header names [m] and its signature
    is correct under [key]. *)
Class JWT := {
  jwt_SignedString : MapClaims → string → go_error + string;
  jwt_Parse : string → (jwt_method → go_error + string) → GoTime → go_error + MapClaims;
  jwt_verifies : jwt_method → string → string → bool }.

Definition claims_expired (c : MapClaims) (now : GoTime) : bool :=
  match claim_exp c with Some e => (e <=? now)%Z | None => false end.

Class JWTLaws (J : JWT) : Prop := {
  jwt_Parse_sound token keyfunc now c : jwt_Parse token keyfunc now = inr c →
    claims_expired c now = false ∧
    ∃ m key, keyfunc m = inr key ∧ jwt_verifies m key token = true;
  jwt_Parse_issued c key token keyfunc now :
    jwt_SignedString c key = inr token → keyfunc SigningMethodHS256 = inr key →
    if claims_expired c now then ∃ e, jwt_Parse token keyfunc now = inl e
    else jwt_Parse token keyfunc now = inr c }.

(** ** Definitions *)

Definition ErrInvalidCredentials : go_error := ErrNew "service: invalid email or password".
Definition ErrEmailTaken : go_error := ErrNew "service: email already registered".
Definition ErrAPIKeyRevoked : go_error := ErrNew "service: api key revoked or expired".

Record AuthService := mkAuthService { AuthService_jwtKey : string; AuthService_jwtTTL : Z }.

(** [t.Unix()], as a time. *)
Definition unix_seconds (t : GoTime) : GoTime := (t / 1000000000 * 1000000000)%Z.

Section service.
Context {PL : Platform} `{Bcrypt} `{SHA256} `{JWT}.
Context `{!UserRepository} `{!APIKeyRepository}.

Definition bcrypt_GenerateFromPassword (password : string) : M string :=
  atom (λ w, (tick w, bcrypt_Generate (env_rand (w_tick w)) password)).

Definition AuthService_Register (email password displayName : string) : M User :=
  let* r := Users_GetByEmail email in
  match r with
  | inr _ => fail ErrEmailTaken
  | inl _ =>
      let! hash := wrap "service: hash password" (bcrypt_GenerateFromPassword password) in
      let namePtr := if decide (displayName ≠ EmptyString) then Some displayName else None in
      Users_Create (mkUser uuid_Nil email hash namePtr 0 0)
  end.

Definition AuthService_issueJWT (s : AuthService) (userID : UUID) : M string :=
  let* t1 := time_Now in
  let* t2 := time_Now in
  let claims := mkMapClaims (Some (uuid_String userID))
                  (Some (unix_seconds (t1 + AuthService_jwtTTL s))) (Some (unix_seconds t2)) in
  lift (jwt_SignedString claims (AuthService_jwtKey s)).

(** The results token, user and err; the user is returned even when issuing the
    token fails. *)
Definition AuthService_Login (s : AuthService) (email password : string) : M (string * User) :=
  let* r := Users_GetByEmail email in
  match r with
  | inl _ => fail ErrInvalidCredentials
  | inr user =>
      if negb (bcrypt_Compare (User_PasswordHash user) password) then fail ErrInvalidCredentials
      else
        let! token := AuthService_issueJWT s (User_ID user) in
        ret (token, user)
  end.

Definition AuthService_keyfunc (s : AuthService) (m : jwt_method) : go_error + string :=
  match m with
  | SigningMethodHMAC _ => inr (AuthService_jwtKey s)
  | SigningMethodOther alg => inl (ErrNew ("service: unexpected signing method " +:+ alg))
  end.

Definition AuthService_VerifyJWT (s : AuthService) (tokenString : string) : M UUID :=
  let* now := time_Now in
  match jwt_Parse tokenString (AuthService_keyfunc s) now with
  | inl err => fail (Wrap "service: invalid token" err)
  | inr claims =>
      let sub := default EmptyString (claim_sub claims) in
      match uuid_Parse sub with
      | Some id => ret id
      | None => fail (ErrNew "invalid UUID")
      end
  end.

Definition hashAPIKey (raw : string) : string := hex_EncodeToString (sha256_Sum256 raw).

Definition AuthService_CreateAPIKey (userID : UUID) (label : string) (deviceID : option UUID)
    (expiresAt : option GoTime) : M (string * APIKey) :=
  let! raw := wrap "service: generate api key" (rand_Read 32) in
  let rawKey := "spk_" +:+ RawURLEncoding_EncodeToString raw in
  let hash := hashAPIKey rawKey in
  let labelPtr := if decide (label ≠ EmptyString) then Some label else None in
  let! key := APIKeys_Create (mkAPIKey uuid_Nil userID deviceID hash labelPtr None expiresAt 0) in
  ret (rawKey, key).

Definition AuthService_VerifyAPIKey (rawKey : string) : M UUID :=
  let* r := APIKeys_GetByHash (hashAPIKey rawKey) in
  match r with
  | inl _ => fail ErrInvalidCredentials
  | inr key =>
      match APIKey_RevokedAt key with
      | Some _ => fail ErrAPIKeyRevoked
      | None =>
          match APIKey_ExpiresAt key with
          | Some e =>
              let* now := time_Now in
              if (e <? now)%Z then fail ErrAPIKeyRevoked else ret (APIKey_UserID key)
          | None => ret (APIKey_UserID key)
          end
      end
  end.

End service.

(** ** Specification *)

(** A key that authenticates at [now]: neither revoked nor past its expiry. *)
Definition key_valid (k : APIKey) (now : GoTime) : Prop :=
  APIKey_RevokedAt k = None ∧ ∀ e, APIKey_ExpiresAt k = Some e → (now <= e)%Z.

Definition key_expired_at (now : GoTime) (k : APIKey) : Prop :=
  match APIKey_ExpiresAt k with Some e => (e < now)%Z | None => False end.

#[export] Instance key_expired_at_dec now k : Decision (key_expired_at now k).
Proof. unfold key_expired_at. destruct (APIKey_ExpiresAt k); apply _. Defined.

(** A stored key with the hash of the raw key authenticates [userID] at [now]. *)
Definition key_authenticates `{SHA256} (d : DB) (raw : string) (now : GoTime) (userID : UUID) : Prop :=
  ∃ id k, api_keys d !! id = Some k ∧ APIKey_KeyHash k = hashAPIKey raw ∧
    APIKey_UserID k = userID ∧ key_valid k now.

(** A token authenticates [userID] at [now]: it verifies under the service's key
    by an HMAC method, and its claims, not expired, name the user. *)
Definition jwt_authenticates {PL : Platform} `{JWT} (s : AuthService) (token : string) (now : GoTime) (userID : UUID) : Prop :=
  ∃ hash c, jwt_verifies (SigningMethodHMAC hash) (AuthService_jwtKey s) token = true ∧
    jwt_Parse token (AuthService_keyfunc s) now = inr c ∧ claims_expired c now = false ∧
    uuid_Parse (default EmptyString (claim_sub c)) = Some userID.

(** Emails are unique, and rows are stored under their id. *)
Record accounts_wf (d : DB) : Prop := {
  aw_ids : ∀ id u, users d !! id = Some u → User_ID u = id;
  aw_emails : ∀ id1 id2 u1 u2, users d !! id1 = Some u1 → users d !! id2 = Some u2 →
    User_Email u1 = User_Email u2 → id1 = id2 }.

(** The row of a raw key is the only one with its hash. *)
Definition only_key `{SHA256} (raw : string) (id : UUID) (d : DB) : Prop :=
  ∀ id' k, api_keys d !! id' = Some k → APIKey_KeyHash k = hashAPIKey raw → id' = id.

(** ** Lemmas *)

Lemma select_row_found {V} (p : V → bool) (m : gmap UUID V) (d : DB) v d' :
  select_row p m d = inr (v, d') → d' = d ∧ p v = true ∧ ∃ id, m !! id = Some v.
Proof.
  unfold select_row. intros. invert_stmt.
  match goal with Hf : find_first _ _ = Some _ |- _ => apply find_first_Some in Hf as [Hin Hp] end.
  apply elem_of_rows in Hin. by split_and!.
Qed.

Lemma select_row_none {V} (p : V → bool) (m : gmap UUID V) (d : DB) e :
  select_row p m d = inl e → e = NoRows ∧ ∀ id v, m !! id = Some v → p v = false.
Proof.
  unfold select_row. destruct (find_first p (rows m)) eqn:Hf; intros; [done|]. simplify_eq. split; [done|].
  rewrite find_first_None in Hf. intros id v Hv. apply Hf, elem_of_rows. eauto.
Qed.

(** The row a lookup finds when only one row satisfies the predicate. *)
Lemma select_row_unique {V} (p : V → bool) (m : gmap UUID V) (d : DB) id v :
  m !! id = Some v → p v = true → (∀ id' v', m !! id' = Some v' → p v' = true → id' = id) →
  select_row p m d = inr (v, d).
Proof.
  intros Hv Hp Huniq. destruct (select_row p m d) as [e|[v' d']] eqn:E.
  - apply select_row_none in E as [_ E]. by rewrite (E _ _ Hv) in Hp.
  - apply select_row_found in E as (-> & Hp' & id' & Hv'). rewrite (Huniq _ _ Hv' Hp') in Hv'. congruence.
Qed.

Lemma email_taken_false d id email :
  accounts_wf d → users d !! id = None → email_taken d id email = false →
  ∀ i u, users d !! i = Some u → User_Email u ≠ email.
Proof.
  intros Hwf Hid Ht i u Hu He. unfold email_taken in Ht.
  assert (existsb (λ u, bool_decide (User_Email u = email ∧ User_ID u ≠ id)) (rows (users d)) = true) as Hx; [|congruence].
  apply existsb_exists. exists u. split; [apply list_elem_of_In, elem_of_rows; eauto|].
  apply bool_decide_eq_true. split; [done|]. rewrite (aw_ids _ Hwf _ _ Hu). congruence.
Qed.

Lemma accounts_wf_insert d id u :
  accounts_wf d → User_ID u = id → (∀ i v, users d !! i = Some v → User_Email v ≠ User_Email u) →
  accounts_wf (set_users <[id := u]> d).
Proof.
  intros [H1 H2] Hid Hnew. split; simpl.
  - intros i v. rewrite lookup_insert_Some. intros [[<- <-]|[_ ?]]; auto.
  - intros i j v v'. rewrite !lookup_insert_Some.
    intros [[<- <-]|[_ Hi]] [[<- <-]|[_ Hj]] He; [done|by edestruct Hnew|by edestruct Hnew|eauto].
Qed.

Section lemmas.
Context {PL : Platform} `{Bcrypt} `{SHA256} `{JWT}.

Lemma run_wrap_not_new {A} msg (m : M A) w w' msg' : run (wrap msg m) w ≠ (w', inl (ErrNew msg')).
Proof. rewrite run_wrap. by destruct (run m w) as [w1 [e|a]]; intros ?; simplify_eq/=. Qed.

Lemma run_time_Now w : run time_Now w = (tick w, env_now (w_tick w)).
Proof. unfold time_Now. by rewrite run_atom. Qed.

Lemma GetByEmail_read email w :
  ∃ res, run (UserRepo_GetByEmail email) w = (tick w, res) ∧
    match res with
    | inr u => User_Email u = email ∧ ∃ id, users (w_db w) !! id = Some u
    | inl _ => NoFaults PL → ∀ id u, users (w_db w) !! id = Some u → User_Email u ≠ email
    end.
Proof.
  unfold UserRepo_GetByEmail, scanUser. rewrite run_wrap. read_row res.
  eexists. split; [done|]. destruct res as [e|u].
  - intros HNF id u Hu He. specialize (Hok HNF).
    destruct (select_row _ _ _) as [e'|[r d']] eqn:E; [|done]. apply select_row_none in E as [_ E].
    specialize (E _ _ Hu). apply bool_decide_eq_false in E. congruence.
  - specialize (Hread u eq_refl). apply select_row_found in Hread as (_ & Hp & Hid).
    by apply bool_decide_eq_true in Hp.
Qed.

(** Under any failure, an insert of a user adds its row, or nothing. *)
Lemma run_user_create u w :
  accounts_wf (w_db w) →
  let r := run (UserRepo_Create u) w in
  (w_db r.1 = w_db w ∧ ∃ e, r.2 = inl e) ∨
  ∃ id now, let row := mkUser id (User_Email u) (User_PasswordHash u) (User_DisplayName u) now now in
    users (w_db w) !! id = None ∧ (∀ i v, users (w_db w) !! i = Some v → User_Email v ≠ User_Email u) ∧
    w_db r.1 = set_users <[id := row]> (w_db w) ∧ (r.2 = inr row ∨ ∃ e, r.2 = inl e).
Proof.
  intros Hwf r. subst r. unfold UserRepo_Create, scanUser. rewrite run_wrap. write_cases; [by eauto|..];
    right; match goal with Hf : fresh_in _ _ = true |- _ => apply fresh_in_spec in Hf end;
    match goal with Ht : negb _ = true |- _ => apply negb_true_iff in Ht end;
    eexists _, _; cbv zeta; (split_and!; [done|by eapply email_taken_false|done|]); eauto.
Qed.

Lemma run_issueJWT s userID w :
  run (AuthService_issueJWT s userID) w =
  (tick (tick w), jwt_SignedString
     (mkMapClaims (Some (uuid_String userID))
        (Some (unix_seconds (env_now (w_tick w) + AuthService_jwtTTL s)))
        (Some (unix_seconds (env_now (S (w_tick w)))))) (AuthService_jwtKey s)).
Proof.
  unfold AuthService_issueJWT. rewrite run_pbind, run_time_Now. cbn [fst snd].
  rewrite run_pbind, run_time_Now. done.
Qed.

Lemma GetByHash_read raw w :
  ∃ res, run (APIKeyRepo_GetByHash (hashAPIKey raw)) w = (tick w, res) ∧
    match res with
    | inr k => APIKey_KeyHash k = hashAPIKey raw ∧ ∃ id, api_keys (w_db w) !! id = Some k
    | inl _ => NoFaults PL → ∀ id k, api_keys (w_db w) !! id = Some k → APIKey_KeyHash k ≠ hashAPIKey raw
    end.
Proof.
  unfold APIKeyRepo_GetByHash, scanAPIKey. rewrite run_wrap. read_row res.
  eexists. split; [done|]. destruct res as [e|u].
  - intros HNF id u Hu He. specialize (Hok HNF).
    destruct (select_row _ _ _) as [e'|[r d']] eqn:E; [|done]. apply select_row_none in E as [_ E].
    specialize (E _ _ Hu). apply bool_decide_eq_false in E. congruence.
  - specialize (Hread u eq_refl). apply select_row_found in Hread as (_ & Hp & Hid).
    by apply bool_decide_eq_true in Hp.
Qed.

End lemmas.

(** The two verifications, whatever fails. *)
Lemma run_VerifyJWT_inr {PL : Platform} `{JWT} `{!JWTLaws _} s token w w' id :
  run (AuthService_VerifyJWT s token) w = (w', inr id) →
  w' = tick w ∧ jwt_authenticates s token (env_now (w_tick w)) id.
Proof.
  unfold AuthService_VerifyJWT. rewrite run_pbind, run_time_Now. cbn [fst snd]. intros Hrun.
  destruct (jwt_Parse _ _ _) as [e|c] eqn:Ep; [done|].
  destruct (uuid_Parse _) as [i|] eqn:Eu; [|done]. rewrite run_ret in Hrun. simplify_eq.
  pose proof (jwt_Parse_sound _ _ _ _ Ep) as (Hexp & m & key & Hk & Hv). split; [done|].
  destruct m as [hash|alg]; simpl in Hk; simplify_eq. by exists hash, c.
Qed.

Lemma run_VerifyAPIKey_inr {PL : Platform} `{SHA256} raw w w' userID :
  run (AuthService_VerifyAPIKey raw) w = (w', inr userID) →
  w_db w' = w_db w ∧ key_authenticates (w_db w) raw (env_now (S (w_tick w))) userID.
Proof.
  intros Hrun. unfold AuthService_VerifyAPIKey in Hrun. cbn [APIKeyRepo APIKeys_GetByHash] in Hrun.
  rewrite run_pbind in Hrun. destruct (GetByHash_read raw w) as (r & Hr & Hread).
  rewrite Hr in Hrun. cbn [fst snd] in Hrun. destruct r as [e|k]; [done|]. destruct Hread as [Hh [id Hid]].
  destruct (APIKey_RevokedAt k) eqn:Erev; [done|]. destruct (APIKey_ExpiresAt k) as [e|] eqn:Eexp.
  - rewrite run_pbind, run_time_Now in Hrun. cbn [fst snd w_tick tick] in Hrun.
    destruct (Z.ltb_spec e (env_now (S (w_tick w)))); [done|]. rewrite run_ret in Hrun. simplify_eq.
    split; [done|]. exists id, k. split_and!; try done. split; [done|]. intros e' He'. by simplify_eq.
  - rewrite run_ret in Hrun. simplify_eq. split; [done|]. exists id, k. split_and!; try done.
    split; [done|]. intros e' He'. congruence.
Qed.

(** A login that succeeded: the account, and the claims of its token. *)
Lemma run_Login_inr {PL : Platform} `{Bcrypt} `{JWT} s email password w w1 token u :
  run (AuthService_Login s email password) w = (w1, inr (token, u)) →
  ∃ iat, jwt_SignedString
      (mkMapClaims (Some (uuid_String (User_ID u)))
         (Some (unix_seconds (env_now (S (w_tick w)) + AuthService_jwtTTL s))) iat) (AuthService_jwtKey s) = inr token ∧
    w_db w1 = w_db w ∧ User_Email u = email ∧ (∃ id, users (w_db w) !! id = Some u) ∧
    bcrypt_Compare (User_PasswordHash u) password = true.
Proof.
  unfold AuthService_Login. cbn [UserRepo Users_GetByEmail]. rewrite run_pbind.
  destruct (GetByEmail_read email w) as (r & Hr & Hread). rewrite Hr. cbn [fst snd].
  destruct r as [e|u0]; [done|]. destruct (bcrypt_Compare (User_PasswordHash u0) password) eqn:Ec; cbn [negb]; [|done].
  rewrite run_bind, run_issueJWT. cbn [fst snd w_tick tick].
  destruct (jwt_SignedString _ _) as [e|token'] eqn:Es; [done|]. rewrite run_ret. intros; simplify_eq.
  destruct Hread as [He Hid]. by eexists.
Qed.

(** The verdict on a token the service issued. *)
Lemma run_VerifyJWT_issued {PL : Platform} `{!PlatformLaws PL} `{JWT} `{!JWTLaws _} s id exp iat token w :
  jwt_SignedString (mkMapClaims (Some (uuid_String id)) (Some exp) iat) (AuthService_jwtKey s) = inr token →
  let res := run (AuthService_VerifyJWT s token) w in
  res.1 = tick w ∧ if decide (env_now (w_tick w) < exp)%Z then res.2 = inr id else ∃ e, res.2 = inl e.
Proof.
  intros Hs. unfold AuthService_VerifyJWT. rewrite run_pbind, run_time_Now. cbn [fst snd].
  pose proof (jwt_Parse_issued _ _ _ (AuthService_keyfunc s) (env_now (w_tick w)) Hs eq_refl) as Hp.
  unfold claims_expired in Hp. cbn [claim_exp] in Hp. case_decide as Hd.
  - rewrite (proj2 (Z.leb_gt _ _) Hd) in Hp. rewrite Hp. simpl. by rewrite uuid_Parse_String.
  - rewrite (proj2 (Z.leb_le _ _)) in Hp by lia. destruct Hp as [e ->]. split; [done|by eexists].
Qed.

Lemma run_VerifyAPIKey_frame {PL : Platform} `{SHA256} raw w :
  let w' := (run (AuthService_VerifyAPIKey raw) w).1 in w_db w' = w_db w ∧ w_hub w' = w_hub w.
Proof.
  unfold AuthService_VerifyAPIKey. cbn [APIKeyRepo APIKeys_GetByHash]. rewrite run_pbind.
  destruct (GetByHash_read raw w) as (r & -> & _). cbn [fst snd]. destruct r as [e|k]; [done|].
  destruct (APIKey_RevokedAt k); [done|]. destruct (APIKey_ExpiresAt k); [|done].
  rewrite run_pbind, run_time_Now. cbn [fst snd]. by case_match.
Qed.

(** ** Properties *)

(** registration, whatever fails.  Accounts stay well formed (emails unique,
    also when the lookup that precedes the insert fails); the only possible
    change is one new account with this email; a success returns that account,
    whose stored hash is one the password matches; and ErrEmailTaken is
    returned only when the email is registered. *)
Theorem Register_correct {PL : Platform} `{Bcrypt} `{!BcryptLaws _} email password displayName w w' res
  (Hwf : accounts_wf (w_db w))
  (Hrun : run (AuthService_Register email password displayName) w = (w', res)) :
  accounts_wf (w_db w') ∧
  (w_db w' = w_db w ∨
   ∃ id u, users (w_db w) !! id = None ∧ w_db w' = set_users <[id := u]> (w_db w) ∧
     User_Email u = email ∧ (∀ i v, users (w_db w) !! i = Some v → User_Email v ≠ email)) ∧
  match res with
  | inr u => users (w_db w') !! User_ID u = Some u ∧ users (w_db w) !! User_ID u = None ∧
      User_Email u = email ∧ bcrypt_Compare (User_PasswordHash u) password = true
  | inl e => e = ErrEmailTaken → ∃ id u, users (w_db w) !! id = Some u ∧ User_Email u = email
  end.
Proof.
  unfold AuthService_Register in Hrun. repo_users. cbn [UserRepo Users_GetByEmail Users_Create] in Hrun.
  rewrite run_pbind in Hrun. destruct (GetByEmail_read email w) as (r & Hr & Hread).
  rewrite Hr in Hrun. cbn [fst snd] in Hrun. destruct r as [e|u0].
  2:{ rewrite run_fail in Hrun. simplify_eq. destruct Hread as [He [id Hid]]. split_and!; eauto. }
  rewrite run_bind, run_wrap in Hrun. unfold bcrypt_GenerateFromPassword in Hrun. rewrite run_atom in Hrun.
  cbn [fst snd] in Hrun. destruct (bcrypt_Generate _ password) as [eb|hash] eqn:Eb; [simplify_eq; by split_and!; auto|].
  cbv zeta in Hrun. set (u := mkUser uuid_Nil email hash _ 0 0) in Hrun.
  assert (accounts_wf (w_db (tick (tick w)))) as Hwf' by done.
  pose proof (run_user_create u (tick (tick w)) Hwf') as Hc. rewrite Hrun in Hc. cbn [fst snd] in Hc.
  destruct Hc as [[Hdb [e' ->]]|(id & now & Hid & Hnew & Hdb & Hres)].
  - rewrite Hdb. split_and!; [done|by left|]. intros ->.
    by apply run_wrap_not_new in Hrun.
  - rewrite Hdb. split_and!.
    + apply accounts_wf_insert; [done|done|]. exact Hnew.
    + right. eexists id, _. split_and!; [exact Hid|done|done|exact Hnew].
    + destruct Hres as [->|[e' ->]].
      * simpl. rewrite lookup_insert_eq. split_and!; try done. by eapply bcrypt_Compare_Generate.
      * intros ->. by apply run_wrap_not_new in Hrun.
Qed.

(** what Login answers, without failures of the database: a token and the
    account exactly when the email is registered and its hash matches the
    password (and signing succeeds); otherwise the same error, whether the email
    is unknown or the password wrong.  Nothing is written. *)
Theorem Login_outcomes {PL : Platform} `{!NoFaults PL} `{Bcrypt} `{JWT} s email password w
  (Hwf : accounts_wf (w_db w)) :
  let '(w', res) := run (AuthService_Login s email password) w in
  w_db w' = w_db w ∧
  ((∀ id u, users (w_db w) !! id = Some u → User_Email u ≠ email) → res = inl ErrInvalidCredentials) ∧
  ∀ id u, users (w_db w) !! id = Some u → User_Email u = email →
    if bcrypt_Compare (User_PasswordHash u) password
    then ∃ c, claim_sub c = Some (uuid_String id) ∧
           res = match jwt_SignedString c (AuthService_jwtKey s) with
                 | inl e => inl e | inr token => inr (token, u) end
    else res = inl ErrInvalidCredentials.
Proof.
  destruct (run (AuthService_Login s email password) w) as [w' res] eqn:Hrun.
  unfold AuthService_Login in Hrun. cbn [UserRepo Users_GetByEmail] in Hrun.
  rewrite run_pbind in Hrun. destruct (GetByEmail_read email w) as (r & Hr & Hread).
  rewrite Hr in Hrun. cbn [fst snd] in Hrun. destruct r as [e|u0].
  { rewrite run_fail in Hrun. simplify_eq. split_and!; [done|done|]. intros id u Hu He. by edestruct Hread. }
  destruct Hread as [He0 [id0 Hid0]].
  assert (∀ id u, users (w_db w) !! id = Some u → User_Email u = email → id = id0 ∧ u = u0) as Huniq.
  { intros id u Hu He. assert (id = id0) as -> by (eapply aw_emails; eauto; congruence).
    rewrite Hid0 in Hu. by simplify_eq. }
  destruct (bcrypt_Compare (User_PasswordHash u0) password) eqn:Ec; cbn [negb] in Hrun.
  - rewrite run_bind, run_issueJWT in Hrun. cbn [fst snd] in Hrun.
    set (c := mkMapClaims _ _ _) in Hrun.
    assert (w_db w' = w_db w) as Hdb by (destruct (jwt_SignedString c _); [|rewrite run_ret in Hrun]; by simplify_eq).
    split_and!; [done|intros Hn; by edestruct Hn|].
    intros id u Hu He. destruct (Huniq id u Hu He) as [-> ->]. rewrite Ec. exists c.
    split; [simpl; by rewrite (aw_ids _ Hwf _ _ Hid0)|].
    destruct (jwt_SignedString c _); [|rewrite run_ret in Hrun]; by simplify_eq.
  - rewrite run_fail in Hrun. simplify_eq. split_and!; [done|done|].
    intros id u Hu He. destruct (Huniq id u Hu He) as [-> ->]. by rewrite Ec.
Qed.

(** a token issued by Login authenticates its owner until it expires, and
    nobody afterwards: at every later time, VerifyJWT returns the account's id
    while the time is before the expiry (the login time plus the TTL, in whole
    seconds), and an error from then on. *)
Theorem Login_VerifyJWT_roundtrip {PL : Platform} `{!PlatformLaws PL} `{Bcrypt} `{JWT} `{!JWTLaws _}
  s email password w w1 token u w2
  (Hlogin : run (AuthService_Login s email password) w = (w1, inr (token, u))) :
  let expiry := unix_seconds (env_now (S (w_tick w)) + AuthService_jwtTTL s) in
  let res := (run (AuthService_VerifyJWT s token) w2).2 in
  if decide (env_now (w_tick w2) < expiry)%Z then res = inr (User_ID u) else ∃ e, res = inl e.
Proof.
  apply run_Login_inr in Hlogin as (iat & Hs & _). apply (run_VerifyJWT_issued _ _ _ _ _ _ Hs).
Qed.

(** VerifyJWT accepts only tokens whose signature verifies, by an HMAC
    method, under the service's key, and whose claims, not expired, name the
    user it returns; tokens that name another method, "none" included, are
    rejected. *)
Theorem VerifyJWT_sound {PL : Platform} `{JWT} `{!JWTLaws _} s token w w' id
  (Hrun : run (AuthService_VerifyJWT s token) w = (w', inr id)) :
  w_db w' = w_db w ∧ jwt_authenticates s token (env_now (w_tick w)) id.
Proof. apply run_VerifyJWT_inr in Hrun as [-> Hauth]. by split. Qed.

(** VerifyAPIKey, whatever fails, accepts a raw key only if a stored key has
    its hash, is not revoked and had not expired when it was read; it returns
    the owner of that key, and writes nothing. *)
Theorem VerifyAPIKey_sound {PL : Platform} `{SHA256} raw w w' userID
  (Hrun : run (AuthService_VerifyAPIKey raw) w = (w', inr userID)) :
  w_db w' = w_db w ∧ key_authenticates (w_db w) raw (env_now (S (w_tick w))) userID.
Proof. by apply run_VerifyAPIKey_inr in Hrun. Qed.

(** a created API key works, and only its hash is stored.  CreateAPIKey
    returns "spk_" and the URL-safe text of 32 random bytes (47 characters), and
    adds one row whose hash has 64 characters; while that row is there and no
    other has the same hash, VerifyAPIKey accepts the raw key for its user until it
    expires, and then refuses it. *)
Theorem CreateAPIKey_VerifyAPIKey {PL : Platform} `{!NoFaults PL} `{SHA256} `{!SHA256Laws _}
  userID label deviceID expiresAt w w1 raw k w2
  (Hcreate : run (AuthService_CreateAPIKey userID label deviceID expiresAt) w = (w1, inr (raw, k)))
  (Hthere : api_keys (w_db w2) !! APIKey_ID k = Some k)
  (Honly : only_key raw (APIKey_ID k) (w_db w2)) :
  String.length raw = 47%nat ∧ HasPrefix raw "spk_" = true ∧
  api_keys (w_db w) !! APIKey_ID k = None ∧ w_db w1 = set_api_keys <[APIKey_ID k := k]> (w_db w) ∧
  APIKey_KeyHash k = hashAPIKey raw ∧ String.length (APIKey_KeyHash k) = 64%nat ∧
  (run (AuthService_VerifyAPIKey raw) w2).2 =
    (if decide (key_expired_at (env_now (S (w_tick w2))) k) then inl ErrAPIKeyRevoked else inr userID).
Proof.
  unfold AuthService_CreateAPIKey in Hcreate. cbn [APIKeyRepo APIKeys_Create] in Hcreate.
  rewrite run_bind, run_wrap in Hcreate. unfold rand_Read in Hcreate. rewrite run_atom in Hcreate.
  cbn [fst snd] in Hcreate. destruct (env_random (w_tick w) 32) as [bs|] eqn:Er; [|done].
  apply run_bind_inr in Hcreate as (w3 & key & Hc & Hret). rewrite run_ret in Hret. simplify_eq.
  unfold APIKeyRepo_Create, scanAPIKey in Hc. rewrite run_wrap_inr in Hc.
  apply run_sql_inr in Hc as (d & Hs & ->). cbv zeta in Hs. invert_stmt. cbn [APIKey_UserID APIKey_KeyHash APIKey_ID APIKey_ExpiresAt] in *.
  match goal with Hf : fresh_in _ _ = true |- _ => apply fresh_in_spec in Hf end.
  set (raw := "spk_" +:+ RawURLEncoding_EncodeToString bs) in *.
  apply env_random_length in Er. split_and!; try done.
  - subst raw. by rewrite string_length_app, RawURLEncoding_raw_length, Er.
  - apply HasPrefix_app.
  - unfold hashAPIKey. by rewrite hex_length, sha256_length.
  - unfold AuthService_VerifyAPIKey. cbn [APIKeyRepo APIKeys_GetByHash]. rewrite run_pbind.
    unfold APIKeyRepo_GetByHash, scanAPIKey. rewrite run_wrap, run_sql_ok.
    rewrite (select_row_unique _ _ _ _ _ Hthere).
    + cbn [fst snd APIKey_RevokedAt APIKey_ExpiresAt APIKey_UserID].
      unfold key_expired_at. cbn [APIKey_ExpiresAt]. destruct expiresAt as [e|]; cbn [fmap option_fmap option_map]; [|done].
      rewrite run_pbind, run_time_Now. cbn [fst snd w_tick set_db tick].
      destruct (Z.ltb_spec (timestamptz e) (env_now (S (w_tick w2)))); [by rewrite decide_True|rewrite decide_False; [done|lia]].
    + by apply bool_decide_eq_true.
    + intros id' k' Hk' Hh%bool_decide_eq_true. by eapply Honly.
Qed.

(** a revoked key never authenticates again: after Revoke, whatever fails in
    VerifyAPIKey, as long as the keys' table is the one Revoke left, the raw key
    of the revoked row is refused. *)
Theorem Revoke_final {PL : Platform} `{SHA256} raw id w w1 w2
  (Honly : only_key raw id (w_db w))
  (Hrevoke : run (APIKeyRepo_Revoke id) w = (w1, inr tt))
  (Hkeys : api_keys (w_db w2) = api_keys (w_db w1)) :
  ∃ e, (run (AuthService_VerifyAPIKey raw) w2).2 = inl e ∧ (e = ErrAPIKeyRevoked ∨ e = ErrInvalidCredentials).
Proof.
  apply run_sql_inr in Hrevoke as (d & Hs & ->). invert_stmt. cbn [w_db set_db] in Hkeys.
  unfold AuthService_VerifyAPIKey. cbn [APIKeyRepo APIKeys_GetByHash]. rewrite run_pbind.
  destruct (GetByHash_read raw w2) as (r & -> & Hread). cbn [fst snd].
  destruct r as [e|k]; [by eauto|]. destruct Hread as (Hh & i & Hi). rewrite Hkeys in Hi.
  cbn [api_keys set_api_keys] in Hi. assert (is_Some (APIKey_RevokedAt k)) as [t Ht].
  { destruct (decide (i = id)) as [->|Hne].
    - rewrite lookup_alter_eq in Hi. apply fmap_Some in Hi as (k0 & Hk0 & ->). by eexists.
    - rewrite lookup_alter_ne in Hi by done. destruct (Hne (Honly _ _ Hi Hh)). }
  rewrite Ht. by eauto.
Qed.

(** ** Witnesses *)

(** Toy libraries: a hash that contains the password, a digest of the first
    bytes, and tokens that contain the key and the claims. *)
Definition demo_bcrypt : Bcrypt := {|
  bcrypt_Generate rnd password :=
    match rnd with
    | None => inl ErrRand
    | Some _ => if decide (String.length password <= 72) then inr ("$2a$" +:+ password) else inl (ErrNew "too long")
    end;
  bcrypt_Compare hash password := bool_decide (hash = "$2a$" +:+ password) |}.

#[export] Instance demo_bcrypt_laws : BcryptLaws demo_bcrypt.
Proof.
  intros rnd password hash. simpl. destruct rnd; [|done]. case_decide; intros; simplify_eq.
  by apply bool_decide_eq_true.
Qed.

Definition demo_sha256 : SHA256 := λ s, take_string 32 (s +:+ "00000000000000000000000000000000").

#[export] Instance demo_sha256_laws : SHA256Laws demo_sha256.
Proof. intros s. apply take_string_length. rewrite string_length_app. simpl. lia. Qed.

#[export] Instance MapClaims_eq_dec : EqDecision MapClaims.
Proof. solve_decision. Defined.

#[export] Instance MapClaims_countable : Countable MapClaims.
Proof.
  refine (inj_countable' (λ c, (claim_sub c, claim_exp c, claim_iat c))
    (λ t, mkMapClaims t.1.1 t.1.2 t.2) _). by intros [].
Defined.

Definition demo_jwt_parts (key token : string) : option MapClaims :=
  if HasPrefix token key then digits_pos (bytes (TrimPrefix token key)) ≫= decode else None.

#[export] Instance jwt_method_eq_dec : EqDecision jwt_method.
Proof. solve_decision. Defined.

Definition demo_jwt : JWT := {|
  jwt_SignedString c key := inr (key +:+ of_bytes (pos_digits (encode c)));
  jwt_Parse token keyfunc now :=
    match keyfunc SigningMethodHS256 with
    | inl e => inl e
    | inr key =>
        match demo_jwt_parts key token with
        | Some c => if claims_expired c now then inl (ErrNew "token is expired") else inr c
        | None => inl (ErrNew "token is malformed")
        end
    end;
  jwt_verifies m key token := bool_decide (m = SigningMethodHMAC 256) && bool_decide (is_Some (demo_jwt_parts key token)) |}.

#[export] Instance demo_jwt_laws : JWTLaws demo_jwt.
Proof.
  split.
  - simpl. intros token keyfunc now c. destruct (keyfunc SigningMethodHS256) as [e|key] eqn:Ek; [done|].
    destruct (demo_jwt_parts key token) as [c'|] eqn:Ep; [|done].
    destruct (claims_expired c' now) eqn:Ee; [done|]. intros; simplify_eq. split; [done|].
    exists SigningMethodHS256, key. split; [done|]. rewrite Ep. done.
  - simpl. intros c key token keyfunc now Hs Hk. simplify_eq. rewrite Hk.
    unfold demo_jwt_parts. rewrite HasPrefix_app, TrimPrefix_app, bytes_of_bytes, digits_pos_digits. simpl.
    rewrite decode_encode. destruct (claims_expired c now); eauto.
Qed.

Definition demo_auth : AuthService := mkAuthService "k3y" 3600000000000.

Definition demo_registered :=
  run (AuthService_Register (PL := demo) (H := demo_bcrypt) "owner@example.org" "hunter2" "Owner") (demo_world empty_DB).

Definition demo_user : User :=
  match demo_registered.2 with inr u => u | inl _ => mkUser 0 "" "" None 0 0 end.

Definition demo_login :=
  run (AuthService_Login (PL := demo) (H := demo_bcrypt) (H1 := demo_jwt) demo_auth "owner@example.org" "hunter2")
    demo_registered.1.

Definition demo_token : string := match demo_login.2 with inr (t, _) => t | inl _ => EmptyString end.

Lemma demo_registered_result : demo_registered.2 = inr demo_user.
Proof. vm_compute. reflexivity. Qed.

Lemma demo_login_result : demo_login.2 = inr (demo_token, demo_user).
Proof. vm_compute. reflexivity. Qed.

Lemma demo_accounts_wf : accounts_wf empty_DB.
Proof. split; intros *; simpl; by rewrite lookup_empty. Qed.

Lemma Register_correct_witness :
  accounts_wf (w_db demo_registered.1) ∧
  bcrypt_Compare (Bcrypt := demo_bcrypt) (User_PasswordHash demo_user) "hunter2" = true.
Proof.
  destruct (@Register_correct demo demo_bcrypt demo_bcrypt_laws "owner@example.org" "hunter2" "Owner"
    (demo_world empty_DB) demo_registered.1 (inr demo_user) demo_accounts_wf) as (Hwf & _ & _ & _ & _ & Hc).
  - rewrite <-demo_registered_result. apply surjective_pairing.
  - done.
Defined.

Definition demo_account_db : DB :=
  set_users (λ _, {[ 1%N := mkUser 1 "owner@example.org" "$2a$hunter2" None 0 0 ]}) empty_DB.

Lemma demo_account_wf : accounts_wf demo_account_db.
Proof.
  split; simpl.
  - intros id u [<- <-]%lookup_singleton_Some. done.
  - by intros id1 id2 u1 u2 [<- _]%lookup_singleton_Some [<- _]%lookup_singleton_Some.
Qed.

Lemma Login_outcomes_witness :
  (run (AuthService_Login (PL := demo) (H := demo_bcrypt) (H1 := demo_jwt) demo_auth "owner@example.org" "wrong")
     (demo_world demo_account_db)).2 = inl ErrInvalidCredentials.
Proof.
  pose proof (@Login_outcomes demo _ demo_bcrypt demo_jwt demo_auth "owner@example.org" "wrong"
    (demo_world demo_account_db) demo_account_wf) as Hl.
  destruct (run _ _) as [w' res]. destruct Hl as (_ & _ & Hl).
  apply (Hl 1%N (mkUser 1 "owner@example.org" "$2a$hunter2" None 0 0)); done.
Defined.

Lemma Login_VerifyJWT_roundtrip_witness :
  (run (AuthService_VerifyJWT (PL := demo) (H1 := demo_jwt) demo_auth demo_token) (demo_world empty_DB)).2 =
  inr (User_ID demo_user).
Proof.
  pose proof (@Login_VerifyJWT_roundtrip demo _ demo_bcrypt demo_jwt demo_jwt_laws demo_auth
    "owner@example.org" "hunter2" demo_registered.1 demo_login.1 demo_token demo_user (demo_world empty_DB)) as Hr.
  cbv zeta in Hr. rewrite decide_True in Hr; [apply Hr|vm_compute; reflexivity].
  rewrite <-demo_login_result. apply surjective_pairing.
Defined.

Lemma VerifyJWT_sound_witness :
  ∃ hash, jwt_verifies (JWT := demo_jwt) (SigningMethodHMAC hash) "k3y" demo_token = true.
Proof.
  destruct (@VerifyJWT_sound demo demo_jwt demo_jwt_laws demo_auth demo_token (demo_world empty_DB)
    (run (AuthService_VerifyJWT (PL := demo) (H1 := demo_jwt) demo_auth demo_token) (demo_world empty_DB)).1 1002%N)
    as (_ & hash & _ & Hv & _); [|by exists hash].
  apply run_result. vm_compute. reflexivity.
Defined.

(** A key created, and used. *)
Definition demo_created :=
  run (AuthService_CreateAPIKey (PL := demo) (H0 := demo_sha256) 1%N "cli" None (Some 90000000000%Z))
    (demo_world demo_account_db).

Definition demo_raw_key : string := match demo_created.2 with inr (raw, _) => raw | inl _ => EmptyString end.

Definition demo_key_row : APIKey :=
  match demo_created.2 with inr (_, k) => k | inl _ => mkAPIKey 0 0 None "" None None None 0 end.

Lemma demo_created_result : demo_created.2 = inr (demo_raw_key, demo_key_row).
Proof. vm_compute. reflexivity. Qed.

Lemma demo_created_keys : api_keys (w_db demo_created.1) = {[ 1001%N := demo_key_row ]}.
Proof. vm_compute. reflexivity. Qed.

Lemma demo_only_key : only_key (H := demo_sha256) demo_raw_key 1001%N (w_db demo_created.1).
Proof. intros id k. rewrite demo_created_keys. by intros [<- _]%lookup_singleton_Some. Qed.

Lemma VerifyAPIKey_sound_witness :
  ∃ id k, api_keys (w_db demo_created.1) !! id = Some k ∧ APIKey_UserID k = 1%N.
Proof.
  destruct (@VerifyAPIKey_sound demo demo_sha256 demo_raw_key demo_created.1
    (run (AuthService_VerifyAPIKey (PL := demo) (H0 := demo_sha256) demo_raw_key) demo_created.1).1 1%N)
    as (_ & id & k & Hk & _ & Hu & _).
  - apply run_result. vm_compute. reflexivity.
  - by exists id, k.
Defined.

Lemma CreateAPIKey_VerifyAPIKey_witness :
  String.length demo_raw_key = 47%nat ∧
  (run (AuthService_VerifyAPIKey (PL := demo) (H0 := demo_sha256) demo_raw_key) demo_created.1).2 = inr 1%N.
Proof.
  destruct (@CreateAPIKey_VerifyAPIKey demo _ demo_sha256 demo_sha256_laws 1%N "cli" None (Some 90000000000%Z)
    (demo_world demo_account_db) demo_created.1 demo_raw_key demo_key_row demo_created.1)
    as (Hl & _ & _ & _ & _ & _ & Hv).
  - rewrite <-demo_created_result. apply surjective_pairing.
  - vm_compute. reflexivity.
  - apply demo_only_key.
  - split; [done|]. rewrite Hv. vm_compute. reflexivity.
Defined.

Lemma Revoke_final_witness :
  ∃ e, (run (AuthService_VerifyAPIKey (PL := demo) (H0 := demo_sha256) demo_raw_key)
          (run (APIKeyRepo_Revoke (PL := demo) 1001%N) demo_created.1).1).2 = inl e.
Proof.
  destruct (@Revoke_final demo demo_sha256 demo_raw_key 1001%N demo_created.1
    (run (APIKeyRepo_Revoke (PL := demo) 1001%N) demo_created.1).1
    (run (APIKeyRepo_Revoke (PL := demo) 1001%N) demo_created.1).1) as (e & He & _).
  - apply demo_only_key.
  - apply run_result. vm_compute. reflexivity.
  - done.
  - by exists e.
Defined.
