(* ===== verification/Tables.v ===== *)
(** * The writes of the program, as a step relation on the tables

    [statement d d'] has a rule per write that the running program sends to the
    database, with the conditions the schema checks.  An invariant of the tables
    is proved once per rule; System.v shows that every front end of the program
    performs such statements only. *)

From S2P Require Import Prelude GoStrings Domain Schema Platform Effects Interfaces RepoLinks RepoUsers RepoSessions RepoGuests RepoLogs Links Enforcement Crypto Import Auth.

Open Scope go_scope.

(** ** Statements *)

Section statements.
(** What the values of stored credentials satisfy. *)
Context (sealed : string → Prop).

Definition exists_in {V} (m : gmap UUID V) (id : UUID) : Prop := is_Some (m !! id).
Definition exists_opt {V} (m : gmap UUID V) (id : option UUID) : Prop :=
  match id with Some id => is_Some (m !! id) | None => True end.

Inductive statement (d : DB) : DB → Prop :=
| st_user id x : users d !! id = None → User_ID x = id → email_taken d id (User_Email x) = false →
    statement d (set_users <[id := x]> d)
| st_device id x : devices d !! id = None → Device_ID x = id → exists_in (users d) (Device_UserID x) →
    statement d (set_devices <[id := x]> d)
| st_drop_device id :
    statement d (set_api_keys (fmap (APIKey_clear_device id))
      (set_original_sessions (fmap (OriginalSession_clear_device id)) (set_devices (delete id) d)))
| st_key id x : api_keys d !! id = None → APIKey_ID x = id → exists_in (users d) (APIKey_UserID x) →
    exists_opt (devices d) (APIKey_DeviceID x) →
    statement d (set_api_keys <[id := x]> d)
| st_revoke id now : statement d (set_api_keys (alter (APIKey_revoke now) id) d)
| st_site id x : target_sites d !! id = None → TargetSite_ID x = id →
    statement d (set_target_sites <[id := x]> d)
| st_session id x : original_sessions d !! id = None → OriginalSession_ID x = id →
    exists_in (users d) (OriginalSession_UserID x) →
    exists_in (target_sites d) (OriginalSession_TargetSiteID x) →
    exists_opt (devices d) (OriginalSession_DeviceID x) →
    statement d (set_original_sessions <[id := x]> d)
| st_cookie id x : session_cookies d !! id = None → SessionCookie_ID x = id →
    exists_in (original_sessions d) (SessionCookie_OriginalSessionID x) →
    sealed (SessionCookie_ValueEncrypted x) →
    statement d (set_session_cookies <[id := x]> d)
| st_token id x : session_tokens d !! id = None → SessionToken_ID x = id →
    exists_in (original_sessions d) (SessionToken_OriginalSessionID x) →
    sealed (SessionToken_ValueEncrypted x) →
    statement d (set_session_tokens <[id := x]> d)
| st_link id x : shared_links d !! id = None → SharedLink_ID x = id →
    (∀ i l, shared_links d !! i = Some l → SharedLink_Token l ≠ SharedLink_Token x) →
    exists_in (original_sessions d) (SharedLink_OriginalSessionID x) →
    statement d (set_shared_links <[id := x]> d)
| st_terminate_link id :
    statement d (set_shared_links (alter (SharedLink_with_status LinkStatusTerminated) id) d)
| st_policy id x : access_policies d !! id = None → AccessPolicy_ID x = id →
    exists_in (users d) (AccessPolicy_UserID x) →
    statement d (set_access_policies <[id := x]> d)
| st_drop_policy id :
    statement d (set_link_policies (filter (λ lp : UUID * UUID, lp.2 ≠ id)) (set_access_policies (delete id) d))
| st_link_policy l p : exists_in (shared_links d) l → exists_in (access_policies d) p →
    statement d (set_link_policies (union {[(l, p)]}) d)
| st_endpoint id x : blacklisted_endpoints d !! id = None → BlacklistedEndpoint_ID x = id →
    exists_in (users d) (BlacklistedEndpoint_UserID x) →
    statement d (set_blacklisted_endpoints <[id := x]> d)
| st_drop_endpoint id :
    statement d (set_endpoint_blocked_methods (filter (λ em : UUID * string, em.1 ≠ id))
      (set_site_endpoint_rules (filter (λ r : UUID * UUID, r.2 ≠ id))
        (set_link_endpoint_rules (filter (λ r : UUID * UUID, r.2 ≠ id))
          (set_blacklisted_endpoints (delete id) d))))
| st_clear_methods id :
    statement d (set_endpoint_blocked_methods (filter (λ em : UUID * string, em.1 ≠ id)) d)
| st_method id m : exists_in (blacklisted_endpoints d) id →
    statement d (set_endpoint_blocked_methods (union {[(id, m)]}) d)
| st_site_rule s e : exists_in (target_sites d) s → exists_in (blacklisted_endpoints d) e →
    statement d (set_site_endpoint_rules (union {[(s, e)]}) d)
| st_link_rule l e : exists_in (shared_links d) l → exists_in (blacklisted_endpoints d) e →
    statement d (set_link_endpoint_rules (union {[(l, e)]}) d)
| st_guest id x : guests d !! id = None → Guest_ID x = id → statement d (set_guests <[id := x]> d)
| st_guest_seen id now : statement d (set_guests (alter (Guest_seen now) id) d)
| st_guest_session id x : guest_sessions d !! id = None → GuestSession_ID x = id →
    exists_in (shared_links d) (GuestSession_SharedLinkID x) →
    exists_opt (guests d) (GuestSession_GuestID x) →
    statement d (set_guest_sessions <[id := x]> d)
| st_touch id now : statement d (set_guest_sessions (alter (GuestSession_touch now) id) d)
| st_usage id x : UsageCounters_SharedLinkID x = id → exists_in (shared_links d) id →
    statement d (set_usage_counters <[id := x]> d)
| st_log x : exists_in (shared_links d) (ProxyAccessLog_SharedLinkID x) →
    exists_opt (guest_sessions d) (ProxyAccessLog_GuestSessionID x) →
    statement d (set_proxy_access_logs (λ ls, ls ++ [x]) d)
| st_termination id x : link_terminations d !! id = None → LinkTermination_ID x = id →
    exists_in (shared_links d) (LinkTermination_SharedLinkID x) →
    exists_opt (users d) (LinkTermination_TerminatedBy x) →
    statement d (set_link_terminations <[id := x]> d)
| st_event x : exists_in (shared_links d) (SecurityEvent_SharedLinkID x) →
    exists_opt (guest_sessions d) (SecurityEvent_GuestSessionID x) →
    statement d (set_security_events (λ es, es ++ [x]) d).

(** A sequence of statements, of one client or of several. *)
Definition statements : DB → DB → Prop := rtc statement.

#[export] Instance statements_preorder : PreOrder statements.
Proof. apply rtc_po. Qed.

(** An invariant of the tables is kept by every sequence of statements. *)
Lemma statements_invariant (I : DB → Prop) d d' :
  (∀ d d', statement d d' → I d → I d') → statements d d' → I d → I d'.
Proof. intros HI. induction 1; eauto. Qed.

(** A relation that every statement respects is respected by sequences. *)
Lemma statements_relation (R : DB → DB → Prop) `{!PreOrder R} d d' :
  (∀ d d', statement d d' → R d d') → statements d d' → R d d'.
Proof. intros HR. induction 1; [done|]. etrans; eauto. Qed.
End statements.

Lemma statements_mono (sealed sealed' : string → Prop) d d' :
  (∀ s, sealed s → sealed' s) → statements sealed d d' → statements sealed' d d'.
Proof.
  intros Hs. induction 1 as [d|d1 d2 d3 Hst _ IH]; [reflexivity|]. eapply rtc_l; [|exact IH].
  destruct Hst; econstructor; eauto.
Qed.

(** ** Well-formed databases *)

(** Rows are stored under their id. *)
Definition keyed {V} (key : V → UUID) (m : gmap UUID V) : Prop := ∀ id x, m !! id = Some x → key x = id.

(** A UNIQUE column. *)
Definition distinct {V A} (col : V → A) (m : gmap UUID V) : Prop :=
  ∀ i j x y, m !! i = Some x → m !! j = Some y → col x = col y → i = j.

(** A foreign key: the row it names exists. *)
Definition refers {V V'} (col : V → UUID) (m : gmap UUID V) (m' : gmap UUID V') : Prop :=
  ∀ id x, m !! id = Some x → is_Some (m' !! col x).
Definition refers_opt {V V'} (col : V → option UUID) (m : gmap UUID V) (m' : gmap UUID V') : Prop :=
  ∀ id x y, m !! id = Some x → col x = Some y → is_Some (m' !! y).
Definition pairs_refer {A V} (col : A → UUID) (X : A → Prop) (m' : gmap UUID V) : Prop :=
  ∀ p, X p → is_Some (m' !! col p).

Record db_wf (sealed : string → Prop) (d : DB) : Prop := {
  wf_accounts : accounts_wf d;
  wf_devices : keyed Device_ID (devices d);
  wf_keys : keyed APIKey_ID (api_keys d);
  wf_sites : keyed TargetSite_ID (target_sites d);
  wf_sessions : keyed OriginalSession_ID (original_sessions d);
  wf_links : keyed SharedLink_ID (shared_links d);
  wf_policies : keyed AccessPolicy_ID (access_policies d);
  wf_endpoints : keyed BlacklistedEndpoint_ID (blacklisted_endpoints d);
  wf_guests : keyed Guest_ID (guests d);
  wf_guest_sessions : keyed GuestSession_ID (guest_sessions d);
  wf_usage : keyed UsageCounters_SharedLinkID (usage_counters d);
  wf_terminations : keyed LinkTermination_ID (link_terminations d);
  wf_tokens_unique : distinct SharedLink_Token (shared_links d);
  wf_sealed_cookies : map_Forall (λ _ c, sealed (SessionCookie_ValueEncrypted c)) (session_cookies d);
  wf_sealed_tokens : map_Forall (λ _ t, sealed (SessionToken_ValueEncrypted t)) (session_tokens d);
  wf_device_user : refers Device_UserID (devices d) (users d);
  wf_key_user : refers APIKey_UserID (api_keys d) (users d);
  wf_key_device : refers_opt APIKey_DeviceID (api_keys d) (devices d);
  wf_session_user : refers OriginalSession_UserID (original_sessions d) (users d);
  wf_session_site : refers OriginalSession_TargetSiteID (original_sessions d) (target_sites d);
  wf_session_device : refers_opt OriginalSession_DeviceID (original_sessions d) (devices d);
  wf_cookie_session : refers SessionCookie_OriginalSessionID (session_cookies d) (original_sessions d);
  wf_token_session : refers SessionToken_OriginalSessionID (session_tokens d) (original_sessions d);
  wf_link_session : refers SharedLink_OriginalSessionID (shared_links d) (original_sessions d);
  wf_policy_user : refers AccessPolicy_UserID (access_policies d) (users d);
  wf_endpoint_user : refers BlacklistedEndpoint_UserID (blacklisted_endpoints d) (users d);
  wf_link_policies : pairs_refer fst (.∈ link_policies d) (shared_links d);
  wf_policies_linked : pairs_refer snd (.∈ link_policies d) (access_policies d);
  wf_methods : pairs_refer fst (.∈ endpoint_blocked_methods d) (blacklisted_endpoints d);
  wf_site_rules : pairs_refer fst (.∈ site_endpoint_rules d) (target_sites d);
  wf_site_rule_endpoints : pairs_refer snd (.∈ site_endpoint_rules d) (blacklisted_endpoints d);
  wf_link_rules : pairs_refer fst (.∈ link_endpoint_rules d) (shared_links d);
  wf_link_rule_endpoints : pairs_refer snd (.∈ link_endpoint_rules d) (blacklisted_endpoints d);
  wf_guest_session_link : refers GuestSession_SharedLinkID (guest_sessions d) (shared_links d);
  wf_guest_session_guest : refers_opt GuestSession_GuestID (guest_sessions d) (guests d);
  wf_usage_link : refers UsageCounters_SharedLinkID (usage_counters d) (shared_links d);
  wf_termination_link : refers LinkTermination_SharedLinkID (link_terminations d) (shared_links d);
  wf_termination_user : refers_opt LinkTermination_TerminatedBy (link_terminations d) (users d);
  wf_log_link : pairs_refer ProxyAccessLog_SharedLinkID (.∈ proxy_access_logs d) (shared_links d);
  wf_event_link : pairs_refer SecurityEvent_SharedLinkID (.∈ security_events d) (shared_links d) }.

(** ** Lemmas *)

Create HintDb wf.

Section columns.
Context {V V' : Type}.

Lemma keyed_insert (key : V → UUID) (m : gmap UUID V) id x : keyed key m → key x = id → keyed key (<[id := x]> m).
Proof. intros Hk Hx i y. rewrite lookup_insert_Some. intros [[<- <-]|[_ ?]]; eauto. Qed.
Lemma keyed_delete (key : V → UUID) (m : gmap UUID V) id : keyed key m → keyed key (delete id m).
Proof. intros Hk i y. rewrite lookup_delete_Some. intros [_ ?]. eauto. Qed.
Lemma keyed_alter (key : V → UUID) (m : gmap UUID V) f id : keyed key m → (∀ x, key (f x) = key x) → keyed key (alter f id m).
Proof.
  intros Hk Hf i y. rewrite lookup_alter_Some. intros [(<- & x & Hx & ->)|[_ ?]]; [rewrite Hf|]; eauto.
Qed.
Lemma keyed_fmap (key : V → UUID) (m : gmap UUID V) f : keyed key m → (∀ x, key (f x) = key x) → keyed key (f <$> m).
Proof. intros Hk Hf i y. rewrite lookup_fmap_Some. intros (x & <- & ?). rewrite Hf. eauto. Qed.

Lemma distinct_insert {A} (col : V → A) (m : gmap UUID V) id x :
  distinct col m → (∀ i y, m !! i = Some y → col y ≠ col x) → distinct col (<[id := x]> m).
Proof.
  intros Hd Hn i j y z. rewrite !lookup_insert_Some.
  intros [[<- <-]|[_ Hi]] [[<- <-]|[_ Hj]] He; [done| | |eauto]; exfalso; by eapply Hn.
Qed.
Lemma distinct_alter {A} (col : V → A) (m : gmap UUID V) f id :
  distinct col m → (∀ x, col (f x) = col x) → distinct col (alter f id m).
Proof.
  intros Hd Hf i j y z. rewrite !lookup_alter_Some.
  intros [(<- & y' & Hi & ->)|[_ Hi]] [(<- & z' & Hj & ->)|[_ Hj]]; rewrite ?Hf; eauto.
Qed.

(** The table with the foreign key changes. *)
Lemma refers_insert (col : V → UUID) (m : gmap UUID V) (m' : gmap UUID V') id x :
  refers col m m' → is_Some (m' !! col x) → refers col (<[id := x]> m) m'.
Proof. intros Hr Hx i y. rewrite lookup_insert_Some. intros [[_ <-]|[_ ?]]; eauto. Qed.
Lemma refers_delete (col : V → UUID) (m : gmap UUID V) (m' : gmap UUID V') id : refers col m m' → refers col (delete id m) m'.
Proof. intros Hr i y. rewrite lookup_delete_Some. intros [_ ?]. eauto. Qed.
Lemma refers_alter (col : V → UUID) (m : gmap UUID V) (m' : gmap UUID V') f id :
  refers col m m' → (∀ x, col (f x) = col x) → refers col (alter f id m) m'.
Proof.
  intros Hr Hf i y. rewrite lookup_alter_Some. intros [(<- & x & Hx & ->)|[_ ?]]; [rewrite Hf|]; eauto.
Qed.
Lemma refers_fmap (col : V → UUID) (m : gmap UUID V) (m' : gmap UUID V') f : refers col m m' → (∀ x, col (f x) = col x) → refers col (f <$> m) m'.
Proof. intros Hr Hf i y. rewrite lookup_fmap_Some. intros (x & <- & ?). rewrite Hf. eauto. Qed.

Lemma refers_opt_insert (col : V → option UUID) (m : gmap UUID V) (m' : gmap UUID V') id x :
  refers_opt col m m' → exists_opt m' (col x) → refers_opt col (<[id := x]> m) m'.
Proof.
  intros Hr Hx i y z. rewrite lookup_insert_Some. intros [[_ <-]|[_ ?]]; [|eauto].
  intros Hz. by rewrite Hz in Hx.
Qed.
Lemma refers_opt_alter (col : V → option UUID) (m : gmap UUID V) (m' : gmap UUID V') f id :
  refers_opt col m m' → (∀ x, col (f x) = col x) → refers_opt col (alter f id m) m'.
Proof.
  intros Hr Hf i y z. rewrite lookup_alter_Some. intros [(<- & x & Hx & ->)|[_ ?]]; [rewrite Hf|]; eauto.
Qed.

(** The table it refers to grows, or keeps its rows. *)
Definition grows (m1 m2 : gmap UUID V') : Prop := ∀ id, is_Some (m1 !! id) → is_Some (m2 !! id).

Lemma grows_insert (m' : gmap UUID V') id x : grows m' (<[id := x]> m').
Proof. intros i Hi. rewrite lookup_insert_is_Some'. auto. Qed.
Lemma grows_alter (m' : gmap UUID V') f id : grows m' (alter f id m').
Proof. intros i Hi. by apply lookup_alter_is_Some. Qed.
Lemma grows_fmap (m' : gmap UUID V') (f : V' → V') : grows m' (f <$> m').
Proof. intros i Hi. by rewrite lookup_fmap, fmap_is_Some. Qed.

Lemma refers_target (col : V → UUID) (m : gmap UUID V) m1 m2 : refers col m m1 → grows m1 m2 → refers col m m2.
Proof. intros Hr Hg i x Hx. eapply Hg, Hr, Hx. Qed.
Lemma refers_opt_target (col : V → option UUID) (m : gmap UUID V) m1 m2 : refers_opt col m m1 → grows m1 m2 → refers_opt col m m2.
Proof. intros Hr Hg i x y Hx Hy. eapply Hg, Hr; eauto. Qed.
Lemma pairs_target {A} (col : A → UUID) X (m1 m2 : gmap UUID V') :
  pairs_refer col X m1 → grows m1 m2 → pairs_refer col X m2.
Proof. intros Hr Hg p Hp. by apply Hg, Hr. Qed.

(** Pairs and lists. *)
Lemma pairs_union `{Countable A} (col : A → UUID) (X : gset A) p (m' : gmap UUID V') :
  pairs_refer col (.∈ X) m' → is_Some (m' !! col p) → pairs_refer col (.∈ {[p]} ∪ X) m'.
Proof. intros Hr Hp q [->%elem_of_singleton|?]%elem_of_union; auto. Qed.
Lemma pairs_filter `{Countable A} (col : A → UUID) (X : gset A) (Q : A → Prop) `{∀ x, Decision (Q x)} (m' : gmap UUID V') :
  pairs_refer col (.∈ X) m' → pairs_refer col (.∈ filter Q X) m'.
Proof. intros Hr q [_ Hq]%elem_of_filter. auto. Qed.
Lemma pairs_filter_delete `{Countable A} (col : A → UUID) (X : gset A) id (m' : gmap UUID V') :
  pairs_refer col (.∈ X) m' → pairs_refer col (.∈ filter (λ x, col x ≠ id) X) (delete id m').
Proof. intros Hr q [Hne Hq]%elem_of_filter. rewrite lookup_delete_ne by done. auto. Qed.
Lemma pairs_snoc {A} (col : A → UUID) (l : list A) p (m' : gmap UUID V') :
  pairs_refer col (.∈ l) m' → is_Some (m' !! col p) → pairs_refer col (.∈ l ++ [p]) m'.
Proof. intros Hr Hp q [?| ->%list_elem_of_singleton]%elem_of_app; auto. Qed.
End columns.

#[export] Hint Resolve keyed_insert keyed_delete keyed_alter keyed_fmap refers_insert refers_delete refers_alter
  refers_fmap refers_opt_insert refers_opt_alter grows_insert grows_alter grows_fmap pairs_union pairs_filter
  pairs_snoc distinct_insert distinct_alter map_Forall_insert_2 : wf.
#[export] Hint Resolve refers_target refers_opt_target pairs_target | 10 : wf.
#[export] Hint Unfold exists_in : wf.

(** Deleting a device clears the references to it. *)
Lemma clear_key_device id k y : APIKey_DeviceID (APIKey_clear_device id k) = Some y → y ≠ id ∧ APIKey_DeviceID k = Some y.
Proof. unfold APIKey_clear_device. case_decide; simpl; [done|]. intros Hy. split; [congruence|done]. Qed.
Lemma clear_session_device id s y :
  OriginalSession_DeviceID (OriginalSession_clear_device id s) = Some y → y ≠ id ∧ OriginalSession_DeviceID s = Some y.
Proof. unfold OriginalSession_clear_device. case_decide; simpl; [done|]. intros Hy. split; [congruence|done]. Qed.

Lemma refers_opt_clear {V V'} (col : V → option UUID) f id (m : gmap UUID V) (m' : gmap UUID V') :
  refers_opt col m m' → (∀ x y, col (f x) = Some y → y ≠ id ∧ col x = Some y) →
  refers_opt col (f <$> m) (delete id m').
Proof.
  intros Hr Hf i y z. rewrite lookup_fmap_Some. intros (x & <- & Hx) [Hne Hc]%Hf.
  rewrite lookup_delete_ne by done. eauto.
Qed.

Lemma accounts_wf_same d d' : users d' = users d → accounts_wf d → accounts_wf d'.
Proof. intros E [H1 H2]. split; by rewrite E. Qed.

Lemma clear_key_same id k :
  APIKey_ID (APIKey_clear_device id k) = APIKey_ID k ∧ APIKey_UserID (APIKey_clear_device id k) = APIKey_UserID k.
Proof. unfold APIKey_clear_device. by case_decide. Qed.
Lemma clear_session_same id s :
  let s' := OriginalSession_clear_device id s in
  OriginalSession_ID s' = OriginalSession_ID s ∧ OriginalSession_UserID s' = OriginalSession_UserID s ∧
  OriginalSession_TargetSiteID s' = OriginalSession_TargetSiteID s.
Proof. simpl. unfold OriginalSession_clear_device. by case_decide. Qed.

#[export] Hint Resolve pairs_filter_delete | 1 : wf.
#[export] Hint Extern 2 (accounts_wf _) => eapply accounts_wf_same; [|eassumption]; reflexivity : wf.
#[export] Hint Extern 1 (keyed _ (_ <$> _)) =>
  apply keyed_fmap; [|intros ?; first [apply clear_key_same|apply clear_session_same]] : wf.
#[export] Hint Extern 1 (refers _ (_ <$> _) _) =>
  apply refers_fmap; [|intros ?; first [apply clear_key_same|apply clear_session_same]] : wf.
#[export] Hint Extern 1 (refers_opt _ (_ <$> _) (delete _ _)) =>
  eapply refers_opt_clear; [|first [apply clear_key_device|apply clear_session_device]] : wf.

(** Every statement keeps the database well formed. *)
Lemma statement_wf sealed d d' : statement sealed d d' → db_wf sealed d → db_wf sealed d'.
Proof.
  intros Hst Hwf. destruct Hst; destruct Hwf; split; simpl; try assumption; eauto 3 with wf.
  - apply accounts_wf_insert; [done|done|]. by eapply email_taken_false.
  - by apply map_Forall_insert_2.
  - by apply map_Forall_insert_2.
  - apply refers_insert; [done|by subst].
Qed.

Lemma db_wf_empty sealed : db_wf sealed empty_DB.
Proof.
  split; [split| ..]; try (intros ?*; by rewrite ?lookup_empty); try apply map_Forall_empty;
    intros p Hp; simpl in Hp; set_solver.
Qed.

(** ** The repositories' writes *)

(** The checks of a statement, as the premises of the rules. *)
Ltac check_facts :=
  repeat match goal with
  | Hf : _ && _ = true |- _ => apply andb_true_iff in Hf as [? ?]
  | Hf : fresh_in _ _ = true |- _ => apply fresh_in_spec in Hf
  | Hf : references _ _ = true |- _ => apply references_spec in Hf
  | Hf : negb (email_taken _ _ _) = true |- _ => apply negb_true_iff in Hf
  end.

Lemma references_opt_spec {V} (m : gmap UUID V) id : references_opt m id = true → exists_opt m id.
Proof. destruct id; [apply references_spec|done]. Qed.

Lemma token_free d token :
  negb (existsb (λ l', bool_decide (SharedLink_Token l' = token)) (rows (shared_links d))) = true →
  ∀ i l, shared_links d !! i = Some l → SharedLink_Token l ≠ token.
Proof.
  intros Hn i l Hl E. apply negb_true_iff, not_true_iff_false in Hn. apply Hn, existsb_exists.
  exists l. split; [apply list_elem_of_In, elem_of_rows; eauto|by apply bool_decide_eq_true_2].
Qed.

#[export] Hint Resolve references_opt_spec token_free : wf.

(** One statement: the rule for it, from the checks. *)
Ltac write_step :=
  atoms; cbv zeta in *; invert_stmt; check_facts;
  first [reflexivity | apply rtc_once; econstructor; eauto with wf].

Section writes.
Context {PL : Platform} (sealed : string → Prop).
Local Abbreviation writes p := (all_atoms (on_db (statements sealed)) p).

#[export] Instance statements_step : EnforcementStep (statements sealed).
Proof.
  split; intros; check_facts; apply rtc_once.
  - apply st_terminate_link.
  - apply st_termination; auto with wf.
  - apply st_event; auto with wf.
Qed.

Lemma writes_User u : writes (UserRepo_Create u).
Proof. unfold UserRepo_Create, scanUser. write_step. Qed.
Lemma writes_Device dev : writes (DeviceRepo_Create dev).
Proof. unfold DeviceRepo_Create, scanDevice. write_step. Qed.
Lemma writes_Device_Delete id : writes (DeviceRepo_Delete id).
Proof. unfold DeviceRepo_Delete. write_step. Qed.
Lemma writes_APIKey k : writes (APIKeyRepo_Create k).
Proof. unfold APIKeyRepo_Create, scanAPIKey. write_step. Qed.
Lemma writes_Revoke id : writes (APIKeyRepo_Revoke id).
Proof. unfold APIKeyRepo_Revoke. write_step. Qed.
Lemma writes_Site domain name url : writes (TargetSiteRepo_GetOrCreateByDomain domain name url).
Proof.
  unfold TargetSiteRepo_GetOrCreateByDomain, TargetSiteRepo_Create, scanTargetSite, select_row. write_step.
Qed.
Lemma writes_Session s : writes (OriginalSessionRepo_Create s).
Proof. unfold OriginalSessionRepo_Create, scanOriginalSession. write_step. Qed.
Lemma writes_Link l : writes (SharedLinkRepo_Create l).
Proof. unfold SharedLinkRepo_Create, scanSharedLink. write_step. Qed.
Lemma writes_terminate id term : writes (terminate_link id term).
Proof.
  unfold terminate_link. repo_links. repo_logs. unfold SharedLinkRepo_UpdateStatus, LinkTerminationRepo_Create.
  write_step.
Qed.
Lemma writes_Policy p : writes (AccessPolicyRepo_Create p).
Proof. unfold AccessPolicyRepo_Create, scanAccessPolicy. write_step. Qed.
Lemma writes_Policy_Delete id : writes (AccessPolicyRepo_Delete id).
Proof. unfold AccessPolicyRepo_Delete. write_step. Qed.
Lemma writes_Policy_Attach l p : writes (AccessPolicyRepo_AttachToLink l p).
Proof. unfold AccessPolicyRepo_AttachToLink. write_step. Qed.
Lemma writes_Endpoint e : writes (BlacklistRepo_Create e).
Proof. unfold BlacklistRepo_Create, scanBlacklistedEndpoint. write_step. Qed.
Lemma writes_Endpoint_Delete id : writes (BlacklistRepo_Delete id).
Proof. unfold BlacklistRepo_Delete. write_step. Qed.
Lemma writes_AttachToSite s e : writes (BlacklistRepo_AttachToSite s e).
Proof. unfold BlacklistRepo_AttachToSite. write_step. Qed.
Lemma writes_AttachToLink l e : writes (BlacklistRepo_AttachToLink l e).
Proof. unfold BlacklistRepo_AttachToLink. write_step. Qed.
Lemma writes_Methods id ms : writes (BlacklistRepo_SetBlockedMethods id ms).
Proof. unfold BlacklistRepo_SetBlockedMethods. write_step. Qed.
Lemma writes_Guest ip ua fp : writes (GuestRepo_GetOrCreate ip ua fp).
Proof. unfold GuestRepo_GetOrCreate, scanGuest, scan_keep_norows. write_step. Qed.
Lemma writes_GuestSession gs : writes (GuestSessionRepo_Create gs).
Proof. unfold GuestSessionRepo_Create, scanGuestSession, scan_keep_norows. write_step. Qed.
Lemma writes_Touch id : writes (GuestSessionRepo_TouchLastRequest id).
Proof. unfold GuestSessionRepo_TouchLastRequest. write_step. Qed.
Lemma writes_Usage c : writes (UsageCounterRepo_Upsert c).
Proof. unfold UsageCounterRepo_Upsert. write_step. Qed.

Lemma insert_log_statement now l d u d' : insert_log now l d = inr (u, d') → statement sealed d d'.
Proof. unfold insert_log. cbv zeta. intros Hs. invert_stmt. check_facts. apply st_log; eauto with wf. Qed.

Lemma insert_logs_statements now ls d u d' : insert_logs now ls d = inr (u, d') → statements sealed d d'.
Proof.
  revert d. induction ls as [|l ls IH]; intros d; cbn [insert_logs].
  - unfold sql_ret. intros; simplify_eq. reflexivity.
  - destruct (insert_log now l d) as [e|[u' d1]] eqn:E; [done|]. intros H%IH.
    eapply rtc_l; [by eapply insert_log_statement|done].
Qed.

Lemma writes_Log l : writes (ProxyAccessLogRepo_Insert l).
Proof. unfold ProxyAccessLogRepo_Insert. atoms. by eapply rtc_once, insert_log_statement. Qed.
Lemma writes_Logs ls : writes (ProxyAccessLogRepo_InsertBatch true ls).
Proof. unfold ProxyAccessLogRepo_InsertBatch. atoms. by eapply insert_logs_statements. Qed.
End writes.

(** ** What no statement undoes *)

(** Keys keep everything but their device, and stay revoked. *)
Definition keys_kept (d d' : DB) : Prop :=
  ∀ id k, api_keys d !! id = Some k → ∃ k', api_keys d' !! id = Some k' ∧
    APIKey_UserID k' = APIKey_UserID k ∧ APIKey_KeyHash k' = APIKey_KeyHash k ∧
    APIKey_ExpiresAt k' = APIKey_ExpiresAt k ∧
    (is_Some (APIKey_RevokedAt k) → is_Some (APIKey_RevokedAt k')).

(** Links stay terminated, keys revoked; users, terminations, access logs and
    security events are only added; the statistics are never refreshed. *)
Record history (d d' : DB) : Prop := {
  hi_links : links_kept d d';
  hi_keys : keys_kept d d';
  hi_users : users d ⊆ users d';
  hi_terminations : link_terminations d ⊆ link_terminations d';
  hi_logs : proxy_access_logs d `prefix_of` proxy_access_logs d';
  hi_events : security_events d `prefix_of` security_events d';
  hi_stats : mv_link_stats d' = mv_link_stats d }.

#[export] Instance keys_kept_preorder : PreOrder keys_kept.
Proof.
  split.
  - intros d id k Hk. by exists k.
  - intros d1 d2 d3 H1 H2 id k Hk. destruct (H1 id k Hk) as (k' & Hk' & ? & ? & ? & ?).
    destruct (H2 id k' Hk') as (k'' & ? & ? & ? & ? & ?). exists k''. split_and!; [done|congruence..|auto].
Qed.

#[export] Instance history_preorder : PreOrder history.
Proof.
  split; [intros d; by split|].
  intros d1 d2 d3 [K1 ? ? ? ? ? ?] [K2 ? ? ? ? ? ?].
  split; first [congruence | exact (transitivity K1 K2) | by etrans].
Qed.

Lemma keys_kept_same d d' : api_keys d' = api_keys d → keys_kept d d'.
Proof. intros E i k Hk. exists k. by rewrite E. Qed.
Lemma keys_kept_insert d d' id k :
  api_keys d !! id = None → api_keys d' = <[id := k]> (api_keys d) → keys_kept d d'.
Proof.
  intros Hn E i k' Hk'. exists k'. by rewrite E, lookup_insert_ne by congruence.
Qed.
Lemma keys_kept_revoke d d' id now :
  api_keys d' = alter (APIKey_revoke now) id (api_keys d) → keys_kept d d'.
Proof.
  intros E i k Hk. rewrite E. destruct (decide (id = i)) as [<-|Hne].
  - rewrite lookup_alter_eq, Hk. eexists. split_and!; [done..|]. by eexists.
  - rewrite lookup_alter_ne by done. by exists k.
Qed.
Lemma keys_kept_clear d d' id : api_keys d' = APIKey_clear_device id <$> api_keys d → keys_kept d d'.
Proof.
  intros E i k Hk. exists (APIKey_clear_device id k). rewrite E, lookup_fmap, Hk.
  split; [done|]. unfold APIKey_clear_device. case_decide; by split_and!.
Qed.

Lemma statement_history sealed d d' : statement sealed d d' → history d d'.
Proof.
  destruct 1; split; simpl;
    first [done | by apply insert_subseteq | by eexists | by apply links_kept_same | by apply keys_kept_same
               | by eapply links_kept_insert
               | by eapply links_kept_terminate | by eapply keys_kept_insert | by eapply keys_kept_revoke
               | by eapply keys_kept_clear].
Qed.

Lemma statements_history sealed d d' : statements sealed d d' → history d d'.
Proof. apply statements_relation; [apply _|apply statement_history]. Qed.

Lemma statements_wf sealed d d' : statements sealed d d' → db_wf sealed d → db_wf sealed d'.
Proof. apply statements_invariant, statement_wf. Qed.
