(* ===== verification/Director.v ===== *)
(** * internal/proxy: the reverse proxy (director.go, stripper.go, bodycounter.go)

    [newReverseProxy] configures [httputil.ReverseProxy] with three functions,
    [Rewrite], [ModifyResponse] and [ErrorHandler]; the type's [ServeHTTP] is
    modelled here as net/http/httputil has it, interim (1xx) responses, switches
    of protocols and trailers included, up to buffering and the escaped form of
    paths.  The guest's connection is a [ResponseWriter] that may break after a
    number of bytes. *)

From Stdlib Require Import Ascii.
From S2P Require Import Prelude GoStrings Http Schema Platform Effects Crypto Import Injector.

Open Scope go_scope.

(** ** Response writers *)

(** What was sent to the guest: the interim responses, each with the header it
    had, then the final header, status, body and trailers; [rw_room] is how many
    more bytes of body the connection takes before it fails, if it does. *)
Record ResponseWriter := mkRW {
  rw_header : gmap string (list string);
  rw_interim : list (Z * gmap string (list string));
  rw_status : option Z;
  rw_body : list string;
  rw_trailer : gmap string (list string);
  rw_room : option nat }.

Definition newRW (room : option nat) : ResponseWriter := mkRW ∅ [] None [] ∅ room.

(** 1xx, up to 101, which is final. *)
Definition informational (status : Z) : bool :=
  ((100 <=? status) && (status <=? 199) && negb (status =? StatusSwitchingProtocols))%Z.

(** An informational status is sent at once, with the header as it is then, and
    the response stays open; only the first final status counts. *)
Definition rw_WriteHeader (status : Z) (w : ResponseWriter) : ResponseWriter :=
  match rw_status w with
  | None =>
      if informational status then
        let sent := delete "Content-Length" (delete "Transfer-Encoding" (rw_header w)) in
        mkRW (rw_header w) (rw_interim w ++ [(status, sent)]) None (rw_body w) (rw_trailer w) (rw_room w)
      else mkRW (rw_header w) (rw_interim w) (Some status) (rw_body w) (rw_trailer w) (rw_room w)
  | Some _ => w
  end.

Definition rw_set_body (body : list string) (room : option nat) (w : ResponseWriter) : ResponseWriter :=
  mkRW (rw_header w) (rw_interim w) (rw_status w) body (rw_trailer w) room.

(** The number of bytes written, and whether there was an error. *)
Definition rw_Write (b : string) (w : ResponseWriter) : nat * bool * ResponseWriter :=
  let w := rw_WriteHeader StatusOK w in
  match rw_room w with
  | None => (String.length b, false, rw_set_body (rw_body w ++ [b]) None w)
  | Some room =>
      if decide (String.length b <= room) then
        (String.length b, false,
         rw_set_body (rw_body w ++ [b]) (Some (room - String.length b)) w)
      else
        (room, true,
         rw_set_body (rw_body w ++ [take_string room b]) (Some 0) w)
  end.

Definition rw_add_headers (h : gmap string (list string) → gmap string (list string)) (w : ResponseWriter)
    : ResponseWriter :=
  mkRW (h (rw_header w)) (rw_interim w) (rw_status w) (rw_body w) (rw_trailer w) (rw_room w).

Definition rw_set_trailer (t : gmap string (list string)) (w : ResponseWriter) : ResponseWriter :=
  mkRW (rw_header w) (rw_interim w) (rw_status w) (rw_body w) t (rw_room w).

(** [http.Error(w, msg, code)] *)
Definition http_Error (msg : string) (code : Z) (w : ResponseWriter) : ResponseWriter :=
  let w := rw_add_headers (λ h, Header_Set (Header_Set (Header_Del h "Content-Length")
             "Content-Type" "text/plain; charset=utf-8") "X-Content-Type-Options" "nosniff") w in
  (rw_Write (msg +:+ String "010" EmptyString) (rw_WriteHeader code w)).2.

(** ** countingResponseWriter *)

Record countingResponseWriter := mkCW {
  cw_rw : ResponseWriter;
  cw_status : Z;
  cw_bytes : Z }.

Definition newCountingResponseWriter (w : ResponseWriter) : countingResponseWriter := mkCW w StatusOK 0.

Definition cw_WriteHeader (status : Z) (c : countingResponseWriter) : countingResponseWriter :=
  mkCW (rw_WriteHeader status (cw_rw c)) status (cw_bytes c).

Definition cw_Write (b : string) (c : countingResponseWriter) : nat * bool * countingResponseWriter :=
  let '(n, err, w) := rw_Write b (cw_rw c) in
  (n, err, mkCW w (cw_status c) (cw_bytes c +64 Z.of_nat n)).

Definition cw_add_headers (h : gmap string (list string) → gmap string (list string))
    (c : countingResponseWriter) : countingResponseWriter :=
  mkCW (rw_add_headers h (cw_rw c)) (cw_status c) (cw_bytes c).

(** ** Headers of a connection *)

(** Equality up to the case of ASCII letters ([ascii.EqualFold], and
    [tokenEqual] for an ASCII token). *)
Definition ascii_EqualFold (s t : string) : bool :=
  bool_decide (to_lower <$> bytes s = to_lower <$> bytes t).

(** [httpguts.HeaderValuesContainsToken] *)
Definition HeaderValuesContainsToken (values : list string) (token : string) : bool :=
  existsb (λ v, existsb (λ t, ascii_EqualFold (TrimString t) token) (split_on ","%char v)) values.

Definition hopHeaders : list string :=
  ["Connection"; "Proxy-Connection"; "Keep-Alive"; "Proxy-Authenticate"; "Proxy-Authorization";
   "Te"; "Trailer"; "Transfer-Encoding"; "Upgrade"].

Definition removeHopByHopHeaders (h : gmap string (list string)) : gmap string (list string) :=
  let listed := filter (λ f, f ≠ EmptyString)
    (default [] (h !! "Connection") ≫= λ v, TrimString <$> split_on ","%char v) in
  foldl Header_Del (foldl Header_Del h listed) hopHeaders.

Definition upgradeType (h : gmap string (list string)) : string :=
  if HeaderValuesContainsToken (default [] (h !! "Connection")) "Upgrade" then Header_Get h "Upgrade"
  else EmptyString.

(** [ascii.IsPrint] *)
Definition IsPrint (s : string) : bool :=
  forallb (λ c, let n := N_of_ascii c in ((32 <=? n) && (n <=? 126))%N) (bytes s).

(** [copyHeader]: the values of [src] after those of [dst]. *)
Definition copyHeader (dst src : gmap string (list string)) : gmap string (list string) :=
  foldl add_values dst (map_to_list src).

(** ** stripper.go *)

Definition identityHeaders : list string := ["Set-Cookie"; "Set-Cookie2"; "Authorization"; "X-Powered-By"].

Definition StripIdentityHeaders (header : gmap string (list string)) : gmap string (list string) :=
  foldl Header_Del header identityHeaders.

(** ** director.go *)

Definition singleJoiningSlash (a b : string) : string :=
  let aslash := HasSuffix a "/" in
  let bslash := HasPrefix b "/" in
  if aslash && bslash then a +:+ drop_string 1 b
  else if negb aslash && negb bslash then a +:+ "/" +:+ b
  else a +:+ b.

Record forwardTarget := mkForwardTarget {
  ft_BaseURL : URL;
  ft_ForwardPath : string;
  ft_Plan : InjectionPlan }.

(** The Rewrite function: [pr_in] is the guest's request, [out] the outgoing one. *)
Definition Rewrite (ft : forwardTarget) (pr_in out : Request) : Request :=
  mkRequest (Request_Method out)
    (mkURL (URL_Scheme (ft_BaseURL ft)) (URL_Host (ft_BaseURL ft))
       (singleJoiningSlash (URL_Path (ft_BaseURL ft)) (ft_ForwardPath ft))
       (URL_RawQuery (Request_URL pr_in)))
    (InjectionPlan_Apply (ft_Plan ft) (Request_Header out))
    (URL_Host (ft_BaseURL ft)) (Request_RemoteAddr out) (Request_Body out).

Definition upstream_error (c : countingResponseWriter) : countingResponseWriter :=
  (cw_Write "upstream target unreachable" (cw_WriteHeader StatusBadGateway c)).2.

(** ** httputil.ReverseProxy *)

(** The outgoing headers before Rewrite. *)
Definition outgoing_header (h : gmap string (list string)) : gmap string (list string) :=
  let reqUpType := upgradeType h in
  let h1 := removeHopByHopHeaders h in
  let h2 := if HeaderValuesContainsToken (default [] (h !! "Te")) "trailers" then Header_Set h1 "Te" "trailers" else h1 in
  let h3 := if decide (reqUpType = EmptyString) then h2
            else Header_Set (Header_Set h2 "Connection" "Upgrade") "Upgrade" reqUpType in
  foldl Header_Del h3 ["Forwarded"; "X-Forwarded-For"; "X-Forwarded-Host"; "X-Forwarded-Proto"].

(** An absent User-Agent stays absent on the wire. *)
Definition no_default_agent (h : gmap string (list string)) : gmap string (list string) :=
  match h !! "User-Agent" with Some _ => h | None => Header_Set h "User-Agent" EmptyString end.

Definition with_header (h : gmap string (list string)) (r : Request) : Request :=
  mkRequest (Request_Method r) (Request_URL r) h (Request_Host r) (Request_RemoteAddr r) (Request_Body r).

(** The request given to the transport. *)
Definition outgoing_request (ft : forwardTarget) (r : Request) : Request :=
  let out := Rewrite ft r (with_header (outgoing_header (Request_Header r)) r) in
  with_header (no_default_agent (Request_Header out)) out.

(** Copies the body chunk by chunk; the error is the guest's connection or the
    target's. *)
Fixpoint copyResponse (chunks : list string) (fails : bool) (c : countingResponseWriter)
    : bool * countingResponseWriter :=
  match chunks with
  | [] => (fails, c)
  | b :: chunks' =>
      let '(_, err, c') := cw_Write b c in
      if (err : bool) then (true, c') else copyResponse chunks' fails c'
  end.

(** How [ServeHTTP] ends: it returns, or it panics with [http.ErrAbortHandler]. *)
Inductive served : Type :=
| Returned (c : countingResponseWriter)
| Aborted (c : countingResponseWriter).

(** 101: after ModifyResponse the connection is hijacked, and the bytes go to it
    directly; [reqUpType] is the one of the request that was sent. *)
Definition switch_protocols (reqUpType : string) (header : gmap string (list string)) (body : list string)
    (c : countingResponseWriter) : served :=
  let resUpType := upgradeType header in
  if negb (IsPrint resUpType) || negb (ascii_EqualFold reqUpType resUpType) then Returned (upstream_error c)
  else
    let w := rw_add_headers (λ h, copyHeader h header) (cw_rw c) in
    let w := mkRW (rw_header w) (rw_interim w) (Some StatusSwitchingProtocols) (rw_body w ++ body)
               (rw_trailer w) (rw_room w) in
    Returned (mkCW w (cw_status c) (cw_bytes c)).

(** The announced trailers are listed in the header. *)
Definition announce_trailers (keys : list string) (h : gmap string (list string)) : gmap string (list string) :=
  match keys with [] => h | _ => Header_Add h "Trailer" (String.concat ", " keys) end.

(** The trailers as they reach the guest.  When all of them were announced they
    are added to the header, and net/http then sends the header's values of
    their names; else they are sent under their own names. *)
Definition relayed_trailers (header : gmap string (list string)) (res : Response) : gmap string (list string) :=
  if decide (size (Response_Trailer res) = length (Response_Announced res))
  then map_imap (λ k vs, Some (default [] (header !! k) ++ vs)) (Response_Trailer res)
  else Response_Trailer res.

(** From the response of the transport on.  [WriteHeader] panics for a status
    that is not of three digits without a leading zero. *)
Definition serve_response (reqUpType : string) (res : Response) (c : countingResponseWriter) : served :=
  if decide (Response_StatusCode res = StatusSwitchingProtocols) then
    switch_protocols reqUpType (StripIdentityHeaders (Response_Header res)) (Response_Body res) c
  else
    let header := StripIdentityHeaders (removeHopByHopHeaders (Response_Header res)) in
    let c0 := cw_add_headers (λ h, announce_trailers (Response_Announced res) (copyHeader h header)) c in
    if negb ((100 <=? Response_StatusCode res) && (Response_StatusCode res <=? 999))%Z then
      Aborted (mkCW (cw_rw c0) (Response_StatusCode res) (cw_bytes c0))
    else
    let c1 := cw_WriteHeader (Response_StatusCode res) c0 in
    let '(err, c2) := copyResponse (Response_Body res) (Response_BodyFails res) c1 in
    if (err : bool) then Aborted c2
    else Returned (mkCW (rw_set_trailer (relayed_trailers (rw_header (cw_rw c2)) res) (cw_rw c2))
                     (cw_status c2) (cw_bytes c2)).

(** [Got1xxResponse]: an interim response is passed on as it came, without
    ModifyResponse, and the header cleared for the next one. *)
Definition relay_interim (c : countingResponseWriter) (i : Z * gmap string (list string)) : countingResponseWriter :=
  let c1 := cw_WriteHeader i.1 (cw_add_headers (λ h, copyHeader h i.2) c) in
  cw_add_headers (λ _, ∅) c1.

(** The target sites, by the number of the interaction: the interim responses,
    then the answer or a failure. *)
Class Transport := RoundTrip : nat → Request → list (Z * gmap string (list string)) * option Response.

Section serve.
Context {PL : Platform} `{Transport}.

Definition transport_RoundTrip (out : Request) : P (list (Z * gmap string (list string)) * option Response) :=
  atom (λ w, (set_sent (w_sent w ++ [out]) (tick w), RoundTrip (w_tick w) out)).

(** What the answer of the transport makes of the guest's response. *)
Definition serve_answer (reqUpType : string) (answer : list (Z * gmap string (list string)) * option Response)
    (c : countingResponseWriter) : served :=
  let c1 := foldl relay_interim c answer.1 in
  match answer.2 with
  | None => Returned (upstream_error c1)
  | Some res => serve_response reqUpType res c1
  end.

Definition ReverseProxy_ServeHTTP (ft : forwardTarget) (r : Request) (c : countingResponseWriter) : P served :=
  if negb (IsPrint (upgradeType (Request_Header r))) then Ret (Returned (upstream_error c))
  else
    let out := outgoing_request ft r in
    let* answer := transport_RoundTrip out in
    Ret (serve_answer (upgradeType (Request_Header out)) answer c).

End serve.

(** ** Specification *)

(** Bytes of body sent to the guest. *)
Definition body_bytes (w : ResponseWriter) : nat := sum_list (String.length <$> rw_body w).

Definition served_cw (s : served) : countingResponseWriter :=
  match s with Returned c | Aborted c => c end.

(** No header that could tell the owner's identity. *)
Definition no_identity (h : gmap string (list string)) : Prop :=
  ∀ k, k ∈ ["Set-Cookie"; "Set-Cookie2"; "Authorization"; "X-Powered-By"] → h !! k = None.

(** Nor one in interim responses and trailers, of a response and of an answer. *)
Definition clean (w : ResponseWriter) : Prop :=
  no_identity (rw_header w) ∧ Forall (λ i, no_identity i.2) (rw_interim w) ∧ no_identity (rw_trailer w).

Definition clean_answer (answer : list (Z * gmap string (list string)) * option Response) : Prop :=
  Forall (λ i, no_identity i.2) answer.1 ∧ ∀ res, answer.2 = Some res → no_identity (Response_Trailer res).

(** The counter of a writer is the number of bytes of body it sent. *)
Definition counts (c : countingResponseWriter) : Prop :=
  cw_bytes c = wrap64 (Z.of_nat (body_bytes (cw_rw c))).

(** The headers of one connection (RFC 9110, 7.6.1), with those its Connection
    header lists. *)
Definition listed_in_connection (h : gmap string (list string)) (k : string) : Prop :=
  Exists (λ v, Exists (λ t, TrimString t ≠ EmptyString ∧ CanonicalHeaderKey (TrimString t) = k)
                 (split_on ","%char v)) (default [] (h !! "Connection")).

Definition hop_by_hop (h : gmap string (list string)) (k : string) : Prop :=
  k ∈ ["Connection"; "Keep-Alive"; "Proxy-Authenticate"; "Proxy-Authorization"; "Proxy-Connection";
       "Te"; "Trailer"; "Transfer-Encoding"; "Upgrade"] ∨ listed_in_connection h k.

#[export] Instance hop_by_hop_dec h k : Decision (hop_by_hop h k).
Proof. unfold hop_by_hop, listed_in_connection. apply _. Defined.

(** The guest's values of a header that are sent on: none of Cookie and
    Authorization, none that tell the guest's address, and of one connection
    only what a switch of protocols and trailers need. *)
Definition guest_values (h : gmap string (list string)) (k : string) : list string :=
  if decide (k ∈ ["Cookie"; "Authorization"; "Forwarded"; "X-Forwarded-For"; "X-Forwarded-Host"; "X-Forwarded-Proto"])
  then []
  else if decide (hop_by_hop h k) then
    if decide (k = "Connection" ∧ upgradeType h ≠ EmptyString) then ["Upgrade"]
    else if decide (k = "Upgrade" ∧ upgradeType h ≠ EmptyString) then [upgradeType h]
    else if decide (k = "Te" ∧ HeaderValuesContainsToken (default [] (h !! "Te")) "trailers" = true) then ["trailers"]
    else []
  else default [] (h !! k).

(** The owner's values of a header. *)
Definition owner_values (p : InjectionPlan) (k : string) : list string :=
  (if decide (k = "Cookie") then cookie_values (InjectionPlan_Cookies p) else []) ++
  default [] (InjectionPlan_Headers p !! k).

(** The values of a header of the guest's response, of one that [res] had. *)
Definition relayed_values (res : Response) (k : string) : list string :=
  if decide (k ∈ ["Set-Cookie"; "Set-Cookie2"; "Authorization"; "X-Powered-By"]) then []
  else if decide (k = "Trailer") then
    match Response_Announced res with [] => [] | keys => [String.concat ", " keys] end
  else if decide (hop_by_hop (Response_Header res) k) then []
  else default [] (Response_Header res !! k).

(** What a connection takes of a body, and whether it takes all of it. *)
Definition within (room : option nat) (s : string) : string :=
  match room with None => s | Some n => take_string n s end.

Definition fits (room : option nat) (s : string) : bool :=
  match room with None => true | Some n => bool_decide (String.length s ≤ n) end.

(** An interim response and what the guest gets of it. *)
Definition interim_relayed (sent got : Z * gmap string (list string)) : Prop :=
  got.1 = sent.1 ∧ (∀ k, sent.2 !! k = None → got.2 !! k = None) ∧
  ∀ k, default [] (got.2 !! k) =
    if decide (k ∈ ["Content-Length"; "Transfer-Encoding"]) then [] else default [] (sent.2 !! k).

(** The guest is told that the target could not be reached. *)
Definition bad_gateway (room : option nat) (s : served) : Prop :=
  ∃ c, s = Returned c ∧ counts c ∧ cw_status c = StatusBadGateway ∧
    rw_status (cw_rw c) = Some StatusBadGateway ∧ rw_header (cw_rw c) = ∅ ∧ rw_trailer (cw_rw c) = ∅ ∧
    concat_strings (rw_body (cw_rw c)) = within room "upstream target unreachable".

(** The protocols are switched: the bytes pass uncounted. *)
Definition switched (res : Response) (s : served) : Prop :=
  ∃ c, s = Returned c ∧ cw_bytes c = 0%Z ∧ rw_status (cw_rw c) = Some StatusSwitchingProtocols ∧
    rw_body (cw_rw c) = Response_Body res ∧ rw_trailer (cw_rw c) = ∅ ∧
    ∀ k, default [] (rw_header (cw_rw c) !! k) =
      if decide (k ∈ ["Set-Cookie"; "Set-Cookie2"; "Authorization"; "X-Powered-By"]) then []
      else default [] (Response_Header res !! k).

(** The response is passed on, up to where its body or the guest's connection
    fails. *)
Definition relayed (room : option nat) (res : Response) (s : served) : Prop :=
  let c := served_cw s in
  let body := concat_strings (Response_Body res) in
  counts c ∧ cw_status c = Response_StatusCode res ∧ rw_status (cw_rw c) = Some (Response_StatusCode res) ∧
  (∀ k, default [] (rw_header (cw_rw c) !! k) = relayed_values res k) ∧
  concat_strings (rw_body (cw_rw c)) = within room body ∧
  match s with
  | Returned _ => Response_BodyFails res = false ∧ fits room body = true ∧
      ∀ k, rw_header (cw_rw c) !! k = None → rw_trailer (cw_rw c) !! k = Response_Trailer res !! k
  | Aborted _ => (Response_BodyFails res = true ∨ fits room body = false) ∧ rw_trailer (cw_rw c) = ∅
  end.

(** ** Lemmas *)

Lemma foldl_Header_Del_lookup h ks k :
  foldl Header_Del h ks !! k = if decide (k ∈ CanonicalHeaderKey <$> ks) then None else h !! k.
Proof.
  revert h. induction ks as [|k' ks IH]; intros h; cbn [foldl]; [by rewrite decide_False by apply not_elem_of_nil|].
  rewrite IH, fmap_cons. destruct (decide (k ∈ CanonicalHeaderKey <$> ks)) as [Hk|Hk].
  - by rewrite decide_True by by right.
  - unfold Header_Del. destruct (decide (k = CanonicalHeaderKey k')) as [->|Hne].
    + rewrite decide_True by by left. apply lookup_delete_eq.
    + rewrite decide_False by (rewrite elem_of_cons; tauto). by apply lookup_delete_ne.
Qed.

Lemma Header_Del_None h k k' : h !! k = None → Header_Del h k' !! k = None.
Proof. intros. unfold Header_Del. rewrite lookup_delete_None. by right. Qed.

Lemma StripIdentityHeaders_lookup h k :
  StripIdentityHeaders h !! k =
  if decide (k ∈ ["Set-Cookie"; "Set-Cookie2"; "Authorization"; "X-Powered-By"]) then None else h !! k.
Proof. exact (foldl_Header_Del_lookup h identityHeaders k). Qed.

Lemma StripIdentityHeaders_no_identity h : no_identity (StripIdentityHeaders h).
Proof. intros k Hk. by rewrite StripIdentityHeaders_lookup, decide_True. Qed.

(** The names the Connection header lists. *)
Definition connection_names (h : gmap string (list string)) : list string :=
  filter (λ f, f ≠ EmptyString) (default [] (h !! "Connection") ≫= λ v, TrimString <$> split_on ","%char v).

Lemma connection_names_spec h k :
  k ∈ CanonicalHeaderKey <$> connection_names h ↔ listed_in_connection h k.
Proof.
  unfold connection_names, listed_in_connection. rewrite list_elem_of_fmap, Exists_exists.
  setoid_rewrite list_elem_of_filter. setoid_rewrite list_elem_of_bind. setoid_rewrite list_elem_of_fmap.
  setoid_rewrite Exists_exists. split.
  - intros (y & -> & Hy & v & (t & -> & Ht) & Hv). by eauto 10.
  - intros (v & Hv & t & Ht & Hne & <-). by eauto 10.
Qed.

(** Exactly the headers of the connection are removed. *)
Lemma removeHopByHopHeaders_lookup h k :
  removeHopByHopHeaders h !! k = if decide (hop_by_hop h k) then None else h !! k.
Proof.
  unfold removeHopByHopHeaders. fold (connection_names h). rewrite !foldl_Header_Del_lookup.
  pose proof (connection_names_spec h k) as Hc.
  assert (k ∈ CanonicalHeaderKey <$> hopHeaders ↔
    k ∈ ["Connection"; "Keep-Alive"; "Proxy-Authenticate"; "Proxy-Authorization"; "Proxy-Connection";
         "Te"; "Trailer"; "Transfer-Encoding"; "Upgrade"]) as Hh.
  { change (CanonicalHeaderKey <$> hopHeaders) with hopHeaders. unfold hopHeaders.
    rewrite !elem_of_cons, !elem_of_nil. tauto. }
  unfold hop_by_hop. repeat case_decide; tauto.
Qed.

(** Copying headers adds no key that neither side has. *)
Lemma add_values_None h e k : h !! k = None → CanonicalHeaderKey e.1 ≠ k → add_values h e !! k = None.
Proof.
  intros Hh He. unfold add_values. revert h Hh. induction e.2 as [|v vs IH]; intros h Hh; simpl; [done|].
  apply IH. by rewrite Header_Add_lookup_ne.
Qed.

Lemma copyHeader_None dst src k :
  canonical_keys src → dst !! k = None → src !! k = None → copyHeader dst src !! k = None.
Proof.
  intros Hc Hd Hs. unfold copyHeader.
  assert (Forall (λ e, CanonicalHeaderKey e.1 ≠ k) (map_to_list src)) as Hall.
  { apply Forall_forall. intros [k' v] Hin%elem_of_map_to_list E. simpl in E.
    rewrite (Hc k') in E by eauto. congruence. }
  revert dst Hd. induction Hall as [|e es He _ IH]; intros dst Hd; simpl; [done|]. by apply IH, add_values_None.
Qed.

Lemma copyHeader_no_identity dst src :
  canonical_keys src → no_identity dst → no_identity src → no_identity (copyHeader dst src).
Proof. intros Hc Hd Hs k Hk. apply copyHeader_None; auto. Qed.

Lemma copyHeader_lookup dst src k :
  canonical_keys src →
  default [] (copyHeader dst src !! k) = default [] (dst !! k) ++ default [] (src !! k).
Proof.
  intros Hc. unfold copyHeader. rewrite foldl_add_values.
  - by rewrite (entries_of_key src _ k (reflexivity _)).
  - apply Forall_forall. intros [i v] Hi%elem_of_map_to_list. apply Hc. simpl. eauto.
Qed.

Lemma canonical_keys_Del h ks : canonical_keys h → canonical_keys (foldl Header_Del h ks).
Proof.
  intros Hh k. rewrite foldl_Header_Del_lookup. case_decide; [by intros []|]. apply Hh.
Qed.

Lemma announce_trailers_no_identity keys h : no_identity h → no_identity (announce_trailers keys h).
Proof.
  intros Hh k Hk. unfold announce_trailers. destruct keys; [by apply Hh|].
  rewrite Header_Add_lookup_ne; [by apply Hh|]. intros ->. revert Hk. by apply (bool_decide_unpack _).
Qed.

(** Writing the body: everything else stays, the counter follows. *)
Lemma sum_list_app l1 l2 : sum_list (l1 ++ l2) = sum_list l1 + sum_list l2.
Proof. induction l1; simpl; lia. Qed.

Lemma wrap64_add_l a b : wrap64 (wrap64 a + b) = wrap64 (a + b).
Proof.
  unfold wrap64, two63, two64. f_equal.
  replace ((a + 9223372036854775808) `mod` 18446744073709551616 - 9223372036854775808 + b + 9223372036854775808)%Z
    with ((a + 9223372036854775808) `mod` 18446744073709551616 + b)%Z by lia.
  rewrite Zplus_mod_idemp_l. f_equal. lia.
Qed.

(** All but the status and the body. *)
Definition same_head (w w' : ResponseWriter) : Prop :=
  rw_header w' = rw_header w ∧ rw_interim w' = rw_interim w ∧ rw_trailer w' = rw_trailer w.

Lemma rw_WriteHeader_spec st w :
  let w' := rw_WriteHeader st w in
  rw_header w' = rw_header w ∧ rw_trailer w' = rw_trailer w ∧ rw_body w' = rw_body w ∧ rw_room w' = rw_room w ∧
  (informational st = false → rw_interim w' = rw_interim w ∧ rw_status w' = Some (default st (rw_status w))).
Proof. unfold rw_WriteHeader. destruct (rw_status w) eqn:E, (informational st); simpl; by rewrite ?E. Qed.

Lemma rw_Write_spec b w n err w' :
  rw_Write b w = (n, err, w') →
  same_head w w' ∧ rw_status w' = Some (default StatusOK (rw_status w)) ∧ body_bytes w' = body_bytes w + n ∧
  err = negb (fits (rw_room w) b) ∧
  rw_room w' = (λ m, m - String.length b) <$> rw_room w ∧
  concat_strings (rw_body w') = concat_strings (rw_body w) +:+ within (rw_room w) b.
Proof.
  unfold rw_Write, rw_set_body, body_bytes, same_head, fits, within.
  destruct (rw_WriteHeader_spec StatusOK w) as (Hh & Ht & Hb & Hr & Hfin). destruct (Hfin eq_refl) as [Hi Hs].
  set (w1 := rw_WriteHeader StatusOK w) in *. clearbody w1. rewrite Hr.
  destruct (rw_room w) as [room|] eqn:Er; repeat case_decide; intros; simplify_eq/=;
    rewrite fmap_app, sum_list_app, concat_strings_app, concat_strings_one, Hb; simpl;
    rewrite ?take_string_length by lia; rewrite ?take_string_all by lia; split_and!; try done; try lia;
    try (by rewrite ?bool_decide_true, ?bool_decide_false by lia);
    f_equal; lia.
Qed.

Lemma cw_Write_spec b c :
  let r := cw_Write b c in
  same_head (cw_rw c) (cw_rw r.2) ∧ cw_status r.2 = cw_status c ∧ (counts c → counts r.2) ∧
  rw_status (cw_rw r.2) = Some (default StatusOK (rw_status (cw_rw c))) ∧
  r.1.2 = negb (fits (rw_room (cw_rw c)) b) ∧
  rw_room (cw_rw r.2) = (λ m, m - String.length b) <$> rw_room (cw_rw c) ∧
  concat_strings (rw_body (cw_rw r.2)) =
    concat_strings (rw_body (cw_rw c)) +:+ within (rw_room (cw_rw c)) b.
Proof.
  unfold counts, cw_Write. destruct (rw_Write b (cw_rw c)) as [[n err] w'] eqn:E.
  apply rw_Write_spec in E as (Hh & Hs & Hn & He & Hr & Hb). cbn [fst snd cw_rw cw_status cw_bytes].
  split_and!; try done. intros Hc. rewrite Hn, Hc, wrap64_add_l. f_equal. lia.
Qed.

Lemma within_app room b rest :
  fits room (b +:+ rest) = fits room b && fits ((λ m, m - String.length b) <$> room) rest ∧
  (fits room b = false → within room (b +:+ rest) = within room b) ∧
  (fits room b = true →
   within room (b +:+ rest) = within room b +:+ within ((λ m, m - String.length b) <$> room) rest).
Proof.
  destruct room as [m|]; simpl; [|done]. rewrite string_length_app. split_and!.
  - repeat case_bool_decide; simpl; done || lia.
  - rewrite bool_decide_eq_false. intros. apply take_string_app_le. lia.
  - rewrite bool_decide_eq_true. intros. rewrite take_string_app_ge by done. by rewrite (take_string_all m b).
Qed.

Lemma same_head_trans w1 w2 w3 : same_head w1 w2 → same_head w2 w3 → same_head w1 w3.
Proof. unfold same_head. intuition congruence. Qed.

(** Copying a body: what the connection takes of it, and an error unless it
    takes all and reading ends well. *)
Lemma copyResponse_spec chunks fails c :
  let r := copyResponse chunks fails c in
  let body := concat_strings chunks in
  same_head (cw_rw c) (cw_rw r.2) ∧ cw_status r.2 = cw_status c ∧ (counts c → counts r.2) ∧
  (∀ st, rw_status (cw_rw c) = Some st → rw_status (cw_rw r.2) = Some st) ∧
  r.1 = fails || negb (fits (rw_room (cw_rw c)) body) ∧
  concat_strings (rw_body (cw_rw r.2)) =
    concat_strings (rw_body (cw_rw c)) +:+ within (rw_room (cw_rw c)) body.
Proof.
  revert c. induction chunks as [|b chunks IH]; intros c; cbn [copyResponse].
  { cbn [concat_strings foldr fst snd].
    assert (∀ room, fits room "" = true ∧ within room "" = "") as Hnil.
    { intros [m|]; [|done]. simpl. split; [by destruct m|by destruct m]. }
    destruct (Hnil (rw_room (cw_rw c))) as [-> ->]. unfold same_head. split_and!; try done.
    - by rewrite orb_false_r.
    - apply bytes_inj. by rewrite bytes_app, app_nil_r. }
  pose proof (cw_Write_spec b c) as (Hh & Hst & Hcnt & Hs & He & Hr & Hb).
  destruct (cw_Write b c) as [[n err] c1]. cbn [fst snd] in *. subst err.
  cbn [concat_strings foldr]. fold (concat_strings chunks). set (rest := concat_strings chunks) in *.
  change (b ++ rest)%string with (b +:+ rest) in *.
  destruct (within_app (rw_room (cw_rw c)) b rest) as (Hf & Hw0 & Hw1). rewrite Hf.
  destruct (fits (rw_room (cw_rw c)) b); cbn [negb andb].
  - destruct (IH c1) as (I1 & I2 & I3 & I4 & I5 & I6). split_and!; auto; try congruence.
    + by eapply same_head_trans.
    + intros st Hc. apply I4. by rewrite Hs, Hc.
    + by rewrite I6, Hb, Hr, Hw1, string_app_assoc.
  - cbn [fst snd]. split_and!; auto; [|by rewrite orb_true_r|by rewrite Hb, Hw0].
    intros st Hc. by rewrite Hs, Hc.
Qed.

(** A writer nothing final has been written to: only interim responses. *)
Definition unwritten (room : option nat) (ints : list (Z * gmap string (list string))) (c : countingResponseWriter) : Prop :=
  cw_rw c = mkRW ∅ ints None [] ∅ room ∧ cw_bytes c = 0%Z.

Lemma relay_interim_spec room ints i c :
  unwritten room ints c → informational i.1 = true → canonical_keys i.2 →
  ∃ got, interim_relayed i got ∧ unwritten room (ints ++ [got]) (relay_interim c i).
Proof.
  intros [Hc Hb] Hi Hcan. destruct i as [code h]. cbn [fst snd] in *.
  exists (code, delete "Content-Length" (delete "Transfer-Encoding" (copyHeader ∅ h))).
  split.
  - assert (∀ k, default [] (copyHeader ∅ h !! k) = default [] (h !! k)) as Hv.
    { intros k. rewrite copyHeader_lookup by done. by rewrite lookup_empty. }
    unfold interim_relayed. cbn [fst snd]. split_and!; [done| |].
    + intros k Hk. rewrite !lookup_delete_None. right; right. by apply copyHeader_None; [..|apply lookup_empty|].
    + intros k. case_decide as Hk; rewrite !elem_of_cons, elem_of_nil in Hk; [destruct Hk as [->|[->|[]]]|].
      * by rewrite lookup_delete_eq.
      * by rewrite lookup_delete_ne, lookup_delete_eq.
      * rewrite !lookup_delete_ne by (intros <-; tauto). apply Hv.
  - unfold unwritten, relay_interim, cw_WriteHeader, cw_add_headers, rw_WriteHeader, rw_add_headers.
    cbn [cw_rw cw_bytes fst snd]. rewrite Hc. simpl. by rewrite Hi.
Qed.

Lemma relay_interims_spec room sent ints c :
  unwritten room ints c → Forall (λ i, informational i.1 = true ∧ canonical_keys i.2) sent →
  ∃ gots, Forall2 interim_relayed sent gots ∧ unwritten room (ints ++ gots) (foldl relay_interim c sent).
Proof.
  intros Hc Hall. revert ints c Hc. induction Hall as [|i sent [Hi Hcan] _ IH]; intros ints c Hc; cbn [foldl].
  { exists []. by rewrite app_nil_r. }
  destruct (relay_interim_spec room ints i c Hc Hi Hcan) as (got & Hgot & Hc').
  destruct (IH _ _ Hc') as (gots & Hgots & Hend). exists (got :: gots).
  rewrite <-app_assoc in Hend. by split; [constructor|].
Qed.

Lemma upstream_error_spec room ints c :
  unwritten room ints c → bad_gateway room (Returned (upstream_error c)) ∧ rw_interim (cw_rw (upstream_error c)) = ints.
Proof.
  intros [Hc Hb]. unfold upstream_error.
  assert (cw_rw (cw_WriteHeader StatusBadGateway c) = mkRW ∅ ints (Some StatusBadGateway) [] ∅ room) as Hw.
  { unfold cw_WriteHeader. cbn [cw_rw]. by rewrite Hc. }
  pose proof (cw_Write_spec "upstream target unreachable" (cw_WriteHeader StatusBadGateway c)) as (Hh & Hst & Hcnt & Hs & _ & _ & Hbody).
  unfold same_head in Hh. rewrite Hw in *. cbn [rw_header rw_interim rw_trailer rw_body rw_status rw_room] in *.
  destruct Hh as (H1 & H2 & H3). split; [|done]. eexists. split_and!; try done.
  apply Hcnt. unfold counts. rewrite Hw. unfold cw_WriteHeader. cbn [cw_bytes]. by rewrite Hb.
Qed.

(** The header of a relayed response. *)
Lemma relayed_header_values res k :
  canonical_keys (Response_Header res) →
  default [] (announce_trailers (Response_Announced res)
    (copyHeader ∅ (StripIdentityHeaders (removeHopByHopHeaders (Response_Header res)))) !! k) = relayed_values res k.
Proof.
  intros Hcan. set (h := copyHeader _ _).
  assert (default [] (h !! k) = if decide (k ∈ ["Set-Cookie"; "Set-Cookie2"; "Authorization"; "X-Powered-By"]) then []
    else if decide (hop_by_hop (Response_Header res) k) then [] else default [] (Response_Header res !! k)) as Hh.
  { subst h. rewrite copyHeader_lookup by by repeat apply canonical_keys_Del. rewrite lookup_empty.
    rewrite StripIdentityHeaders_lookup, removeHopByHopHeaders_lookup. by repeat case_decide. }
  unfold relayed_values, announce_trailers. destruct (decide (k = "Trailer")) as [->|Hk].
  - assert (hop_by_hop (Response_Header res) "Trailer") as Hhop by (left; by apply (bool_decide_unpack _)).
    rewrite (decide_True (P := hop_by_hop _ _)) in Hh by done.
    rewrite decide_False in Hh |- * by by apply (bool_decide_unpack _). destruct (Response_Announced res); [done|].
    rewrite (Header_Add_lookup h "Trailer" _ : Header_Add h "Trailer" _ !! "Trailer" = _).
    cbn [default from_option]. change (CanonicalHeaderKey "Trailer") with "Trailer". by rewrite Hh.
  - destruct (Response_Announced res); [done|]. by rewrite Header_Add_lookup_ne.
Qed.

(** The upgrade that was asked for is the one the target agrees to. *)
Definition same_upgrade (reqUpType resUpType : string) : bool :=
  IsPrint resUpType && ascii_EqualFold reqUpType resUpType.

Definition three_digits (status : Z) : bool := ((100 <=? status) && (status <=? 999))%Z.

(** What becomes of the answer of a target. *)
Definition response_relayed (room : option nat) (reqUpType : string) (res : Response) (s : served) : Prop :=
  if decide (Response_StatusCode res = StatusSwitchingProtocols) then
    if same_upgrade reqUpType (upgradeType (Response_Header res)) then switched res s else bad_gateway room s
  else if three_digits (Response_StatusCode res) then relayed room res s
  else ∃ c, s = Aborted c ∧ rw_status (cw_rw c) = None ∧ rw_body (cw_rw c) = [] ∧ rw_trailer (cw_rw c) = ∅.

Lemma upgradeType_Strip h : upgradeType (StripIdentityHeaders h) = upgradeType h.
Proof.
  unfold upgradeType, Header_Get. change (CanonicalHeaderKey "Upgrade") with "Upgrade".
  rewrite !StripIdentityHeaders_lookup. by rewrite !decide_False by by apply (bool_decide_unpack _).
Qed.

(** What the guest's writer is left with. *)
Definition filtered (ints : list (Z * gmap string (list string))) (s : served) : Prop :=
  no_identity (rw_header (cw_rw (served_cw s))) ∧ rw_interim (cw_rw (served_cw s)) = ints.

Lemma upstream_error_filtered room ints c :
  unwritten room ints c → filtered ints (Returned (upstream_error c)) ∧ bad_gateway room (Returned (upstream_error c)).
Proof.
  intros Hc. destruct (upstream_error_spec room ints c Hc) as [Hbad Hi]. split; [|done]. split; [|done].
  destruct Hbad as (c' & [= ->] & _ & _ & _ & Hh & _). cbn [served_cw]. rewrite Hh. intros k _. apply lookup_empty.
Qed.

Lemma switch_protocols_spec room ints utype res c :
  unwritten room ints c → canonical_keys (Response_Header res) →
  let s := switch_protocols utype (StripIdentityHeaders (Response_Header res)) (Response_Body res) c in
  filtered ints s ∧
  if same_upgrade utype (upgradeType (Response_Header res)) then switched res s else bad_gateway room s.
Proof.
  intros Hc Hcan s. subst s. unfold switch_protocols, same_upgrade. rewrite upgradeType_Strip.
  destruct (IsPrint _); cbn [negb orb andb]; [|by apply upstream_error_filtered].
  destruct (ascii_EqualFold _ _); cbn [negb]; [|by apply upstream_error_filtered].
  destruct Hc as [Hc Hb]. unfold filtered, rw_add_headers. rewrite Hc.
  assert (canonical_keys (StripIdentityHeaders (Response_Header res))) as Hcan' by by apply canonical_keys_Del.
  cbn [served_cw cw_rw rw_header rw_interim rw_body rw_trailer rw_room app].
  split; [split; [|done]|].
  - apply copyHeader_no_identity; [done|intros k _; apply lookup_empty|apply StripIdentityHeaders_no_identity].
  - eexists. split_and!; [done..|]. intros k. cbn [cw_rw rw_header]. rewrite copyHeader_lookup by done.
    rewrite lookup_empty, StripIdentityHeaders_lookup. by case_decide.
Qed.

Lemma relayed_trailers_other header res k :
  header !! k = None → relayed_trailers header res !! k = Response_Trailer res !! k.
Proof.
  intros Hk. unfold relayed_trailers. case_decide; [|done]. rewrite map_lookup_imap. destruct (Response_Trailer res !! k); simpl; by rewrite ?Hk.
Qed.

Lemma serve_response_spec room ints utype res c :
  unwritten room ints c → canonical_keys (Response_Header res) → informational (Response_StatusCode res) = false →
  let s := serve_response utype res c in filtered ints s ∧ response_relayed room utype res s.
Proof.
  intros Hc Hcan Hinf s. subst s. unfold serve_response, response_relayed, three_digits. cbv zeta.
  case_decide as Hst; [by apply switch_protocols_spec|].
  set (header := announce_trailers (Response_Announced res)
    (copyHeader ∅ (StripIdentityHeaders (removeHopByHopHeaders (Response_Header res))))).
  assert (no_identity header) as Hno.
  { apply announce_trailers_no_identity, copyHeader_no_identity; [by repeat apply canonical_keys_Del| |apply StripIdentityHeaders_no_identity].
    intros k _. apply lookup_empty. }
  destruct Hc as [Hc Hb]. set (c0 := cw_add_headers _ c).
  assert (cw_rw c0 = mkRW header ints None [] ∅ room ∧ cw_bytes c0 = 0%Z) as [H0 Hb0].
  { subst c0. unfold cw_add_headers, rw_add_headers. cbn [cw_rw cw_bytes]. by rewrite Hc. }
  clearbody c0. destruct (_ && _); cbn [negb].
  2:{ unfold filtered. cbn [served_cw cw_rw]. rewrite H0. split; [done|]. eexists. by split_and!. }
  set (c1 := cw_WriteHeader _ c0).
  assert (cw_rw c1 = mkRW header ints (Some (Response_StatusCode res)) [] ∅ room) as H1.
  { subst c1. unfold cw_WriteHeader, rw_WriteHeader. cbn [cw_rw]. by rewrite H0; cbn; rewrite Hinf. }
  assert (counts c1) as Hcnt by (unfold counts; rewrite H1; subst c1; cbn; by rewrite Hb0).
  assert (cw_status c1 = Response_StatusCode res) as Hcs by done. clearbody c1.
  pose proof (copyResponse_spec (Response_Body res) (Response_BodyFails res) c1) as ((C1 & C2 & C3) & C4 & C5 & C6 & C7 & C8).
  rewrite H1 in C1, C2, C3, C6, C7, C8. cbn [rw_header rw_interim rw_trailer rw_status rw_room rw_body] in *.
  specialize (C5 Hcnt). specialize (C6 _ eq_refl).
  destruct (copyResponse _ _ c1) as [err c2]. cbn [fst snd] in *. subst err.
  assert (∀ k, default [] (rw_header (cw_rw c2) !! k) = relayed_values res k) as Hval.
  { intros k. rewrite C1. by apply relayed_header_values. }
  destruct (Response_BodyFails res || _) eqn:Eerr; unfold filtered, relayed; cbn.
  - rewrite C1. split; [done|]. rewrite <-C1. split_and!; try done; [congruence|].
    apply orb_true_iff in Eerr as [?|?%negb_true_iff]; auto.
  - apply orb_false_iff in Eerr as [Ef Efit%negb_false_iff].
    rewrite C1. split; [done|]. rewrite <-C1. split_and!; try done; [congruence|].
    intros k Hk. by apply relayed_trailers_other.
Qed.

(** Documented behaviour of [http.Transport]: header keys are in canonical form;
    interim responses have the statuses of such, and answers have not. *)
Class TransportLaws (T : Transport) : Prop := {
  RoundTrip_interim n out :
    Forall (λ i, informational i.1 = true ∧ canonical_keys i.2) (RoundTrip n out).1;
  RoundTrip_final n out res :
    (RoundTrip n out).2 = Some res → canonical_keys (Response_Header res) ∧ informational (Response_StatusCode res) = false }.

Section run.
Context {PL : Platform} `{Transport}.

Lemma run_ReverseProxy ft r c w :
  run (ReverseProxy_ServeHTTP ft r c) w =
  let out := outgoing_request ft r in
  if IsPrint (upgradeType (Request_Header r)) then
    (set_sent (w_sent w ++ [out]) (tick w),
     serve_answer (upgradeType (Request_Header out)) (RoundTrip (w_tick w) out) c)
  else (w, Returned (upstream_error c)).
Proof.
  unfold ReverseProxy_ServeHTTP. destruct (IsPrint _); cbn [negb]; [|done].
  rewrite run_pbind. unfold transport_RoundTrip. by rewrite run_atom.
Qed.

Lemma serve_answer_spec `{!TransportLaws _} room utype n out :
  let s := serve_answer utype (RoundTrip n out) (newCountingResponseWriter (newRW room)) in
  ∃ gots, Forall2 interim_relayed (RoundTrip n out).1 gots ∧ filtered gots s ∧
  match (RoundTrip n out).2 with
  | None => bad_gateway room s
  | Some res => response_relayed room utype res s
  end.
Proof.
  intros s. subst s. unfold serve_answer.
  assert (unwritten room [] (newCountingResponseWriter (newRW room))) as H0 by done.
  destruct (relay_interims_spec room _ _ _ H0 (RoundTrip_interim n out)) as (gots & Hgots & Hc).
  exists gots. split; [done|]. destruct ((RoundTrip n out).2) as [res|] eqn:E; [|by apply upstream_error_filtered].
  destruct (RoundTrip_final n out res E) as [Hcan Hinf]. by apply serve_response_spec.
Qed.

(** An answer leaves the header clean, and the whole response if only its own
    interim responses and trailers are. *)
Lemma serve_answer_clean `{!TransportLaws _} room utype n out :
  let s := serve_answer utype (RoundTrip n out) (newCountingResponseWriter (newRW room)) in
  no_identity (rw_header (cw_rw (served_cw s))) ∧ (clean_answer (RoundTrip n out) → clean (cw_rw (served_cw s))).
Proof.
  intros s. destruct (serve_answer_spec room utype n out) as (gots & Hg & [Hno Hi] & Hres). fold s in Hno, Hi, Hres.
  split; [done|]. intros [Hint Htr]. unfold clean. rewrite Hi. split; [done|]. split.
  - revert Hint. clear -Hg. induction Hg as [|i got is' gots (_ & Hn & _) _ IH]; intros Hall; [constructor|].
    apply Forall_cons in Hall as [Hh Hall]. constructor; [|by apply IH]. intros k Hk. by apply Hn, Hh.
  - destruct ((RoundTrip n out).2) as [res|]; [specialize (Htr res eq_refl)|].
    2:{ destruct Hres as (c & Hs & _ & _ & _ & _ & Ht & _). rewrite Hs. simpl. rewrite Ht. intros k _. apply lookup_empty. }
    intros k Hk. unfold response_relayed in Hres. case_decide.
    + destruct (same_upgrade _ _).
      * destruct Hres as (c & Hs & _ & _ & _ & Ht & _). rewrite Hs. simpl. rewrite Ht. apply lookup_empty.
      * destruct Hres as (c & Hs & _ & _ & _ & _ & Ht & _). rewrite Hs. simpl. rewrite Ht. apply lookup_empty.
    + destruct (three_digits _).
      * destruct Hres as (_ & _ & _ & _ & _ & Hend). destruct s as [c|c].
        -- destruct Hend as (_ & _ & Ht). rewrite (Ht k (Hno k Hk)). by apply Htr.
        -- destruct Hend as [_ Ht]. rewrite Ht. apply lookup_empty.
      * destruct Hres as (c & Hs & _ & _ & Ht). rewrite Hs. simpl. rewrite Ht. apply lookup_empty.
Qed.

End run.

(** The guest's values of a header before Rewrite. *)
Lemma outgoing_header_values h k :
  k ∉ ["Cookie"; "Authorization"] → default [] (outgoing_header h !! k) = guest_values h k.
Proof.
  intros Hk. unfold outgoing_header, guest_values. cbv zeta. rewrite foldl_Header_Del_lookup.
  change (CanonicalHeaderKey <$> _) with ["Forwarded"; "X-Forwarded-For"; "X-Forwarded-Host"; "X-Forwarded-Proto"].
  assert (k ∈ ["Cookie"; "Authorization"; "Forwarded"; "X-Forwarded-For"; "X-Forwarded-Host"; "X-Forwarded-Proto"] ↔
    k ∈ ["Forwarded"; "X-Forwarded-For"; "X-Forwarded-Host"; "X-Forwarded-Proto"]) as Heq.
  { rewrite !elem_of_cons, !elem_of_nil in *. tauto. }
  rewrite (decide_ext _ _ _ _ Heq). case_decide as Hf; [done|]. clear Heq Hf.
  assert (∀ h' k' v, CanonicalHeaderKey k' = k' → Header_Set h' k' v !! k = if decide (k = k') then Some [v] else h' !! k) as Hset.
  { intros h' k' v Hc. case_decide as E; [subst k; by rewrite <-(Header_Set_lookup h' k' v), Hc|].
    apply Header_Set_lookup_ne. by rewrite Hc. }
  assert (k = "Connection" ∨ k = "Upgrade" ∨ k = "Te" → hop_by_hop h k) as Hhop.
  { intros [->|[->| ->]]; left; by apply (bool_decide_unpack _). }
  destruct (decide (upgradeType h = EmptyString)) as [Eu|Eu], (HeaderValuesContainsToken _ _) eqn:Et;
    rewrite ?Hset, ?removeHopByHopHeaders_lookup by done; repeat case_decide; try tauto; subst; try done; naive_solver.
Qed.

(** The values of a header that are sent. *)
Lemma outgoing_values ft r k :
  canonical_keys (InjectionPlan_Headers (ft_Plan ft)) → k ≠ "User-Agent" →
  default [] (Request_Header (outgoing_request ft r) !! k) =
  guest_values (Request_Header r) k ++ owner_values (ft_Plan ft) k.
Proof.
  intros Hcan Hk.
  transitivity (sent_values (ft_Plan ft) (outgoing_header (Request_Header r)) k).
  - unfold outgoing_request, no_default_agent. simpl.
    rewrite <-(apply_lookup (ft_Plan ft) (outgoing_header (Request_Header r)) _ k Hcan (reflexivity _)).
    unfold InjectionPlan_Apply. destruct (_ !! "User-Agent"); [done|]. by rewrite Header_Set_lookup_ne.
  - unfold sent_values, owner_values. destruct (decide (k = "Cookie" ∨ k = "Authorization")) as [Hc|Hc].
    + unfold guest_values. rewrite (decide_True (P := k ∈ _)); [done|]. rewrite !elem_of_cons. tauto.
    + rewrite outgoing_header_values; [done|]. rewrite !elem_of_cons, elem_of_nil. tauto.
Qed.

(** ** Properties *)

(** C39: what the guest receives.  The interim responses of the target arrive as
    it sent them, and the final header has none of Set-Cookie, Set-Cookie2,
    Authorization, X-Powered-By.  When the target cannot be reached, or asks for
    another protocol than the guest, the answer is 502 with its text; a switch
    of protocols passes the target's header and bytes, uncounted; every other
    answer arrives with its status, with its header values but those of the
    identity and of the connection and with the names of announced trailers, and
    with as much of its body as the guest's connection takes, which the counter
    of the writer counts; the proxy returns exactly if the target's body could
    be read to its end and the guest's connection took all of it, and then the
    trailers follow, else it panics. *)
Theorem reverse_proxy_response {PL : Platform} `{Transport} `{!TransportLaws _} ft r room w :
  let out := outgoing_request ft r in
  let '(w', s) := run (ReverseProxy_ServeHTTP ft r (newCountingResponseWriter (newRW room))) w in
  let guest := cw_rw (served_cw s) in
  no_identity (rw_header guest) ∧
  if IsPrint (upgradeType (Request_Header r)) then
    w_sent w' = w_sent w ++ [out] ∧
    let '(interims, answer) := RoundTrip (w_tick w) out in
    Forall2 interim_relayed interims (rw_interim guest) ∧
    match answer with
    | None => bad_gateway room s
    | Some res => response_relayed room (upgradeType (Request_Header out)) res s
    end
  else w' = w ∧ rw_interim guest = [] ∧ bad_gateway room s.
Proof.
  intros out. rewrite run_ReverseProxy. cbv zeta. fold out. destruct (IsPrint _).
  - destruct (serve_answer_spec room (upgradeType (Request_Header out)) (w_tick w) out) as (gots & Hg & [Hno Hi] & Hres).
    rewrite Hi. destruct (RoundTrip (w_tick w) out) as [ints res]. by split_and!.
  - destruct (upstream_error_filtered room [] (newCountingResponseWriter (newRW room))) as [[Hno Hi] Hbad]; [done|].
    by split_and!.
Qed.

(** C38: what the target is sent, as it is given to the transport: the guest's
    method and body, the base URL's scheme and host, the joined path, the
    guest's own query.  Of every header the guest's values come first and then
    the owner's: there are no guest values of Cookie and Authorization, none of
    the headers that tell the guest's address, and of the headers of its
    connection (those of RFC 9110 and those its Connection header lists) only
    Connection and Upgrade when it asks for another protocol, and Te when it
    accepts trailers.  A guest without User-Agent gets no default one. *)
Theorem outgoing_request_spec ft r
  (Hcan : canonical_keys (InjectionPlan_Headers (ft_Plan ft))) :
  let out := outgoing_request ft r in
  Request_Method out = Request_Method r ∧ Request_Body out = Request_Body r ∧
  Request_URL out = mkURL (URL_Scheme (ft_BaseURL ft)) (URL_Host (ft_BaseURL ft))
    (singleJoiningSlash (URL_Path (ft_BaseURL ft)) (ft_ForwardPath ft)) (URL_RawQuery (Request_URL r)) ∧
  Request_Host out = URL_Host (ft_BaseURL ft) ∧
  ∀ k, let values := guest_values (Request_Header r) k ++ owner_values (ft_Plan ft) k in
    if decide (k = "User-Agent") then
      is_Some (Request_Header out !! k) ∧
      (values ≠ [] → default [] (Request_Header out !! k) = values) ∧
      (values = [] → default [] (Request_Header out !! k) ∈ [[]; [EmptyString]])
    else default [] (Request_Header out !! k) = values.
Proof.
  intros out. split_and!; [done..|]. intros k. case_decide as Hk; [|by apply outgoing_values]. subst k.
  assert (default [] (InjectionPlan_Apply (ft_Plan ft) (outgoing_header (Request_Header r)) !! "User-Agent") =
    guest_values (Request_Header r) "User-Agent" ++ owner_values (ft_Plan ft) "User-Agent") as Hv.
  { unfold InjectionPlan_Apply. rewrite (apply_lookup _ _ _ _ Hcan (reflexivity _)). unfold sent_values.
    rewrite decide_False by naive_solver. by rewrite outgoing_header_values by by apply (bool_decide_unpack _). }
  rewrite <-Hv. subst out. unfold outgoing_request, no_default_agent. simpl.
  destruct (InjectionPlan_Apply _ _ !! "User-Agent") as [vs|] eqn:E; rewrite ?E.
  - split_and!; [by eauto|done|]. simpl. intros ->. by left.
  - rewrite (Header_Set_lookup _ "User-Agent" EmptyString : _ !! "User-Agent" = _). split_and!; [by eauto|done|].
    intros _. by right; left.
Qed.

(** joining a base path and a forward path puts exactly one slash between
    them, and keeps everything else. *)
Theorem singleJoiningSlash_spec a b :
  HasSuffix a "/" = false → HasPrefix b "/" = false →
  singleJoiningSlash a b = a +:+ "/" +:+ b ∧ singleJoiningSlash (a +:+ "/") b = a +:+ "/" +:+ b ∧
  singleJoiningSlash a ("/" +:+ b) = a +:+ "/" +:+ b ∧ singleJoiningSlash (a +:+ "/") ("/" +:+ b) = a +:+ "/" +:+ b.
Proof.
  intros Ha Hb. unfold singleJoiningSlash. rewrite HasSuffix_app, Ha, Hb.
  assert (∀ s, HasPrefix ("/" +:+ s) "/" = true) as Hp by (intros; apply HasPrefix_app).
  rewrite Hp. simpl. rewrite !string_app_assoc. done.
Qed.

(** ** What the header filter does not cover *)

Definition demo_site_url : URL := mkURL "https" "example.org" "/app" "".

Definition demo_target : forwardTarget := mkForwardTarget demo_site_url "/home" demo_plan_of.

Definition demo_request : Request :=
  mkRequest "GET" (mkURL "" "" "/r/tok/home" "q=1") (<["Connection" := ["Upgrade"]]> (<["Upgrade" := ["websocket"]]> demo_guest))
    "proxy.example.net" "203.0.113.7:4711" "".

(** Targets that answer everything alike, without interim responses. *)
Definition constant_site (res : option Response) : Transport := λ _ _, ([], res).

Definition demo_cookie_header : gmap string (list string) := {[ "Set-Cookie" := ["sid=s3cret"]; "Content-Type" := ["text/html"] ]}.

#[export] Instance constant_site_laws res :
  (∀ r, res = Some r → canonical_keys (Response_Header r) ∧ informational (Response_StatusCode r) = false) →
  TransportLaws (constant_site res).
Proof. intros Hr. split; [constructor|intros n out r; apply Hr]. Qed.

Definition demo_answer (interims : list (Z * gmap string (list string))) (res : Response) : ResponseWriter :=
  cw_rw (served_cw (serve_answer "websocket" (interims, Some res) (newCountingResponseWriter (newRW None)))).

(** Trailers are not filtered: a Set-Cookie sent as a trailer reaches the guest,
    announced or not. *)
Lemma trailer_not_stripped :
  rw_trailer (demo_answer [] (mkResponse 200 ∅ ["hello"] false [] demo_cookie_header)) !! "Set-Cookie" = Some ["sid=s3cret"] ∧
  rw_trailer (demo_answer [] (mkResponse 200 ∅ ["hello"] false ["Set-Cookie"; "Content-Type"] demo_cookie_header))
    !! "Set-Cookie" = Some ["sid=s3cret"].
Proof. split; vm_compute; reflexivity. Qed.

(** Neither are interim responses: a Set-Cookie of a 103 (Early Hints) reaches
    the guest, while the one of the answer does not. *)
Lemma interim_not_stripped :
  let guest := demo_answer [(103%Z, demo_cookie_header)] (mkResponse 200 demo_cookie_header ["hello"] false [] ∅) in
  (λ i, i.2 !! "Set-Cookie") <$> rw_interim guest = [Some ["sid=s3cret"]] ∧ rw_header guest !! "Set-Cookie" = None.
Proof. vm_compute. done. Qed.

(** After a switch of protocols nothing is counted: the guest gets the bytes,
    the counter stays at 0 and the recorded status is 200. *)
Lemma upgrade_not_counted :
  let h := {[ "Connection" := ["Upgrade"]; "Upgrade" := ["websocket"] ]} in
  let res := mkResponse 101 h ["frame"; "frame"] false [] ∅ in
  match serve_response "websocket" res (newCountingResponseWriter (newRW None)) with
  | Returned c => body_bytes (cw_rw c) = 10 ∧ cw_bytes c = 0%Z ∧ cw_status c = 200%Z ∧ rw_status (cw_rw c) = Some 101%Z
  | Aborted _ => False
  end.
Proof. vm_compute. done. Qed.

(** ** Witnesses *)

Definition demo_response : Response := mkResponse 200 demo_cookie_header ["hello"; "world"] false [] ∅.

Lemma demo_cookie_header_canonical : canonical_keys demo_cookie_header.
Proof.
  intros k [v Hv]. unfold demo_cookie_header in Hv.
  apply lookup_insert_Some in Hv as [[<- _]|[_ Hv]]; [reflexivity|].
  by apply lookup_singleton_Some in Hv as [<- _].
Qed.

Lemma demo_response_lawful r :
  Some demo_response = Some r → canonical_keys (Response_Header r) ∧ informational (Response_StatusCode r) = false.
Proof. intros [= <-]. split; [apply demo_cookie_header_canonical|done]. Qed.

(** A target that first sends early hints. *)
Definition hinting_site : Transport := λ _ _, ([(103%Z, demo_cookie_header)], Some demo_response).

#[export] Instance hinting_site_laws : TransportLaws hinting_site.
Proof.
  split; [|intros n out r; apply demo_response_lawful].
  intros n out. constructor; [|constructor]. split; [done|apply demo_cookie_header_canonical].
Qed.

Lemma reverse_proxy_response_witness :
  let guest := cw_rw (served_cw (run (ReverseProxy_ServeHTTP (PL := demo) (H := hinting_site) demo_target demo_request
    (newCountingResponseWriter (newRW (Some 7)))) (demo_world empty_DB)).2) in
  no_identity (rw_header guest) ∧ length (rw_interim guest) = 1 ∧ concat_strings (rw_body guest) = "hellowo".
Proof.
  pose proof (@reverse_proxy_response demo hinting_site _ demo_target demo_request (Some 7) (demo_world empty_DB)) as Hr.
  cbv zeta in *. destruct (run _ _) as [w' s].
  destruct Hr as [Hno Hr]. change (IsPrint (upgradeType (Request_Header demo_request))) with true in Hr.
  destruct Hr as (_ & Hi & Hr). unfold response_relayed in Hr. cbn in Hr.
  destruct Hr as (_ & _ & _ & _ & Hb & _). split_and!; [exact Hno| |exact Hb].
  apply Forall2_length in Hi. symmetry. exact Hi.
Defined.

Lemma demo_plan_canonical : canonical_keys (InjectionPlan_Headers demo_plan_of).
Proof.
  intros k [v Hv]. apply elem_of_map_to_list in Hv. vm_compute in Hv.
  repeat (apply elem_of_cons in Hv as [[= -> _]|Hv]; [reflexivity|]). by apply not_elem_of_nil in Hv.
Qed.

Lemma outgoing_request_spec_witness :
  URL_Path (Request_URL (outgoing_request demo_target demo_request)) = "/app/home" ∧
  default [] (Request_Header (outgoing_request demo_target demo_request) !! "Cookie") = ["theme=dark; sid=s3cret"] ∧
  default [] (Request_Header (outgoing_request demo_target demo_request) !! "Connection") = ["Upgrade"].
Proof.
  destruct (outgoing_request_spec demo_target demo_request demo_plan_canonical) as (_ & _ & Hu & _ & Hh).
  split; [by rewrite Hu|]. split.
  - pose proof (Hh "Cookie") as Hc. cbv zeta in Hc. rewrite decide_False in Hc by done. rewrite Hc. vm_compute. reflexivity.
  - pose proof (Hh "Connection") as Hc. cbv zeta in Hc. rewrite decide_False in Hc by done. rewrite Hc. vm_compute. reflexivity.
Defined.

Lemma singleJoiningSlash_spec_witness : singleJoiningSlash "/app/" "/home" = "/app/home".
Proof. apply (singleJoiningSlash_spec "/app" "home"); reflexivity. Defined.
