(* ===== verification/Cookies.v ===== *)
(** * The Cookie header, written and read

    [Request.AddCookie] writes the owner's cookies into the request for the
    target site, and [Request.Cookie] reads the dashboard's own.  Reading what
    was written gives the same cookies, for names that are tokens and values of
    cookie bytes; other bytes of a value are dropped on the way. *)

From Stdlib Require Import Ascii.
From S2P Require Import Prelude GoStrings Http Domain Schema Platform Effects Interfaces RepoLinks RepoSessions Crypto Import Injector.

Open Scope go_scope.

(** ** Specification *)

(** A cookie that can be sent as it is. *)
Record sendable (c : Cookie) : Prop := {
  sendable_name : isToken (Cookie_Name c) = true;
  sendable_value : Forall (λ b, validCookieValueByte b = true) (bytes (Cookie_Value c)) }.

(** ** Lemmas *)

Definition edge_free (l : list ascii) : Prop :=
  (∀ c, head l = Some c → is_space c = false) ∧ (∀ c, last l = Some c → is_space c = false).

Lemma trim_left_id l : (∀ c, head l = Some c → is_space c = false) → trim_left l = l.
Proof. destruct l as [|c l]; simpl; [done|]. intros H. by rewrite H. Qed.

Lemma TrimString_id s : edge_free (bytes s) → TrimString s = s.
Proof.
  intros [Hh Hl]. unfold TrimString. rewrite (trim_left_id (bytes s)) by done.
  rewrite trim_left_id, rev_involutive; [apply of_bytes_bytes|].
  intros c. rewrite rev_alt. fold (reverse (bytes s)). rewrite head_reverse. apply Hl.
Qed.

Lemma TrimString_space s : TrimString (" " +:+ s) = TrimString s.
Proof. reflexivity. Qed.

(** *** Bytes of names and values *)

Lemma token_bytes n c : isToken n = true → c ∈ bytes n → validHeaderFieldByte c = true.
Proof.
  intros [_ Hn]%andb_true_iff Hc. rewrite forallb_forall in Hn. apply Hn. by apply list_elem_of_In.
Qed.

Lemma isToken_nonempty n : isToken n = true → n ≠ EmptyString.
Proof. by intros [Hn%negb_true_iff%bool_decide_eq_false _]%andb_true_iff. Qed.

Lemma token_not_in n c : isToken n = true → validHeaderFieldByte c = false → c ∉ bytes n.
Proof. intros Hn Hc Hin. by rewrite (token_bytes n c Hn Hin) in Hc. Qed.

Lemma is_space_spec c : is_space c = true → c ∈ [" "; "009"; "010"; "013"]%char.
Proof. apply bool_decide_eq_true. Qed.

Lemma token_edge_free n : isToken n = true → edge_free (bytes n).
Proof.
  intros Hn. assert (∀ c, c ∈ bytes n → is_space c = false) as Hs.
  { intros c Hc. apply not_true_iff_false. intros Hsp%is_space_spec.
    pose proof (token_bytes n c Hn Hc) as Hv. set_unfold. by destruct_or!; subst. }
  split; intros c Hc; apply Hs; [by apply head_Some_elem_of|by apply last_Some_elem_of].
Qed.

Lemma sanitize_name n : isToken n = true → sanitizeCookieName n = n.
Proof.
  intros Hn. unfold sanitizeCookieName. rewrite <-(of_bytes_bytes n) at 2. f_equal.
  rewrite <-(list_fmap_id (bytes n)) at 2. apply list_fmap_ext. intros i c Hc%list_elem_of_lookup_2.
  case_decide as Hd; [|done].
  pose proof (token_bytes n c Hn Hc) as Hv. by destruct Hd; subst.
Qed.

(** The value as it is written: bare, or between quotes. *)
Lemma sanitize_value v :
  Forall (λ b, validCookieValueByte b = true) (bytes v) →
  sanitizeCookieValue v =
    if decide (v ≠ EmptyString ∧ (" "%char ∈ bytes v ∨ ","%char ∈ bytes v))
    then dquote +:+ v +:+ dquote else v.
Proof.
  intros Hv. unfold sanitizeCookieValue. cbv zeta. rewrite filter_all, of_bytes_bytes by done.
  destruct (decide (v = EmptyString)) as [->|Hne]; [by rewrite decide_False by naive_solver|].
  destruct (decide (v ≠ EmptyString ∧ _)) as [[_ Hq]|Hq].
  - by rewrite bool_decide_eq_true_2.
  - rewrite bool_decide_eq_false_2 by tauto. done.
Qed.

Lemma value_not_in v c :
  Forall (λ b, validCookieValueByte b = true) (bytes v) → validCookieValueByte c = false → c ∉ bytes v.
Proof. intros Hv Hc Hin. rewrite Forall_forall in Hv. by rewrite (Hv c Hin) in Hc. Qed.

Lemma parse_value v :
  Forall (λ b, validCookieValueByte b = true) (bytes v) →
  parseCookieValue (sanitizeCookieValue v) = Some v.
Proof.
  intros Hv. rewrite sanitize_value by done. unfold parseCookieValue.
  assert (forallb validCookieValueByte (bytes v) = true) as Hall.
  { rewrite forallb_forall. intros c Hc%list_elem_of_In. rewrite Forall_forall in Hv. auto. }
  destruct (decide (v ≠ EmptyString ∧ _)) as [Hq|Hq].
  - rewrite (proj2 (HasSuffix_spec (dquote +:+ v +:+ dquote) dquote)) by (by exists (dquote +:+ v)).
    rewrite (HasPrefix_app dquote (v +:+ dquote)), !string_length_app.
    replace (String.length dquote + (String.length v + String.length dquote) - 2) with (String.length v)
      by (simpl; lia).
    rewrite (proj2 (Nat.ltb_lt 1 _)) by (simpl; lia). cbn [andb].
    change (drop_string 1 (dquote +:+ v +:+ dquote)) with (v +:+ dquote).
    by rewrite take_string_app, Hall.
  - assert (HasPrefix v dquote = false) as ->; [|rewrite andb_false_r; cbn [andb]; by rewrite Hall].
    apply not_true_iff_false. intros [t ->]%HasPrefix_spec.
    apply Forall_cons_1 in Hv as [Hd _]. done.
Qed.

Lemma valid_space b : validCookieValueByte b = true → b ≠ " "%char → is_space b = false.
Proof.
  intros Hb Hne. apply bool_decide_eq_false. intros Hs. set_unfold. by destruct_or!; subst.
Qed.

(** The last byte of a written value is no space. *)
Lemma written_value_last v c :
  Forall (λ b, validCookieValueByte b = true) (bytes v) →
  last (bytes (sanitizeCookieValue v)) = Some c → is_space c = false.
Proof.
  intros Hv. rewrite sanitize_value by done. destruct (decide (v ≠ EmptyString ∧ _)) as [Hq|Hq].
  - rewrite !bytes_app, app_assoc. cbn [bytes dquote]. rewrite last_snoc. by intros [= <-].
  - intros Hc. pose proof (last_Some_elem_of _ _ Hc) as Hin. apply valid_space.
    + rewrite Forall_forall in Hv. auto.
    + intros ->. apply Hq. split; [by intros ->|by left].
Qed.

Section pair.
Context (c : Cookie) (Hc : sendable c).

Lemma pair_form : cookie_pair c = Cookie_Name c +:+ String "=" (sanitizeCookieValue (Cookie_Value c)).
Proof. unfold cookie_pair. by rewrite (sanitize_name _ (sendable_name c Hc)). Qed.

Lemma pair_edge_free : edge_free (bytes (cookie_pair c)).
Proof.
  destruct (token_edge_free _ (sendable_name c Hc)) as [Hh _].
  pose proof (isToken_nonempty _ (sendable_name c Hc)) as Hne.
  rewrite pair_form. split; intros b.
  - rewrite bytes_app. destruct (Cookie_Name c); [done|]. intros Hb. apply Hh. exact Hb.
  - rewrite bytes_app. cbn [bytes]. rewrite last_app_cons. pose proof (written_value_last _ b (sendable_value c Hc)) as Hl.
    destruct (bytes (sanitizeCookieValue _)) as [|x l]; [by intros [= <-]|]. exact Hl.
Qed.

Lemma pair_no_semicolon : ";"%char ∉ bytes (cookie_pair c).
Proof.
  rewrite pair_form, bytes_app. cbn [bytes]. rewrite elem_of_app, elem_of_cons.
  intros [Hn|[?|Hv]]; [by apply (token_not_in _ ";"%char (sendable_name c Hc)) in Hn|done|].
  rewrite sanitize_value in Hv by apply Hc. pose proof (value_not_in _ ";"%char (sendable_value c Hc) eq_refl) as Hno.
  destruct (decide (Cookie_Value c ≠ EmptyString ∧ _)); [|done].
  rewrite !bytes_app, !elem_of_app in Hv. set_solver.
Qed.

Lemma read_pair name pre :
  pre = EmptyString ∨ pre = " " →
  read_cookie name (pre +:+ cookie_pair c) = if decide (Cookie_Name c = name) then Some c else None.
Proof.
  intros Hpre. unfold read_cookie.
  assert (TrimString (pre +:+ cookie_pair c) = cookie_pair c) as ->.
  { destruct Hpre as [->| ->]; [|rewrite TrimString_space]; apply TrimString_id, pair_edge_free. }
  rewrite pair_form, Cut_app by (by apply (token_not_in _ _ (sendable_name c Hc))).
  rewrite (TrimString_id (Cookie_Name c)) by apply token_edge_free, Hc.
  rewrite (sendable_name c Hc), parse_value by apply Hc. cbn [andb].
  destruct (decide (Cookie_Name c = name)).
  - rewrite bool_decide_eq_true_2 by done. by destruct c.
  - by rewrite bool_decide_eq_false_2 by done.
Qed.
End pair.

(** *** The line *)

Definition named (name : string) (cs : list Cookie) : list Cookie := filter (λ c, Cookie_Name c = name) cs.

Lemma named_cons name c cs :
  named name (c :: cs) = (if decide (Cookie_Name c = name) then [c] else []) ++ named name cs.
Proof.
  unfold named. destruct (decide (Cookie_Name c = name)).
  - by rewrite filter_cons_True.
  - by rewrite filter_cons_False.
Qed.

Lemma cookie_line_cons c c' cs :
  cookie_line (c :: c' :: cs) = cookie_pair c +:+ "; " +:+ cookie_line (c' :: cs).
Proof. done. Qed.

Lemma read_line name cs pre :
  pre = EmptyString ∨ pre = " " → cs ≠ [] → Forall sendable cs →
  omap (read_cookie name) (split_on ";" (pre +:+ cookie_line cs)) = named name cs.
Proof.
  intros Hpre Hne Hall. revert pre Hpre Hne. induction Hall as [|c cs Hc Hcs IH]; intros pre Hpre Hne;
    [done|clear Hne].
  assert (";"%char ∉ bytes (pre +:+ cookie_pair c)) as Hsep.
  { rewrite bytes_app, elem_of_app. intros [Hp|Hp%pair_no_semicolon]; [|done..].
    destruct Hpre as [->| ->]; [by apply not_elem_of_nil in Hp|]. by apply list_elem_of_singleton in Hp. }
  rewrite named_cons. destruct cs as [|c' cs].
  - cbn [cookie_line]. rewrite split_on_none by done. cbn [omap list_omap].
    rewrite read_pair by done. by destruct (decide _).
  - rewrite cookie_line_cons. change ("; " +:+ cookie_line (c' :: cs)) with (String ";" (" " +:+ cookie_line (c' :: cs))).
    rewrite <-(string_app_assoc pre), split_on_app by done.
    change (omap ?f (?x :: ?l)) with (match f x with Some y => y :: omap f l | None => omap f l end).
    rewrite read_pair by done. rewrite (IH " ") by (by right || done). by destruct (decide (Cookie_Name c = name)).
Qed.

Lemma line_edge_free cs : cs ≠ [] → Forall sendable cs → edge_free (bytes (cookie_line cs)).
Proof.
  intros Hne Hall. induction Hall as [|c cs Hc Hcs IH]; [done|].
  pose proof (pair_edge_free c Hc) as [Hh Hl]. destruct cs as [|c' cs]; [done|].
  destruct IH as [_ Hl']; [done|]. rewrite cookie_line_cons, !bytes_app. split.
  - pose proof (cookie_pair_nonempty c). destruct (cookie_pair c); [done|]. exact Hh.
  - intros b Hb. apply Hl'. rewrite app_assoc, last_app in Hb.
    destruct (last (bytes (cookie_line (c' :: cs)))) eqn:E; [done|]. apply last_None in E.
    apply (f_equal of_bytes) in E. rewrite of_bytes_bytes in E. cbn [cookie_line] in E.
    destruct cs; apply (f_equal String.length) in E; cbn [cookie_line] in E; unfold cookie_pair in E;
      rewrite !string_length_app in E; simpl in E; lia.
Qed.

Lemma readCookies_values h name cs :
  Forall sendable cs → default [] (h !! "Cookie") = cookie_values cs → readCookies h name = named name cs.
Proof.
  intros Hall Hh. unfold readCookies. rewrite Hh. destruct cs as [|c cs]; [done|]. cbn [cookie_values].
  cbn [mbind list_bind]. rewrite app_nil_r.
  rewrite TrimString_id by (by apply line_edge_free).
  exact (read_line name (c :: cs) EmptyString (or_introl eq_refl) (ltac:(done)) Hall).
Qed.

(** ** Properties *)

(** the target reads the owner's cookies.  For an injection plan whose
    cookies can be sent as they are and which has no token under the header name
    Cookie, parsing the Cookie header of the outgoing request gives, for every
    name, exactly the plan's cookies of that name, in order, and none of the
    guest's. *)
Theorem injected_cookies_read {PL : Platform} `{AEAD} cipher sid w w' plan entries guest name
  (Hbuild : run (BuildInjectionPlan cipher sid) w = (w', inr plan))
  (Horder : entries ≡ₚ map_to_list (InjectionPlan_Headers plan))
  (Hsend : Forall sendable (InjectionPlan_Cookies plan))
  (Htoken : InjectionPlan_Headers plan !! "Cookie" = None) :
  readCookies (apply_in_order (InjectionPlan_Cookies plan) entries guest) name =
  filter (λ c, Cookie_Name c = name) (InjectionPlan_Cookies plan).
Proof.
  apply readCookies_values; [done|]. rewrite (apply_lookup plan).
  - unfold sent_values. rewrite !decide_True, Htoken by auto. by rewrite app_nil_r.
  - apply run_Build in Hbuild as (_ & _ & Ht). apply plan_tokens_spec in Ht as (_ & _ & Hc & _).
    apply Hc. intros i [x Hx]. by rewrite lookup_empty in Hx.
  - done.
Qed.

(** ** Witnesses *)

Definition sendable_b (c : Cookie) : bool :=
  isToken (Cookie_Name c) && forallb validCookieValueByte (bytes (Cookie_Value c)).

Lemma sendable_b_spec c : sendable_b c = true → sendable c.
Proof.
  intros [Hn Hv]%andb_true_iff. split; [done|]. apply Forall_forall. intros b Hb.
  rewrite forallb_forall in Hv. by apply Hv, list_elem_of_In.
Qed.

Lemma sendable_all cs : forallb sendable_b cs = true → Forall sendable cs.
Proof.
  rewrite forallb_forall. intros Hall. apply Forall_forall. intros c Hc.
  by apply sendable_b_spec, Hall, list_elem_of_In.
Qed.

Definition demo_cookie_header := InjectionPlan_Apply demo_plan_of demo_guest.

Lemma injected_cookies_read_witness :
  readCookies demo_cookie_header "sid" = [mkCookie "sid" "s3cret"].
Proof.
  etrans; [apply (@injected_cookies_read demo demo_aead (mkCipher demo_key) 1002%N demo_import.1 demo_plan.1 demo_plan_of
    (map_to_list (InjectionPlan_Headers demo_plan_of)) demo_guest "sid")|].
  - exact demo_plan_run.
  - done.
  - apply sendable_all. vm_compute. reflexivity.
  - vm_compute. reflexivity.
  - vm_compute. reflexivity.
Defined.

(** A value with quotes inside, such as a JSON object, reaches the target without
    them. *)
Lemma quoted_value_altered :
  readCookies (foldl AddCookie ∅ [mkCookie "prefs" (dquote +:+ "a" +:+ dquote +:+ ":1")]) "prefs" =
  [mkCookie "prefs" "a:1"].
Proof. vm_compute. reflexivity. Qed.
