(* ===== verification/Proxy.v ===== *)
(** * internal/proxy: the data plane's handler (handler.go)

    [Handler_ServeHTTP] follows a guest's request from the link's token to the
    target site and back.  The enforcement and the access log are the records
    [Enforcer] and [AccessLogger], as the code's interfaces are; their laws are
    classes, which the services of this development implement.  [url.Parse] is
    the class [URLLib]. *)

From Stdlib Require Import Ascii.
From S2P Require Import Prelude GoStrings Domain Http PubSub Schema Platform Effects Interfaces RepoLinks RepoSessions RepoGuests RepoLogs Policy Blacklist Limiter Links Enforcement Crypto Import Injector Tables Director.

Open Scope go_scope.

(** ** Definitions *)

(** [net/url]: [url.Parse]; [None] is an error. *)
Class URLLib := url_Parse : string → option URL.

Definition RoutePrefix : string := "/r/".

(** ok is false for [None]. *)
Definition parseTokenAndPath (p : string) : option (string * string) :=
  if negb (HasPrefix p RoutePrefix) then None
  else
    let rest := TrimPrefix p RoutePrefix in
    if decide (rest = EmptyString) then None
    else match IndexByte rest "/" with
         | None => Some (rest, "/")
         | Some slash => Some (take_string slash rest, drop_string slash rest)
         end.

(** [bytealg.LastIndexByteString] *)
Fixpoint LastIndexByte (s : string) (c : ascii) : option nat :=
  match s with
  | EmptyString => None
  | String x s' =>
      match LastIndexByte s' c with
      | Some i => Some (S i)
      | None => if decide (x = c) then Some O else None
      end
  end.

(** The host of [net.SplitHostPort]; [None] is an error. *)
Definition SplitHost (hostport : string) : option string :=
  match LastIndexByte hostport ":" with
  | None => None
  | Some i =>
      if HasPrefix hostport "[" then
        match IndexByte hostport "]" with
        | None => None
        | Some e =>
            if decide (S e = i) then
              let host := drop_string 1 (take_string e hostport) in
              if IndexByte (drop_string 1 hostport) "[" then None
              else if IndexByte (drop_string (S e) hostport) "]" then None
              else Some host
            else None
        end
      else
        let host := take_string i hostport in
        if IndexByte host ":" then None
        else if IndexByte hostport "[" then None
        else if IndexByte hostport "]" then None
        else Some host
  end.

Definition clientIP (r : Request) : string :=
  match SplitHost (Request_RemoteAddr r) with
  | None => Request_RemoteAddr r
  | Some host => host
  end.

Section handler.
Context {PL : Platform} `{AEAD} `{Transport} `{URLLib}.
Context `{!SharedLinkRepository} `{!SessionCookieRepository} `{!SessionTokenRepository}
  `{!GuestRepository} `{!GuestSessionRepository} `{!ProxyAccessLogRepository}.

(** The interface Enforcer. *)
Record Enforcer := mkEnforcer {
  Enforcer_BeforeProxy : LinkWithSession → UUID → string → Request → P Admission;
  Enforcer_AfterProxy : LinkWithSession → UUID → Z → Z → P unit }.

(** The interface AccessLogger. *)
Record AccessLogger := mkAccessLogger { AccessLogger_Log : ProxyAccessLog → P unit }.

(** The error of the insert is only logged. *)
Definition SyncAccessLogger : AccessLogger := mkAccessLogger (λ entry,
  let* _ := ProxyAccessLogs_Insert entry in Ret tt).

(** The fields that are not repositories; a nil Enforcer or AccessLog is [None]. *)
Record Handler := mkHandler {
  Handler_Cipher : Cipher;
  Handler_Enforcer : option Enforcer;
  Handler_AccessLog : option AccessLogger }.

Context (h : Handler).

Definition Handler_resolveGuestSession (linkID guestID : UUID) : M UUID :=
  let! existing := GuestSessions_GetActiveByLinkAndGuest linkID (Some guestID) in
  match existing with
  | Some gs => ret (GuestSession_ID gs)
  | None =>
      let! created := GuestSessions_Create
        (mkGuestSession uuid_Nil linkID (Some guestID) "" 0 None None) in
      ret (GuestSession_ID created)
  end.

(** [elapsed.Milliseconds()]: the quotient truncated towards zero. *)
Definition access_entry (link : LinkWithSession) (guestSessionID : UUID) (path method : string)
    (status bytesTransferred elapsed : Z) : ProxyAccessLog :=
  mkProxyAccessLog 0 (Some guestSessionID) (SharedLink_ID (LinkWithSession_Link link))
    (TargetSite_BaseURL (LinkWithSession_TargetSite link) +:+ path) method
    (Some status) (Some bytesTransferred) (Some (Z.quot elapsed 1000000)) None.

Definition Handler_logAccess (link : LinkWithSession) (guestSessionID : UUID) (path method : string)
    (status bytesTransferred elapsed : Z) : P unit :=
  match Handler_AccessLog h with
  | None => Ret tt
  | Some log => AccessLogger_Log log (access_entry link guestSessionID path method status bytesTransferred elapsed)
  end.

(** [time.Now()] is read only when the link has an expiry. *)
Definition inactiveReason (link : LinkWithSession) : P string :=
  if decide (SharedLink_Status (LinkWithSession_Link link) ≠ LinkStatusActive)
  then Ret "this link is no longer active"
  else
    let* expired := match SharedLink_ExpiresAt (LinkWithSession_Link link) with
                    | None => Ret false
                    | Some e => let* now := time_Now in Ret (e <? now)%Z
                    end in
    if (expired : bool) then Ret "this link has expired"
    else if decide (OriginalSession_Status (LinkWithSession_OriginalSession link) ≠ SessionStatusActive)
    then Ret "the underlying session is no longer active"
    else Ret EmptyString.

(** The handler returns, or panics with [http.ErrAbortHandler] out of the
    reverse proxy. *)
Inductive outcome : Type :=
| Done (rw : ResponseWriter)
| Panicked (rw : ResponseWriter).

Definition internal_server_error (rw : ResponseWriter) : P outcome :=
  Ret (Done (http_Error "internal error" StatusInternalServerError rw)).

(** What follows the reverse proxy. *)
Definition Handler_record (r : Request) (start : GoTime) (link : LinkWithSession) (guestSessionID : UUID)
    (forwardPath : string) (cw : countingResponseWriter) : P unit :=
  let* now := time_Now in
  let elapsed := (now - start)%Z in
  let* _ := match Handler_Enforcer h with
            | Some e => Enforcer_AfterProxy e link guestSessionID (cw_status cw) (cw_bytes cw)
            | None => Ret tt
            end in
  let* _ := GuestSessions_TouchLastRequest guestSessionID in
  Handler_logAccess link guestSessionID forwardPath (Request_Method r) (cw_status cw) (cw_bytes cw) elapsed.

(** The handler once the request is admitted. *)
Definition Handler_forward (rw : ResponseWriter) (r : Request) (start : GoTime) (link : LinkWithSession)
    (guestSessionID : UUID) (forwardPath : string) : P outcome :=
  let* p := BuildInjectionPlan (Handler_Cipher h) (OriginalSession_ID (LinkWithSession_OriginalSession link)) in
  match p with
  | inl _ => internal_server_error rw
  | inr plan =>
    match url_Parse (TargetSite_BaseURL (LinkWithSession_TargetSite link)) with
    | None => internal_server_error rw
    | Some targetURL =>
      let* s := ReverseProxy_ServeHTTP (mkForwardTarget targetURL forwardPath plan) r
                  (newCountingResponseWriter rw) in
      match s with
      | Aborted cw => Ret (Panicked (cw_rw cw))
      | Returned cw =>
        let* _ := Handler_record r start link guestSessionID forwardPath cw in
        Ret (Done (cw_rw cw))
      end
    end
  end.

(** The handler once the guest's session is known. *)
Definition Handler_enforce (rw : ResponseWriter) (r : Request) (start : GoTime) (link : LinkWithSession)
    (guestSessionID : UUID) (forwardPath : string) : P outcome :=
  match Handler_Enforcer h with
  | None => Handler_forward rw r start link guestSessionID forwardPath
  | Some e =>
      let* a := Enforcer_BeforeProxy e link guestSessionID forwardPath r in
      match adm_err a with
      | Some _ => internal_server_error rw
      | None =>
          if adm_ok a then Handler_forward rw r start link guestSessionID forwardPath
          else
            let rw' := http_Error (adm_message a) (adm_status a) rw in
            let* now := time_Now in
            let* _ := Handler_logAccess link guestSessionID forwardPath (Request_Method r)
                        (adm_status a) 0 (now - start)%Z in
            Ret (Done rw')
      end
  end.

Definition Handler_ServeHTTP (rw : ResponseWriter) (r : Request) : P outcome :=
  let* start := time_Now in
  match parseTokenAndPath (URL_Path (Request_URL r)) with
  | None => Ret (Done (http_Error "not found" StatusNotFound rw))
  | Some (token, forwardPath) =>
    let* l := SharedLinks_GetByToken token in
    match l with
    | inl _ => Ret (Done (http_Error "link not found" StatusNotFound rw))
    | inr link =>
      let* reason := inactiveReason link in
      if decide (reason ≠ EmptyString) then Ret (Done (http_Error reason StatusGone rw))
      else
        let* g := Guests_GetOrCreate (clientIP r) (Request_UserAgent r) EmptyString in
        match g with
        | inl _ => internal_server_error rw
        | inr guest =>
          let* gs := Handler_resolveGuestSession (SharedLink_ID (LinkWithSession_Link link)) (Guest_ID guest) in
          match gs with
          | inl _ => internal_server_error rw
          | inr guestSessionID => Handler_enforce rw r start link guestSessionID forwardPath
          end
        end
    end
  end.

End handler.

Arguments Enforcer : clear implicits.
Arguments Enforcer {PL}.
Arguments AccessLogger : clear implicits.
Arguments AccessLogger {PL}.
Arguments Handler : clear implicits.
Arguments Handler {PL}.

(** EnforcementService as the handler's Enforcer. *)
Definition EnforcementService {PL : Platform} `{RegexpLib} (hub : bool) : Enforcer := {|
  Enforcer_BeforeProxy link gs path r := Enforcement_BeforeProxy hub link gs path (Request_Method r);
  Enforcer_AfterProxy link gs status n := Enforcement_AfterProxy hub link gs status n |}.

(** ** Interfaces *)

(** Nothing more is sent to a target site, and the clock does not go back. *)
Definition keeps_sent {PL : Platform} (w w' : World) : Prop := w_sent w' = w_sent w ∧ w_tick w ≤ w_tick w'.

(** What the handler asks of an Enforcer and of an AccessLogger: they do not
    reach the target site, and they write through the statements of [Tables]. *)
Class EnforcerLaws {PL : Platform} (e : Enforcer) : Prop := {
  before_sent link gs path r : all_atoms keeps_sent (Enforcer_BeforeProxy e link gs path r);
  after_sent link gs st n : all_atoms keeps_sent (Enforcer_AfterProxy e link gs st n);
  before_writes sealed link gs path r : all_atoms (on_db (statements sealed)) (Enforcer_BeforeProxy e link gs path r);
  after_writes sealed link gs st n : all_atoms (on_db (statements sealed)) (Enforcer_AfterProxy e link gs st n) }.

Class AccessLoggerLaws {PL : Platform} (l : AccessLogger) : Prop := {
  log_sent entry : all_atoms keeps_sent (AccessLogger_Log l entry);
  log_writes sealed entry : all_atoms (on_db (statements sealed)) (AccessLogger_Log l entry);
  log_redis entry : all_atoms (on_redis eq) (AccessLogger_Log l entry) }.

Class HandlerLaws {PL : Platform} (h : Handler) : Prop := {
  handler_enforcer e : Handler_Enforcer h = Some e → EnforcerLaws e;
  handler_log l : Handler_AccessLog h = Some l → AccessLoggerLaws l }.

(** ** Specification *)

(** The link a token opens at [now]: stored, active, not expired, and of an
    active session. *)
Definition link_open (d : DB) (token : string) (now : GoTime) (link : LinkWithSession) : Prop :=
  let l := LinkWithSession_Link link in
  (∃ id, shared_links d !! id = Some l) ∧ SharedLink_Token l = token ∧ join_link d l = Some link ∧
  SharedLink_Status l = LinkStatusActive ∧ (∀ e, SharedLink_ExpiresAt l = Some e → (now <= e)%Z) ∧
  OriginalSession_Status (LinkWithSession_OriginalSession link) = SessionStatusActive.

(** Only the tables of guests and guest sessions differ. *)
Definition same_but_guests (d d' : DB) : Prop :=
  ∃ g gs, d' = set_guests (λ _, g) (set_guest_sessions (λ _, gs) d).

(** The phase before enforcement. *)
Definition guest_phase {PL : Platform} (w w' : World) : Prop :=
  same_but_guests (w_db w) (w_db w') ∧ w_redis w' = w_redis w ∧ w_alog w' = w_alog w ∧ keeps_sent w w'.

(** ** Lemmas *)

#[export] Instance keeps_sent_preorder {PL : Platform} : PreOrder keeps_sent.
Proof. unfold keeps_sent. split; [by split|]. intros ? ? ? [? ?] [? ?]. split; [congruence|lia]. Qed.

Lemma same_but_guests_refl d : same_but_guests d d.
Proof. exists (guests d), (guest_sessions d). by destruct d. Qed.

#[export] Instance guest_phase_preorder {PL : Platform} : PreOrder guest_phase.
Proof.
  split.
  - intros w. split_and!; [apply same_but_guests_refl|done|done|done].
  - intros w1 w2 w3 ((g & gs & H1) & H2 & H3 & H4) ((g' & gs' & H1') & H2' & H3' & H4'). split_and!.
    + exists g', gs'. by rewrite H1', H1.
    + congruence.
    + congruence.
    + by etrans.
Qed.

Lemma io_keeps_sent {PL : Platform} {A} (p : P A) : all_atoms keeps_io p → all_atoms keeps_sent p.
Proof. apply all_atoms_mono. intros w w' (? & ? & ?). by split. Qed.

#[export] Instance EnforcementService_laws {PL : Platform} `{RegexpLib} hub : EnforcerLaws (EnforcementService hub).
Proof.
  split; intros; cbn [EnforcementService Enforcer_BeforeProxy Enforcer_AfterProxy].
  - apply io_keeps_sent, io_BeforeProxy.
  - apply io_keeps_sent, io_AfterProxy.
  - apply atoms_BeforeProxy; apply _.
  - apply atoms_AfterProxy; apply _.
Qed.

#[export] Instance SyncAccessLogger_laws {PL : Platform} : AccessLoggerLaws SyncAccessLogger.
Proof.
  split; intros; cbn [SyncAccessLogger AccessLogger_Log]; repo_logs.
  - apply io_keeps_sent. unfold ProxyAccessLogRepo_Insert. io_atoms.
  - atoms. apply writes_Log.
  - unfold ProxyAccessLogRepo_Insert. atoms; apply all_atoms_sql_redis; apply _.
Qed.

Section guest_phase.
Context {PL : Platform}.

Lemma guest_sql {A} (stmt : UUID → GoTime → DB → sql_result A) :
  (∀ u t d r d', stmt u t d = inr (r, d') → same_but_guests d d') → all_atoms guest_phase (sql stmt).
Proof.
  intros Hs. split; [|done]. intros w. cbn -[guest_phase].
  assert (guest_phase w (tick w)) as H0 by (split_and!; simpl; auto using same_but_guests_refl; split; simpl; auto).
  destruct (env_fault (w_tick w)) as [[[|k] j]|]; simpl; [done| |];
    destruct (stmt _ _ (w_db w)) as [e|[r d']] eqn:E; try done;
    (split_and!; simpl; [by eapply Hs|done|done|split; simpl; auto]).
Qed.

Lemma guest_time : all_atoms guest_phase time_Now.
Proof. apply all_atoms_time. intros w. split_and!; [apply same_but_guests_refl|done|done|split; simpl; auto]. Qed.

Lemma guest_GetByToken token : all_atoms guest_phase (SharedLinkRepo_GetByToken token).
Proof.
  unfold SharedLinkRepo_GetByToken, scan_keep_norows. atoms; apply guest_sql. intros u t d r d' Hs. invert_stmt. apply same_but_guests_refl.
Qed.

Lemma guest_GetOrCreate ip ua fp : all_atoms guest_phase (GuestRepo_GetOrCreate ip ua fp).
Proof.
  unfold GuestRepo_GetOrCreate, scanGuest, scan_keep_norows.
  atoms; apply guest_sql; intros u t d r' d' Hs; cbv zeta in Hs; invert_stmt; try apply same_but_guests_refl.
  all: match goal with |- same_but_guests ?d (set_guests ?f ?d) => exists (f (guests d)), (guest_sessions d); by destruct d end.
Qed.

Lemma guest_resolve linkID guestID : all_atoms guest_phase (Handler_resolveGuestSession linkID guestID).
Proof.
  unfold Handler_resolveGuestSession. repo_guests.
  unfold GuestSessionRepo_GetActiveByLinkAndGuest, GuestSessionRepo_Create, scanGuestSession, scan_keep_norows.
  atoms; apply guest_sql; intros u t d r' d' Hs; cbv zeta in Hs; invert_stmt; try apply same_but_guests_refl.
  all: match goal with |- same_but_guests ?d (set_guest_sessions ?f ?d) => exists (guests d), (f (guest_sessions d)); by destruct d end.
Qed.

Lemma guest_inactive link : all_atoms guest_phase (inactiveReason link).
Proof. unfold inactiveReason. atoms; apply guest_time. Qed.

End guest_phase.

Lemma Header_Set_no_identity h k v :
  no_identity h → CanonicalHeaderKey k ∉ identityHeaders → no_identity (Header_Set h k v).
Proof.
  intros Hh Hk i Hi. unfold Header_Set. rewrite lookup_insert_ne; [by apply Hh|]. intros <-. by apply Hk.
Qed.

Lemma rw_WriteHeader_clean st w : clean w → clean (rw_WriteHeader st w).
Proof.
  intros (Hh & Hi & Ht). unfold rw_WriteHeader. destruct (rw_status w); [done|].
  destruct (informational st); [|done]. split; [done|]. split; [|done]. apply Forall_app. split; [done|].
  constructor; [|done]. intros k Hk. simpl. rewrite !lookup_delete_None. by auto.
Qed.

Lemma http_Error_clean msg code room : clean (http_Error msg code (newRW room)).
Proof.
  unfold http_Error. set (w := newRW room). set (w1 := rw_add_headers _ w).
  assert (no_identity (rw_header w)) as Hw by (intros k _; apply lookup_empty).
  assert (clean w1) as H1.
  { split; [|split; [constructor|intros k _; apply lookup_empty]]. subst w1. simpl. apply Header_Set_no_identity; [apply Header_Set_no_identity|].
    - intros k Hk. apply Header_Del_None. by apply Hw.
    - by apply (bool_decide_unpack _).
    - by apply (bool_decide_unpack _). }
  clearbody w1. destruct (rw_Write _ (rw_WriteHeader code w1)) as [[n e] w2] eqn:E. simpl.
  apply rw_Write_spec in E as ((Eh & Ei & Et) & _). unfold clean. rewrite Eh, Ei, Et. by apply rw_WriteHeader_clean.
Qed.

Section serve_lemmas.
Context {PL : Platform} `{AEAD} `{Transport} `{URLLib}.

Lemma GetByToken_read token w :
  ∃ res, run (SharedLinkRepo_GetByToken token) w = (tick w, res) ∧
    (∀ link, res = inr link → ∃ id, shared_links (w_db w) !! id = Some (LinkWithSession_Link link) ∧
       SharedLink_Token (LinkWithSession_Link link) = token ∧
       join_link (w_db w) (LinkWithSession_Link link) = Some link) ∧
    (∀ e, NoFaults PL → res = inl e →
       ∀ id l, shared_links (w_db w) !! id = Some l → SharedLink_Token l = token → join_link (w_db w) l = None).
Proof.
  unfold SharedLinkRepo_GetByToken, scan_keep_norows. rewrite run_pbind. read_row res.
  set (ls := omap (join_link (w_db w)) (filter (λ sl, SharedLink_Token sl = token) (rows (shared_links (w_db w))))) in *.
  destruct res as [e|link].
  - exists (inl (if errors_Is e pgx_ErrNoRows then e else Wrap "pgx: get link by token" e)).
    split; [by destruct (errors_Is e _)|]. split; [done|]. intros e' HNF _ id l Hid Htok.
    specialize (Hok HNF). destruct (head ls) as [x|] eqn:Eh; [done|]. apply head_None in Eh.
    destruct (join_link (w_db w) l) as [y|] eqn:Ej; [|done]. exfalso.
    assert (y ∈ ls) as Hin; [|rewrite Eh in Hin; by apply not_elem_of_nil in Hin].
    apply list_elem_of_omap. exists l. split; [|done]. apply list_elem_of_filter. split; [done|].
    apply elem_of_rows. eauto.
  - exists (inr link). split; [done|]. split; [|done]. intros link' Hl. simplify_eq.
    specialize (Hread link' eq_refl). destruct (head ls) as [x|] eqn:Eh; [|done]. simplify_eq.
    assert (link' ∈ ls) as Hin by (destruct ls; simplify_eq/=; left).
    apply list_elem_of_omap in Hin as (sl & Hsl & Hj). apply list_elem_of_filter in Hsl as [Ht Hr].
    apply elem_of_rows in Hr as [id Hid].
    assert (LinkWithSession_Link link' = sl) as ->; [|by exists id].
    unfold join_link in Hj. destruct (original_sessions (w_db w) !! _) as [os|]; [|done]. cbn in Hj.
    destruct (target_sites (w_db w) !! _) as [ts|]; [|done]. cbn in Hj. by simplify_eq.
Qed.

Lemma run_inactiveReason link w :
  (run (inactiveReason link) w).2 = EmptyString →
  SharedLink_Status (LinkWithSession_Link link) = LinkStatusActive ∧
  (∀ e, SharedLink_ExpiresAt (LinkWithSession_Link link) = Some e → (env_now (w_tick w) <= e)%Z) ∧
  OriginalSession_Status (LinkWithSession_OriginalSession link) = SessionStatusActive.
Proof.
  unfold inactiveReason. case_decide as Hs; [done|].
  rewrite run_pbind.
  destruct (SharedLink_ExpiresAt (LinkWithSession_Link link)) as [e|].
  - rewrite run_pbind. assert (run time_Now w = (tick w, env_now (w_tick w))) as -> by (unfold time_Now; by rewrite run_atom).
    cbn [run fst snd]. destruct (Z.ltb_spec e (env_now (w_tick w))); [done|].
    case_decide as Ho; [done|]. intros _. split_and!; [done| |done].
    intros e' He'. by simplify_eq.
  - cbn [run fst snd]. case_decide as Ho; [done|]. intros _. by split_and!.
Qed.

(** Up to enforcement: an error response, or an open link and its guest's
    session. *)
Lemma run_ServeHTTP_cases h rw r w :
  let '(w', o) := run (Handler_ServeHTTP h rw r) w in
  (guest_phase w w' ∧ ∃ msg code, o = Done (http_Error msg code rw) ∧ code ∈ [404; 410; 500]%Z) ∨
  ∃ token path link gs w1,
    parseTokenAndPath (URL_Path (Request_URL r)) = Some (token, path) ∧
    link_open (w_db w) token (env_now (S (S (w_tick w)))) link ∧ guest_phase w w1 ∧
    run (Handler_enforce h rw r (env_now (w_tick w)) link gs path) w1 = (w', o).
Proof.
  destruct (run (Handler_ServeHTTP h rw r) w) as [w' o] eqn:E. revert E.
  assert (∀ v, run time_Now v = (tick v, env_now (w_tick v))) as Htime by (intros; unfold time_Now; by rewrite run_atom).
  assert (∀ v, guest_phase v (tick v)) as Htick
    by (intros; split_and!; [apply same_but_guests_refl|done|done|split; simpl; auto]).
  unfold Handler_ServeHTTP. rewrite run_pbind, Htime. cbn [fst snd].
  destruct (parseTokenAndPath _) as [[token path]|].
  2:{ intros [= <- <-]. left. split; [apply Htick|]. eexists _, _. split; [done|]. by left. }
  rewrite run_pbind. repo_links.
  destruct (GetByToken_read token (tick w)) as (res & -> & Hlink & _). cbn [fst snd].
  assert (guest_phase w (tick (tick w))) as H2 by (etrans; apply Htick).
  destruct res as [e|link].
  { intros [= <- <-]. left. split; [done|]. eexists _, _. split; [done|]. by left. }
  specialize (Hlink link eq_refl) as (id & Hid & Htok & Hjoin). rewrite run_pbind.
  pose proof (run_inactiveReason link (tick (tick w))) as Hactive.
  pose proof (all_atoms_run guest_phase _ (tick (tick w)) (guest_inactive link)) as H3.
  destruct (run (inactiveReason link) _) as [w3 reason]. cbn [fst snd] in *.
  assert (guest_phase w w3) as H03 by (by etrans). clear H3.
  destruct (decide (reason ≠ EmptyString)) as [Hr|Hr].
  { intros [= <- <-]. left. split; [done|]. eexists _, _. split; [done|]. right. left. }
  assert (reason = EmptyString) as Hr' by (by destruct (decide (reason = EmptyString))).
  specialize (Hactive Hr') as (Hst & Hexp & Hos). rewrite run_pbind. repo_guests.
  pose proof (all_atoms_run guest_phase _ w3 (guest_GetOrCreate (clientIP r) (Request_UserAgent r) EmptyString)) as H4.
  destruct (run (GuestRepo_GetOrCreate _ _ _) w3) as [w4 [e|guest]]; cbn [fst snd] in *.
  { intros [= <- <-]. left. split; [by etrans|]. eexists _, _. split; [done|]. do 2 right. left. }
  rewrite run_pbind.
  pose proof (all_atoms_run guest_phase _ w4 (guest_resolve (SharedLink_ID (LinkWithSession_Link link)) (Guest_ID guest))) as H5.
  destruct (run (Handler_resolveGuestSession _ _) w4) as [w5 [e|gs]]; cbn [fst snd] in *.
  { intros [= <- <-]. left. split; [etrans; [done|by etrans]|]. eexists _, _. split; [done|]. do 2 right. left. }
  intros Hrun. right. exists token, path, link, gs, w5. split; [done|]. split; [|split; [etrans; [done|by etrans]|done]].
  split_and!; eauto.
Qed.

Lemma io_Build cipher sid : all_atoms keeps_io (BuildInjectionPlan cipher sid).
Proof.
  unfold BuildInjectionPlan. repo_sessions. unfold SessionCookieRepo_ListBySession, SessionTokenRepo_ListBySession.
  io_atoms.
Qed.

Lemma build_db cipher sid : all_atoms (on_db eq) (BuildInjectionPlan cipher sid).
Proof.
  unfold BuildInjectionPlan. repo_sessions. unfold SessionCookieRepo_ListBySession, SessionTokenRepo_ListBySession.
  atoms.
Qed.

Lemma build_redis cipher sid : all_atoms (on_redis eq) (BuildInjectionPlan cipher sid).
Proof.
  unfold BuildInjectionPlan. repo_sessions. unfold SessionCookieRepo_ListBySession, SessionTokenRepo_ListBySession.
  atoms; apply all_atoms_sql_redis; apply _.
Qed.

Lemma run_forward h rw r start link gs path w :
  let '(w', o) := run (Handler_forward h rw r start link gs path) w in
  (keeps_sent w w' ∧ w_db w' = w_db w ∧ w_redis w' = w_redis w ∧
   o = Done (http_Error "internal error" StatusInternalServerError rw)) ∨
  ∃ plan url w1,
    run (BuildInjectionPlan (Handler_Cipher h) (OriginalSession_ID (LinkWithSession_OriginalSession link))) w = (w1, inr plan) ∧
    url_Parse (TargetSite_BaseURL (LinkWithSession_TargetSite link)) = Some url ∧
    keeps_sent w w1 ∧ w_db w1 = w_db w ∧ w_redis w1 = w_redis w ∧
    let '(w2, s) := run (ReverseProxy_ServeHTTP (mkForwardTarget url path plan) r (newCountingResponseWriter rw)) w1 in
    match s with
    | Aborted cw => w' = w2 ∧ o = Panicked (cw_rw cw)
    | Returned cw => w' = (run (Handler_record h r start link gs path cw) w2).1 ∧ o = Done (cw_rw cw)
    end.
Proof.
  destruct (run (Handler_forward h rw r start link gs path) w) as [w' o] eqn:E. revert E.
  unfold Handler_forward. rewrite run_pbind.
  set (b := BuildInjectionPlan _ _).
  pose proof (all_atoms_run keeps_io b w (io_Build _ _)) as (_ & Hs & Ht).
  pose proof (all_atoms_run (on_db eq) b w (build_db _ _)) as Hdb.
  pose proof (all_atoms_run (on_redis eq) b w (build_redis _ _)) as Hrd.
  unfold on_db, on_redis in *.
  destruct (run b w) as [w1 [e|plan]] eqn:Eb; cbn [fst snd] in *.
  { intros [= <- <-]. left. split_and!; by auto. }
  destruct (url_Parse _) as [url|] eqn:Eu.
  2:{ intros [= <- <-]. left. split_and!; by auto. }
  rewrite run_pbind. intros Hrun. right. exists plan, url, w1. split_and!; try done.
  destruct (run (ReverseProxy_ServeHTTP _ r _) w1) as [w2 [cw|cw]]; cbn [fst snd] in *.
  - rewrite run_pbind in Hrun. cbn [run] in Hrun. by injection Hrun as <- <-.
  - by injection Hrun as <- <-.
Qed.

Lemma io_Touch id : all_atoms keeps_io (GuestSessionRepo_TouchLastRequest id).
Proof. unfold GuestSessionRepo_TouchLastRequest. io_atoms. Qed.

Lemma logAccess_sent h `{!HandlerLaws h} link gs path method st n el :
  all_atoms keeps_sent (Handler_logAccess h link gs path method st n el).
Proof.
  unfold Handler_logAccess. destruct (Handler_AccessLog h) as [l|] eqn:El; [|done].
  pose proof (handler_log l El). apply log_sent.
Qed.

Lemma touch_redis id : all_atoms (on_redis eq) (GuestSessionRepo_TouchLastRequest id).
Proof. unfold GuestSessionRepo_TouchLastRequest. atoms; apply all_atoms_sql_redis; apply _. Qed.

Lemma logAccess_redis h `{!HandlerLaws h} link gs path method st n el :
  all_atoms (on_redis eq) (Handler_logAccess h link gs path method st n el).
Proof.
  unfold Handler_logAccess. destruct (Handler_AccessLog h) as [l|] eqn:El; [|done].
  pose proof (handler_log l El). apply log_redis.
Qed.

Lemma record_sent h `{!HandlerLaws h} r start link gs path cw :
  all_atoms keeps_sent (Handler_record h r start link gs path cw).
Proof.
  unfold Handler_record. repo_guests. apply all_atoms_pbind; [apply io_keeps_sent, io_time|]. intros now.
  apply all_atoms_pbind; [|intros _; apply all_atoms_pbind; [apply io_keeps_sent, io_Touch|intros _; apply logAccess_sent; apply _]].
  destruct (Handler_Enforcer h) as [e|] eqn:Ee; [|done]. pose proof (handler_enforcer e Ee). apply after_sent.
Qed.

(** What the reverse proxy hands to the transport. *)
Lemma ReverseProxy_sent ft r c w :
  let '(w', s) := run (ReverseProxy_ServeHTTP ft r c) w in
  w_db w' = w_db w ∧ w_redis w' = w_redis w ∧
  (w_sent w' = w_sent w ∨ w_sent w' = w_sent w ++ [outgoing_request ft r]).
Proof. rewrite run_ReverseProxy. destruct (IsPrint _); simpl; split_and!; auto. Qed.

(** What the reverse proxy counts of a response that was received to the end. *)
Lemma ReverseProxy_counts `{!TransportLaws _} ft r room w :
  (∀ res, (RoundTrip (w_tick w) (outgoing_request ft r)).2 = Some res → Response_StatusCode res ≠ StatusSwitchingProtocols) →
  ∀ c, (run (ReverseProxy_ServeHTTP ft r (newCountingResponseWriter (newRW room))) w).2 = Returned c → counts c.
Proof.
  intros Hplain c. rewrite run_ReverseProxy. cbv zeta. destruct (IsPrint _); cbn [snd].
  - set (out := outgoing_request _ r) in *.
    destruct (serve_answer_spec room (upgradeType (Request_Header out)) (w_tick w) out) as (gots & _ & _ & Hres).
    destruct ((RoundTrip (w_tick w) out).2) as [res|]; [|destruct Hres as (c' & -> & Hc & _); by intros [= <-]].
    unfold response_relayed in Hres. rewrite decide_False in Hres by by apply Hplain. intros E. rewrite E in Hres.
    destruct (three_digits _); [apply Hres|]. by destruct Hres as (c' & ? & _).
  - destruct (upstream_error_spec room [] (newCountingResponseWriter (newRW room))) as [(c' & [= ->] & Hc & _) _]; [done|].
    by intros [= <-].
Qed.

(** Enforcement and forwarding. *)
Lemma run_enforce h `{!HandlerLaws h} rw r start link gs path w :
  let '(w', o) := run (Handler_enforce h rw r start link gs path) w in
  (w_sent w' = w_sent w ∧ ∃ msg code, o = Done (http_Error msg code rw)) ∨
  ∃ w1, run (Handler_forward h rw r start link gs path) w1 = (w', o) ∧ w_sent w1 = w_sent w ∧
    match Handler_Enforcer h with
    | None => w1 = w
    | Some e => ∃ a, run (Enforcer_BeforeProxy e link gs path r) w = (w1, a) ∧ adm_ok a = true ∧ adm_err a = None
    end.
Proof.
  destruct (run (Handler_enforce h rw r start link gs path) w) as [w' o] eqn:E. revert E. unfold Handler_enforce.
  destruct (Handler_Enforcer h) as [e|] eqn:Ee; [|by eauto 10].
  pose proof (handler_enforcer e Ee) as He. rewrite run_pbind.
  pose proof (all_atoms_run keeps_sent _ w (before_sent link gs path r)) as [Hs _].
  destruct (run (Enforcer_BeforeProxy e link gs path r) w) as [w1 a] eqn:Ea. cbn [fst snd] in *.
  destruct (adm_err a) as [err|] eqn:Eerr.
  { intros [= <- <-]. left. split; [done|]. by eexists _, _. }
  destruct (adm_ok a) eqn:Eok; [intros; right; exists w1; by eauto 10|].
  intros Hrun. left. split; [|].
  - revert Hrun. rewrite run_pbind. intros Hrun.
    pose proof (all_atoms_run keeps_sent time_Now w1 (io_keeps_sent _ io_time)) as [Ht _].
    destruct (run time_Now w1) as [w2 now]. cbn [fst snd] in *. revert Hrun. rewrite run_pbind.
    pose proof (all_atoms_run keeps_sent _ w2 (logAccess_sent h link gs path (Request_Method r) (adm_status a) 0 (now - start))) as [Hl _].
    destruct (run (Handler_logAccess _ _ _ _ _ _ _ _) w2) as [w3 u]. cbn [fst snd run] in *.
    intros [= <- _]. congruence.
  - revert Hrun. rewrite run_pbind. destruct (run time_Now w1) as [w2 now]. cbn [fst snd].
    rewrite run_pbind. destruct (run (Handler_logAccess _ _ _ _ _ _ _ _) w2) as [w3 u]. cbn [fst snd run].
    intros [= _ <-]. by eexists _, _.
Qed.

(** What the end of a forwarded request has sent. *)
Lemma served_sent h `{!HandlerLaws h} ft r start link gs path rw w w' o :
  (let '(w4, s) := run (ReverseProxy_ServeHTTP ft r (newCountingResponseWriter rw)) w in
   match s with
   | Aborted cw => w' = w4 ∧ o = Panicked (cw_rw cw)
   | Returned cw => w' = (run (Handler_record h r start link gs path cw) w4).1 ∧ o = Done (cw_rw cw)
   end) →
  w_sent w' = w_sent w ∨ w_sent w' = w_sent w ++ [outgoing_request ft r].
Proof.
  pose proof (ReverseProxy_sent ft r (newCountingResponseWriter rw) w) as Hrp.
  destruct (run (ReverseProxy_ServeHTTP _ _ _) w) as [w4 s]. destruct Hrp as (_ & _ & Hsent). intros Hrest.
  assert (w_sent w' = w_sent w4) as ->; [|by destruct Hsent; auto].
  destruct s as [cw|cw], Hrest as [-> _]; [|done].
  by destruct (all_atoms_run keeps_sent _ w4 (record_sent h r start link gs path cw)).
Qed.

(** The whole handler: an error response and nothing sent, or a request that
    was admitted, and given to the reverse proxy with the owner's credentials. *)
Lemma run_ServeHTTP h `{!HandlerLaws h} rw r w :
  let '(w', o) := run (Handler_ServeHTTP h rw r) w in
  (w_sent w' = w_sent w ∧ ∃ msg code, o = Done (http_Error msg code rw)) ∨
  ∃ token path link gs plan url w1 w2 w3,
    parseTokenAndPath (URL_Path (Request_URL r)) = Some (token, path) ∧
    link_open (w_db w) token (env_now (S (S (w_tick w)))) link ∧ guest_phase w w1 ∧
    match Handler_Enforcer h with
    | None => w2 = w1
    | Some e => ∃ a, run (Enforcer_BeforeProxy e link gs path r) w1 = (w2, a) ∧ adm_ok a = true ∧ adm_err a = None
    end ∧
    run (BuildInjectionPlan (Handler_Cipher h) (OriginalSession_ID (LinkWithSession_OriginalSession link))) w2 = (w3, inr plan) ∧
    url_Parse (TargetSite_BaseURL (LinkWithSession_TargetSite link)) = Some url ∧
    w_sent w3 = w_sent w ∧ w_db w3 = w_db w2 ∧ w_redis w3 = w_redis w2 ∧
    let '(w4, s) := run (ReverseProxy_ServeHTTP (mkForwardTarget url path plan) r (newCountingResponseWriter rw)) w3 in
    match s with
    | Aborted cw => w' = w4 ∧ o = Panicked (cw_rw cw)
    | Returned cw => w' = (run (Handler_record h r (env_now (w_tick w)) link gs path cw) w4).1 ∧ o = Done (cw_rw cw)
    end.
Proof.
  pose proof (run_ServeHTTP_cases h rw r w) as Hc. destruct (run (Handler_ServeHTTP h rw r) w) as [w' o].
  destruct Hc as [[(_ & _ & _ & Hs & _) (msg & code & -> & _)]|(token & path & link & gs & w1 & Hp & Hl & Hg & Hrun)].
  { left. split; [done|]. by eexists _, _. }
  pose proof (run_enforce h rw r (env_now (w_tick w)) link gs path w1) as He. rewrite Hrun in He.
  pose proof Hg as (_ & _ & _ & Hs1 & _).
  destruct He as [[Hs ?]|(w2 & Hfwd & Hs & Hadm)]; [left; by rewrite Hs|].
  pose proof (run_forward h rw r (env_now (w_tick w)) link gs path w2) as Hf. rewrite Hfwd in Hf.
  destruct Hf as [([Hs2 _] & _ & _ & ->)|(plan & url & w3 & Hb & Hu & [Hs3 _] & Hdb & Hrd & Hrest)].
  { left. split; [congruence|]. by eexists _, _. }
  right. exists token, path, link, gs, plan, url, w1, w2, w3. split_and!; try done. congruence.
Qed.

End serve_lemmas.

Section enforced.
Context {PL : Platform} `{!PlatformLaws PL} `{AEAD} `{Transport} `{URLLib} `{RegexpLib}.

(** Guests and guest sessions have no part in the decision. *)
Lemma guest_phase_verdict w w1 link method path now :
  guest_phase w w1 → verdict_at w1 link method path now = verdict_at w link method path now.
Proof.
  intros ((g & gs & Hdb) & Hrd & _). unfold verdict_at, link_policy, path_is_blocked, effective_counters, usage_of.
  rewrite Hdb, Hrd. reflexivity.
Qed.

Lemma guest_phase_counters w w1 id :
  guest_phase w w1 → effective_counters w1 id = effective_counters w id.
Proof.
  intros ((g & gs & Hdb) & Hrd & _). unfold effective_counters, usage_of. rewrite Hdb, Hrd. reflexivity.
Qed.

Lemma guest_phase_wf w w1 : guest_phase w w1 → world_wf w → world_wf w1.
Proof.
  intros ((g & gs & Hdb) & Hrd & _) [Hlw Husage]. split; [by rewrite Hrd|].
  intros id. specialize (Husage id). unfold usage_of in *. by rewrite Hdb.
Qed.

(** Recording a request: the counters of its link. *)
Lemma record_counters `{!NoFaults PL} h `{!HandlerLaws h} hub r start link gs path cw w :
  Handler_Enforcer h = Some (EnforcementService hub) → limiter_wf (w_redis w) →
  (0 <= cw_bytes cw < two63)%Z →
  let id := SharedLink_ID (LinkWithSession_Link link) in
  let c := add_op (OpBytes (cw_bytes cw)) (add_op OpRequest (counters_of (w_redis w) id)) in
  counters_in_int64 c →
  let w' := (run (Handler_record h r start link gs path cw) w).1 in
  counters_of (w_redis w') id = c ∧ ∀ l, l ≠ id → counters_of (w_redis w') l = counters_of (w_redis w) l.
Proof.
  intros He Hwf Hn id c Hfit. unfold Handler_record. rewrite He. repo_guests.
  rewrite run_pbind. assert (w_redis (run time_Now w).1 = w_redis w) as Hrd by (unfold time_Now; by rewrite run_atom).
  destruct (run time_Now w) as [w1 now]. cbn [fst snd] in *. rewrite run_pbind.
  cbn [EnforcementService Enforcer_AfterProxy].
  destruct (run_AfterProxy_ok hub link gs (cw_status cw) (cw_bytes cw) w1) as (w2 & _ & _ & _ & Hc & Ho & _ & Erun);
    [by rewrite Hrd|unfold in_int64, two63 in *; lia|by rewrite Hrd|lia|].
  rewrite Hrd in Hc, Ho. fold id c in Hc, Ho.
  assert (w_redis (run (Enforcement_AfterProxy hub link gs (cw_status cw) (cw_bytes cw)) w1).1 = w_redis w2) as Hafter.
  { rewrite Erun. destruct (at_limit _ _); [by rewrite autoTerminate_redis|].
    destruct (at_limit _ _); [by rewrite autoTerminate_redis|done]. }
  destruct (run (Enforcement_AfterProxy _ _ _ _ _) w1) as [w3 u]. cbn [fst snd] in *.
  rewrite run_pbind.
  pose proof (all_atoms_run (on_redis eq) _ w3 (touch_redis gs)) as H4.
  destruct (run (GuestSessionRepo_TouchLastRequest gs) w3) as [w4 u4]. cbn [fst snd] in *.
  pose proof (all_atoms_run (on_redis eq) _ w4 (logAccess_redis h link gs path (Request_Method r) (cw_status cw) (cw_bytes cw) (now - start))) as H5.
  unfold on_redis in *. cbv zeta. rewrite <-H5, <-H4, Hafter. by split.
Qed.

End enforced.

Section writes.
Context {PL : Platform} `{AEAD} `{Transport} `{URLLib} (sealed : string → Prop).
Local Abbreviation writes p := (all_atoms (on_db (statements sealed)) p).

Lemma writes_inactive link : writes (inactiveReason link).
Proof. unfold inactiveReason. atoms. Qed.

Lemma writes_resolve linkID guestID : writes (Handler_resolveGuestSession linkID guestID).
Proof.
  unfold Handler_resolveGuestSession. repo_guests.
  unfold GuestSessionRepo_GetActiveByLinkAndGuest, scanGuestSession, scan_keep_norows.
  atoms; apply writes_GuestSession.
Qed.

Lemma writes_logAccess h `{!HandlerLaws h} link gs path method st n el :
  writes (Handler_logAccess h link gs path method st n el).
Proof.
  unfold Handler_logAccess. destruct (Handler_AccessLog h) as [l|] eqn:El; [|done].
  pose proof (handler_log l El). apply log_writes.
Qed.

Lemma writes_record h `{!HandlerLaws h} r start link gs path cw :
  writes (Handler_record h r start link gs path cw).
Proof.
  unfold Handler_record. repo_guests. apply all_atoms_pbind; [atoms|intros now]. apply all_atoms_pbind.
  - destruct (Handler_Enforcer h) as [e|] eqn:Ee; [|done]. pose proof (handler_enforcer e Ee). apply after_writes.
  - intros _. apply all_atoms_pbind; [apply writes_Touch|intros _; by apply writes_logAccess].
Qed.

Lemma writes_forward h `{!HandlerLaws h} rw r start link gs path :
  writes (Handler_forward h rw r start link gs path).
Proof.
  unfold Handler_forward. apply all_atoms_pbind.
  - eapply all_atoms_mono; [|apply build_db]. unfold on_db. by intros w w' ->.
  - intros [e|plan]; [done|]. destruct (url_Parse _); [|done]. apply all_atoms_pbind.
    + unfold ReverseProxy_ServeHTTP. destruct (negb _); [done|]. apply all_atoms_pbind; [|by intros []].
      split; [|done]. intros w. unfold on_db. simpl. reflexivity.
    + intros [cw|cw]; [|done]. apply all_atoms_pbind; [by apply writes_record|done].
Qed.

(** Every interaction of the handler with the database is a statement of
    [Tables]. *)
Lemma writes_ServeHTTP h `{!HandlerLaws h} rw r : writes (Handler_ServeHTTP h rw r).
Proof.
  unfold Handler_ServeHTTP. apply all_atoms_pbind; [atoms|intros start].
  destruct (parseTokenAndPath _) as [[token path]|]; [|done]. repo_links.
  apply all_atoms_pbind; [unfold SharedLinkRepo_GetByToken, scan_keep_norows; atoms|intros [e|link]; [done|]].
  apply all_atoms_pbind; [apply writes_inactive|intros reason].
  destruct (decide _); [done|]. repo_guests.
  apply all_atoms_pbind; [apply writes_Guest|intros [e|guest]; [done|]].
  apply all_atoms_pbind; [apply writes_resolve|intros [e|gs]; [done|]].
  unfold Handler_enforce. destruct (Handler_Enforcer h) as [e|] eqn:Ee; [|by apply writes_forward].
  pose proof (handler_enforcer e Ee). apply all_atoms_pbind; [apply before_writes|]. intros a.
  destruct (adm_err a); [done|]. destruct (adm_ok a); [by apply writes_forward|].
  apply all_atoms_pbind; [atoms|intros now].
  apply all_atoms_pbind; [by apply writes_logAccess|done].
Qed.

End writes.

Definition outcome_rw (o : outcome) : ResponseWriter := match o with Done w | Panicked w => w end.

(** ** Properties *)

(** C3: the proxy forwards at most one request, and only for an open link that
    was admitted.  Whatever fails, either nothing is sent, or exactly one request
    is sent: the guest's request rewritten
    for the link's target site with the decrypted credentials of the link's
    session, where the link of the request's token was active, not expired and
    of an active session, and the Enforcer, if there is one, let it pass. *)
Theorem ServeHTTP_forwards_only {PL : Platform} `{AEAD} `{Transport} `{URLLib} h `{!HandlerLaws h} rw r w w' o
  (Hrun : run (Handler_ServeHTTP h rw r) w = (w', o)) :
  w_sent w' = w_sent w ∨
  ∃ token path link gs plan url w1 w2 w3,
    parseTokenAndPath (URL_Path (Request_URL r)) = Some (token, path) ∧
    link_open (w_db w) token (env_now (S (S (w_tick w)))) link ∧ guest_phase w w1 ∧
    match Handler_Enforcer h with
    | None => w2 = w1
    | Some e => ∃ a, run (Enforcer_BeforeProxy e link gs path r) w1 = (w2, a) ∧ adm_ok a = true ∧ adm_err a = None
    end ∧
    run (BuildInjectionPlan (Handler_Cipher h) (OriginalSession_ID (LinkWithSession_OriginalSession link))) w2 = (w3, inr plan) ∧
    url_Parse (TargetSite_BaseURL (LinkWithSession_TargetSite link)) = Some url ∧
    w_sent w' = w_sent w ++ [outgoing_request (mkForwardTarget url path plan) r].
Proof.
  pose proof (run_ServeHTTP h rw r w) as Hc. rewrite Hrun in Hc.
  destruct Hc as [[Hs _]|(token & path & link & gs & plan & url & w1 & w2 & w3 & Hp & Hl & Hg & Ha & Hb & Hu & Hs & _ & _ & Hrest)];
    [by left|].
  apply served_sent in Hrest; [|done]. rewrite Hs in Hrest. destruct Hrest as [Hsent|Hsent]; [by left|right].
  exists token, path, link, gs, plan, url, w1, w2, w3. by split_and!.
Qed.

(** C4: no header that identifies the owner in the header of the final response:
    whatever the guest sends, the target answers or fails, the header of the
    handler's response, complete or aborted, has none of Set-Cookie, Set-Cookie2,
    Authorization, X-Powered-By.  Interim responses and trailers have none
    either as long as the target puts none there (they are passed on as they
    are: [interim_not_stripped], [trailer_not_stripped]). *)
Theorem ServeHTTP_no_identity {PL : Platform} `{AEAD} `{Transport} `{!TransportLaws _} `{URLLib} h `{!HandlerLaws h} room r w :
  let guest := outcome_rw (run (Handler_ServeHTTP h (newRW room) r) w).2 in
  no_identity (rw_header guest) ∧ ((∀ n out, clean_answer (RoundTrip n out)) → clean guest).
Proof.
  pose proof (run_ServeHTTP h (newRW room) r w) as Hc. destruct (run (Handler_ServeHTTP h (newRW room) r) w) as [w' o].
  cbn [fst snd].
  destruct Hc as [[_ (msg & code & ->)]|(token & path & link & gs & plan & url & w1 & w2 & w3 & Hp & Hl & Hg & Ha & Hb & Hu & Hs & _ & _ & Hrest)].
  { pose proof (http_Error_clean msg code room) as Hcl. split; [apply Hcl|done]. }
  rewrite run_ReverseProxy in Hrest. cbv zeta in Hrest. destruct (IsPrint _).
  - set (out := outgoing_request _ r) in *.
    destruct (serve_answer_clean room (upgradeType (Request_Header out)) (w_tick w3) out) as [Hfin Hcl].
    destruct (serve_answer _ _ _) as [cw|cw]; destruct Hrest as [_ ->]; split; auto.
  - destruct Hrest as [_ ->]. cbn [outcome_rw].
    destruct (upstream_error_filtered room [] (newCountingResponseWriter (newRW room))) as [[Hno Hi] (c & [= <-] & Hbad)]; [done|].
    cbn [served_cw] in *. split; [done|]. intros _. split; [done|]. rewrite Hi. destruct Hbad as (_ & _ & _ & _ & Ht & _).
    rewrite Ht. split; [constructor|]. intros k _. apply lookup_empty.
Qed.

(** C1: enforcement, end to end.  Whatever fails, with the EnforcementService as
    Enforcer, a request reaches a target site only through an open link whose
    specification admits it: [judge], on the policies, rules and counters at the
    start of the request and a reading of the clock during it, says Admit. *)
Theorem ServeHTTP_enforced {PL : Platform} `{!PlatformLaws PL} `{AEAD} `{Transport} `{URLLib} `{RegexpLib}
  h `{!HandlerLaws h} hub rw r w w' o
  (Henf : Handler_Enforcer h = Some (EnforcementService hub)) (Hwf : world_wf w)
  (Hrun : run (Handler_ServeHTTP h rw r) w = (w', o)) (Hsent : w_sent w' ≠ w_sent w) :
  ∃ token path link n,
    parseTokenAndPath (URL_Path (Request_URL r)) = Some (token, path) ∧
    link_open (w_db w) token (env_now (S (S (w_tick w)))) link ∧
    w_tick w ≤ n ∧ verdict_at w link (Request_Method r) path (env_now n) = Admit.
Proof.
  pose proof (run_ServeHTTP h rw r w) as Hc. rewrite Hrun in Hc.
  destruct Hc as [[Hs _]|(token & path & link & gs & plan & url & w1 & w2 & w3 & Hp & Hl & Hg & Ha & _)]; [done|].
  rewrite Henf in Ha. destruct Ha as (a & Hb & Hok & _). cbn [EnforcementService Enforcer_BeforeProxy] in Hb.
  pose proof (run_BeforeProxy_admit hub link gs path (Request_Method r) w1 (guest_phase_wf _ _ Hg Hwf)) as Hadm.
  rewrite Hb in Hadm. destruct (Hadm Hok) as (_ & _ & _ & _ & n & Hn & Hv).
  exists token, path, link, n. split_and!; [done|done| |].
  - destruct Hg as (_ & _ & _ & _ & Ht). lia.
  - by rewrite <-(guest_phase_verdict w w1).
Qed.

(** C2: accounting, end to end, without failures of the database and Redis and
    for targets that do not switch protocols.  A forwarded request whose response
    was received to the end adds to the counters of its link exactly one request
    and the bytes of body the guest received (while they stay below 2^63); a
    response that was cut (by the target or by the guest's own connection) makes
    the handler panic, and adds nothing.  The counters of all other links stay. *)
Theorem ServeHTTP_accounts {PL : Platform} `{!PlatformLaws PL} `{!NoFaults PL} `{AEAD} `{Transport} `{!TransportLaws _}
  `{URLLib} `{RegexpLib} h `{!HandlerLaws h} hub room r w w' o
  (Henf : Handler_Enforcer h = Some (EnforcementService hub)) (Hwf : world_wf w)
  (Hplain : ∀ n out res, (RoundTrip n out).2 = Some res → Response_StatusCode res ≠ StatusSwitchingProtocols)
  (Hrun : run (Handler_ServeHTTP h (newRW room) r) w = (w', o)) (Hsent : w_sent w' ≠ w_sent w) :
  ∃ token path link,
    parseTokenAndPath (URL_Path (Request_URL r)) = Some (token, path) ∧
    link_open (w_db w) token (env_now (S (S (w_tick w)))) link ∧
    let id := SharedLink_ID (LinkWithSession_Link link) in
    let c := effective_counters w id in
    let others := ∀ l, l ≠ id → counters_of (w_redis w') l = counters_of (w_redis w) l in
    match o with
    | Done rw =>
        let c' := add_op (OpBytes (Z.of_nat (body_bytes rw))) (add_op OpRequest c) in
        (Z.of_nat (body_bytes rw) < two63)%Z → counters_in_int64 c' → counters_of (w_redis w') id = c' ∧ others
    | Panicked _ => counters_of (w_redis w') id = c ∧ others
    end.
Proof.
  pose proof (run_ServeHTTP h (newRW room) r w) as Hc. rewrite Hrun in Hc.
  destruct Hc as [[Hs _]|(token & path & link & gs & plan & url & w1 & w2 & w3 & Hp & Hl & Hg & Ha & _ & _ & _ & _ & Hrd3 & Hrest)]; [done|].
  rewrite Henf in Ha. destruct Ha as (a & Hb & Hok & _). cbn [EnforcementService Enforcer_BeforeProxy] in Hb.
  pose proof (guest_phase_wf _ _ Hg Hwf) as Hwf1.
  pose proof (run_BeforeProxy_admit hub link gs path (Request_Method r) w1 Hwf1) as Hadm.
  rewrite Hb in Hadm. destruct (Hadm Hok) as (_ & _ & Hwf2 & Hr2 & _). clear Hadm.
  set (id := SharedLink_ID (LinkWithSession_Link link)) in *.
  assert (counters_of (w_redis w3) id = effective_counters w id) as Hcnt.
  { rewrite Hrd3, (warmLoad_counters id w1) by (done || apply Hwf1). by apply guest_phase_counters. }
  assert (∀ l, l ≠ id → counters_of (w_redis w3) l = counters_of (w_redis w) l) as Hoth.
  { intros l Hl'. rewrite Hrd3, (warmLoad_others id _ l _ _ Hl' Hr2). by destruct Hg as (_ & -> & _). }
  exists token, path, link. split; [done|]. split; [done|]. fold id. cbv zeta.
  set (ft := mkForwardTarget url path plan) in *.
  pose proof (ReverseProxy_sent ft r (newCountingResponseWriter (newRW room)) w3) as Hrp.
  pose proof (ReverseProxy_counts ft r room w3 (Hplain _ _)) as Hcounts.
  destruct (run (ReverseProxy_ServeHTTP ft r _) w3) as [w4 s]. cbn [fst snd] in *. destruct Hrp as (_ & Hrd4 & _).
  destruct s as [cw|cw], Hrest as [-> ->]; [|by rewrite Hrd4]. intros Hlt Hfit.
  assert (cw_bytes cw = Z.of_nat (body_bytes (cw_rw cw))) as Hbytes.
  { rewrite (Hcounts cw eq_refl). apply wrap64_id. unfold in_int64, two63 in *. lia. }
  rewrite <-Hbytes, <-Hcnt, <-Hrd4 in Hfit |- *.
  destruct (record_counters h hub r (env_now (w_tick w)) link gs path cw w4) as [Hown Hrest];
    [done|by rewrite Hrd4, Hrd3|lia|done|].
  split; [exact Hown|]. intros l Hl'. rewrite Hrest by done. rewrite Hrd4. by apply Hoth.
Qed.

(** splitting the guest's path: it succeeds exactly on the paths "/r/token"
    and "/r/token/..." (the token may be empty only in the second form); the
    token has no slash and the forwarded path is the rest, "/" when there is
    none. *)
Theorem parseTokenAndPath_spec p token path :
  parseTokenAndPath p = Some (token, path) ↔
  "/"%char ∉ bytes token ∧
  ((p = "/r/" +:+ token ∧ token ≠ EmptyString ∧ path = "/") ∨
   (p = "/r/" +:+ token +:+ path ∧ HasPrefix path "/" = true)).
Proof.
  unfold parseTokenAndPath. split.
  - destruct (HasPrefix p RoutePrefix) eqn:Hp; cbn [negb]; [|done].
    apply HasPrefix_spec in Hp as [rest ->]. rewrite TrimPrefix_app.
    case_decide as Hne; [done|]. destruct (IndexByte rest "/") as [i|] eqn:Ei; intros; simplify_eq.
    + apply IndexByte_Some in Ei as (Hi & Hnot & t & Ht). split; [done|]. right. split.
      * by rewrite take_drop_string.
      * rewrite Ht. apply (HasPrefix_app "/").
    + apply IndexByte_None_inv in Ei. split; [done|]. left. by split_and!.
  - intros [Hn [(-> & Hne & ->)|(-> & Hpath)]].
    + rewrite HasPrefix_app, TrimPrefix_app. cbn [negb]. rewrite decide_False by done. by rewrite IndexByte_None.
    + apply HasPrefix_spec in Hpath as [t ->]. rewrite HasPrefix_app, TrimPrefix_app. cbn [negb].
      rewrite decide_False.
      * change ("/" +:+ t) with (String "/" t). rewrite IndexByte_app by done.
        by rewrite take_string_app, drop_string_app.
      * intros E. apply (f_equal String.length) in E. rewrite !string_length_app in E. simpl in E. lia.
Qed.

(** refusals before enforcement, without failures: a token no link has is
    answered with 404, and a link that is terminated, or past its expiry when
    the clock is read, or whose session is not active, with 410; neither the
    database, nor Redis, nor a target site is touched. *)
Theorem ServeHTTP_refusals {PL : Platform} `{!NoFaults PL} `{AEAD} `{Transport} `{URLLib} h rw r token path w
  (Hparse : parseTokenAndPath (URL_Path (Request_URL r)) = Some (token, path)) :
  let '(w', o) := run (Handler_ServeHTTP h rw r) w in
  let quiet := w_db w' = w_db w ∧ w_redis w' = w_redis w ∧ w_sent w' = w_sent w in
  ((∀ id l, shared_links (w_db w) !! id = Some l → SharedLink_Token l ≠ token) →
     o = Done (http_Error "link not found" StatusNotFound rw) ∧ quiet) ∧
  ((∃ id l, shared_links (w_db w) !! id = Some l ∧ SharedLink_Token l = token ∧ is_Some (join_link (w_db w) l)) →
   (∀ link, ¬ link_open (w_db w) token (env_now (S (S (w_tick w)))) link) →
     ∃ reason, o = Done (http_Error reason StatusGone rw) ∧ quiet).
Proof.
  assert (∀ v, run time_Now v = (tick v, env_now (w_tick v))) as Htime by (intros; unfold time_Now; by rewrite run_atom).
  destruct (run (Handler_ServeHTTP h rw r) w) as [w' o] eqn:E. revert E.
  unfold Handler_ServeHTTP. rewrite run_pbind, Htime. cbn [fst snd]. rewrite Hparse, run_pbind. repo_links.
  destruct (GetByToken_read token (tick w)) as (res & -> & Hlink & Hnone). cbn [fst snd].
  destruct res as [e|link].
  { intros [= <- <-]. split; [done|]. intros (id & l & Hl & Ht & [x Hx]) _.
    specialize (Hnone e _ eq_refl id l Hl Ht). cbn [w_db tick] in Hnone. congruence. }
  specialize (Hlink link eq_refl) as (id & Hid & Htok & Hjoin). rewrite run_pbind.
  pose proof (run_inactiveReason link (tick (tick w))) as Hactive.
  assert (w_db (run (inactiveReason link) (tick (tick w))).1 = w_db w ∧
    w_redis (run (inactiveReason link) (tick (tick w))).1 = w_redis w ∧
    w_sent (run (inactiveReason link) (tick (tick w))).1 = w_sent w) as Hq.
  { unfold inactiveReason. case_decide; [done|]. destruct (SharedLink_ExpiresAt _) as [t|]; rewrite !run_pbind.
    - rewrite Htime. cbn [run fst snd]. destruct (t <? _)%Z; [done|]. by case_decide.
    - cbn [run fst snd]. by case_decide. }
  destruct (run (inactiveReason link) _) as [w3 reason]. cbn [fst snd] in *.
  destruct (decide (reason ≠ EmptyString)) as [Hr|Hr].
  - intros [= <- <-]. split; [intros Hn; by destruct (Hn id _ Hid)|]. intros _ _. by eexists.
  - intros _. assert (reason = EmptyString) as Hr' by (by destruct (decide (reason = EmptyString))).
    specialize (Hactive Hr') as (Hst & Hexp & Hos).
    split; [intros Hn; by destruct (Hn id _ Hid)|]. intros _ Hopen. exfalso. apply (Hopen link).
    split_and!; eauto.
Qed.

(** ** Witnesses *)

Definition demo_handler : Handler (PL := demo) :=
  mkHandler (mkCipher demo_key) (Some (EnforcementService (PL := demo) (H := demo_regexp) true))
    (Some (SyncAccessLogger (PL := demo))).

#[export] Instance demo_handler_laws : HandlerLaws demo_handler.
Proof. split; intros x [= <-]; apply _. Qed.

(** A parser for the witnesses. *)
Definition demo_urls : URLLib := λ _, Some demo_site_url.

Definition guest_request (path : string) : Request :=
  mkRequest "GET" (mkURL "" "" path "") demo_guest "proxy.example.net" "203.0.113.7:4711" "".

Definition demo_serve (w : World (PL := demo)) (path : string) : World (PL := demo) * outcome :=
  run (Handler_ServeHTTP (PL := demo) (H := demo_aead) (H0 := constant_site (Some demo_response)) (H1 := demo_urls)
         demo_handler (newRW None) (guest_request path)) w.

Lemma demo_serve_sent : length (w_sent (demo_serve demo_enf "/r/tok/home").1) = 1.
Proof. vm_compute. reflexivity. Qed.

Lemma demo_serve_forwards : w_sent (demo_serve demo_enf "/r/tok/home").1 ≠ w_sent demo_enf.
Proof.
  intros E. pose proof demo_serve_sent as Hs. rewrite E in Hs. vm_compute in Hs. discriminate Hs.
Qed.

Lemma ServeHTTP_forwards_only_witness :
  ∃ token path link, parseTokenAndPath "/r/tok/home" = Some (token, path) ∧
    ∃ n, link_open demo_enf_db token n link.
Proof.
  destruct (demo_serve demo_enf "/r/tok/home") as [w' o] eqn:E.
  destruct (@ServeHTTP_forwards_only demo demo_aead (constant_site (Some demo_response)) demo_urls demo_handler
    demo_handler_laws (newRW None) (guest_request "/r/tok/home") demo_enf w' o E)
    as [Hs|(token & path & link & gs & plan & url & w1 & w2 & w3 & Hp & Hl & _)].
  - exfalso. apply demo_serve_forwards. by rewrite E.
  - exists token, path, link. split; [exact Hp|]. eexists. exact Hl.
Defined.

Lemma ServeHTTP_no_identity_witness :
  rw_header (outcome_rw (demo_serve demo_enf "/r/tok/home").2) !! "Set-Cookie" = None ∧
  clean (outcome_rw (demo_serve demo_enf "/r/tok/home").2).
Proof.
  destruct (@ServeHTTP_no_identity demo demo_aead (constant_site (Some demo_response))
    (constant_site_laws _ demo_response_lawful) demo_urls demo_handler demo_handler_laws None
    (guest_request "/r/tok/home") demo_enf) as [Hno Hcl].
  split; [apply Hno; left|]. apply Hcl. intros n out. split; [constructor|].
  intros res [= <-] k _. apply lookup_empty.
Defined.

Lemma ServeHTTP_enforced_witness :
  ∃ token path link n, parseTokenAndPath "/r/tok/home" = Some (token, path) ∧
    verdict_at (H := demo_regexp) demo_enf link "GET" path n = Admit.
Proof.
  destruct (demo_serve demo_enf "/r/tok/home") as [w' o] eqn:E.
  destruct (@ServeHTTP_enforced demo _ demo_aead (constant_site (Some demo_response)) demo_urls demo_regexp
    demo_handler demo_handler_laws true (newRW None) (guest_request "/r/tok/home") demo_enf w' o eq_refl demo_enf_wf E)
    as (token & path & link & n & Hp & _ & _ & Hv).
  - intros Hs. apply demo_serve_forwards. by rewrite E.
  - exists token, path, link, (@env_now demo n). split; [exact Hp|exact Hv].
Defined.

Lemma demo_site_plain n out res :
  (RoundTrip (Transport := constant_site (Some demo_response)) n out).2 = Some res →
  Response_StatusCode res ≠ StatusSwitchingProtocols.
Proof. intros [= <-]. done. Qed.

(** One request and the ten bytes of its response are counted. *)
Lemma ServeHTTP_accounts_witness :
  ∃ link, counters_of (w_redis (demo_serve demo_enf "/r/tok/home").1) (SharedLink_ID (LinkWithSession_Link link)) =
          mkCounters 1 10 0.
Proof.
  assert (match (demo_serve demo_enf "/r/tok/home").2 with Done rw => body_bytes rw = 10 | Panicked _ => False end) as Hbody
    by (vm_compute; reflexivity).
  destruct (demo_serve demo_enf "/r/tok/home") as [w' o] eqn:E. cbn [fst snd] in *.
  destruct (@ServeHTTP_accounts demo _ _ demo_aead (constant_site (Some demo_response))
    (constant_site_laws _ demo_response_lawful) demo_urls demo_regexp
    demo_handler demo_handler_laws true None (guest_request "/r/tok/home") demo_enf w' o eq_refl demo_enf_wf
    demo_site_plain E) as (token & path & link & _ & _ & Hc).
  { intros Hs. apply demo_serve_forwards. by rewrite E. }
  exists link. cbv zeta in Hc. destruct o as [rw|rw]; [|exact (False_ind _ Hbody)].
  rewrite Hbody, demo_enf_counters in Hc. apply Hc.
  - unfold two63. lia.
  - unfold counters_in_int64, in_int64, two63. simpl. lia.
Defined.

Lemma parse_tok : parseTokenAndPath "/r/tok/home" = Some ("tok", "/home").
Proof. reflexivity. Qed.

Definition demo_terminated_world : World (PL := demo) :=
  demo_world (set_shared_links (λ _, {[ 5%N := SharedLink_with_status LinkStatusTerminated demo_shared_link ]}) demo_db).

Lemma parseTokenAndPath_spec_witness : parseTokenAndPath ("/r/" +:+ "abc" +:+ "/x/y") = Some ("abc", "/x/y").
Proof. apply (proj2 (parseTokenAndPath_spec _ _ _)). split; [|right; split; reflexivity]. by apply (bool_decide_unpack _). Defined.

Lemma ServeHTTP_refusals_witness :
  ∃ reason, (demo_serve demo_terminated_world "/r/tok/home").2 = Done (http_Error reason 410 (newRW None)).
Proof.
  pose proof (@ServeHTTP_refusals demo _ demo_aead (constant_site (Some demo_response)) demo_urls demo_handler
    (newRW None) (guest_request "/r/tok/home") "tok" "/home" demo_terminated_world parse_tok) as Hr.
  unfold demo_serve. destruct (run _ _) as [w' o]. destruct Hr as [_ Hr]. cbn [snd].
  destruct Hr as (reason & -> & _).
  - eexists 5%N, _. split; [reflexivity|]. split; [reflexivity|]. eexists. vm_compute. reflexivity.
  - intros link ([i Hi] & _ & _ & Hst & _).
    change (shared_links (w_db demo_terminated_world))
      with ({[ 5%N := SharedLink_with_status LinkStatusTerminated demo_shared_link ]} : gmap UUID SharedLink) in Hi.
    apply lookup_singleton_Some in Hi as [_ Hl]. rewrite <-Hl in Hst. done.
  - by exists reason.
Defined.
