(* ===== verification/LogWriter.v ===== *)
(** * internal/proxy: the asynchronous access log (logwriter.go)

    [Log] puts an entry into the buffered channel, [w_alog] of the world, or
    drops it; the goroutine [Run] is a loop over a [select], modelled as a
    sequence of the events its cases react to, in whatever order they come. *)

From S2P Require Import Prelude GoStrings Domain Schema Platform Effects Interfaces RepoLinks RepoLogs Links Enforcement Tables Proxy.

Open Scope go_scope.

(** ** Definitions *)

Record AsyncAccessLogger := mkAsyncAccessLogger {
  AsyncAccessLogger_batchSize : nat;
  AsyncAccessLogger_flushInterval : Z }.

Definition NewAsyncAccessLogger (batchSize flushInterval : Z) : AsyncAccessLogger :=
  let batchSize := if (batchSize <? 1)%Z then 1%Z else batchSize in
  mkAsyncAccessLogger (Z.to_nat batchSize) flushInterval.

(** The capacity of the channel. *)
Definition entries_cap (a : AsyncAccessLogger) : nat := AsyncAccessLogger_batchSize a * 20.

(** Events of the loop: an entry is logged by a handler, one is received from
    the channel, the ticker ticks, the context is done. *)
Inductive log_event : Type :=
| EvLog (entry : ProxyAccessLog)
| EvReceive
| EvTick
| EvDone.

(** The local variables of [Run]. *)
Record run_state := mkRun {
  run_batch : list ProxyAccessLog;
  run_stopped : bool }.

Section logger.
Context {PL : Platform} `{!ProxyAccessLogRepository}.
Context (a : AsyncAccessLogger).

(** The non-blocking send on the channel. *)
Definition try_send (entry : ProxyAccessLog) (w : World) : World :=
  if decide (length (w_alog w) < entries_cap a) then set_alog (w_alog w ++ [entry]) w else w.

Definition AsyncAccessLogger_Log (entry : ProxyAccessLog) : P unit :=
  atom (λ w, (try_send entry w, tt)).

(** The error of the insert is only logged; the batch is emptied. *)
Definition flush (batch : list ProxyAccessLog) : P (list ProxyAccessLog) :=
  if decide (length batch = 0) then Ret batch
  else
    let* _ := ProxyAccessLogs_InsertBatch batch in
    Ret [].

(** One iteration of the loop, or a [Log] of a handler. An event that is not
    enabled does nothing. *)
Definition log_step (ev : log_event) (s : run_state) (w : World) : run_state * World :=
  match ev with
  | EvLog e => (s, (run (AsyncAccessLogger_Log e) w).1)
  | _ =>
      if run_stopped s then (s, w)
      else
        match ev with
        | EvDone =>
            let '(w', batch) := run (flush (run_batch s)) w in (mkRun batch true, w')
        | EvTick =>
            let '(w', batch) := run (flush (run_batch s)) w in (mkRun batch false, w')
        | _ =>
            match w_alog w with
            | [] => (s, w)
            | e :: rest =>
                let w1 := set_alog rest w in
                let batch := run_batch s ++ [e] in
                if AsyncAccessLogger_batchSize a <=? length batch then
                  let '(w', batch') := run (flush batch) w1 in (mkRun batch' false, w')
                else (mkRun batch false, w1)
            end
        end
  end.

Fixpoint log_steps (evs : list log_event) (s : run_state) (w : World) : run_state * World :=
  match evs with
  | [] => (s, w)
  | ev :: evs' => let '(s', w') := log_step ev s w in log_steps evs' s' w'
  end.

(** [Run]; [None] is the panic of [time.NewTicker] on an interval that is not
    positive. *)
Definition AsyncAccessLogger_Run (evs : list log_event) (w : World) : option (run_state * World) :=
  if (AsyncAccessLogger_flushInterval a <=? 0)%Z then None
  else Some (log_steps evs (mkRun [] false) w).

End logger.

(** The logger as the handler's AccessLogger. *)
Definition AsyncLogger {PL : Platform} (a : AsyncAccessLogger) : AccessLogger :=
  mkAccessLogger (AsyncAccessLogger_Log a).

(** ** Specification *)

(** The entries that were logged, and those of them the channel took. *)
Definition logged (evs : list log_event) : list ProxyAccessLog :=
  omap (λ ev, match ev with EvLog e => Some e | _ => None end) evs.

Fixpoint accepted {PL : Platform} (a : AsyncAccessLogger) (evs : list log_event) (s : run_state) (w : World)
    : list ProxyAccessLog :=
  match evs with
  | [] => []
  | ev :: evs' =>
      let '(s', w') := log_step a ev s w in
      match ev with
      | EvLog e => if decide (length (w_alog w) < entries_cap a) then e :: accepted a evs' s' w' else accepted a evs' s' w'
      | _ => accepted a evs' s' w'
      end
  end.

(** An entry without what the database fills in. *)
Definition content (l : ProxyAccessLog) : ProxyAccessLog :=
  mkProxyAccessLog 0 (ProxyAccessLog_GuestSessionID l) (ProxyAccessLog_SharedLinkID l)
    (ProxyAccessLog_TargetURL l) (ProxyAccessLog_HTTPMethod l) (ProxyAccessLog_ResponseStatus l)
    (ProxyAccessLog_BytesTransferred l) (ProxyAccessLog_ResponseTimeMs l) None.

(** The rows of the log, as contents. *)
Definition log_rows (d : DB) : list ProxyAccessLog := content <$> proxy_access_logs d.

(** An entry the table accepts. *)
Definition loggable (d : DB) (l : ProxyAccessLog) : Prop :=
  ∀ now ls, ∃ row, insert_log now l (set_proxy_access_logs (λ _, ls) d) =
    inr (tt, set_proxy_access_logs (λ _, ls ++ [row]) d) ∧ content row = content l.

(** ** Lemmas *)

#[export] Instance AsyncLogger_laws {PL : Platform} a : AccessLoggerLaws (AsyncLogger a).
Proof.
  split; intros entry; (split; [|done]); intros w; unfold try_send; simpl.
  - by destruct (decide _).
  - unfold on_db. by destruct (decide _).
  - unfold on_redis. by destruct (decide _).
Qed.

Lemma insert_log_content now l d u d' :
  insert_log now l d = inr (u, d') →
  ∃ row, d' = set_proxy_access_logs (λ _, proxy_access_logs d ++ [row]) d ∧ content row = content l.
Proof. unfold insert_log. cbv zeta. intros H. invert_stmt. eexists. split; [by destruct d|done]. Qed.

Lemma insert_logs_content now ls d u d' :
  insert_logs now ls d = inr (u, d') →
  log_rows d' = log_rows d ++ (content <$> ls) ∧ ∃ rows, d' = set_proxy_access_logs (λ _, rows) d.
Proof.
  revert d. induction ls as [|l ls IH]; intros d; cbn [insert_logs].
  { unfold sql_ret. intros; simplify_eq. rewrite app_nil_r. split; [done|]. exists (proxy_access_logs d'). by destruct d'. }
  destruct (insert_log now l d) as [e|[u1 d1]] eqn:E; [done|]. intros H%IH.
  apply insert_log_content in E as (row & -> & Hrow). destruct H as [Hr [rows ->]]. split; [|by eexists].
  rewrite Hr. unfold log_rows. simpl. rewrite fmap_app, <-app_assoc. simpl. by rewrite Hrow.
Qed.

Section lemmas.
Context {PL : Platform} (a : AsyncAccessLogger).

(** A flush, whatever fails: the batch is empty, and its rows are in the table,
    in order, or none is. *)
Lemma run_flush batch w :
  let '(w', batch') := run (flush batch) w in
  batch' = [] ∧ w_alog w' = w_alog w ∧
  (log_rows (w_db w') = log_rows (w_db w) ∨ log_rows (w_db w') = log_rows (w_db w) ++ (content <$> batch)) ∧
  ∃ rows, w_db w' = set_proxy_access_logs (λ _, rows) (w_db w).
Proof.
  assert (∀ d : DB, d = set_proxy_access_logs (λ _, proxy_access_logs d) d) as Hid by (by intros []).
  unfold flush. case_decide as Hlen; simpl.
  { destruct batch; [|done]. split_and!; eauto. }
  rewrite run_pbind. repo_logs. unfold ProxyAccessLogRepo_InsertBatch.
  destruct batch as [|l batch]; [done|]. rewrite run_wrap. cbn [fst snd run].
  destruct (run_sql_cases (λ _ now d, insert_logs now (l :: batch) d) w) as [[e ->]|(r & d & Hs & [->|[e ->]])];
    cbn [fst snd]; [by split_and!; eauto| |];
    apply insert_logs_content in Hs as [Hr [rows Hrows]]; split_and!; eauto.
Qed.

(** Without failures, a batch of entries the table accepts is all inserted. *)
Lemma insert_logs_ok now ls d :
  Forall (loggable d) ls → ∃ u d', insert_logs now ls d = inr (u, d').
Proof.
  intros Hall.
  enough (∀ rows, ∃ u d', insert_logs now ls (set_proxy_access_logs (λ _, rows) d) = inr (u, d')) as He.
  { specialize (He (proxy_access_logs d)). by destruct d. }
  induction Hall as [|l ls Hl _ IH]; intros rows; cbn [insert_logs]; [by eexists _, _|].
  destruct (Hl now rows) as (row & -> & _). apply IH.
Qed.

Lemma run_flush_ok `{!NoFaults PL} batch w :
  Forall (loggable (w_db w)) batch →
  log_rows (w_db (run (flush batch) w).1) = log_rows (w_db w) ++ (content <$> batch).
Proof.
  intros Hall. unfold flush. case_decide as Hlen; simpl.
  { destruct batch; [|done]. by rewrite app_nil_r. }
  rewrite run_pbind. repo_logs. unfold ProxyAccessLogRepo_InsertBatch.
  destruct batch as [|l batch]; [done|]. rewrite run_wrap, run_sql_ok.
  destruct (insert_logs_ok (timestamptz (env_now (w_tick w))) (l :: batch) (w_db w) Hall) as (u & d' & E).
  rewrite E. cbn [fst snd run w_db set_db]. by apply insert_logs_content in E as [-> _].
Qed.

Lemma loggable_same d rows l : loggable d l → loggable (set_proxy_access_logs (λ _, rows) d) l.
Proof. intros Hl now ls. destruct (Hl now ls) as (row & Hrow & Hc). exists row. by destruct d. Qed.

(** What the table, the batch and the channel hold, against what the channel
    took: [R] is equality, or "in order and without duplicates". *)
Definition conserved (R : list ProxyAccessLog → list ProxyAccessLog → Prop) (rows0 : list ProxyAccessLog)
    (taken : list ProxyAccessLog) (s : run_state) (w : World) : Prop :=
  ∃ ins, log_rows (w_db w) = rows0 ++ ins ∧
    R (ins ++ (content <$> run_batch s) ++ (content <$> w_alog w)) (content <$> taken).

(** Within the bounds of the batch and of the channel. *)
Definition log_bounds (s : run_state) (w : World) : Prop :=
  length (run_batch s) < AsyncAccessLogger_batchSize a ∧ length (w_alog w) <= entries_cap a.

(** How a flush changes what is conserved. *)
Lemma flush_conserved rows0 taken batch w w' batch' stopped stopped' :
  run (flush batch) w = (w', batch') →
  conserved sublist rows0 taken (mkRun batch stopped) w →
  conserved sublist rows0 taken (mkRun batch' stopped') w'.
Proof.
  intros E (ins & Hrows & HR). pose proof (run_flush batch w) as Hf. rewrite E in Hf.
  destruct Hf as (-> & Ha & Hr & _). cbn [run_batch] in *. destruct Hr as [Hr|Hr].
  - exists ins. split; [by rewrite Hr|]. simpl. rewrite Ha. etrans; [|exact HR].
    apply sublist_app; [done|]. by apply sublist_inserts_l.
  - exists (ins ++ (content <$> batch)). split; [by rewrite Hr, Hrows, app_assoc|].
    simpl. by rewrite Ha, <-app_assoc.
Qed.

Lemma flush_conserved_eq `{!NoFaults PL} rows0 taken batch w w' batch' stopped stopped' :
  Forall (loggable (w_db w)) batch →
  run (flush batch) w = (w', batch') →
  conserved eq rows0 taken (mkRun batch stopped) w →
  conserved eq rows0 taken (mkRun batch' stopped') w'.
Proof.
  intros Hok E (ins & Hrows & HR). pose proof (run_flush batch w) as Hf. pose proof (run_flush_ok batch w Hok) as Hr.
  rewrite E in Hf, Hr. destruct Hf as (-> & Ha & _ & _). cbn [fst snd run_batch] in *.
  exists (ins ++ (content <$> batch)). split; [by rewrite Hr, Hrows, app_assoc|].
  simpl. by rewrite Ha, <-app_assoc.
Qed.

End lemmas.

Section steps.
Context {PL : Platform} (a : AsyncAccessLogger) (rows0 : list ProxyAccessLog).
Context (R : list ProxyAccessLog → list ProxyAccessLog → Prop) (Good : DB → ProxyAccessLog → Prop).
Hypothesis R_snoc : ∀ x y e, R x y → R (x ++ [e]) (y ++ [e]).
Hypothesis Good_same : ∀ d rows l, Good d l → Good (set_proxy_access_logs (λ _, rows) d) l.
Hypothesis flush_keeps : ∀ taken batch w w' batch' stopped stopped',
  Forall (Good (w_db w)) batch → run (flush batch) w = (w', batch') →
  conserved R rows0 taken (mkRun batch stopped) w → conserved R rows0 taken (mkRun batch' stopped') w'.

(** What an event adds to what the channel took. *)
Definition taken_by (ev : log_event) (w : World) : list ProxyAccessLog :=
  match ev with EvLog e => if decide (length (w_alog w) < entries_cap a) then [e] else [] | _ => [] end.

Record log_inv (taken : list ProxyAccessLog) (s : run_state) (w : World) : Prop := {
  li_conserved : conserved R rows0 taken s w;
  li_good : Forall (Good (w_db w)) (run_batch s ++ w_alog w);
  li_bounds : log_bounds a s w }.

(** A flush of [batch], with the channel as it is. *)
Lemma flush_inv taken batch w w' batch' stopped stopped' :
  0 < AsyncAccessLogger_batchSize a →
  run (flush batch) w = (w', batch') →
  conserved R rows0 taken (mkRun batch stopped) w → Forall (Good (w_db w)) (batch ++ w_alog w) →
  length (w_alog w) <= entries_cap a →
  log_inv taken (mkRun batch' stopped') w' ∧ ∃ rows, w_db w' = set_proxy_access_logs (λ _, rows) (w_db w).
Proof.
  intros Hbs E Hc Hg Hl. pose proof (run_flush batch w) as Hf. rewrite E in Hf.
  destruct Hf as (-> & Ha & _ & [rows Hdb]). apply Forall_app in Hg as [Hgb Hgc]. split; [|by eexists]. split.
  - exact (flush_keeps _ _ _ _ _ _ _ Hgb E Hc).
  - simpl. rewrite Ha, Hdb. eapply Forall_impl; [exact Hgc|]. intros l. apply Good_same.
  - split; simpl; [done|by rewrite Ha].
Qed.

Lemma log_step_inv ev taken s w :
  0 < AsyncAccessLogger_batchSize a → (∀ e, ev = EvLog e → Good (w_db w) e) → log_inv taken s w →
  let '(s', w') := log_step a ev s w in
  log_inv (taken ++ taken_by ev w) s' w' ∧ ∃ rows, w_db w' = set_proxy_access_logs (λ _, rows) (w_db w).
Proof.
  intros Hbs Hev [Hc Hg [Hb Hl]].
  assert (∃ rows, w_db w = set_proxy_access_logs (λ _, rows) (w_db w)) as Hid
    by (exists (proxy_access_logs (w_db w)); by destruct (w_db w)).
  assert (log_inv taken s w) as Hsame by (by split).
  destruct ev as [e| | |]; unfold log_step; cbn [taken_by]; rewrite ?app_nil_r.
  - cbn [run fst AsyncAccessLogger_Log atom]. unfold try_send. case_decide as Hd; [|by rewrite app_nil_r].
    split; [|done]. destruct Hc as (ins & Hrows & HR). split.
    + exists ins. split; [done|]. simpl. rewrite !fmap_app, !app_assoc. apply R_snoc. by rewrite <-app_assoc.
    + simpl. rewrite app_assoc. apply Forall_app. split; [done|]. constructor; [by apply Hev|constructor].
    + split; [done|]. simpl. rewrite length_app. simpl. lia.
  - destruct (run_stopped s) eqn:Est; [done|]. destruct (w_alog w) as [|e rest] eqn:Ea; [done|].
    assert (conserved R rows0 taken (mkRun (run_batch s ++ [e]) false) (set_alog rest w)) as Hc'.
    { destruct Hc as (ins & Hrows & HR). exists ins. split; [done|]. simpl.
      rewrite fmap_app. rewrite Ea in HR. rewrite <-(app_assoc (content <$> run_batch s)). exact HR. }
    assert (Forall (Good (w_db w)) ((run_batch s ++ [e]) ++ rest)) as Hg' by (by rewrite <-app_assoc).
    simpl in Hl. destruct (Nat.leb_spec (AsyncAccessLogger_batchSize a) (length (run_batch s ++ [e]))) as [Hle|Hlt].
    + destruct (run (flush (run_batch s ++ [e])) (set_alog rest w)) as [w' batch'] eqn:E.
      eapply flush_inv in E; [exact E|done|exact Hc'|exact Hg'|simpl; lia].
    + split; [|done]. split; [done|done|]. split; simpl; [done|lia].
  - destruct (run_stopped s) eqn:Est; [done|]. destruct (run (flush (run_batch s)) w) as [w' batch'] eqn:E.
    destruct s as [batch stopped]. eapply flush_inv in E; [exact E|done|exact Hc|exact Hg|done].
  - destruct (run_stopped s) eqn:Est; [done|]. destruct (run (flush (run_batch s)) w) as [w' batch'] eqn:E.
    destruct s as [batch stopped]. eapply flush_inv in E; [exact E|done|exact Hc|exact Hg|done].
Qed.

Lemma log_steps_inv evs taken s w :
  0 < AsyncAccessLogger_batchSize a → Forall (Good (w_db w)) (logged evs) → log_inv taken s w →
  let '(s', w') := log_steps a evs s w in
  log_inv (taken ++ accepted a evs s w) s' w' ∧ ∃ rows, w_db w' = set_proxy_access_logs (λ _, rows) (w_db w).
Proof.
  intros Hbs. revert taken s w. induction evs as [|ev evs IH]; intros taken s w Hg Hinv; cbn [log_steps accepted].
  { rewrite app_nil_r. split; [done|]. exists (proxy_access_logs (w_db w)). by destruct (w_db w). }
  pose proof (log_step_inv ev taken s w Hbs) as Hstep.
  destruct (log_step a ev s w) as [s1 w1]. destruct Hstep as [Hinv1 [rows1 Hdb1]]; [|done|].
  { intros e ->. by inversion Hg. }
  assert (Forall (Good (w_db w1)) (logged evs)) as Hg1.
  { rewrite Hdb1. eapply Forall_impl; [|intros l; apply Good_same].
    destruct ev; cbn [logged omap list_omap] in Hg; [by inversion Hg|done..]. }
  specialize (IH _ s1 w1 Hg1 Hinv1). destruct (log_steps a evs s1 w1) as [s2 w2].
  destruct IH as [Hinv2 [rows2 Hdb2]]. split; [|exists rows2; by rewrite Hdb2, Hdb1].
  destruct ev as [e| | |]; cbn [taken_by] in Hinv2; rewrite ?app_nil_r in Hinv2; [|done..].
  destruct (decide _); rewrite <-?app_assoc, ?app_nil_r in Hinv2; done.
Qed.

End steps.

(** Entries are accepted in order, and all of them while there is room. *)
Lemma accepted_sublist {PL : Platform} a evs s w : sublist (accepted a evs s w) (logged evs).
Proof.
  revert s w. induction evs as [|ev evs IH]; intros s w; cbn [accepted logged]; [done|].
  destruct (log_step a ev s w) as [s' w'] eqn:E. destruct ev; cbn [logged omap list_omap]; try apply IH.
  case_decide; [by apply sublist_skip|by apply sublist_cons].
Qed.

Lemma log_step_channel {PL : Platform} a ev s w :
  length (w_alog (log_step a ev s w).2) <= length (w_alog w) + match ev with EvLog _ => 1 | _ => 0 end.
Proof.
  unfold log_step. destruct ev as [e| | |].
  - cbn [run fst snd AsyncAccessLogger_Log atom]. unfold try_send. case_decide; simpl; rewrite ?length_app; simpl; lia.
  - destruct (run_stopped s); simpl; [lia|]. destruct (w_alog w) as [|e rest] eqn:Ea; simpl; [rewrite Ea; simpl; lia|].
    destruct (_ <=? _); [|simpl; lia].
    pose proof (run_flush (run_batch s ++ [e]) (set_alog rest w)) as Hf.
    destruct (run (flush _) _) as [w' b]. destruct Hf as (_ & Ha & _). simpl in *. rewrite Ha. lia.
  - destruct (run_stopped s); simpl; [lia|]. pose proof (run_flush (run_batch s) w) as Hf.
    destruct (run (flush _) _) as [w' b]. destruct Hf as (_ & Ha & _). simpl in *. rewrite Ha. lia.
  - destruct (run_stopped s); simpl; [lia|]. pose proof (run_flush (run_batch s) w) as Hf.
    destruct (run (flush _) _) as [w' b]. destruct Hf as (_ & Ha & _). simpl in *. rewrite Ha. lia.
Qed.

Lemma accepted_all {PL : Platform} a evs s w :
  length (w_alog w) + length (logged evs) <= entries_cap a → accepted a evs s w = logged evs.
Proof.
  revert s w. induction evs as [|ev evs IH]; intros s w Hl; cbn [accepted]; [done|].
  pose proof (log_step_channel a ev s w) as Hch.
  destruct (log_step a ev s w) as [s' w'] eqn:E. cbn [snd] in Hch.
  destruct ev; cbn [logged omap list_omap length] in *; fold (logged evs) in *; try (apply IH; lia).
  rewrite decide_True by lia. f_equal. apply IH. lia.
Qed.

Lemma batch_size_pos n interval : 0 < AsyncAccessLogger_batchSize (NewAsyncAccessLogger n interval).
Proof. unfold NewAsyncAccessLogger. simpl. destruct (Z.ltb_spec n 1); lia. Qed.

(** What [Run] starts from. *)
Lemma log_inv_start {PL : Platform} a R (Good : DB → ProxyAccessLog → Prop) w :
  0 < AsyncAccessLogger_batchSize a → R [] [] → w_alog w = [] →
  log_inv a (log_rows (w_db w)) R Good [] (mkRun [] false) w.
Proof.
  intros Hbs HR Hempty. split.
  - exists []. simpl. by rewrite app_nil_r, Hempty.
  - simpl. rewrite Hempty. constructor.
  - split; simpl; [done|]. rewrite Hempty. simpl. lia.
Qed.

(** Without failures nothing is lost while the writer runs. *)
Lemma log_steps_lossless {PL : Platform} `{!NoFaults PL} a evs w s w' :
  0 < AsyncAccessLogger_batchSize a → w_alog w = [] → Forall (loggable (w_db w)) (logged evs) →
  log_steps a evs (mkRun [] false) w = (s, w') →
  conserved eq (log_rows (w_db w)) (accepted a evs (mkRun [] false) w) s w'.
Proof.
  intros Hbs Hempty Hok Hrun. pose proof (log_inv_start a eq loggable w Hbs eq_refl Hempty) as Hinv.
  apply (log_steps_inv a (log_rows (w_db w)) eq loggable) with (evs := evs) in Hinv;
    [|congruence|apply loggable_same|intros *; by apply flush_conserved_eq|done|done].
  rewrite Hrun in Hinv. by destruct Hinv as [[Hc _ _] _].
Qed.

(** A tick and the cancellation empty the batch; a writer that returned has none. *)
Lemma log_step_flushes {PL : Platform} a ev s w :
  (run_stopped s = true → run_batch s = []) →
  let s' := (log_step a ev s w).1 in
  (run_stopped s' = true → run_batch s' = []) ∧ (ev = EvTick ∨ ev = EvDone → run_batch s' = []).
Proof.
  intros Hs. unfold log_step. destruct ev as [e| | |]; [by split; [|intros [|]]|..].
  all: destruct (run_stopped s) eqn:E; [by cbn; rewrite E; split; auto|].
  - destruct (w_alog w) as [|e rest]; [by cbn; rewrite E; split; [|intros [|]]|].
    destruct (_ <=? _); [|by split; [|intros [|]]]. destruct (run _ _). by split; [|intros [|]].
  - pose proof (run_flush (run_batch s) w) as Hf. destruct (run _ _). by destruct Hf as [-> _].
  - pose proof (run_flush (run_batch s) w) as Hf. destruct (run _ _). by destruct Hf as [-> _].
Qed.

Lemma log_steps_flushes {PL : Platform} a evs s w :
  (run_stopped s = true → run_batch s = []) → last evs = Some EvTick ∨ last evs = Some EvDone →
  run_batch (log_steps a evs s w).1 = [].
Proof.
  revert s w. induction evs as [|ev evs IH]; intros s w Hs Hlast; [by destruct Hlast|].
  pose proof (log_step_flushes a ev s w Hs) as [Hs' Hev]. cbn [log_steps].
  destruct (log_step a ev s w) as [s1 w1]. destruct evs as [|ev' evs]; [|by apply IH].
  apply Hev. by destruct Hlast as [[= ->]|[= ->]]; [left|right].
Qed.

(** ** Properties *)

(** C40: the access log never invents, duplicates or reorders, and loses nothing
    but what is said here.  In any order of the sends, receives, ticks and
    cancellation, with any failures of the database, the rows the writer adds,
    then its batch, then the channel are, in this order, a subsequence of the
    entries the channel took, which are a subsequence of those logged - exactly
    these entries when nothing fails and the table accepts them; and the channel
    takes every entry while no more than 20 batches were logged.  The batch stays
    below its size and is empty after a tick or the cancellation, the channel
    holds 20 batches at most, and no other table changes.  Run panics exactly
    when the interval is not positive. *)
Theorem async_log_order {PL : Platform} n interval evs w (Hempty : w_alog w = []) :
  let a := NewAsyncAccessLogger n interval in
  let took := accepted a evs (mkRun [] false) w in
  match AsyncAccessLogger_Run a evs w with
  | None => (interval <= 0)%Z
  | Some (s, w') =>
      (0 < interval)%Z ∧
      (∃ ins, let kept := ins ++ (content <$> run_batch s) ++ (content <$> w_alog w') in
         log_rows (w_db w') = log_rows (w_db w) ++ ins ∧
         sublist kept (content <$> took) ∧
         (NoFaults PL → Forall (loggable (w_db w)) (logged evs) → kept = content <$> took)) ∧
      sublist took (logged evs) ∧
      ((Z.of_nat (length (logged evs)) <= 20 * (1 `max` n))%Z → took = logged evs) ∧
      (Z.of_nat (length (run_batch s)) < 1 `max` n)%Z ∧
      (last evs = Some EvTick ∨ last evs = Some EvDone → run_batch s = []) ∧
      (Z.of_nat (length (w_alog w')) <= 20 * (1 `max` n))%Z ∧
      ∃ rows, w_db w' = set_proxy_access_logs (λ _, rows) (w_db w)
  end.
Proof.
  intros a took. pose proof (batch_size_pos n interval) as Hbs. fold a in Hbs. unfold AsyncAccessLogger_Run.
  change (AsyncAccessLogger_flushInterval a) with interval. destruct (Z.leb_spec interval 0) as [|Hint]; [done|].
  assert (Z.of_nat (AsyncAccessLogger_batchSize a) = (1 `max` n)%Z) as Hsize.
  { subst a. unfold NewAsyncAccessLogger. simpl. destruct (Z.ltb_spec n 1); lia. }
  pose proof (log_inv_start a sublist (λ _ _, True) w Hbs ltac:(constructor) Hempty) as Hinv.
  apply (log_steps_inv a (log_rows (w_db w)) sublist (λ _ _, True)) with (evs := evs) in Hinv;
    [|intros; by apply sublist_app|done|intros *; intros _; apply flush_conserved|done|by apply Forall_true].
  pose proof (log_steps_flushes a evs (mkRun [] false) w ltac:(done)) as Hflush.
  destruct (log_steps a evs (mkRun [] false) w) as [s w'] eqn:Erun. destruct Hinv as [[Hc _ [Hb Hl]] Hdb].
  unfold entries_cap in Hl. split_and!; [done| |apply accepted_sublist| |lia|exact Hflush|lia|done].
  - destruct Hc as (ins & Hrows & HR). exists ins. split_and!; [done|done|]. intros Hnf Hok.
    destruct (log_steps_lossless a evs w s w' Hbs Hempty Hok Erun) as (ins' & Hrows' & HR').
    rewrite Hrows in Hrows'. by apply app_inv_head in Hrows' as <-.
  - intros Hlen. apply accepted_all. rewrite Hempty. unfold entries_cap. cbn [length]. lia.
Qed.

(** ** Witnesses *)

Definition demo_entry (n : Z) : ProxyAccessLog :=
  mkProxyAccessLog 0 None 1%N "https://example.org/" "GET" (Some 200%Z) (Some n) (Some 3%Z) None.

Definition demo_log_world : World (PL := demo) := demo_world (set_shared_links (λ _, {[ 1%N := demo_shared_link ]}) empty_DB).

Definition demo_events : list log_event :=
  [EvLog (demo_entry 1); EvLog (demo_entry 2); EvReceive; EvReceive; EvLog (demo_entry 3); EvReceive; EvTick;
   EvLog (demo_entry 4); EvDone; EvReceive].

Lemma demo_loggable n : (0 <= n < 1000)%Z → loggable (w_db demo_log_world) (demo_entry n).
Proof.
  intros Hn now ls. unfold insert_log, demo_entry. cbv zeta.
  assert (in_int32b n = true) as Hb by (unfold in_int32b; apply andb_true_iff; rewrite Z.leb_le, Z.ltb_lt; lia).
  unfold int4_opt. cbn [ProxyAccessLog_BytesTransferred ProxyAccessLog_ResponseStatus ProxyAccessLog_ResponseTimeMs].
  rewrite Hb. eexists. split; [reflexivity|]. reflexivity.
Qed.

(** At shutdown the batch is flushed, but an entry that is still in the channel
    never reaches the table. *)
Lemma shutdown_loses_entries :
  match AsyncAccessLogger_Run (PL := demo) (mkAsyncAccessLogger 2 1) demo_events demo_log_world with
  | Some (s, w') => run_stopped s = true ∧ length (proxy_access_logs (w_db w')) = 3 ∧ w_alog w' = [demo_entry 4]
  | None => False
  end.
Proof. vm_compute. done. Qed.

(** Nothing fails and the table accepts the entries: what the writer holds is what
    was logged. *)
Lemma async_log_order_witness :
  match AsyncAccessLogger_Run (PL := demo) (NewAsyncAccessLogger 2 1) demo_events demo_log_world with
  | Some (s, w') =>
      ∃ ins, log_rows (w_db w') = ins ∧
        ins ++ (content <$> run_batch s) ++ (content <$> w_alog w') =
        content <$> [demo_entry 1; demo_entry 2; demo_entry 3; demo_entry 4]
  | None => False
  end.
Proof.
  pose proof (@async_log_order demo 2 1 demo_events demo_log_world eq_refl) as Ho. cbv zeta in Ho.
  destruct (AsyncAccessLogger_Run _ _ _) as [[s w']|]; [|lia].
  destruct Ho as (_ & (ins & Hrows & _ & Heq) & _ & Hall & _). exists ins. split; [exact Hrows|].
  rewrite Heq; [|exact _|].
  - rewrite Hall; [reflexivity|]. vm_compute. by intros.
  - repeat (constructor; [apply demo_loggable; lia|]). constructor.
Defined.
