(* ===== verification/Middleware.v ===== *)
(** * internal/transport/http/middleware: authentication and ownership

    The replies of the owner-facing handlers, and the three middlewares
    (auth.go, ownership.go).  A handler behind a middleware takes what the
    middleware stored in the context as an argument: the user id.

    A reply is the status and the value given to the JSON encoder, to
    [http.Error], to [http.Redirect] or to a template: the bytes the encoder
    makes of it are not modelled, those of the templates are in [Templates]. *)

From S2P Require Import Prelude GoStrings Domain Http Schema Platform Effects Interfaces RepoLinks RepoUsers Auth.

Open Scope go_scope.

(** ** Replies *)

(** A Go value given to [json.Encoder.Encode]: a map of scalars, or a value of
    internal/domain. *)
Inductive json_scalar : Type :=
| JString (s : string)
| JOptString (s : option string)
| JUUID (u : UUID)
| JTime (t : GoTime).

Inductive json_value : Type :=
| JMap (fields : list (string * json_scalar))
| JDevice (d : Device) | JDevices (l : list Device)
| JAPIKeys (l : list APIKey)
| JSite (s : TargetSite) | JSites (l : list TargetSite)
| JSession (s : OriginalSession) | JSessions (l : list OriginalSession)
| JPolicy (p : AccessPolicy) | JPolicies (l : list AccessPolicy)
| JEndpoint (e : BlacklistedEndpoint) | JEndpoints (l : list BlacklistedEndpoint)
| JLink (l : SharedLink) | JLinks (l : list SharedLink)
| JStats (s : LinkStats)
| JLogs (l : list ProxyAccessLog)
| JGuests (l : list Guest)
| JGuestSessions (l : list GuestSession)
| JEvents (l : list SecurityEvent)
| JTermination (t : LinkTermination)
| JReasons (l : list RevocationReason).

(** A page of the dashboard, with the arguments of its template. *)
Inductive page : Type :=
| LoginPage (message : string)
| LinksPage (links : list SharedLink)
| LinkRow (link : SharedLink)
| ImportPage (message : string)
| SecurityFeedPage.

(** [EventStream] is a body written by the loop over a channel of the hub. *)
Inductive reply_body : Type :=
| Empty
| Text (message : string)
| Location (url : string)
| Json (v : json_value)
| Html (p : page)
| EventStream (ch : nat).

Inductive SameSite : Type := SameSiteLaxMode.

(** The cookie of [http.SetCookie], with the attributes the program sets. *)
Record SetCookie := mkSetCookie {
  SetCookie_Name : string;
  SetCookie_Value : string;
  SetCookie_Path : string;
  SetCookie_HttpOnly : bool;
  SetCookie_Secure : bool;
  SetCookie_SameSite : SameSite;
  SetCookie_Expires : option GoTime;
  SetCookie_MaxAge : Z }.

Record Reply := mkReply {
  Reply_status : Z;
  Reply_body : reply_body;
  Reply_cookie : option SetCookie }.

Definition reply (status : Z) (body : reply_body) : Reply := mkReply status body None.

(** [http.Error] and [http.Redirect] with an absolute path. *)
Definition reply_Error (message : string) (status : Z) : Reply := reply status (Text message).
Definition reply_Redirect (url : string) (status : Z) : Reply := reply status (Location url).

(** ** auth.go *)

Section auth.
Context {PL : Platform}.

Record Authenticator := mkAuthenticator {
  Authenticator_VerifyJWT : string → M UUID;
  Authenticator_VerifyAPIKey : string → M UUID }.

Definition bearerToken (r : Request) : option string :=
  let h := Header_Get (Request_Header r) "Authorization" in
  if negb (HasPrefix h "Bearer ") then None else Some (TrimPrefix h "Bearer ").

(** Which of the two verifications applies is told by the prefix. *)
Definition verify_token (auth : Authenticator) (token : string) : M UUID :=
  if HasPrefix token "spk_" then Authenticator_VerifyAPIKey auth token
  else Authenticator_VerifyJWT auth token.

Definition RequireAuth (auth : Authenticator) (next : UUID → Request → P Reply) (r : Request) : P Reply :=
  match bearerToken r with
  | None => Ret (reply_Error "missing or malformed Authorization header" StatusUnauthorized)
  | Some token =>
      let* v := verify_token auth token in
      match v with
      | inl _ => Ret (reply_Error "invalid credentials" StatusUnauthorized)
      | inr userID => next userID r
      end
  end.

Definition SessionCookieName : string := "sp_session".

Definition RequireSessionCookie (auth : Authenticator) (next : UUID → Request → P Reply) (r : Request)
    : P Reply :=
  let to_login := Ret (reply_Redirect "/dashboard/login" StatusSeeOther) in
  match Request_Cookie r SessionCookieName with
  | None => to_login
  | Some cookie =>
      if bool_decide (Cookie_Value cookie = EmptyString) then to_login
      else
        let* v := Authenticator_VerifyJWT auth (Cookie_Value cookie) in
        match v with
        | inl _ => to_login
        | inr userID => next userID r
        end
  end.

(** ** ownership.go *)

Context `{!SharedLinkRepository}.

(** [param] is the {linkID} of the route; [next] gets the id it parses to. *)
Definition RequireLinkOwnership (param : string) (next : UUID → UUID → Request → P Reply)
    (userID : UUID) (r : Request) : P Reply :=
  match uuid_Parse param with
  | None => Ret (reply_Error "invalid link id" StatusBadRequest)
  | Some linkID =>
      let* o := SharedLinks_OwnerUserID linkID in
      match o with
      | inl _ => Ret (reply_Error "not found" StatusNotFound)
      | inr owner =>
          if decide (owner ≠ userID) then Ret (reply_Error "not found" StatusNotFound)
          else next linkID userID r
      end
  end.

End auth.

Arguments Authenticator : clear implicits.
Arguments Authenticator {PL}.

(** AuthService as the Authenticator. *)
Definition AuthService_Authenticator {PL : Platform} `{SHA256} `{JWT} `{!APIKeyRepository} (s : AuthService)
    : Authenticator :=
  mkAuthenticator (AuthService_VerifyJWT s) AuthService_VerifyAPIKey.
