(* ===== verification/Templates.v ===== *)
(** * internal/transport/webui/templates: the pages of the dashboard

    The components of the *_templ.go files, write by write, and the documents
    they stand for.  [page_renders] is the refinement: what a component writes
    reads as its document, with every text of the data in its place, whatever the
    data; a failing writer or a cancelled request cuts the page short and is
    reported. *)

From Stdlib Require Import Ascii.
From Stdlib Require String.
From stdpp Require Import pretty.
From S2P Require Import Prelude GoStrings Domain Http Markup Platform Effects Middleware.

Open Scope go_scope.

(** ** Definitions *)

(** A literal of the source, its double quotes written as single ones. *)
Fixpoint lit (s : string) : string :=
  match s with
  | EmptyString => EmptyString
  | String c s' => String (if (c =? "'")%char then "034"%char else c) (lit s')
  end.

(** *** The layout 2006-01-02 15:04 of [time.Format] *)

(** A year of the proleptic Gregorian calendar begins here on 1 March; day 0 is
    1 March of the year 0: year, month and day of the month of a day. *)
Definition civil (days : Z) : Z * Z * Z :=
  let doe := (days mod 146097)%Z in
  let yoe := ((doe - doe / 1460 + doe / 36524 - doe / 146096) / 365)%Z in
  let doy := (doe - (365 * yoe + yoe / 4 - yoe / 100))%Z in
  let mp := ((5 * doy + 2) / 153)%Z in
  let year := (days / 146097 * 400 + yoe)%Z in
  (if decide (mp < 10)%Z then (year, mp + 3, doy - (153 * mp + 2) / 5 + 1)
   else (year + 1, mp - 9, doy - (153 * mp + 2) / 5 + 1))%Z.

(** [appendInt(b, x, width)] *)
Definition zeros (n : nat) : string := of_bytes (repeat "0"%char n).
Definition appendInt (x : Z) (width : nat) : string :=
  let digits := pretty (Z.to_N (Z.abs x)) in
  (if decide (x < 0)%Z then "-" else EmptyString) +:+ zeros (width - String.length digits) +:+ digits.

(** [t.Format("2006-01-02 15:04")] for a time whose location is [offset] seconds
    east of UTC. *)
Definition Format_minute (offset : Z) (t : GoTime) : string :=
  let secs := (t / 1000000000 + offset)%Z in
  let '(year, month, day) := civil (secs / 86400 + 719468) in
  let sod := (secs mod 86400)%Z in
  appendInt year 4 +:+ "-" +:+ appendInt month 2 +:+ "-" +:+ appendInt day 2 +:+ " " +:+
  appendInt (sod / 3600) 2 +:+ ":" +:+ appendInt (sod mod 3600 / 60) 2.

(** *** The runtime of templ *)

(** github.com/a-h/templ, and the offset of the location in which the database
    driver puts a time. *)
Class Templ := {
  templ_EscapeString : string → string;
  templ_JoinStringErrs : string → go_error + string;
  templ_ResolveAttributeValue : string → go_error + string;
  local_offset : GoTime → Z }.

(** Documented behaviour: a text and the value of an attribute are escaped as
    package html does, and a string is no error. *)
Class TemplLaws (T : Templ) : Prop := {
  templ_EscapeString_html s : templ_EscapeString s = html_EscapeString s;
  templ_JoinStringErrs_id s : templ_JoinStringErrs s = inr s;
  templ_ResolveAttributeValue_html s : templ_ResolveAttributeValue s = inr (html_EscapeString s) }.

(** The response writer and the request's context, by the number of the pieces
    written: the error of the next write and [ctx.Err()]; and the error of
    flushing the buffer at the end. *)
Record Sink := mkSink {
  sink_write : nat → option go_error;
  sink_ctx : nat → option go_error;
  sink_flush : option go_error }.

(** A body: the pieces written before and after, and the error it returns. *)
Definition Body : Type := list string → list string * option go_error.

(** A component is rendered with the children of its context. *)
Definition Component : Type := Body → Body.

Definition andThen (b1 b2 : Body) : Body := λ buf,
  match b1 buf with
  | (buf', Some err) => (buf', Some err)
  | (buf', None) => b2 buf'
  end.

Declare Scope templ_scope.
Delimit Scope templ_scope with templ.
Notation "b1 ;; b2" := (andThen b1 b2) (at level 100, b2 at level 200, right associativity) : templ_scope.


Definition NopComponent : Body := λ buf, (buf, None).

(** [for _, x := range xs] with the return on an error. *)
Fixpoint range {A} (xs : list A) (f : A → Body) : Body :=
  match xs with
  | [] => NopComponent
  | x :: xs' => andThen (f x) (range xs' f)
  end.

Section components.
Context `{Templ} {PL : Platform} (sink : Sink).
Local Open Scope templ_scope.

Definition WriteString (s : string) : Body := λ buf,
  match sink_write sink (length buf) with
  | Some err => (buf, Some err)
  | None => (buf ++ [s], None)
  end.

(** [if ctx.Err() != nil { return ctx.Err() }] *)
Definition check_context : Body := λ buf, (buf, sink_ctx sink (length buf)).

(** The value, or [templ.Error] with the place in the template. *)
Definition written_value (r : go_error + string) (place : string) (escape : string → string) : Body :=
  match r with
  | inl err => λ buf, (buf, Some (Wrap place err))
  | inr v => WriteString (escape v)
  end.

(** An expression in the text of an element, and as the value of an attribute. *)
Definition text_value (s place : string) : Body :=
  written_value (templ_JoinStringErrs s) place templ_EscapeString.
Definition attr_value (s place : string) : Body :=
  written_value (templ_ResolveAttributeValue s) place (λ v, v).

(** **** layout_templ.go *)

Definition style_sheet : string := lit "
				:root { color-scheme: dark; }
				body { background:#0d1117; color:#c9d1d9; font-family: -apple-system, BlinkMacSystemFont, 'Segoe UI', Roboto, sans-serif; margin:0; }
				a { color:#58a6ff; text-decoration:none; }
				nav { display:flex; align-items:center; gap:1.5rem; padding:0.9rem 1.5rem; background:#161b22; border-bottom:1px solid #21262d; }
				nav .brand { font-weight:600; color:#c9d1d9; }
				main { max-width:960px; margin:2rem auto; padding:0 1.5rem; }
				table { width:100%; border-collapse: collapse; margin-top:1rem; }
				th, td { text-align:left; padding:0.5rem 0.75rem; border-bottom:1px solid #21262d; font-size:0.9rem; }
				th { color:#8b949e; font-weight:500; }
				.badge { padding:0.15rem 0.5rem; border-radius:999px; font-size:0.75rem; font-weight:600; }
				.badge-active { background:#0f3d21; color:#3fb950; }
				.badge-terminated { background:#3d1418; color:#f85149; }
				form { display:flex; flex-direction:column; gap:0.75rem; max-width:420px; }
				input, textarea { background:#0d1117; border:1px solid #30363d; color:#c9d1d9; padding:0.5rem; border-radius:6px; font-size:0.9rem; }
				button { background:#238636; color:white; border:none; padding:0.5rem 1rem; border-radius:6px; cursor:pointer; font-size:0.9rem; }
				button.danger { background:#da3633; }
				.card { background:#161b22; border:1px solid #21262d; border-radius:8px; padding:1.25rem; margin-bottom:1rem; }
				.feed-item { padding:0.5rem 0; border-bottom:1px solid #21262d; font-size:0.85rem; }
				.muted { color:#8b949e; }
			".

Definition Layout (title : string) (loggedIn : bool) : Component := λ children,
  check_context ;;
  WriteString (lit "<!doctype html><html lang='en'><head><meta charset='utf-8'><meta name='viewport' content='width=device-width, initial-scale=1'><title>") ;;
  text_value title "internal/transport/webui/templates/layout.templ:12:17" ;;
  WriteString (lit " - SessionProxy</title><script src='https://unpkg.com/htmx.org@1.9.12'></script><style>" +:+ style_sheet +:+ lit "</style></head><body><nav><span class='brand'>SessionProxy</span> ") ;;
  (if loggedIn then WriteString (lit "<a href='/dashboard/links'>Links</a> <a href='/dashboard/import'>Import session</a> <a href='/dashboard/security-feed'>Security feed</a> <span style='flex:1'></span> <a href='/dashboard/logout'>Log out</a>") else NopComponent) ;;
  WriteString (lit "</nav><main>") ;;
  children ;;
  WriteString (lit "</main></body></html>").

(** **** links_templ.go *)

Definition LinkRow_component (link : SharedLink) : Component := λ _,
  let id := uuid_String (SharedLink_ID link) in
  let active := bool_decide (SharedLink_Status link = LinkStatusActive) in
  check_context ;;
  WriteString (lit "<tr id='") ;;
  attr_value ("link-" +:+ id) "internal/transport/webui/templates/links.templ:26:36" ;;
  WriteString (lit "'><td>") ;;
  match SharedLink_Label link with
  | Some label => text_value label "internal/transport/webui/templates/links.templ:29:17"
  | None => WriteString (lit "<span class='muted'>(no label)</span>")
  end ;;
  WriteString (lit "</td><td><code>") ;;
  text_value (SharedLink_Token link) "internal/transport/webui/templates/links.templ:34:24" ;;
  WriteString (lit "</code></td><td>") ;;
  (if active then WriteString (lit "<span class='badge badge-active'>active</span>")
   else WriteString (lit "<span class='badge badge-terminated'>terminated</span>")) ;;
  WriteString (lit "</td><td class='muted'>") ;;
  text_value (Format_minute (local_offset (SharedLink_CreatedAt link)) (SharedLink_CreatedAt link))
    "internal/transport/webui/templates/links.templ:42:63" ;;
  WriteString (lit "</td><td>") ;;
  (if active then
     WriteString (lit "<button class='danger' hx-post='") ;;
     attr_value ("/dashboard/links/" +:+ id +:+ "/terminate")
       "internal/transport/webui/templates/links.templ:47:68" ;;
     WriteString (lit "' hx-target='") ;;
     attr_value ("#link-" +:+ id) "internal/transport/webui/templates/links.templ:48:44" ;;
     WriteString (lit "' hx-swap='outerHTML' hx-confirm='Terminate this link?'>Terminate</button>")
   else NopComponent) ;;
  WriteString (lit "</td></tr>").

Definition LinksPage_component (links : list SharedLink) : Component := λ _,
  check_context ;;
  Layout "Links" true
    (WriteString (lit "<h2>Shared links</h2><table><thead><tr><th>Label</th><th>Token</th><th>Status</th><th>Created</th><th></th></tr></thead> <tbody id='links-body'>") ;;
     range links (λ link, LinkRow_component link NopComponent) ;;
     WriteString (lit "</tbody></table>")).

(** **** import_templ.go, login_templ.go, security_feed_templ.go *)

Definition ImportPage_component (message : string) : Component := λ _,
  check_context ;;
  Layout "Import session" true
    (WriteString (lit "<h2>Import a session</h2><p class='muted'>Cookie values are encrypted (AES-256-GCM) before they are stored - see internal/crypto. This form only ever POSTs plaintext over your own connection to this server; it is never written to disk unencrypted.</p>") ;;
     (if decide (message ≠ EmptyString) then
        WriteString (lit "<div class='card'>") ;;
        text_value message "internal/transport/webui/templates/import.templ:8:30" ;;
        WriteString (lit "</div>")
      else NopComponent) ;;
     WriteString (lit " <form method='post' action='/dashboard/import'><label>Target site domain<input type='text' name='base_domain' placeholder='github.com' required></label> <label>Target site base URL<input type='text' name='base_url' placeholder='https://github.com' required></label> <label>Cookie name<input type='text' name='cookie_name' placeholder='session_id' required></label> <label>Cookie value<input type='text' name='cookie_value' placeholder='paste the cookie value' required></label> <button type='submit'>Import</button></form>")).

Definition LoginPage_component (errorMessage : string) : Component := λ _,
  check_context ;;
  Layout "Log in" false
    (WriteString (lit "<div class='card' style='max-width:380px; margin: 3rem auto;'><h2>Log in</h2>") ;;
     (if decide (errorMessage ≠ EmptyString) then
        WriteString (lit "<p style='color:#f85149'>") ;;
        text_value errorMessage "internal/transport/webui/templates/login.templ:8:43" ;;
        WriteString (lit "</p>")
      else NopComponent) ;;
     WriteString (lit "<form method='post' action='/dashboard/login'><label>Email<input type='email' name='email' required></label> <label>Password<input type='password' name='password' required></label> <button type='submit'>Log in</button></form><p class='muted' style='margin-top:1rem'>No account yet? Register via the API: <code>POST /api/v1/auth/register</code>.</p></div>")).

Definition feed_script : string := lit "
			const feed = document.getElementById('feed');
			let first = true;
			const source = new EventSource('/dashboard/events');
			source.onmessage = (e) => {
				if (first) { feed.innerHTML = ''; first = false; }
				const data = JSON.parse(e.data);
				const div = document.createElement('div');
				div.className = 'feed-item';
				div.textContent = `[${data.occurred_at}] ${data.type} - link ${data.link_id.slice(0, 8)}...: ${data.message}`;
				feed.prepend(div);
			};
		".

Definition SecurityFeedPage_component : Component := λ _,
  check_context ;;
  Layout "Security feed" true
    (WriteString (lit "<h2>Live security feed</h2><p class='muted'>Blacklist violations and auto-terminations, as they happen, streamed from the same internal/pubsub.Hub the gRPC AdminService reads from.</p><div id='feed' class='card'><p class='muted'>Waiting for events...</p></div><script>" +:+ feed_script +:+ lit "</script>")).

(** **** Rendering *)

Definition page_component (p : page) : Component :=
  match p with
  | LoginPage message => LoginPage_component message
  | LinksPage links => LinksPage_component links
  | LinkRow link => LinkRow_component link
  | ImportPage message => ImportPage_component message
  | SecurityFeedPage => SecurityFeedPage_component
  end.

(** [c.Render(ctx, w)] for a handler: the pieces given to the buffer over [w],
    which is flushed also after an error. *)
Definition Component_Render (c : Component) : list string * option go_error :=
  match c NopComponent [] with
  | (buf, Some err) => (buf, Some err)
  | (buf, None) => (buf, sink_flush sink)
  end.

End components.

(** ** Specification *)

Section documents.
Context `{Templ} {PL : Platform}.

Definition link_to (url text : string) : node := El "a" [("href", url)] [Txt text].

Definition layout_document (title : string) (loggedIn : bool) (content : list node) : list node :=
  [Declaration "doctype html";
   El "html" [("lang", "en")]
     [El "head" []
        [Void "meta" [("charset", "utf-8")];
         Void "meta" [("name", "viewport"); ("content", "width=device-width, initial-scale=1")];
         El "title" [] [Txt (title +:+ " - SessionProxy")];
         El "script" [("src", "https://unpkg.com/htmx.org@1.9.12")] [];
         El "style" [] [Txt style_sheet]];
      El "body" []
        [El "nav" []
           ([El "span" [("class", "brand")] [Txt "SessionProxy"]; Txt " "] ++
            if loggedIn then
              [link_to "/dashboard/links" "Links"; Txt " "; link_to "/dashboard/import" "Import session"; Txt " ";
               link_to "/dashboard/security-feed" "Security feed"; Txt " "; El "span" [("style", "flex:1")] [];
               Txt " "; link_to "/dashboard/logout" "Log out"]
            else []);
         El "main" [] content]]].

Definition badge (status text : string) : node := El "span" [("class", "badge badge-" +:+ status)] [Txt text].

(** The path to which the button of a row posts. *)
Definition terminate_path (id : UUID) : string := "/dashboard/links/" +:+ uuid_String id +:+ "/terminate".

Definition terminate_button (id : UUID) : node :=
  El "button"
    [("class", "danger"); ("hx-post", terminate_path id); ("hx-target", "#link-" +:+ uuid_String id);
     ("hx-swap", "outerHTML"); ("hx-confirm", "Terminate this link?")] [Txt "Terminate"].

(** A row: label, token, status, time of creation and, while the link is
    active, the button. *)
Definition row_document (link : SharedLink) : node :=
  let active := bool_decide (SharedLink_Status link = LinkStatusActive) in
  El "tr" [("id", "link-" +:+ uuid_String (SharedLink_ID link))]
    [El "td" [] [match SharedLink_Label link with
                 | Some label => Txt label
                 | None => El "span" [("class", "muted")] [Txt "(no label)"]
                 end];
     El "td" [] [El "code" [] [Txt (SharedLink_Token link)]];
     El "td" [] [if active then badge "active" "active" else badge "terminated" "terminated"];
     El "td" [("class", "muted")]
       [Txt (Format_minute (local_offset (SharedLink_CreatedAt link)) (SharedLink_CreatedAt link))];
     El "td" [] (if active then [terminate_button (SharedLink_ID link)] else [])].

Definition column (name : string) : node := El "th" [] (if decide (name = EmptyString) then [] else [Txt name]).

Definition text_input (name placeholder : string) : node :=
  Void "input" [("type", "text"); ("name", name); ("placeholder", placeholder); ("required", EmptyString)].

Definition submit (text : string) : node := El "button" [("type", "submit")] [Txt text].

Definition message_document (message : string) (n : node) : list node :=
  if decide (message = EmptyString) then [] else [n].

Definition page_document (p : page) : list node :=
  match p with
  | LoginPage message =>
      layout_document "Log in" false
        [El "div" [("class", "card"); ("style", "max-width:380px; margin: 3rem auto;")]
          (El "h2" [] [Txt "Log in"] ::
           message_document message (El "p" [("style", "color:#f85149")] [Txt message]) ++
           [El "form" [("method", "post"); ("action", "/dashboard/login")]
              [El "label" []
                 [Txt "Email"; Void "input" [("type", "email"); ("name", "email"); ("required", EmptyString)]];
               Txt " ";
               El "label" []
                 [Txt "Password"; Void "input" [("type", "password"); ("name", "password"); ("required", EmptyString)]];
               Txt " "; submit "Log in"];
            El "p" [("class", "muted"); ("style", "margin-top:1rem")]
              [Txt "No account yet? Register via the API: "; El "code" [] [Txt "POST /api/v1/auth/register"]; Txt "."]])]
  | LinksPage links =>
      layout_document "Links" true
        [El "h2" [] [Txt "Shared links"];
         El "table" []
           [El "thead" [] [El "tr" [] (column <$> ["Label"; "Token"; "Status"; "Created"; EmptyString])];
            Txt " ";
            El "tbody" [("id", "links-body")] (row_document <$> links)]]
  | LinkRow link => [row_document link]
  | ImportPage message =>
      layout_document "Import session" true
        ([El "h2" [] [Txt "Import a session"];
          El "p" [("class", "muted")]
            [Txt "Cookie values are encrypted (AES-256-GCM) before they are stored - see internal/crypto. This form only ever POSTs plaintext over your own connection to this server; it is never written to disk unencrypted."]] ++
         message_document message (El "div" [("class", "card")] [Txt message]) ++
         [Txt " ";
          El "form" [("method", "post"); ("action", "/dashboard/import")]
            [El "label" [] [Txt "Target site domain"; text_input "base_domain" "github.com"]; Txt " ";
             El "label" [] [Txt "Target site base URL"; text_input "base_url" "https://github.com"]; Txt " ";
             El "label" [] [Txt "Cookie name"; text_input "cookie_name" "session_id"]; Txt " ";
             El "label" [] [Txt "Cookie value"; text_input "cookie_value" "paste the cookie value"]; Txt " ";
             submit "Import"]])
  | SecurityFeedPage =>
      layout_document "Security feed" true
        [El "h2" [] [Txt "Live security feed"];
         El "p" [("class", "muted")]
           [Txt "Blacklist violations and auto-terminations, as they happen, streamed from the same internal/pubsub.Hub the gRPC AdminService reads from."];
         El "div" [("id", "feed"); ("class", "card")]
           [El "p" [("class", "muted")] [Txt "Waiting for events..."]];
         El "script" [] [Txt feed_script]]
  end.

End documents.

Definition no_faults (sink : Sink) : Prop :=
  (∀ n, sink_write sink n = None) ∧ (∀ n, sink_ctx sink n = None) ∧ sink_flush sink = None.

(** ** Lemmas *)

(** [emits b ps]: the body writes a prefix of the pieces [ps], all of them when
    it returns no error, and returns none when nothing fails. *)
Definition emits (b : Sink → Body) (ps : list string) : Prop :=
  ∀ sink buf, ∃ l, l `prefix_of` ps ∧ (b sink buf).1 = buf ++ l ∧
    ((b sink buf).2 = None → l = ps) ∧ (no_faults sink → (b sink buf).2 = None).

Lemma emits_nop : emits (λ _, NopComponent) [].
Proof. intros sink buf. exists []. by rewrite app_nil_r. Qed.

Lemma emits_write s : emits (λ sink, WriteString sink s) [s].
Proof.
  intros sink buf. unfold WriteString. destruct (sink_write sink (length buf)) as [err|] eqn:E.
  - exists []. rewrite app_nil_r. split_and!; [apply prefix_nil|done..|]. intros (Hw & _). by rewrite Hw in E.
  - by exists [s].
Qed.

Lemma emits_context : emits check_context [].
Proof. intros sink buf. exists []. rewrite app_nil_r. split_and!; [done..|]. intros (_ & Hc & _). apply Hc. Qed.

Lemma emits_seq b1 b2 ps1 ps2 :
  emits b1 ps1 → emits b2 ps2 → emits (λ sink, andThen (b1 sink) (b2 sink)) (ps1 ++ ps2).
Proof.
  intros H1 H2 sink buf. unfold andThen. destruct (H1 sink buf) as (l1 & Hp1 & Hb1 & Hall1 & Hok1).
  destruct (b1 sink buf) as [buf1 [err|]]; cbn [fst snd] in *.
  - exists l1. split_and!; [by apply prefix_app_r|done|done|]. intros Hf. by specialize (Hok1 Hf).
  - rewrite (Hall1 eq_refl) in Hb1. subst buf1. destruct (H2 sink (buf ++ ps1)) as (l2 & Hp2 & Hb2 & Hall2 & Hok2).
    exists (ps1 ++ l2). split_and!; [by apply prefix_app|by rewrite Hb2, app_assoc| |done].
    intros E. by rewrite (Hall2 E).
Qed.

(** [renders b st st' ts]: moreover the reader goes from [st] to [st'] over the
    pieces and meets [ts]. *)
Definition renders (b : Sink → Body) (st st' : lex) (ts : list token) : Prop :=
  ∃ ps, emits b ps ∧ scan st (concat_strings ps) = (st', ts).

Lemma renders_nop st : renders (λ _, NopComponent) st st [].
Proof. exists []. split; [apply emits_nop|done]. Qed.

Lemma renders_context st : renders check_context st st [].
Proof. exists []. split; [apply emits_context|done]. Qed.

Lemma renders_write s st st' ts : scan st s = (st', ts) → renders (λ sink, WriteString sink s) st st' ts.
Proof. intros Hs. exists [s]. split; [apply emits_write|by rewrite concat_strings_one]. Qed.

Lemma renders_seq b1 b2 st st1 st2 ts1 ts2 :
  renders b1 st st1 ts1 → renders b2 st1 st2 ts2 →
  renders (λ sink, andThen (b1 sink) (b2 sink)) st st2 (ts1 ++ ts2).
Proof.
  intros (ps1 & He1 & Hs1) (ps2 & He2 & Hs2). exists (ps1 ++ ps2). split; [by apply emits_seq|].
  rewrite concat_strings_app. by apply scan_then with st1.
Qed.

Lemma renders_range {A} (xs : list A) (f : A → Sink → Body) st (ts : A → list token) :
  (∀ x, renders (f x) st st (ts x)) → renders (λ sink, range xs (λ x, f x sink)) st st (xs ≫= ts).
Proof.
  intros Hf. induction xs as [|x xs IH]; [apply renders_nop|].
  exact (renders_seq (f x) (λ sink, range xs (λ x, f x sink)) _ _ _ _ _ (Hf x) IH).
Qed.

Lemma renders_if (c : bool) b1 b2 st st' ts1 ts2 :
  renders b1 st st' ts1 → renders b2 st st' ts2 →
  renders (λ sink, if c then b1 sink else b2 sink) st st' (if c then ts1 else ts2).
Proof. by destruct c. Qed.

Section values.
Context `{!Templ} `{!TemplLaws _}.

Lemma renders_text s place : renders (λ sink, text_value sink s place) (Data []) (Data (rev (bytes s))) [].
Proof.
  unfold text_value. rewrite templ_JoinStringErrs_id. cbn [written_value]. apply renders_write.
  rewrite templ_EscapeString_html. destruct (scan_escaped s) as [-> _]. by rewrite app_nil_r.
Qed.

Lemma renders_attr s place n l a :
  renders (λ sink, attr_value sink s place) (AttrValue n l a []) (AttrValue n l a (rev (bytes s))) [].
Proof.
  unfold attr_value. rewrite templ_ResolveAttributeValue_html. cbn [written_value]. apply renders_write.
  destruct (scan_escaped s) as [_ ->]. by rewrite app_nil_r.
Qed.
End values.

(** The literal after a value. *)
Lemma scan_text_end s t st ts : scan TagStart t = (st, ts) →
  scan (Data (rev (bytes s))) (String "<" t) = (st, text_token s ++ ts).
Proof. intros Ht. cbn [scan step]. rewrite decide_True by done. by rewrite rev_text_rev, Ht. Qed.

Lemma scan_value_end n l a s t st ts : scan (AfterValue n (l ++ [(a, s)])) t = (st, ts) →
  scan (AttrValue n l a (rev (bytes s))) (String "034" t) = (st, ts).
Proof. intros Ht. cbn [scan step]. by rewrite decide_True, rev_text_rev, Ht by done. Qed.

Lemma scan_plain text t : forallb (λ c, negb (bool_decide (c = "<"%char) || bool_decide (c = "&"%char))) (bytes t) = true →
  scan (Data text) t = (Data (rev (bytes t) ++ text), []).
Proof.
  revert text. induction t as [|c t IH]; intros text Ht; [done|]. cbn [bytes forallb] in Ht.
  apply andb_prop in Ht as [Hc Ht]. apply negb_true_iff, orb_false_iff in Hc as [H1 H2].
  apply bool_decide_eq_false in H1, H2. cbn [scan step]. rewrite !decide_False by done. rewrite (IH _ Ht).
  cbn [bytes rev]. by rewrite <-app_assoc.
Qed.

Lemma renders_eq b st st' ts ts' : renders b st st' ts → ts = ts' → renders b st st' ts'.
Proof. by intros ? <-. Qed.

(** The reading of a literal, by evaluation; the values read before it are
    variables. *)
Ltac scan_literal :=
  lazymatch goal with
  | |- scan (Data (rev (bytes _))) _ = _ => eapply scan_text_end
  | |- scan (AttrValue _ _ _ (rev (bytes _))) _ = _ => eapply scan_value_end
  | _ => idtac
  end;
  lazymatch goal with
  | |- ?x = _ => let y := eval vm_compute in x in transitivity y; [vm_compute; reflexivity|reflexivity]
  end.

Ltac render_step :=
  first [eapply renders_seq | apply renders_context | apply renders_nop | apply renders_text | apply renders_attr
        | apply renders_write; scan_literal].

Ltac rendered := eapply renders_eq; [repeat render_step|].

(** The tokens met are those of the document, the texts of the data being
    variables. *)
Ltac tokens_eq :=
  cbn [tokens node_tokens mbind list_bind app];
  repeat match goal with
  | |- context [text_token ?v] => is_var v; generalize (text_token v); intros ?
  end;
  rewrite ?app_nil_r; repeat (rewrite <-app_assoc; cbn [app]); reflexivity.

Section documents_lemmas.
Context `{!Templ} `{!TemplLaws _} {PL : Platform}.

Lemma renders_row link :
  renders (λ sink, LinkRow_component sink link NopComponent) (Data []) (Data []) (node_tokens (row_document link)).
Proof.
  unfold LinkRow_component, row_document, terminate_button, terminate_path, badge.
  generalize ("link-" +:+ uuid_String (SharedLink_ID link)) as v1.
  generalize ("#link-" +:+ uuid_String (SharedLink_ID link)) as v2.
  generalize ("/dashboard/links/" +:+ uuid_String (SharedLink_ID link) +:+ "/terminate") as v3.
  generalize (Format_minute (local_offset (SharedLink_CreatedAt link)) (SharedLink_CreatedAt link)) as v4.
  generalize (SharedLink_Token link) as v5. intros.
  destruct (SharedLink_Label link) as [v6|], (bool_decide _).
  all: rendered; tokens_eq.
Qed.
Lemma scan_title title t st ts : scan TagStart t = (st, ts) →
  scan (Data (rev (bytes title))) (" - SessionProxy" +:+ String "<" t) = (st, text_token (title +:+ " - SessionProxy") ++ ts).
Proof.
  intros Ht. rewrite scan_app, scan_plain by done. rewrite <-rev_app_distr, <-bytes_app.
  by rewrite (scan_text_end _ _ _ _ Ht).
Qed.

Lemma renders_layout title loggedIn (body : Sink → Body) content :
  renders body (Data []) (Data []) (tokens content) →
  renders (λ sink, Layout sink title loggedIn (body sink)) (Data []) (Data [])
    (tokens (layout_document title loggedIn content)).
Proof.
  intros Hb. unfold Layout, layout_document, link_to. destruct loggedIn.
  all: eapply renders_eq;
    [do 2 (eapply renders_seq; [render_step|]); eapply renders_seq; [apply renders_text|];
     eapply renders_seq; [apply renders_write; eapply (scan_title title); scan_literal|];
     do 2 (eapply renders_seq; [render_step|]); eapply renders_seq; [exact Hb|render_step]|].
  all: cbn [tokens node_tokens mbind list_bind app]; unfold tokens.
  all: generalize (content ≫= node_tokens) as l; generalize (title +:+ " - SessionProxy") as v; intros; tokens_eq.
Qed.

Lemma tokens_rows links : (links ≫= λ link, node_tokens (row_document link)) = tokens (row_document <$> links).
Proof. induction links as [|link links IH]; [done|]. cbn [fmap list_fmap]. rewrite tokens_cons, <-IH. done. Qed.

(** A page within the layout, from its content. *)
Lemma renders_in_layout title loggedIn (body : Sink → Body) content ts :
  renders body (Data []) (Data []) ts → ts = tokens content →
  renders (λ sink, andThen (check_context sink) (Layout sink title loggedIn (body sink))) (Data []) (Data [])
    (tokens (layout_document title loggedIn content)).
Proof.
  intros Hb ->. eapply renders_eq; [|apply app_nil_l]. eapply renders_seq; [apply renders_context|].
  by apply renders_layout.
Qed.

Lemma renders_page p :
  renders (λ sink, page_component sink p NopComponent) (Data []) (Data []) (tokens (page_document p)).
Proof.
  destruct p as [message|links|link|message|]; cbn [page_component page_document].
  - unfold LoginPage_component, message_document, submit. case_decide as Hm; case_decide; try done.
    all: eapply renders_in_layout; [repeat render_step|tokens_eq].
  - eapply renders_in_layout.
    { eapply renders_seq; [render_step|]. eapply renders_seq.
      { apply (renders_range links (λ link sink, LinkRow_component sink link NopComponent)), renders_row. }
      render_step. }
    rewrite tokens_rows. unfold tokens. tokens_eq.
  - eapply renders_eq; [apply renders_row|symmetry; apply app_nil_r].
  - unfold ImportPage_component, message_document, submit, text_input. case_decide as Hm; case_decide; try done.
    all: eapply renders_in_layout; [repeat render_step|tokens_eq].
  - eapply renders_in_layout; [render_step|tokens_eq].
Qed.
End documents_lemmas.

(** ** What a browser can send from a page *)

Definition attribute (name : string) (attrs : list (string * string)) : option string :=
  snd <$> find_first (λ a, bool_decide (a.1 = name)) attrs.

(** A link is followed with GET; a form and an htmx button say their method. *)
Definition token_actions (t : token) : list (string * string) :=
  match t with
  | TOpen name attrs =>
      (if decide (name = "a") then option_list (pair "GET" <$> attribute "href" attrs) else []) ++
      (if decide (name = "form") then
         option_list (pair (if decide (attribute "method" attrs = Some "post") then "POST" else "GET") <$>
                      attribute "action" attrs)
       else []) ++
      option_list (pair "POST" <$> attribute "hx-post" attrs)
  | _ => []
  end.

Definition actions (ts : list token) : list (string * string) := ts ≫= token_actions.

(** The names under which the inputs of a page are submitted. *)
Definition token_fields (t : token) : list string :=
  match t with
  | TOpen name attrs => if decide (name = "input") then option_list (attribute "name" attrs) else []
  | _ => []
  end.

Definition fields (ts : list token) : list string := ts ≫= token_fields.

Definition nav_actions : list (string * string) :=
  [("GET", "/dashboard/links"); ("GET", "/dashboard/import"); ("GET", "/dashboard/security-feed");
   ("GET", "/dashboard/logout")].

(** The active links of a list. *)
Definition active_links (links : list SharedLink) : list SharedLink :=
  filter (λ l, SharedLink_Status l = LinkStatusActive) links.

(** What is collected of the tags, whatever the texts. *)
Section collect.
Context {A : Type} (f : token → list A) (Hf : ∀ s, f (TText s) = []).

Lemma collect_text s : text_token s ≫= f = [].
Proof. unfold text_token. case_decide; [done|]. cbn [mbind list_bind]. by rewrite Hf. Qed.

Lemma collect_cons t ts : (t :: ts) ≫= f = f t ++ (ts ≫= f).
Proof. done. Qed.
End collect.

Ltac collected :=
  cbn [tokens node_tokens mbind list_bind app]; rewrite ?app_nil_r;
  repeat (rewrite ?bind_app, ?collect_text by done; rewrite ?collect_cons; cbn [app]).

Definition button_actions (links : list SharedLink) {PL : Platform} : list (string * string) :=
  (λ l, ("POST", terminate_path (SharedLink_ID l))) <$> active_links links.

Section actions.
Context `{!Templ} {PL : Platform}.

Lemma actions_row link : node_tokens (row_document link) ≫= token_actions = button_actions [link].
Proof.
  unfold row_document, button_actions, active_links. rewrite filter_cons, filter_nil.
  generalize (Format_minute (local_offset (SharedLink_CreatedAt link)) (SharedLink_CreatedAt link)) as v.
  generalize ("link-" +:+ uuid_String (SharedLink_ID link)) as v'.
  case_decide as Ha; [rewrite bool_decide_eq_true_2 by done|rewrite bool_decide_eq_false_2 by done]; intros;
  destruct (SharedLink_Label link); collected; reflexivity.
Qed.

Lemma actions_rows links : tokens (row_document <$> links) ≫= token_actions = button_actions links.
Proof.
  induction links as [|link links IH]; [done|]. cbn [fmap list_fmap]. rewrite tokens_cons, bind_app, actions_row, IH.
  unfold button_actions, active_links. rewrite !filter_cons, filter_nil. by case_decide.
Qed.

Lemma layout_collect {A} (f : token → list A) title loggedIn content :
  (∀ s, f (TText s) = []) → (∀ n, f (TClose n) = []) →
  (∀ n l, n ≠ "a" → n ≠ "input" → n ≠ "form" → attribute "hx-post" l = None → f (TOpen n l) = []) →
  (∀ s, f (TDecl s) = []) →
  tokens (layout_document title loggedIn content) ≫= f =
  (if loggedIn then
     ["/dashboard/links"; "/dashboard/import"; "/dashboard/security-feed"; "/dashboard/logout"] ≫=
       λ url, f (TOpen "a" [("href", url)])
   else []) ++ (tokens content ≫= f).
Proof.
  intros Ht Hc Ho Hd. unfold layout_document, link_to. unfold tokens at 2.
  generalize (title +:+ " - SessionProxy") as v. intros v.
  destruct loggedIn; collected; rewrite ?Hd, ?Hc; 
    repeat match goal with
    | |- context [f (TOpen ?n ?l)] => lazymatch n with "a" => fail | _ => rewrite (Ho n l) by done end
    end; cbn [app]; rewrite ?app_nil_r;
    repeat (rewrite <-?app_assoc; cbn [app]); reflexivity.
Qed.

Lemma page_actions p :
  tokens (page_document p) ≫= token_actions =
  match p with
  | LoginPage _ => [("POST", "/dashboard/login")]
  | LinksPage links => nav_actions ++ button_actions links
  | LinkRow link => button_actions [link]
  | ImportPage _ => nav_actions ++ [("POST", "/dashboard/import")]
  | SecurityFeedPage => nav_actions
  end.
Proof.
  destruct p as [message|links|link|message|]; cbn [page_document].
  1,2,4,5: rewrite layout_collect by (try done; intros n l; cbn [token_actions]; intros; rewrite !decide_False by done; by simplify_option_eq).
  - unfold message_document, submit. case_decide; collected; reflexivity.
  - collected. change ((row_document <$> links) ≫= node_tokens) with (tokens (row_document <$> links)).
    rewrite actions_rows. generalize (button_actions links) as b. intros b. cbn. rewrite ?app_nil_r. reflexivity.
  - unfold message_document, submit, text_input. case_decide; collected; reflexivity.
  - collected. reflexivity.
  - rewrite tokens_cons, app_nil_r. apply actions_row.
Qed.

(** The inputs of the two forms. *)
Lemma page_fields p :
  tokens (page_document p) ≫= token_fields =
  match p with
  | LoginPage _ => ["email"; "password"]
  | ImportPage _ => ["base_domain"; "base_url"; "cookie_name"; "cookie_value"]
  | _ => []
  end.
Proof.
  assert (∀ link, node_tokens (row_document link) ≫= token_fields = []) as Hrow.
  { intros link. unfold row_document.
    generalize (Format_minute (local_offset (SharedLink_CreatedAt link)) (SharedLink_CreatedAt link)) as v.
    generalize ("link-" +:+ uuid_String (SharedLink_ID link)) as v'.
    destruct (SharedLink_Label link), (bool_decide _); intros; collected; reflexivity. }
  destruct p as [message|links|link|message|]; cbn [page_document].
  1,2,4,5: rewrite layout_collect by (try done; intros n l; cbn [token_fields]; intros; by rewrite !decide_False by done).
  - unfold message_document, submit. case_decide; collected; reflexivity.
  - collected. change ((row_document <$> links) ≫= node_tokens) with (tokens (row_document <$> links)).
    assert (tokens (row_document <$> links) ≫= token_fields = []) as ->; [|reflexivity].
    induction links as [|link links IH]; [done|]. cbn [fmap list_fmap]. by rewrite tokens_cons, bind_app, Hrow, IH.
  - unfold message_document, submit, text_input. case_decide; collected; reflexivity.
  - collected. reflexivity.
  - rewrite tokens_cons, app_nil_r. apply Hrow.
Qed.
End actions.

(** ** Properties *)

(** C31: every page of the dashboard, whatever data it shows: what its component
    writes when nothing fails is read by a browser as the document of the page,
    tag by tag, attribute by attribute and text by text, so no label, token or
    message can add or close a tag; and a failing writer, a cancelled request or
    a failing flush leaves a prefix of the same pieces and is returned as an
    error, unless every piece was written. *)
Theorem page_renders `{!Templ} `{!TemplLaws _} {PL : Platform} (p : page) :
  ∃ pieces, read (concat_strings pieces) = Some (tokens (page_document p)) ∧
    ∀ sink, ∃ written err, Component_Render sink (page_component sink p) = (written, err) ∧
      written `prefix_of` pieces ∧ (err = None → written = pieces) ∧ (no_faults sink → err = None).
Proof.
  destruct (renders_page p) as (pieces & He & Hs). exists pieces. split.
  { unfold read. rewrite Hs. by rewrite app_nil_r. }
  intros sink. destruct (He sink []) as (l & Hp & Hl & Hall & Hok). unfold Component_Render.
  destruct (page_component sink p NopComponent []) as [buf [err|]]; cbn [fst snd] in *; rewrite app_nil_l in Hl; subst buf.
  - exists l, (Some err). split_and!; [done|done|done|]. intros Hf. by specialize (Hok Hf).
  - rewrite (Hall eq_refl). exists pieces, (sink_flush sink). split_and!; [done..|]. by intros (_ & _ & ?).
Qed.

(** ** Witnesses *)

(** templ as its documentation describes it, in a location at UTC. *)
Definition demo_templ : Templ := {|
  templ_EscapeString := html_EscapeString;
  templ_JoinStringErrs s := inr s;
  templ_ResolveAttributeValue s := inr (html_EscapeString s);
  local_offset _ := 0%Z |}.

#[export] Instance demo_templ_laws : TemplLaws demo_templ.
Proof. done. Qed.

Definition demo_sink : Sink := mkSink (λ _, None) (λ _, None) None.

(** A label that tries to close its cell and to run a script. *)
Definition demo_label : string := "</td><script>alert('x')</script>&amp;".

Definition demo_row : SharedLink :=
  mkSharedLink 5%N 3%N "tok" LinkStatusActive (Some demo_label) 1700000000000000000%Z None.

Example demo_format : Format_minute 0 1700000000000000000 = "2023-11-14 22:13".
Proof. vm_compute. reflexivity. Qed.

Example demo_format_leap : Format_minute (-18000) 951868800000000000 = "2000-02-29 19:00".
Proof. vm_compute. reflexivity. Qed.

Lemma page_renders_witness :
  no_faults demo_sink ∧
  ∃ pieces, read (concat_strings pieces) = Some (tokens (@page_document demo_templ demo (LinkRow demo_row))) ∧
    ∀ sink, ∃ written err,
      Component_Render sink (@page_component demo_templ demo sink (LinkRow demo_row)) = (written, err) ∧
      written `prefix_of` pieces ∧ (err = None → written = pieces) ∧ (no_faults sink → err = None).
Proof. split; [done|]. exact (@page_renders demo_templ demo_templ_laws demo (LinkRow demo_row)). Defined.
