(* ===== verification/Rest.v ===== *)
(** * internal/transport/http: the owners' REST control plane

    The handlers of handlers_*.go, the helpers, and the table of routes of
    server.go.  Decoding a request body is a parameter ([JSONDecoder], which
    [Bodies] implements as encoding/json does); a request
    comes with the row it matched ([endpoint]) and the text of the row's
    parameters, which [Router] finds. *)

From S2P Require Import Prelude GoStrings Domain Http Schema Platform Effects Interfaces RepoLinks RepoUsers RepoSessions RepoGuests RepoLogs Links Crypto Import Auth Middleware.

Open Scope go_scope.

(** ** Request bodies *)

Record registerRequest := mkRegisterRequest {
  registerRequest_Email : string;
  registerRequest_Password : string;
  registerRequest_DisplayName : string }.

Record loginRequest := mkLoginRequest {
  loginRequest_Email : string;
  loginRequest_Password : string }.

Record createDeviceRequest := mkCreateDeviceRequest {
  createDeviceRequest_Name : string;
  createDeviceRequest_Fingerprint : string }.

Record createAPIKeyRequest := mkCreateAPIKeyRequest {
  createAPIKeyRequest_Label : string;
  createAPIKeyRequest_DeviceID : option UUID;
  createAPIKeyRequest_ExpiresIn : Z }.

Record createBlacklistRequest := mkCreateBlacklistRequest {
  createBlacklistRequest_Pattern : string;
  createBlacklistRequest_PatternType : string;
  createBlacklistRequest_Description : string;
  createBlacklistRequest_Methods : list string }.

Record setBlockedMethodsRequest := mkSetBlockedMethodsRequest {
  setBlockedMethodsRequest_Methods : list string }.

Record createLinkRequest := mkCreateLinkRequest {
  createLinkRequest_OriginalSessionID : UUID;
  createLinkRequest_Label : string;
  createLinkRequest_TTLSeconds : Z;
  createLinkRequest_PolicyIDs : list UUID;
  createLinkRequest_EndpointIDs : list UUID }.

Record terminateLinkRequest := mkTerminateLinkRequest { terminateLinkRequest_Notes : string }.

Record createTargetSiteRequest := mkCreateTargetSiteRequest {
  createTargetSiteRequest_BaseDomain : string;
  createTargetSiteRequest_Name : string;
  createTargetSiteRequest_BaseURL : string }.

Record createPolicyRequest := mkCreatePolicyRequest {
  createPolicyRequest_Name : string;
  createPolicyRequest_MaxRequests : option Z;
  createPolicyRequest_MaxBytesTransferred : option Z;
  createPolicyRequest_MaxTTLSeconds : option Z;
  createPolicyRequest_MaxViolationCount : option Z }.

Record importCookieRequest := mkImportCookieRequest {
  importCookieRequest_Name : string;
  importCookieRequest_Value : string;
  importCookieRequest_Domain : string;
  importCookieRequest_Path : string;
  importCookieRequest_Secure : bool;
  importCookieRequest_HTTPOnly : bool;
  importCookieRequest_SameSite : string }.

Record importTokenRequest := mkImportTokenRequest {
  importTokenRequest_TokenType : string;
  importTokenRequest_HeaderName : string;
  importTokenRequest_Value : string }.

Record importSessionRequest := mkImportSessionRequest {
  importSessionRequest_BaseDomain : string;
  importSessionRequest_SiteName : string;
  importSessionRequest_BaseURL : string;
  importSessionRequest_Cookies : list importCookieRequest;
  importSessionRequest_Tokens : list importTokenRequest }.

(** [decodeJSON]: whether decoding succeeded, and the value it left, the zero
    value where the body sets nothing. *)
Class JSONDecoder := {
  decode_register : string → bool * registerRequest;
  decode_login : string → bool * loginRequest;
  decode_createDevice : string → bool * createDeviceRequest;
  decode_createAPIKey : string → bool * createAPIKeyRequest;
  decode_createBlacklist : string → bool * createBlacklistRequest;
  decode_setBlockedMethods : string → bool * setBlockedMethodsRequest;
  decode_createLink : string → bool * createLinkRequest;
  decode_terminateLink : string → bool * terminateLinkRequest;
  decode_createTargetSite : string → bool * createTargetSiteRequest;
  decode_createPolicy : string → bool * createPolicyRequest;
  decode_importSession : string → bool * importSessionRequest }.

(** ** The table of routes *)

Inductive public_endpoint : Type :=
| Register | Login | ListTargetSites | ListRevocationReasons.

(** Behind RequireAuth; the arguments are the texts of the parameters. *)
Inductive owner_endpoint : Type :=
| Me | CreateTargetSite
| ListDevices | CreateDevice | DeleteDevice (deviceID : string)
| ListAPIKeys | CreateAPIKey | RevokeAPIKey (keyID : string)
| ListSessions | ImportSession | GetSession (sessionID : string)
| ListPolicies | CreatePolicy | DeletePolicy (policyID : string)
| ListBlacklist | CreateBlacklistEndpoint | DeleteBlacklistEndpoint (endpointID : string)
| SetBlockedMethods (endpointID : string) | AttachBlacklistToSite (endpointID siteID : string)
| ListGuests
| ListLinks (status : string) | CreateLink.

(** Behind RequireAuth and RequireLinkOwnership. *)
Inductive link_endpoint : Type :=
| GetLink | TerminateLink | GetLinkStats | GetLinkLogs | GetLinkGuestSessions
| GetLinkSecurityEvents | GetLinkTermination | AttachEndpointToLink (endpointID : string).

Inductive endpoint : Type :=
| Public (e : public_endpoint)
| Owner (e : owner_endpoint)
| OnLink (linkID : string) (e : link_endpoint).

(** The services of the server; the repositories are the interfaces. *)
Record Server := mkServer {
  Server_Auth : AuthService;
  Server_Cipher : Cipher }.

Section handlers.
Context {PL : Platform} `{Bcrypt} `{SHA256} `{JWT} `{AEAD} `{JSONDecoder}.
Context `{!UserRepository} `{!DeviceRepository} `{!APIKeyRepository} `{!TargetSiteRepository}
  `{!OriginalSessionRepository} `{!SessionCookieRepository} `{!SessionTokenRepository}
  `{!SharedLinkRepository} `{!AccessPolicyRepository} `{!BlacklistRepository} `{!GuestRepository}
  `{!GuestSessionRepository} `{!ProxyAccessLogRepository} `{!LinkTerminationRepository}
  `{!SecurityEventRepository} `{!StatsRepository}.

(** ** helpers.go *)

Definition writeJSON (status : Z) (v : json_value) : Reply := reply status (Json v).
Definition writeError (status : Z) (message : string) : Reply :=
  writeJSON status (JMap [("error", JString message)]).
Definition internalError : Reply := writeError StatusInternalServerError "internal error".
Definition noContent : Reply := reply StatusNoContent Empty.

(** A result written with its status, or an internal error. *)
Definition written {A} (status : Z) (json : A → json_value) (m : M A) : P Reply :=
  let* r := m in
  Ret (match r with inl _ => internalError | inr a => writeJSON status (json a) end).
Definition done_or_internal (m : M unit) : P Reply :=
  let* r := m in Ret (match r with inl _ => internalError | inr _ => noContent end).

(** [if s != "" { x = &s }] *)
Definition ptr_unless_empty (s : string) : option string :=
  if decide (s = EmptyString) then None else Some s.

(** [err.Error()] of the sentinels that reach a guest of the API. *)
Fixpoint Error_text (e : go_error) : string :=
  match e with
  | ErrNew msg => msg
  | Wrap msg e' => msg +:+ ": " +:+ Error_text e'
  | ErrSQL _ | ErrRedisNil | ErrRedis | ErrRand => EmptyString
  end.

(** ** handlers_auth.go *)

Definition handleRegister (r : Request) : P Reply :=
  let '(ok, req) := decode_register (Request_Body r) in
  if negb ok || bool_decide (registerRequest_Email req = EmptyString)
     || bool_decide (registerRequest_Password req = EmptyString)
  then Ret (writeError StatusBadRequest "email and password are required")
  else
    let* u := AuthService_Register (registerRequest_Email req) (registerRequest_Password req)
                (registerRequest_DisplayName req) in
    Ret (match u with
         | inl err =>
             if errors_Is err ErrEmailTaken then writeError StatusConflict (Error_text err)
             else internalError
         | inr user => writeJSON StatusCreated
             (JMap [("id", JUUID (User_ID user)); ("email", JString (User_Email user))])
         end).

Definition handleLogin (s : Server) (r : Request) : P Reply :=
  let '(ok, req) := decode_login (Request_Body r) in
  if negb ok then Ret (writeError StatusBadRequest "invalid request body")
  else
    let* l := AuthService_Login (Server_Auth s) (loginRequest_Email req) (loginRequest_Password req) in
    Ret (match l with
         | inl _ => writeError StatusUnauthorized "invalid email or password"
         | inr (token, user) => writeJSON StatusOK
             (JMap [("token", JString token); ("user_id", JUUID (User_ID user))])
         end).

Definition handleMe (userID : UUID) : P Reply :=
  let* u := Users_GetByID userID in
  Ret (match u with
       | inl _ => writeError StatusNotFound "user not found"
       | inr user => writeJSON StatusOK
           (JMap [("id", JUUID (User_ID user)); ("email", JString (User_Email user));
                  ("display_name", JOptString (User_DisplayName user))])
       end).

Definition handleCreateDevice (userID : UUID) (r : Request) : P Reply :=
  let '(ok, req) := decode_createDevice (Request_Body r) in
  if negb ok then Ret (writeError StatusBadRequest "invalid request body")
  else
    written StatusCreated JDevice
      (Devices_Create (mkDevice uuid_Nil userID (ptr_unless_empty (createDeviceRequest_Name req))
                         (ptr_unless_empty (createDeviceRequest_Fingerprint req)) None 0)).

Definition handleListDevices (userID : UUID) : P Reply :=
  written StatusOK JDevices (Devices_ListByUser userID).

Definition handleDeleteDevice (deviceID : string) : P Reply :=
  match uuid_Parse deviceID with
  | None => Ret (writeError StatusBadRequest "invalid device id")
  | Some id => done_or_internal (Devices_Delete id)
  end.

(** [time.Now().Add(time.Duration(n) * time.Second)]: the product wraps. *)
Definition expires_in (n : Z) : P (option GoTime) :=
  if (0 <? n)%Z
  then (let* now := time_Now in Ret (Some (now + (n *64 1000000000))%Z))
  else Ret None.

Definition handleCreateAPIKey (userID : UUID) (r : Request) : P Reply :=
  let '(ok, req) := decode_createAPIKey (Request_Body r) in
  if negb ok then Ret (writeError StatusBadRequest "invalid request body")
  else
    let* expiresAt := expires_in (createAPIKeyRequest_ExpiresIn req) in
    written StatusCreated
      (λ kr : string * APIKey, JMap [("id", JUUID (APIKey_ID kr.2)); ("raw_key", JString kr.1);
                                     ("label", JOptString (APIKey_Label kr.2))])
      (AuthService_CreateAPIKey userID (createAPIKeyRequest_Label req)
         (createAPIKeyRequest_DeviceID req) expiresAt).

Definition handleListAPIKeys (userID : UUID) : P Reply :=
  written StatusOK JAPIKeys (APIKeys_ListByUser userID).

Definition handleRevokeAPIKey (keyID : string) : P Reply :=
  match uuid_Parse keyID with
  | None => Ret (writeError StatusBadRequest "invalid api key id")
  | Some id => done_or_internal (APIKeys_Revoke id)
  end.

(** ** handlers_sessions.go *)

Definition cookie_input (c : importCookieRequest) : CookieInput :=
  mkCookieInput (importCookieRequest_Name c) (importCookieRequest_Value c) (importCookieRequest_Domain c)
    (importCookieRequest_Path c) (importCookieRequest_Secure c) (importCookieRequest_HTTPOnly c)
    (importCookieRequest_SameSite c).

Definition token_input (t : importTokenRequest) : TokenInput :=
  mkTokenInput (importTokenRequest_TokenType t) (importTokenRequest_HeaderName t) (importTokenRequest_Value t).

Definition handleImportSession (s : Server) (userID : UUID) (r : Request) : P Reply :=
  let '(ok, req) := decode_importSession (Request_Body r) in
  if negb ok || bool_decide (importSessionRequest_BaseDomain req = EmptyString)
     || bool_decide (importSessionRequest_BaseURL req = EmptyString)
  then Ret (writeError StatusBadRequest "base_domain and base_url are required")
  else
    let siteName := if decide (importSessionRequest_SiteName req = EmptyString)
                    then importSessionRequest_BaseDomain req else importSessionRequest_SiteName req in
    written StatusCreated JSession
      (SessionImportService_Import (Server_Cipher s) userID (importSessionRequest_BaseDomain req) siteName
         (importSessionRequest_BaseURL req) (cookie_input <$> importSessionRequest_Cookies req)
         (token_input <$> importSessionRequest_Tokens req)).

Definition handleListSessions (userID : UUID) : P Reply :=
  written StatusOK JSessions (OriginalSessions_ListByUser userID).

Definition handleGetSession (sessionID : string) (userID : UUID) : P Reply :=
  match uuid_Parse sessionID with
  | None => Ret (writeError StatusBadRequest "invalid session id")
  | Some id =>
      let* s := OriginalSessions_GetByID id in
      Ret (match s with
           | inl _ => writeError StatusNotFound "session not found"
           | inr session =>
               if decide (OriginalSession_UserID session ≠ userID)
               then writeError StatusNotFound "session not found"
               else writeJSON StatusOK (JSession session)
           end)
  end.

(** ** handlers_policies.go *)

Definition handleCreatePolicy (userID : UUID) (r : Request) : P Reply :=
  let '(ok, req) := decode_createPolicy (Request_Body r) in
  if negb ok || bool_decide (createPolicyRequest_Name req = EmptyString)
  then Ret (writeError StatusBadRequest "name is required")
  else
    written StatusCreated JPolicy
      (AccessPolicies_Create (mkAccessPolicy uuid_Nil userID (createPolicyRequest_Name req)
         (createPolicyRequest_MaxRequests req) (createPolicyRequest_MaxBytesTransferred req)
         (createPolicyRequest_MaxTTLSeconds req) (createPolicyRequest_MaxViolationCount req) 0)).

Definition handleListPolicies (userID : UUID) : P Reply :=
  written StatusOK JPolicies (AccessPolicies_ListByUser userID).

Definition handleDeletePolicy (policyID : string) (userID : UUID) : P Reply :=
  match uuid_Parse policyID with
  | None => Ret (writeError StatusBadRequest "invalid policy id")
  | Some id =>
      let* p := AccessPolicies_GetByID id in
      match p with
      | inl _ => Ret (writeError StatusNotFound "policy not found")
      | inr existing =>
          if decide (AccessPolicy_UserID existing ≠ userID)
          then Ret (writeError StatusNotFound "policy not found")
          else done_or_internal (AccessPolicies_Delete id)
      end
  end.

(** ** handlers_blacklist.go *)

Definition handleCreateBlacklistEndpoint (userID : UUID) (r : Request) : P Reply :=
  let '(ok, req) := decode_createBlacklist (Request_Body r) in
  let ptype := createBlacklistRequest_PatternType req in
  if negb ok || bool_decide (createBlacklistRequest_Pattern req = EmptyString)
  then Ret (writeError StatusBadRequest "pattern is required")
  else if negb (bool_decide (ptype = EmptyString)) && negb (bool_decide (ptype = PatternTypePrefix))
          && negb (bool_decide (ptype = PatternTypeRegex))
  then Ret (writeError StatusBadRequest "pattern_type must be 'prefix' or 'regex'")
  else
    let* c := Blacklist_Create (mkBlacklistedEndpoint uuid_Nil userID (createBlacklistRequest_Pattern req)
                ptype (ptr_unless_empty (createBlacklistRequest_Description req)) 0 []) in
    match c with
    | inl _ => Ret internalError
    | inr created =>
        let methods := createBlacklistRequest_Methods req in
        if decide (methods = []) then Ret (writeJSON StatusCreated (JEndpoint created))
        else
          written StatusCreated (λ _, JEndpoint (with_methods created methods))
            (Blacklist_SetBlockedMethods (BlacklistedEndpoint_ID created) methods)
    end.

Definition handleListBlacklist (userID : UUID) : P Reply :=
  written StatusOK JEndpoints (Blacklist_ListByUser userID).

(** The reply it wrote, or the endpoint. *)
Definition ownedBlacklistEndpoint (endpointID : string) (userID : UUID) : P (Reply + BlacklistedEndpoint) :=
  match uuid_Parse endpointID with
  | None => Ret (inl (writeError StatusBadRequest "invalid endpoint id"))
  | Some id =>
      let* e := Blacklist_GetByID id in
      Ret (match e with
           | inl _ => inl (writeError StatusNotFound "blacklist endpoint not found")
           | inr existing =>
               if decide (BlacklistedEndpoint_UserID existing ≠ userID)
               then inl (writeError StatusNotFound "blacklist endpoint not found")
               else inr existing
           end)
  end.

Definition handleDeleteBlacklistEndpoint (endpointID : string) (userID : UUID) : P Reply :=
  let* e := ownedBlacklistEndpoint endpointID userID in
  match e with
  | inl rep => Ret rep
  | inr existing => done_or_internal (Blacklist_Delete (BlacklistedEndpoint_ID existing))
  end.

Definition handleSetBlockedMethods (endpointID : string) (userID : UUID) (r : Request) : P Reply :=
  let* e := ownedBlacklistEndpoint endpointID userID in
  match e with
  | inl rep => Ret rep
  | inr existing =>
      let '(ok, req) := decode_setBlockedMethods (Request_Body r) in
      if negb ok then Ret (writeError StatusBadRequest "invalid request body")
      else done_or_internal (Blacklist_SetBlockedMethods (BlacklistedEndpoint_ID existing)
                               (setBlockedMethodsRequest_Methods req))
  end.

Definition handleAttachBlacklistToSite (endpointID siteID : string) (userID : UUID) : P Reply :=
  let* e := ownedBlacklistEndpoint endpointID userID in
  match e with
  | inl rep => Ret rep
  | inr existing =>
      match uuid_Parse siteID with
      | None => Ret (writeError StatusBadRequest "invalid site id")
      | Some id => done_or_internal (Blacklist_AttachToSite id (BlacklistedEndpoint_ID existing))
      end
  end.

(** ** handlers_misc.go *)

Definition handleListTargetSites : P Reply := written StatusOK JSites TargetSites_List.

Definition handleCreateTargetSite (r : Request) : P Reply :=
  let '(ok, req) := decode_createTargetSite (Request_Body r) in
  if negb ok || bool_decide (createTargetSiteRequest_BaseDomain req = EmptyString)
     || bool_decide (createTargetSiteRequest_Name req = EmptyString)
     || bool_decide (createTargetSiteRequest_BaseURL req = EmptyString)
  then Ret (writeError StatusBadRequest "base_domain, name and base_url are required")
  else
    written StatusCreated JSite
      (TargetSites_GetOrCreateByDomain (createTargetSiteRequest_BaseDomain req)
         (createTargetSiteRequest_Name req) (createTargetSiteRequest_BaseURL req)).

Definition handleListRevocationReasons : P Reply :=
  written StatusOK JReasons LinkTerminations_ListReasons.

Definition handleListGuests : P Reply := written StatusOK JGuests (Guests_List 200 0).

(** ** handlers_links.go *)

(** [time.Duration(req.TTLSeconds) * time.Second], which wraps. *)
Definition link_input (req : createLinkRequest) : CreateLinkInput :=
  mkCreateLinkInput (createLinkRequest_OriginalSessionID req) (createLinkRequest_Label req)
    (if (0 <? createLinkRequest_TTLSeconds req)%Z
     then createLinkRequest_TTLSeconds req *64 1000000000 else 0)
    (createLinkRequest_PolicyIDs req) (createLinkRequest_EndpointIDs req).

Definition handleCreateLink (userID : UUID) (r : Request) : P Reply :=
  let '(ok, req) := decode_createLink (Request_Body r) in
  if negb ok || bool_decide (createLinkRequest_OriginalSessionID req = uuid_Nil)
  then Ret (writeError StatusBadRequest "original_session_id is required")
  else
    let* res := LinkService_CreateLink userID (link_input req) in
    Ret (match res with
         | (link, None) => writeJSON StatusCreated (JLink link)
         | (_, Some err) =>
             if errors_Is err ErrSessionNotOwned then writeError StatusNotFound "session not found"
             else if errors_Is err ErrSessionNotActive then writeError StatusConflict (Error_text err)
             else internalError
         end).

Definition handleListLinks (status : string) (userID : UUID) : P Reply :=
  written StatusOK JLinks (SharedLinks_ListByUser userID status).

Definition handleGetLink (id : UUID) : P Reply :=
  let* l := SharedLinks_GetByID id in
  Ret (match l with
       | inl _ => writeError StatusNotFound "link not found"
       | inr link => writeJSON StatusOK (JLink link)
       end).

(** The body is optional: a decoding error is ignored. *)
Definition handleTerminateLink (id userID : UUID) (r : Request) : P Reply :=
  let '(_, req) := decode_terminateLink (Request_Body r) in
  let* t := LinkService_TerminateLink userID id (terminateLinkRequest_Notes req) in
  Ret (match t with
       | inl err =>
           if errors_Is err ErrLinkAlreadyTerminated then writeError StatusConflict (Error_text err)
           else internalError
       | inr _ => noContent
       end).

Definition no_stats : json_value :=
  JMap [("message", JString "no data yet - mv_link_stats has not been refreshed since this link had traffic")].

Definition handleGetLinkStats (id : UUID) : P Reply :=
  written StatusOK (λ s, match s with Some s => JStats s | None => no_stats end) (Stats_GetLinkStats id).

Definition handleGetLinkLogs (id : UUID) : P Reply :=
  written StatusOK JLogs (ProxyAccessLogs_ListByLink id 100).

Definition handleGetLinkGuestSessions (id : UUID) : P Reply :=
  written StatusOK JGuestSessions (GuestSessions_ListByLink id).

Definition handleGetLinkSecurityEvents (id : UUID) : P Reply :=
  written StatusOK JEvents (SecurityEvents_ListByLink id 100).

Definition handleGetLinkTermination (id : UUID) : P Reply :=
  let* t := LinkTerminations_GetByLink id in
  Ret (match t with
       | inl _ => internalError
       | inr None => writeError StatusNotFound "link has not been terminated"
       | inr (Some term) => writeJSON StatusOK (JTermination term)
       end).

Definition handleAttachEndpointToLink (linkID : UUID) (endpointID : string) : P Reply :=
  match uuid_Parse endpointID with
  | None => Ret (writeError StatusBadRequest "invalid endpoint id")
  | Some id => done_or_internal (Blacklist_AttachToLink linkID id)
  end.

(** ** server.go *)

Definition serve_public (s : Server) (e : public_endpoint) (r : Request) : P Reply :=
  match e with
  | Register => handleRegister r
  | Login => handleLogin s r
  | ListTargetSites => handleListTargetSites
  | ListRevocationReasons => handleListRevocationReasons
  end.

Definition serve_owner (s : Server) (e : owner_endpoint) (userID : UUID) (r : Request) : P Reply :=
  match e with
  | Me => handleMe userID
  | CreateTargetSite => handleCreateTargetSite r
  | ListDevices => handleListDevices userID
  | CreateDevice => handleCreateDevice userID r
  | DeleteDevice id => handleDeleteDevice id
  | ListAPIKeys => handleListAPIKeys userID
  | CreateAPIKey => handleCreateAPIKey userID r
  | RevokeAPIKey id => handleRevokeAPIKey id
  | ListSessions => handleListSessions userID
  | ImportSession => handleImportSession s userID r
  | GetSession id => handleGetSession id userID
  | ListPolicies => handleListPolicies userID
  | CreatePolicy => handleCreatePolicy userID r
  | DeletePolicy id => handleDeletePolicy id userID
  | ListBlacklist => handleListBlacklist userID
  | CreateBlacklistEndpoint => handleCreateBlacklistEndpoint userID r
  | DeleteBlacklistEndpoint id => handleDeleteBlacklistEndpoint id userID
  | SetBlockedMethods id => handleSetBlockedMethods id userID r
  | AttachBlacklistToSite id site => handleAttachBlacklistToSite id site userID
  | ListGuests => handleListGuests
  | ListLinks status => handleListLinks status userID
  | CreateLink => handleCreateLink userID r
  end.

Definition serve_link (e : link_endpoint) (linkID userID : UUID) (r : Request) : P Reply :=
  match e with
  | GetLink => handleGetLink linkID
  | TerminateLink => handleTerminateLink linkID userID r
  | GetLinkStats => handleGetLinkStats linkID
  | GetLinkLogs => handleGetLinkLogs linkID
  | GetLinkGuestSessions => handleGetLinkGuestSessions linkID
  | GetLinkSecurityEvents => handleGetLinkSecurityEvents linkID
  | GetLinkTermination => handleGetLinkTermination linkID
  | AttachEndpointToLink id => handleAttachEndpointToLink linkID id
  end.

(** Each row of the table with the middlewares of its group. *)
Definition Server_Routes (s : Server) (e : endpoint) (r : Request) : P Reply :=
  let auth := AuthService_Authenticator (Server_Auth s) in
  match e with
  | Public e => serve_public s e r
  | Owner e => RequireAuth auth (serve_owner s e) r
  | OnLink linkID e => RequireAuth auth (RequireLinkOwnership linkID (serve_link e)) r
  end.

End handlers.

(** ** Lemmas *)

(** The seconds that a [time.Duration] can hold. *)
Definition max_seconds : Z := 9223372036.

Lemma seconds_exact n : (0 <= n <= max_seconds)%Z → (n *64 1000000000)%Z = (n * 1000000000)%Z.
Proof. unfold max_seconds. intros. apply wrap64_id. unfold in_int64, two63. lia. Qed.

Lemma seconds_short n : (max_seconds < n)%Z → (n *64 1000000000 < n * 1000000000)%Z.
Proof.
  unfold max_seconds. intros. destruct (wrap64_range (n * 1000000000)) as [_ Hr]. unfold two63 in Hr. lia.
Qed.

(** ** Properties *)

(** C37: the expiry of a link, over the whole range of [ttl_seconds].  A link
    that was created has no expiry if the TTL is zero or negative; up to 292
    years it expires that many seconds after the creation; beyond, the
    multiplication of the duration wraps, and the link expires too early or
    never, never at the requested time. *)
Theorem handleCreateLink_expiry {PL : Platform} `{JSONDecoder} u r req w w' rep
  (Hdecode : decode_createLink (Request_Body r) = (true, req))
  (Hrun : run (handleCreateLink u r) w = (w', rep)) (Hok : Reply_status rep = StatusCreated) :
  let n := createLinkRequest_TTLSeconds req in
  let requested := (env_now (S (S (w_tick w))) + n * 1000000000)%Z in
  ∃ link, Reply_body rep = Json (JLink link) ∧
    if (n <=? 0)%Z then SharedLink_ExpiresAt link = None
    else if (n <=? max_seconds)%Z then SharedLink_ExpiresAt link = Some (timestamptz requested)
    else ∀ t, SharedLink_ExpiresAt link = Some t → (t < requested)%Z.
Proof.
  unfold handleCreateLink in Hrun. rewrite Hdecode in Hrun.
  case_match; [simplify_eq/=; by destruct (run _ _)|]. rewrite run_pbind in Hrun.
  destruct (run (LinkService_CreateLink u (link_input req)) w) as [w1 [link [err|]]] eqn:Hc.
  { cbn [fst snd run] in Hrun. repeat case_match; by simplify_eq. }
  cbn [fst snd run] in Hrun. simplify_eq. exists link. split; [done|].
  apply run_CreateLink_row in Hc as (_ & raw & expiry & id & now & _ & _ & He & ->).
  unfold link_input in He. cbn [CreateLinkInput_TTL link_row SharedLink_ExpiresAt] in *.
  set (n := createLinkRequest_TTLSeconds req) in *.
  destruct (Z.leb_spec n 0) as [Hn|Hn].
  { rewrite (proj2 (Z.ltb_ge 0 n)) in He by lia. destruct expiry; [by destruct He; lia|done]. }
  rewrite (proj2 (Z.ltb_lt 0 n)) in He by done. destruct (Z.leb_spec n max_seconds).
  - rewrite seconds_exact in He by lia. destruct expiry as [t|]; simpl in *; [by destruct He as [_ ->]|lia].
  - destruct expiry as [t|]; simpl in *; [|done]. intros ? [= <-]. destruct He as [_ ->].
    pose proof (seconds_short n). pose proof (timestamptz_le (env_now (S (S (w_tick w))) + n *64 1000000000)). lia.
Qed.

(** ** Witnesses *)

(** The decoder of a client that always sends the same bodies. *)
Definition demo_json_ttl (ttl : Z) : JSONDecoder := {|
  decode_register _ := (true, mkRegisterRequest "owner@example.org" "hunter2" "Owner");
  decode_login _ := (true, mkLoginRequest "owner@example.org" "hunter2");
  decode_createDevice _ := (true, mkCreateDeviceRequest "laptop" "");
  decode_createAPIKey _ := (true, mkCreateAPIKeyRequest "ci" None 3600);
  decode_createBlacklist _ := (true, mkCreateBlacklistRequest "/admin" "prefix" "" ["DELETE"]);
  decode_setBlockedMethods _ := (true, mkSetBlockedMethodsRequest ["POST"]);
  decode_createLink _ := (true, mkCreateLinkRequest 2 "guest" ttl [7%N] []);
  decode_terminateLink _ := (false, mkTerminateLinkRequest "");
  decode_createTargetSite _ := (true, mkCreateTargetSiteRequest "example.net" "Net" "https://example.net");
  decode_createPolicy _ := (true, mkCreatePolicyRequest "tight" (Some 5%Z) None None None);
  decode_importSession _ := (true, mkImportSessionRequest "example.net" "" "https://example.net"
    [mkImportCookieRequest "sid" "v1" "" "" true true ""] []) |}.

Definition demo_json : JSONDecoder := demo_json_ttl 60.

Definition demo_server : Server := mkServer demo_auth (mkCipher demo_key).

(** Users 1 and 9 with a key each; session 2, link 5 and policy 7 are of user 1,
    rule 8 is of user 9. *)
Definition demo_api_key (id u : UUID) (raw : string) : APIKey :=
  mkAPIKey id u None (@hashAPIKey demo_sha256 raw) None None None 0.

Definition demo_api_db : DB :=
  set_api_keys (λ _, {[ 21%N := demo_api_key 21 1 "spk_one"; 29%N := demo_api_key 29 9 "spk_nine" ]})
  (set_blacklisted_endpoints (λ _, {[ 8%N := mkBlacklistedEndpoint 8 9 "/pay" PatternTypePrefix None 0 [] ]})
     demo_db).

Definition demo_call (bearer : string) : Request :=
  mkRequest "POST" (mkURL "https" "api.example.org" "/" "") {[ "Authorization" := ["Bearer " +:+ bearer] ]}
    "api.example.org" "198.51.100.7:4000" "{}".

(** What [bearer] gets for [e]. *)
Definition demo_serve (e : endpoint) (bearer : string) : World (PL := demo) * Reply :=
  run (@Server_Routes demo demo_bcrypt demo_sha256 demo_jwt demo_aead demo_json _ _ _ _ _ _ _ _ _ _ _ _ _ _ _ _
         demo_server e (demo_call bearer)) (demo_world demo_api_db).

Definition demo_uuid (u : UUID) : string := demo_uuid_String u.

Definition demo_create_link (ttl : Z) : World (PL := demo) * Reply :=
  run (@handleCreateLink demo (demo_json_ttl ttl) _ _ _ _ 1%N (demo_call "spk_one")) (demo_world demo_api_db).

Definition demo_expiry (ttl : Z) : option (option GoTime) :=
  match Reply_body (demo_create_link ttl).2 with
  | Json (JLink l) => Some (SharedLink_ExpiresAt l)
  | _ => None
  end.

Lemma demo_create_link_status : Reply_status (demo_create_link 60).2 = 201%Z.
Proof. vm_compute. reflexivity. Qed.

Lemma handleCreateLink_expiry_witness :
  demo_expiry 60 = Some (Some 62000000000%Z).
Proof.
  destruct (@handleCreateLink_expiry demo (demo_json_ttl 60) 1%N (demo_call "spk_one")
    (mkCreateLinkRequest 2 "guest" 60 [7%N] []) (demo_world demo_api_db) (demo_create_link 60).1 (demo_create_link 60).2)
    as (link & Hl & Ht).
  - reflexivity.
  - apply surjective_pairing.
  - exact demo_create_link_status.
  - unfold demo_expiry. rewrite Hl. exact (f_equal Some Ht).
Defined.

(** 292 years and one second: the link never expires. *)
Lemma ttl_overflow : demo_expiry (max_seconds + 1) = Some None.
Proof. vm_compute. reflexivity. Qed.
