(* ===== verification/Bodies.v ===== *)
(** * internal/transport/http: the bodies of requests

    [decodeJSON] (helpers.go) for the request types of handlers_*.go, as
    encoding/json decodes a value into a struct: fields found by their tags
    without regard to case, null, type mismatches that are reported at the end,
    a failing UnmarshalText that stops at once, and slices whose elements are
    reused.  [encoding_json] is the decoder of the control plane; what a client
    writes as JSON is what the handler gets ([body_decoded]). *)

From Stdlib Require Import Ascii.
From Stdlib Require String.
From S2P Require Import Prelude GoStrings Domain Http Json Schema Platform Effects Interfaces RepoLinks RepoUsers RepoSessions RepoGuests RepoLogs Links Crypto Import Auth Middleware Rest.

Open Scope go_scope.

(** ** Definitions *)

(** [Mismatch]: an UnmarshalTypeError, saved while decoding goes on; [Aborted]:
    the error of UnmarshalText, which ends it. *)
Inductive verdict := Fine | Mismatch | Aborted.

#[export] Instance verdict_eq_dec : EqDecision verdict.
Proof. solve_decision. Defined.

(** The verdict on a sequence of parts. *)
Fixpoint verdicts (l : list verdict) : verdict :=
  match l with
  | [] => Fine
  | Aborted :: _ => Aborted
  | Mismatch :: l' => match verdicts l' with Aborted => Aborted | _ => Mismatch end
  | Fine :: l' => verdicts l'
  end.

(** How a value is decoded into a variable that holds an old value. *)
Record typ (S : Type) := mkTyp { check : json → verdict; set : json → S → S }.
Arguments mkTyp {S} _ _.
Arguments check {S} _ _.
Arguments set {S} _ _ _.

Definition string_typ : typ string := mkTyp
  (λ v, match v with JsStr _ | JsNull => Fine | _ => Mismatch end)
  (λ v old, match v with JsStr s => s | _ => old end).

Definition bool_typ : typ bool := mkTyp
  (λ v, match v with JsBool _ | JsNull => Fine | _ => Mismatch end)
  (λ v old, match v with JsBool b => b | _ => old end).

(** [strconv.ParseInt] of the literal, in 64 bits. *)
Definition int64_typ : typ Z := mkTyp
  (λ v, match v with JsNum lit => if Atoi (of_bytes lit) then Fine else Mismatch | JsNull => Fine | _ => Mismatch end)
  (λ v old, match v with JsNum lit => default old (Atoi (of_bytes lit)) | _ => old end).

(** [UUID.UnmarshalText] *)
Definition uuid_typ {PL : Platform} : typ UUID := mkTyp
  (λ v, match v with JsStr s => if uuid_Parse s then Fine else Aborted | JsNull => Fine | _ => Mismatch end)
  (λ v old, match v with JsStr s => default old (uuid_Parse s) | _ => old end).

(** A pointer: null sets it to nil, anything else is decoded into what it points
    to, allocated if there is nothing. *)
Definition pointer_typ {S} (t : typ S) (zero : S) : typ (option S) := mkTyp
  (λ v, match v with JsNull => Fine | _ => check t v end)
  (λ v old, match v with JsNull => None | _ => Some (set t v (default zero old)) end).

(** A slice: the elements that its array ever held, and its length. *)
Record slice (S : Type) := mkSlice { backing : list S; len : nat }.
Arguments mkSlice {S} _ _.
Arguments backing {S} _.
Arguments len {S} _.

Definition elements {S} (s : slice S) : list S := take (len s) (backing s).
Definition nil_slice {S} : slice S := mkSlice [] 0.

(** Element [i] decoded into what the array holds there. *)
Definition set_element {S} (t : typ S) (zero : S) (v : json) (i : nat) (old : list S) : list S :=
  take i old ++ set t v (default zero (old !! i)) :: drop (i + 1) old.

Fixpoint set_elements {S} (t : typ S) (zero : S) (vs : list json) (i : nat) (s : slice S) : slice S :=
  match vs with
  | [] => mkSlice (backing s) i
  | v :: vs' =>
      let s' := mkSlice (set_element t zero v i (backing s)) (Nat.max (len s) (i + 1)) in
      if decide (check t v = Aborted) then s' else set_elements t zero vs' (i + 1) s'
  end.

Definition slice_typ {S} (t : typ S) (zero : S) : typ (slice S) := mkTyp
  (λ v, match v with JsNull => Fine | JsArr vs => verdicts (check t <$> vs) | _ => Mismatch end)
  (λ v old, match v with JsNull | JsArr [] => nil_slice | JsArr vs => set_elements t zero vs 0 old | _ => old end).

(** The fields of a struct: their names, and how their values are checked. *)
Definition struct_fields := list (string * (json → verdict)).

Definition check_member (fields : struct_fields) (m : string * json) : verdict :=
  match find_first (λ f, EqualFold m.1 f.1) fields with Some f => f.2 m.2 | None => Fine end.

Definition check_struct (fields : struct_fields) (v : json) : verdict :=
  match v with JsNull => Fine | JsObj ms => verdicts (check_member fields <$> ms) | _ => Mismatch end.

(** The members that are decoded: all, or up to the one that aborts. *)
Fixpoint decoded_members (fields : struct_fields) (ms : list (string * json)) : list (string * json) :=
  match ms with
  | [] => []
  | m :: ms' => m :: if decide (check_member fields m = Aborted) then [] else decoded_members fields ms'
  end.

Definition members (fields : struct_fields) (v : json) : list (string * json) :=
  match v with JsObj ms => decoded_members fields ms | _ => [] end.

(** The field of a name after the members that name it, in their order. *)
Definition field {S} (t : typ S) (name : string) (ms : list (string * json)) (old : S) : S :=
  foldl (λ s m, if EqualFold m.1 name then set t m.2 s else s) old ms.

(** [json.NewDecoder(r.Body).Decode(v)] into a fresh struct. *)
Definition decode {T} (fields : struct_fields) (build : list (string * json) → T) (body : string) : bool * T :=
  match read_json body with
  | None => (false, build [])
  | Some v => (bool_decide (check_struct fields v = Fine), build (members fields v))
  end.

(** *** The request types *)

Section requests.
Context {PL : Platform}.
Local Abbreviation str := string_typ.
Local Abbreviation int := int64_typ.
Local Abbreviation opt_int := (pointer_typ int64_typ 0%Z).
Local Abbreviation opt_uuid := (pointer_typ uuid_typ uuid_Nil).
Local Abbreviation strs := (slice_typ string_typ EmptyString).
Local Abbreviation uuids := (slice_typ uuid_typ uuid_Nil).

Definition registerRequest_fields : struct_fields :=
  [("email", check str); ("password", check str); ("display_name", check str)].
Definition build_registerRequest (ms : list (string * json)) : registerRequest :=
  mkRegisterRequest (field str "email" ms EmptyString) (field str "password" ms EmptyString)
    (field str "display_name" ms EmptyString).

Definition loginRequest_fields : struct_fields := [("email", check str); ("password", check str)].
Definition build_loginRequest (ms : list (string * json)) : loginRequest :=
  mkLoginRequest (field str "email" ms EmptyString) (field str "password" ms EmptyString).

Definition createDeviceRequest_fields : struct_fields := [("name", check str); ("fingerprint", check str)].
Definition build_createDeviceRequest (ms : list (string * json)) : createDeviceRequest :=
  mkCreateDeviceRequest (field str "name" ms EmptyString) (field str "fingerprint" ms EmptyString).

Definition createAPIKeyRequest_fields : struct_fields :=
  [("label", check str); ("device_id", check opt_uuid); ("expires_in_seconds", check int)].
Definition build_createAPIKeyRequest (ms : list (string * json)) : createAPIKeyRequest :=
  mkCreateAPIKeyRequest (field str "label" ms EmptyString) (field opt_uuid "device_id" ms None)
    (field int "expires_in_seconds" ms 0%Z).

Definition createBlacklistRequest_fields : struct_fields :=
  [("pattern", check str); ("pattern_type", check str); ("description", check str); ("methods", check strs)].
Definition build_createBlacklistRequest (ms : list (string * json)) : createBlacklistRequest :=
  mkCreateBlacklistRequest (field str "pattern" ms EmptyString) (field str "pattern_type" ms EmptyString)
    (field str "description" ms EmptyString) (elements (field strs "methods" ms nil_slice)).

Definition setBlockedMethodsRequest_fields : struct_fields := [("methods", check strs)].
Definition build_setBlockedMethodsRequest (ms : list (string * json)) : setBlockedMethodsRequest :=
  mkSetBlockedMethodsRequest (elements (field strs "methods" ms nil_slice)).

Definition createLinkRequest_fields : struct_fields :=
  [("original_session_id", check uuid_typ); ("label", check str); ("ttl_seconds", check int);
   ("policy_ids", check uuids); ("endpoint_ids", check uuids)].
Definition build_createLinkRequest (ms : list (string * json)) : createLinkRequest :=
  mkCreateLinkRequest (field uuid_typ "original_session_id" ms uuid_Nil) (field str "label" ms EmptyString)
    (field int "ttl_seconds" ms 0%Z) (elements (field uuids "policy_ids" ms nil_slice))
    (elements (field uuids "endpoint_ids" ms nil_slice)).

Definition terminateLinkRequest_fields : struct_fields := [("notes", check str)].
Definition build_terminateLinkRequest (ms : list (string * json)) : terminateLinkRequest :=
  mkTerminateLinkRequest (field str "notes" ms EmptyString).

Definition createTargetSiteRequest_fields : struct_fields :=
  [("base_domain", check str); ("name", check str); ("base_url", check str)].
Definition build_createTargetSiteRequest (ms : list (string * json)) : createTargetSiteRequest :=
  mkCreateTargetSiteRequest (field str "base_domain" ms EmptyString) (field str "name" ms EmptyString)
    (field str "base_url" ms EmptyString).

Definition createPolicyRequest_fields : struct_fields :=
  [("name", check str); ("max_requests", check opt_int); ("max_bytes_transferred", check opt_int);
   ("max_ttl_seconds", check opt_int); ("max_violation_count", check opt_int)].
Definition build_createPolicyRequest (ms : list (string * json)) : createPolicyRequest :=
  mkCreatePolicyRequest (field str "name" ms EmptyString) (field opt_int "max_requests" ms None)
    (field opt_int "max_bytes_transferred" ms None) (field opt_int "max_ttl_seconds" ms None)
    (field opt_int "max_violation_count" ms None).

Definition importCookieRequest_fields : struct_fields :=
  [("name", check str); ("value", check str); ("domain", check str); ("path", check str); ("secure", check bool_typ);
   ("http_only", check bool_typ); ("same_site", check str)].
Definition importCookie_typ : typ importCookieRequest := mkTyp
  (check_struct importCookieRequest_fields)
  (λ v old, let ms := members importCookieRequest_fields v in
    mkImportCookieRequest (field str "name" ms (importCookieRequest_Name old))
      (field str "value" ms (importCookieRequest_Value old)) (field str "domain" ms (importCookieRequest_Domain old))
      (field str "path" ms (importCookieRequest_Path old)) (field bool_typ "secure" ms (importCookieRequest_Secure old))
      (field bool_typ "http_only" ms (importCookieRequest_HTTPOnly old))
      (field str "same_site" ms (importCookieRequest_SameSite old))).
Definition zero_cookie : importCookieRequest :=
  mkImportCookieRequest EmptyString EmptyString EmptyString EmptyString false false EmptyString.

Definition importTokenRequest_fields : struct_fields :=
  [("token_type", check str); ("header_name", check str); ("value", check str)].
Definition importToken_typ : typ importTokenRequest := mkTyp
  (check_struct importTokenRequest_fields)
  (λ v old, let ms := members importTokenRequest_fields v in
    mkImportTokenRequest (field str "token_type" ms (importTokenRequest_TokenType old))
      (field str "header_name" ms (importTokenRequest_HeaderName old)) (field str "value" ms (importTokenRequest_Value old))).
Definition zero_token : importTokenRequest := mkImportTokenRequest EmptyString EmptyString EmptyString.

Local Abbreviation cookies := (slice_typ importCookie_typ zero_cookie).
Local Abbreviation tokens := (slice_typ importToken_typ zero_token).

Definition importSessionRequest_fields : struct_fields :=
  [("base_domain", check str); ("site_name", check str); ("base_url", check str); ("cookies", check cookies);
   ("tokens", check tokens)].
Definition build_importSessionRequest (ms : list (string * json)) : importSessionRequest :=
  mkImportSessionRequest (field str "base_domain" ms EmptyString) (field str "site_name" ms EmptyString)
    (field str "base_url" ms EmptyString) (elements (field cookies "cookies" ms nil_slice))
    (elements (field tokens "tokens" ms nil_slice)).

(** [decodeJSON] *)
#[export] Instance encoding_json : JSONDecoder := {|
  decode_register := decode registerRequest_fields build_registerRequest;
  decode_login := decode loginRequest_fields build_loginRequest;
  decode_createDevice := decode createDeviceRequest_fields build_createDeviceRequest;
  decode_createAPIKey := decode createAPIKeyRequest_fields build_createAPIKeyRequest;
  decode_createBlacklist := decode createBlacklistRequest_fields build_createBlacklistRequest;
  decode_setBlockedMethods := decode setBlockedMethodsRequest_fields build_setBlockedMethodsRequest;
  decode_createLink := decode createLinkRequest_fields build_createLinkRequest;
  decode_terminateLink := decode terminateLinkRequest_fields build_terminateLinkRequest;
  decode_createTargetSite := decode createTargetSiteRequest_fields build_createTargetSiteRequest;
  decode_createPolicy := decode createPolicyRequest_fields build_createPolicyRequest;
  decode_importSession := decode importSessionRequest_fields build_importSessionRequest |}.
End requests.

(** ** Specification *)

(** The body of a request, and the value it is in JSON. *)
Inductive request_body : Type :=
| RegisterBody (b : registerRequest) | LoginBody (b : loginRequest) | DeviceBody (b : createDeviceRequest)
| APIKeyBody (b : createAPIKeyRequest) | BlacklistBody (b : createBlacklistRequest)
| MethodsBody (b : setBlockedMethodsRequest) | LinkBody (b : createLinkRequest)
| TerminateBody (b : terminateLinkRequest) | SiteBody (b : createTargetSiteRequest)
| PolicyBody (b : createPolicyRequest) | ImportBody (b : importSessionRequest).

Section client.
Context {PL : Platform}.

Definition json_int (z : Z) : json := JsNum (FormatInt z).
Definition json_uuid (u : UUID) : json := JsStr (uuid_String u).
Definition json_opt {A} (f : A → json) (o : option A) : json := from_option f JsNull o.

Definition json_cookie (c : importCookieRequest) : json :=
  JsObj [("name", JsStr (importCookieRequest_Name c)); ("value", JsStr (importCookieRequest_Value c));
         ("domain", JsStr (importCookieRequest_Domain c)); ("path", JsStr (importCookieRequest_Path c));
         ("secure", JsBool (importCookieRequest_Secure c)); ("http_only", JsBool (importCookieRequest_HTTPOnly c));
         ("same_site", JsStr (importCookieRequest_SameSite c))].
Definition json_token (t : importTokenRequest) : json :=
  JsObj [("token_type", JsStr (importTokenRequest_TokenType t)); ("header_name", JsStr (importTokenRequest_HeaderName t));
         ("value", JsStr (importTokenRequest_Value t))].

Definition body_members (b : request_body) : list (string * json) :=
  match b with
  | RegisterBody b => [("email", JsStr (registerRequest_Email b)); ("password", JsStr (registerRequest_Password b));
      ("display_name", JsStr (registerRequest_DisplayName b))]
  | LoginBody b => [("email", JsStr (loginRequest_Email b)); ("password", JsStr (loginRequest_Password b))]
  | DeviceBody b => [("name", JsStr (createDeviceRequest_Name b)); ("fingerprint", JsStr (createDeviceRequest_Fingerprint b))]
  | APIKeyBody b => [("label", JsStr (createAPIKeyRequest_Label b));
      ("device_id", json_opt json_uuid (createAPIKeyRequest_DeviceID b));
      ("expires_in_seconds", json_int (createAPIKeyRequest_ExpiresIn b))]
  | BlacklistBody b => [("pattern", JsStr (createBlacklistRequest_Pattern b));
      ("pattern_type", JsStr (createBlacklistRequest_PatternType b));
      ("description", JsStr (createBlacklistRequest_Description b));
      ("methods", JsArr (JsStr <$> createBlacklistRequest_Methods b))]
  | MethodsBody b => [("methods", JsArr (JsStr <$> setBlockedMethodsRequest_Methods b))]
  | LinkBody b => [("original_session_id", json_uuid (createLinkRequest_OriginalSessionID b));
      ("label", JsStr (createLinkRequest_Label b)); ("ttl_seconds", json_int (createLinkRequest_TTLSeconds b));
      ("policy_ids", JsArr (json_uuid <$> createLinkRequest_PolicyIDs b));
      ("endpoint_ids", JsArr (json_uuid <$> createLinkRequest_EndpointIDs b))]
  | TerminateBody b => [("notes", JsStr (terminateLinkRequest_Notes b))]
  | SiteBody b => [("base_domain", JsStr (createTargetSiteRequest_BaseDomain b));
      ("name", JsStr (createTargetSiteRequest_Name b)); ("base_url", JsStr (createTargetSiteRequest_BaseURL b))]
  | PolicyBody b => [("name", JsStr (createPolicyRequest_Name b));
      ("max_requests", json_opt json_int (createPolicyRequest_MaxRequests b));
      ("max_bytes_transferred", json_opt json_int (createPolicyRequest_MaxBytesTransferred b));
      ("max_ttl_seconds", json_opt json_int (createPolicyRequest_MaxTTLSeconds b));
      ("max_violation_count", json_opt json_int (createPolicyRequest_MaxViolationCount b))]
  | ImportBody b => [("base_domain", JsStr (importSessionRequest_BaseDomain b));
      ("site_name", JsStr (importSessionRequest_SiteName b)); ("base_url", JsStr (importSessionRequest_BaseURL b));
      ("cookies", JsArr (json_cookie <$> importSessionRequest_Cookies b));
      ("tokens", JsArr (json_token <$> importSessionRequest_Tokens b))]
  end.

Definition body_text (b : request_body) : string := of_bytes (write (JsObj (body_members b))).

(** What the decoder of its endpoint makes of a text. *)
Definition decoded_as (text : string) (b : request_body) : Prop :=
  match b with
  | RegisterBody b => decode_register text = (true, b) | LoginBody b => decode_login text = (true, b)
  | DeviceBody b => decode_createDevice text = (true, b) | APIKeyBody b => decode_createAPIKey text = (true, b)
  | BlacklistBody b => decode_createBlacklist text = (true, b)
  | MethodsBody b => decode_setBlockedMethods text = (true, b) | LinkBody b => decode_createLink text = (true, b)
  | TerminateBody b => decode_terminateLink text = (true, b) | SiteBody b => decode_createTargetSite text = (true, b)
  | PolicyBody b => decode_createPolicy text = (true, b) | ImportBody b => decode_importSession text = (true, b)
  end.

(** The integers of a body. *)
Definition body_ints (b : request_body) : list Z :=
  match b with
  | APIKeyBody b => [createAPIKeyRequest_ExpiresIn b]
  | LinkBody b => [createLinkRequest_TTLSeconds b]
  | PolicyBody b => option_list (createPolicyRequest_MaxRequests b) ++ option_list (createPolicyRequest_MaxBytesTransferred b) ++
      option_list (createPolicyRequest_MaxTTLSeconds b) ++ option_list (createPolicyRequest_MaxViolationCount b)
  | _ => []
  end.

End client.

(** ** Lemmas *)

Section lemmas.
Context {PL : Platform}.

Lemma verdicts_fine l : Forall (.= Fine) l → verdicts l = Fine.
Proof. induction 1 as [|v l -> Hl IH]; [done|exact IH]. Qed.

Lemma decoded_members_all fields ms :
  Forall (λ m, check_member fields m = Fine) ms → decoded_members fields ms = ms.
Proof. induction 1 as [|m ms Hm Hms IH]; [done|]. cbn [decoded_members]. by rewrite Hm, decide_False, IH. Qed.

(** A struct whose members are all accepted. *)
Lemma struct_accepts fields ms : Forall (λ m, check_member fields m = Fine) ms →
  check_struct fields (JsObj ms) = Fine ∧ members fields (JsObj ms) = ms.
Proof.
  intros Hms. cbn [check_struct members]. split; [|by apply decoded_members_all].
  apply verdicts_fine, Forall_fmap. exact Hms.
Qed.

(** [f] writes [x] as a value that is decoded into [x]. *)
Definition coded {S} (t : typ S) (f : S → json) (zero x : S) : Prop := check t (f x) = Fine ∧ set t (f x) zero = x.

Lemma coded_string s zero : coded string_typ JsStr zero s.
Proof. done. Qed.

Lemma coded_bool b zero : coded bool_typ JsBool zero b.
Proof. done. Qed.

Lemma coded_int z zero : in_int64 z → coded int64_typ json_int zero z.
Proof. intros Hz. unfold coded, json_int. cbn [check set int64_typ]. by rewrite Atoi_FormatInt. Qed.

Lemma coded_uuid `{!PlatformLaws PL} u zero : coded uuid_typ json_uuid zero u.
Proof. unfold coded, json_uuid. cbn [check set uuid_typ]. by rewrite uuid_Parse_String. Qed.

Lemma coded_pointer {S} (t : typ S) (f : S → json) zero o :
  (∀ x, f x ≠ JsNull) → (∀ x, o = Some x → coded t f zero x) → coded (pointer_typ t zero) (json_opt f) None o.
Proof.
  intros Hf Hx. unfold coded, json_opt. destruct o as [x|]; [|done]. destruct (Hx x eq_refl) as [Hc Hs].
  pose proof (Hf x) as Hn. cbn [from_option check set pointer_typ]. destruct (f x); [done|..]; cbn [default];
    by rewrite Hc, ?Hs.
Qed.

Lemma set_elements_fresh {S} (t : typ S) (f : S → json) zero l done_ :
  Forall (coded t f zero) l →
  set_elements t zero (f <$> l) (length done_) (mkSlice done_ (length done_)) =
  mkSlice (done_ ++ l) (length (done_ ++ l)).
Proof.
  intros Hl. revert done_. induction Hl as [|x l [Hc Hs] Hl IH]; intros d; [by rewrite app_nil_r|].
  cbn [fmap list_fmap set_elements backing len]. rewrite Hc, decide_False by done. unfold set_element.
  rewrite take_ge, lookup_ge_None_2, drop_ge by lia. cbn [default]. rewrite Hs.
  specialize (IH (d ++ [x])). rewrite length_app in IH. cbn [length] in IH.
  replace (Nat.max (length d) (length d + 1)) with (length d + 1) by lia.
  change (list_fmap _ _ f l) with (f <$> l). rewrite IH. by rewrite <-app_assoc.
Qed.

Lemma coded_slice {S} (t : typ S) (f : S → json) zero l : Forall (coded t f zero) l →
  check (slice_typ t zero) (JsArr (f <$> l)) = Fine ∧
  elements (set (slice_typ t zero) (JsArr (f <$> l)) nil_slice) = l.
Proof.
  intros Hl. split.
  - cbn [check slice_typ]. apply verdicts_fine, Forall_fmap, Forall_fmap. eapply Forall_impl; [exact Hl|]. by intros x [Hx _].
  - pose proof (set_elements_fresh t f zero l [] Hl) as He. destruct l as [|x l]; [done|].
    cbn [set slice_typ fmap list_fmap]. cbn [fmap list_fmap app length] in He. change nil_slice with (@mkSlice S [] 0).
    rewrite He. unfold elements. cbn [len backing]. by rewrite take_ge.
Qed.

End lemmas.

(** Comparisons of names, which are literals. *)
Ltac compare_names :=
  repeat match goal with
  | |- context [EqualFold ?a ?b] =>
      let r := eval vm_compute in (EqualFold a b) in
      replace (EqualFold a b) with r by (vm_compute; reflexivity)
  end.

(** The fields of a struct, one by one. *)
Ltac struct_members :=
  unfold check_member, field; cbn [find_first foldl fst snd]; compare_names; cbn [fst snd].

Section structs.
Context {PL : Platform} `{!PlatformLaws PL}.

(** A struct decoded from members that are all accepted. *)
Lemma decode_accepts {T} fields (build : list (string * json) → T) ms d rest :
  writable d (JsObj ms) → (d <= max_depth)%N →
  Forall (λ m, check_member fields m = Fine) ms →
  decode fields build (of_bytes (write (JsObj ms)) +:+ rest) = (true, build ms).
Proof.
  intros Hw Hd Hms. unfold decode. rewrite (read_write d) by done.
  destruct (struct_accepts fields ms Hms) as [-> ->]. by rewrite bool_decide_eq_true_2.
Qed.

Lemma coded_cookie c : coded importCookie_typ json_cookie zero_cookie c.
Proof.
  destruct c as [n v d p s h ss]. unfold coded, json_cookie. cbn [check set importCookie_typ].
  match goal with |- check_struct _ (JsObj ?ms) = _ ∧ _ => destruct (struct_accepts importCookieRequest_fields ms) as [-> ->] end.
  - unfold importCookieRequest_fields. repeat constructor; struct_members; reflexivity.
  - split; [done|]. struct_members. reflexivity.
Qed.

Lemma coded_token t : coded importToken_typ json_token zero_token t.
Proof.
  destruct t as [ty h v]. unfold coded, json_token. cbn [check set importToken_typ].
  match goal with |- check_struct _ (JsObj ?ms) = _ ∧ _ => destruct (struct_accepts importTokenRequest_fields ms) as [-> ->] end.
  - unfold importTokenRequest_fields. repeat constructor; struct_members; reflexivity.
  - split; [done|]. struct_members. reflexivity.
Qed.

Lemma coded_opt_int o : Forall in_int64 (option_list o) → coded (pointer_typ int64_typ 0%Z) (json_opt json_int) None o.
Proof. intros Ho. apply coded_pointer; [done|]. intros x ->. by apply coded_int, (Forall_inv Ho). Qed.

Lemma coded_strings l : 
  check (slice_typ string_typ EmptyString) (JsArr (JsStr <$> l)) = Fine ∧
  elements (set (slice_typ string_typ EmptyString) (JsArr (JsStr <$> l)) nil_slice) = l.
Proof. apply coded_slice, Forall_true. by intros. Qed.

Lemma coded_uuids l :
  check (slice_typ uuid_typ uuid_Nil) (JsArr (json_uuid <$> l)) = Fine ∧
  elements (set (slice_typ uuid_typ uuid_Nil) (JsArr (json_uuid <$> l)) nil_slice) = l.
Proof. apply coded_slice, Forall_true. intros u. apply coded_uuid. Qed.

Lemma coded_cookies l :
  check (slice_typ importCookie_typ zero_cookie) (JsArr (json_cookie <$> l)) = Fine ∧
  elements (set (slice_typ importCookie_typ zero_cookie) (JsArr (json_cookie <$> l)) nil_slice) = l.
Proof. apply coded_slice, Forall_true. apply coded_cookie. Qed.

Lemma coded_tokens l :
  check (slice_typ importToken_typ zero_token) (JsArr (json_token <$> l)) = Fine ∧
  elements (set (slice_typ importToken_typ zero_token) (JsArr (json_token <$> l)) nil_slice) = l.
Proof. apply coded_slice, Forall_true. apply coded_token. Qed.

Lemma coded_opt_uuid o : coded (pointer_typ uuid_typ uuid_Nil) (json_opt json_uuid) None o.
Proof. apply coded_pointer; [done|]. intros x _. apply coded_uuid. Qed.

Lemma decode_is {T} fields (build : list (string * json) → T) ms d rest r :
  writable d (JsObj ms) → (d <= max_depth)%N →
  Forall (λ m, check_member fields m = Fine) ms → build ms = r →
  decode fields build (of_bytes (write (JsObj ms)) +:+ rest) = (true, r).
Proof. intros Hw Hd Hms <-. by eapply decode_accepts. Qed.
End structs.

(** The value of a field is accepted, or is what was written. *)
Ltac coded_field side :=
  first
    [ reflexivity
    | exact (proj1 (coded_uuid _ uuid_Nil)) | exact (proj1 (coded_opt_uuid _))
    | apply coded_int; side | apply coded_opt_int; side
    | exact (proj1 (coded_strings _)) | exact (proj1 (coded_uuids _))
    | exact (proj1 (coded_cookies _)) | exact (proj1 (coded_tokens _))
    | exact (proj2 (coded_uuid _ uuid_Nil)) | exact (proj2 (coded_opt_uuid _))
    | exact (proj2 (coded_strings _)) | exact (proj2 (coded_uuids _))
    | exact (proj2 (coded_cookies _)) | exact (proj2 (coded_tokens _)) ].

(** A body, field by field. *)
Ltac decode_body ints :=
  cbn [createAPIKeyRequest_ExpiresIn createLinkRequest_TTLSeconds createPolicyRequest_MaxRequests
       createPolicyRequest_MaxBytesTransferred createPolicyRequest_MaxTTLSeconds createPolicyRequest_MaxViolationCount] in ints;
  rewrite ?Forall_app, ?Forall_singleton in ints; destruct_and? ints;
  eapply decode_is; [eassumption..| |];
  [ unfold registerRequest_fields, loginRequest_fields, createDeviceRequest_fields, createAPIKeyRequest_fields, createBlacklistRequest_fields,
      setBlockedMethodsRequest_fields, createLinkRequest_fields, terminateLinkRequest_fields, createTargetSiteRequest_fields,
      createPolicyRequest_fields, importSessionRequest_fields;
    repeat (apply Forall_cons; split); [..|apply Forall_nil]; struct_members; coded_field ltac:(done)
  | unfold build_registerRequest, build_loginRequest, build_createDeviceRequest, build_createAPIKeyRequest,
      build_createBlacklistRequest, build_setBlockedMethodsRequest, build_createLinkRequest, build_terminateLinkRequest,
      build_createTargetSiteRequest, build_createPolicyRequest, build_importSessionRequest;
    struct_members; f_equal; coded_field ltac:(done) ].

(** ** Properties *)

(** C32: what a client writes is what the handler gets.  For every type of request
    body: the JSON text of its fields - the texts in UTF-8, the integers in 64
    bits -, followed by anything, is decoded without error
    into exactly these fields, with every cookie, token, method and identifier of
    the lists in order. *)
Theorem body_decoded {PL : Platform} `{!PlatformLaws PL} b d rest
  (Hbody : writable d (JsObj (body_members b))) (Hdepth : (d <= max_depth)%N)
  (Hints : Forall in_int64 (body_ints b)) :
  decoded_as (body_text b +:+ rest) b.
Proof.
  unfold body_text. destruct b as [[]|[]|[]|[]|[]|[]|[]|[]|[]|[]|[]]; cbn [decoded_as body_members body_ints] in *;
    decode_body Hints.
Qed.

(** ** Examples *)

(** A text of the examples: quotes are written as single ones. *)
Definition dq (s : string) : string := of_bytes ((λ c, if (c =? "'")%char then "034"%char else c) <$> bytes s).

(** A field whose name is not known is ignored, so a misspelt one is like none:
    the methods of the rule are cleared. *)
Lemma misspelt_field_ignored {PL : Platform} :
  decode_setBlockedMethods (dq "{'method': ['POST']}") = (true, mkSetBlockedMethodsRequest []).
Proof. vm_compute. reflexivity. Qed.

(** Case and repetition: the last member wins, but a shorter list that follows a
    longer one reuses the structs of the longer one. *)
Lemma elements_reused {PL : Platform} :
  importSessionRequest_Cookies (decode_importSession (dq "{'Cookies': [{'name': 'a', 'secure': true}], 'cookies': [{'value': 'b'}]}")).2 =
  [mkImportCookieRequest "a" "b" EmptyString EmptyString true false EmptyString].
Proof. vm_compute. reflexivity. Qed.

(** A mismatch is an error, but what could be decoded is there. *)
Lemma mismatch_decodes_rest {PL : Platform} :
  decode_createLink (dq "{'ttl_seconds': '60', 'label': 'x'}") = (false, mkCreateLinkRequest uuid_Nil "x" 0 [] []).
Proof. vm_compute. reflexivity. Qed.

(** ** Witnesses *)

Definition demo_import_body : importSessionRequest :=
  mkImportSessionRequest "example.net" "Net" "https://example.net"
    [mkImportCookieRequest "sid" "v<1>" "" "/" true true ""; mkImportCookieRequest "theme" "dark" "" "" false false "Lax"]
    [mkImportTokenRequest "bearer" "Authorization" "t0k"].

Lemma utf8_literal s : forallb (in_range 0 127) (bytes s) = true → utf8 (bytes s).
Proof.
  intros Hs. apply ascii_utf8. unfold is_ascii. apply Forall_forall. intros c Hc. rewrite forallb_forall in Hs.
  specialize (Hs c (proj1 (list_elem_of_In _ _) Hc)). apply in_range_spec in Hs. lia.
Qed.

Ltac writable_literal :=
  repeat first
    [ apply utf8_literal; vm_compute; reflexivity | apply (writable_obj 2) | apply (writable_arr 1) | apply (writable_obj 0)
    | apply writable_str | apply writable_bool | apply Forall_nil | apply Forall_cons; split | split; cbn [fst snd] ].

Lemma demo_import_writable : writable 3 (JsObj (body_members (PL := demo) (ImportBody demo_import_body))).
Proof. cbn. writable_literal. Qed.

Lemma body_decoded_witness :
  decode_importSession (JSONDecoder := encoding_json (PL := demo)) (body_text (PL := demo) (ImportBody demo_import_body) +:+ "5 x") =
  (true, demo_import_body).
Proof. apply (body_decoded (PL := demo) (ImportBody demo_import_body) 3 "5 x"); [exact demo_import_writable|done|constructor]. Defined.
