(* ===== verification/Ownership.v ===== *)
(** * What a request of one owner can change

    The control plane checks ownership in each handler, not in the database.
    [same_foreign u] says that two databases agree on everything that belongs to
    owners other than [u]; this file proves that the requests of [u] to the REST
    routes are of that kind, and what a request for someone else's resource is
    answered. *)

From S2P Require Import Prelude GoStrings Domain Http Schema Platform Effects Interfaces RepoLinks RepoUsers RepoSessions RepoGuests RepoLogs Links Crypto Import Auth Middleware Rest.

Open Scope go_scope.

(** ** Ownership *)

Definition session_owner (d : DB) (sid : UUID) : option UUID :=
  OriginalSession_UserID <$> original_sessions d !! sid.
Definition owner_of_link (d : DB) (id : UUID) : option UUID := shared_links d !! id ≫= link_owner d.
Definition policy_owner (d : DB) (id : UUID) : option UUID :=
  AccessPolicy_UserID <$> access_policies d !! id.
Definition endpoint_owner (d : DB) (id : UUID) : option UUID :=
  BlacklistedEndpoint_UserID <$> blacklisted_endpoints d !! id.

(** The resource exists and belongs to someone else. *)
Definition is_foreign (u : UUID) (owner : option UUID) : Prop :=
  match owner with Some v => v ≠ u | None => False end.

(** The rows of a table whose owner is a column. *)
Definition same_rows {V} (own : V → UUID) (u : UUID) (m m' : gmap UUID V) : Prop :=
  ∀ id x, own x ≠ u → m' !! id = Some x ↔ m !! id = Some x.

Record same_foreign (u : UUID) (d d' : DB) : Prop := {
  sf_users : users d' = users d;
  sf_devices : same_rows Device_UserID u (devices d) (devices d');
  sf_api_keys : same_rows APIKey_UserID u (api_keys d) (api_keys d');
  sf_sessions : same_rows OriginalSession_UserID u (original_sessions d) (original_sessions d');
  sf_policies : same_rows AccessPolicy_UserID u (access_policies d) (access_policies d');
  sf_endpoints : same_rows BlacklistedEndpoint_UserID u (blacklisted_endpoints d) (blacklisted_endpoints d');
  sf_cookies sid : is_foreign u (session_owner d sid) → cookies_of sid d' ≡ₚ cookies_of sid d;
  sf_tokens sid : is_foreign u (session_owner d sid) → tokens_of sid d' ≡ₚ tokens_of sid d;
  sf_links id l : is_foreign u (link_owner d l) → shared_links d' !! id = Some l ↔ shared_links d !! id = Some l;
  sf_terminations l : is_foreign u (owner_of_link d l) → terminations_of d' l ≡ₚ terminations_of d l;
  sf_methods e m : is_foreign u (endpoint_owner d e) →
    (e, m) ∈ endpoint_blocked_methods d' ↔ (e, m) ∈ endpoint_blocked_methods d;
  sf_site_rules s e : is_foreign u (endpoint_owner d e) →
    (s, e) ∈ site_endpoint_rules d' ↔ (s, e) ∈ site_endpoint_rules d;
  sf_link_rules l e : is_foreign u (owner_of_link d l) → is_foreign u (endpoint_owner d e) →
    (l, e) ∈ link_endpoint_rules d' ↔ (l, e) ∈ link_endpoint_rules d;
  sf_link_policies l p : is_foreign u (owner_of_link d l) → is_foreign u (policy_owner d p) →
    (l, p) ∈ link_policies d' ↔ (l, p) ∈ link_policies d;
  sf_traffic : guests d' = guests d ∧ guest_sessions d' = guest_sessions d ∧
    usage_counters d' = usage_counters d ∧ proxy_access_logs d' = proxy_access_logs d ∧
    security_events d' = security_events d }.

(** ** [same_foreign u] is a preorder *)

Section transport.
Context (u : UUID) (d d' : DB) (Hsf : same_foreign u d d').

Lemma foreign_column {V} (own : V → UUID) (m m' : gmap UUID V) id :
  same_rows own u m m' → is_foreign u (own <$> m' !! id) ↔ is_foreign u (own <$> m !! id).
Proof.
  intros H. specialize (H id). split.
  - destruct (m' !! id) as [x|]; [|done]. intros Hx. by rewrite (proj1 (H x Hx) eq_refl).
  - destruct (m !! id) as [x|]; [|done]. intros Hx. by rewrite (proj2 (H x Hx) eq_refl).
Qed.

Lemma foreign_session sid : is_foreign u (session_owner d' sid) ↔ is_foreign u (session_owner d sid).
Proof. apply foreign_column, Hsf. Qed.
Lemma foreign_policy p : is_foreign u (policy_owner d' p) ↔ is_foreign u (policy_owner d p).
Proof. apply foreign_column, Hsf. Qed.
Lemma foreign_endpoint e : is_foreign u (endpoint_owner d' e) ↔ is_foreign u (endpoint_owner d e).
Proof. apply foreign_column, Hsf. Qed.
Lemma foreign_row l : is_foreign u (link_owner d' l) ↔ is_foreign u (link_owner d l).
Proof. apply foreign_session. Qed.
Lemma foreign_link id : is_foreign u (owner_of_link d' id) ↔ is_foreign u (owner_of_link d id).
Proof.
  unfold owner_of_link. split.
  - destruct (shared_links d' !! id) as [l|] eqn:E; [|done]. cbn [mbind option_bind]. rewrite foreign_row.
    intros Hl. by rewrite (proj1 (sf_links _ _ _ Hsf id l Hl) E).
  - destruct (shared_links d !! id) as [l|] eqn:E; [|done]. cbn [mbind option_bind]. intros Hl.
    rewrite (proj2 (sf_links _ _ _ Hsf id l Hl) E). cbn [mbind option_bind]. by rewrite foreign_row.
Qed.
End transport.

Lemma same_rows_refl {V} (own : V → UUID) u m : same_rows own u m m.
Proof. done. Qed.
Lemma same_rows_trans {V} (own : V → UUID) u m1 m2 m3 :
  same_rows own u m1 m2 → same_rows own u m2 m3 → same_rows own u m1 m3.
Proof. intros H1 H2 id x Hx. by rewrite (H2 id x Hx), (H1 id x Hx). Qed.

#[export] Hint Resolve same_rows_refl : go.

#[export] Instance same_foreign_preorder u : PreOrder (same_foreign u).
Proof.
  split; [by split; try apply same_rows_refl|].
  intros a b c H1 H2. pose proof (foreign_session u a b H1) as Hs. pose proof (foreign_policy u a b H1) as Hp.
  pose proof (foreign_endpoint u a b H1) as He. pose proof (foreign_row u a b H1) as Hr.
  pose proof (foreign_link u a b H1) as Hl. destruct H1, H2. split.
  - congruence.
  - by eapply same_rows_trans.
  - by eapply same_rows_trans.
  - by eapply same_rows_trans.
  - by eapply same_rows_trans.
  - by eapply same_rows_trans.
  - intros sid Hf. rewrite sf_cookies1 by (by apply Hs). auto.
  - intros sid Hf. rewrite sf_tokens1 by (by apply Hs). auto.
  - intros id l Hf. rewrite sf_links1 by (by apply Hr). auto.
  - intros l Hf. rewrite sf_terminations1 by (by apply Hl). auto.
  - intros e m Hf. rewrite sf_methods1 by (by apply He). auto.
  - intros s e Hf. rewrite sf_site_rules1 by (by apply He). auto.
  - intros l e Hf Hf'. rewrite sf_link_rules1 by (by apply Hl || by apply He). auto.
  - intros l p Hf Hf'. rewrite sf_link_policies1 by (by apply Hl || by apply Hp). auto.
  - intuition congruence.
Qed.

(** ** Single changes *)

Lemma same_rows_insert {V} (own : V → UUID) u m id x :
  m !! id = None → own x = u → same_rows own u m (<[id := x]> m).
Proof.
  intros Hn Ho id' y Hy. destruct (decide (id = id')) as [<-|Hne].
  - rewrite lookup_insert_eq, Hn. split; [intros [= ->]; congruence|done].
  - by rewrite lookup_insert_ne.
Qed.

Lemma same_rows_delete {V} (own : V → UUID) u m id :
  own <$> m !! id = Some u → same_rows own u m (delete id m).
Proof.
  intros Ho id' y Hy. destruct (decide (id = id')) as [<-|Hne].
  - rewrite lookup_delete_eq. split; [done|]. intros E. rewrite E in Ho. simpl in Ho. congruence.
  - by rewrite lookup_delete_ne.
Qed.

Lemma owned_foreign u o : o = Some u → is_foreign u o → False.
Proof. intros -> H. by apply H. Qed.

(** The owner of an existing link through a new link or another status. *)
Lemma owner_of_link_Some d id l : shared_links d !! id = Some l → owner_of_link d id = link_owner d l.
Proof. intros E. unfold owner_of_link. by rewrite E. Qed.

#[export] Hint Resolve same_rows_insert same_rows_delete : go.

(** A change of the tables named by the goal only. *)
Ltac solve_foreign :=
  split; try done; try apply same_rows_refl; try (by apply same_rows_insert); try (by apply same_rows_delete).

Section changes.
Context (u : UUID) (d : DB).

Lemma foreign_new_site id x : same_foreign u d (set_target_sites <[id := x]> d).
Proof. solve_foreign. Qed.
Lemma foreign_new_device id x : devices d !! id = None → Device_UserID x = u →
  same_foreign u d (set_devices <[id := x]> d).
Proof. intros. solve_foreign. Qed.
Lemma foreign_new_key id x : api_keys d !! id = None → APIKey_UserID x = u →
  same_foreign u d (set_api_keys <[id := x]> d).
Proof. intros. solve_foreign. Qed.
Lemma foreign_new_session id x : original_sessions d !! id = None → OriginalSession_UserID x = u →
  same_foreign u d (set_original_sessions <[id := x]> d).
Proof. intros. solve_foreign. Qed.
Lemma foreign_new_policy id x : access_policies d !! id = None → AccessPolicy_UserID x = u →
  same_foreign u d (set_access_policies <[id := x]> d).
Proof. intros. solve_foreign. Qed.
Lemma foreign_new_endpoint id x : blacklisted_endpoints d !! id = None → BlacklistedEndpoint_UserID x = u →
  same_foreign u d (set_blacklisted_endpoints <[id := x]> d).
Proof. intros. solve_foreign. Qed.

Lemma foreign_delete_policy id : policy_owner d id = Some u →
  same_foreign u d (set_link_policies (filter (λ lp : UUID * UUID, lp.2 ≠ id)) (set_access_policies (delete id) d)).
Proof.
  intros Ho. solve_foreign. intros l p _ Hp. cbn [link_policies set_link_policies].
  rewrite elem_of_filter. simpl. split; [tauto|]. split; [|done]. intros ->. by eapply owned_foreign.
Qed.

Lemma foreign_delete_endpoint id : endpoint_owner d id = Some u →
  same_foreign u d (set_endpoint_blocked_methods (filter (λ em : UUID * string, em.1 ≠ id))
      (set_site_endpoint_rules (filter (λ r : UUID * UUID, r.2 ≠ id))
        (set_link_endpoint_rules (filter (λ r : UUID * UUID, r.2 ≠ id))
          (set_blacklisted_endpoints (delete id) d)))).
Proof.
  intros Ho. solve_foreign.
  all: intros; simpl; rewrite elem_of_filter; simpl; split; [tauto|]; split; [|done]; intros ->;
    by eapply owned_foreign.
Qed.

(** Methods of an endpoint of [u], and its attachment to a site. *)
Lemma foreign_set_methods f id : endpoint_owner d id = Some u →
  (∀ e m, e ≠ id → (e, m) ∈ f (endpoint_blocked_methods d) ↔ (e, m) ∈ endpoint_blocked_methods d) →
  same_foreign u d (set_endpoint_blocked_methods f d).
Proof. intros Ho Hf. solve_foreign. intros e m He. apply Hf. intros ->. by eapply owned_foreign. Qed.

Lemma foreign_attach_site s id : endpoint_owner d id = Some u →
  same_foreign u d (set_site_endpoint_rules (union {[(s, id)]}) d).
Proof.
  intros Ho. solve_foreign. intros s' e He. simpl. rewrite elem_of_union, elem_of_singleton.
  split; [|by right]. intros [?|?]; [|done]. simplify_eq. exfalso. by eapply owned_foreign.
Qed.

Lemma foreign_attach_all id ps es : owner_of_link d id = Some u →
  same_foreign u d (attached_db id ps es d).
Proof.
  intros Ho. unfold attached_db. solve_foreign.
  all: intros l x Hl _; simpl; rewrite elem_of_union, elem_of_list_to_set, list_elem_of_fmap;
    split; [|by right]; intros [(? & ? & _)|?]; [simplify_eq; exfalso; by eapply owned_foreign|done].
Qed.

Lemma foreign_attach_link id e : owner_of_link d id = Some u →
  same_foreign u d (set_link_endpoint_rules (union {[(id, e)]}) d).
Proof.
  intros Ho. solve_foreign. intros l x Hl _. simpl. rewrite elem_of_union, elem_of_singleton.
  split; [|by right]. intros [?|?]; [|done]. simplify_eq. exfalso. by eapply owned_foreign.
Qed.

Lemma foreign_new_link id l : shared_links d !! id = None → link_owner d l = Some u →
  same_foreign u d (set_shared_links <[id := l]> d).
Proof.
  intros Hn Ho. solve_foreign. intros id' l' Hl'. simpl.
  destruct (decide (id = id')) as [<-|Hne]; [|by rewrite lookup_insert_ne].
  rewrite lookup_insert_eq, Hn. split; [|done]. intros [= <-]. exfalso. by eapply owned_foreign.
Qed.

Lemma foreign_link_status id status : owner_of_link d id = Some u →
  same_foreign u d (set_shared_links (alter (SharedLink_with_status status) id) d).
Proof.
  intros Ho. solve_foreign. intros id' l Hl. simpl.
  destruct (decide (id = id')) as [<-|Hne]; [|by rewrite lookup_alter_ne].
  rewrite lookup_alter_eq. unfold owner_of_link in Ho.
  destruct (shared_links d !! id) as [l'|]; [|done]. simpl in *.
  split; intros; simplify_eq; exfalso; by eapply (owned_foreign u (link_owner d _)).
Qed.

Lemma foreign_terminated id term tid now : owner_of_link d id = Some u →
  link_terminations d !! tid = None → LinkTermination_SharedLinkID term = id →
  same_foreign u d (terminated_db id term tid now d).
Proof.
  intros Ho Hn <-. unfold terminated_db.
  etrans; [by apply (foreign_link_status (LinkTermination_SharedLinkID term) LinkStatusTerminated)|].
  split; try done. intros l Hl. unfold terminations_of. simpl.
  rewrite filter_rows_insert by done. simpl. rewrite decide_False; [done|]. intros <-. revert Hl.
  unfold owner_of_link in *. simpl. rewrite lookup_alter_eq.
  destruct (shared_links d !! _) as [l|]; [|done]. simpl in *. unfold link_owner in *. simpl. by rewrite Ho.
Qed.
End changes.

(** ** Programs *)

(** Under the knowledge [K], which no interaction invalidates. *)
Definition under (K : DB → Prop) (R : DB → DB → Prop) (d d' : DB) : Prop := K d → K d' ∧ R d d'.

#[export] Instance under_preorder K R : PreOrder R → PreOrder (under K R).
Proof.
  intros [Hr Ht]. unfold under. split; [by intros d; split|].
  intros a b c H1 H2 Ka. destruct (H1 Ka) as [Kb ?]. destruct (H2 Kb) as [? ?]. split; [done|by eapply Ht].
Qed.

Ltac unfold_repos :=
  repo_users; repo_sessions; repo_links; repo_guests; repo_logs;
  unfold UserRepo_GetByID, UserRepo_GetByEmail, scanUser, DeviceRepo_Create, DeviceRepo_ListByUser, scanDevice,
    APIKeyRepo_Create, APIKeyRepo_ListByUser, APIKeyRepo_GetByHash, scanAPIKey,
    TargetSiteRepo_GetOrCreateByDomain, TargetSiteRepo_Create, TargetSiteRepo_List, scanTargetSite,
    OriginalSessionRepo_ListByUser, OriginalSessionRepo_GetByID, OriginalSessionRepo_Create, scanOriginalSession,
    AccessPolicyRepo_Create, AccessPolicyRepo_GetByID, AccessPolicyRepo_ListByUser, scanAccessPolicy,
    BlacklistRepo_ListByUser, BlacklistRepo_GetByID, BlacklistRepo_Create, BlacklistRepo_blockedMethods,
    scanBlacklistedEndpoint, SharedLinkRepo_ListByUser, SharedLinkRepo_GetByID, SharedLinkRepo_OwnerUserID,
    scanSharedLink, GuestRepo_List, GuestSessionRepo_ListByLink, ProxyAccessLogRepo_ListByLink,
    SecurityEventRepo_ListByLink, LinkTerminationRepo_GetByLink, LinkTerminationRepo_ListReasons,
    StatsRepo_GetLinkStats, select_id, select_row.

(** The statement that inserts a row of the caller. *)
Ltac new_row :=
  invert_stmt;
  first [done | apply foreign_new_device | apply foreign_new_key | apply foreign_new_session
        | apply foreign_new_policy | apply foreign_new_endpoint];
  first [by apply fresh_in_spec | done].

Section frames.
Context {PL : Platform} `{Bcrypt} `{SHA256} `{JWT} `{AEAD} `{JSONDecoder}.
Implicit Types (u : UUID) (r : Request).

Lemma frame_atoms {A} u (p : P A) w :
  all_atoms (on_db (same_foreign u)) p → same_foreign u (w_db w) (w_db (run p w).1).
Proof. intros Hp. exact (all_atoms_run (on_db (same_foreign u)) p w Hp). Qed.

Lemma frame_under {A} u (K : DB → Prop) (p : P A) w :
  all_atoms (on_db (under K (same_foreign u))) p → K (w_db w) →
  K (w_db (run p w).1) ∧ same_foreign u (w_db w) (w_db (run p w).1).
Proof. intros Hp HK. exact (all_atoms_run (on_db (under K (same_foreign u))) p w Hp HK). Qed.

Lemma atoms_load_methods u l : all_atoms (on_db (same_foreign u)) (load_methods l).
Proof.
  induction l as [|e l IH]; [done|]. cbn [load_methods]. unfold BlacklistRepo_blockedMethods.
  atoms; exact IH.
Qed.

(** The checks of the middlewares read only. *)
Lemma run_verify_db s token w :
  w_db (run (verify_token (AuthService_Authenticator s) token) w).1 = w_db w.
Proof.
  symmetry. apply (all_atoms_run (on_db (=)) _ w).
  unfold verify_token, AuthService_Authenticator. cbn [Authenticator_VerifyJWT Authenticator_VerifyAPIKey].
  unfold AuthService_VerifyJWT, AuthService_VerifyAPIKey. unfold_repos.
  atoms.
Qed.

(** Handlers that read, or add a row of the caller. *)
Definition simple (e : owner_endpoint) : bool :=
  match e with
  | Me | CreateTargetSite | ListDevices | CreateDevice | ListAPIKeys | CreateAPIKey | ListSessions
  | GetSession _ | ListPolicies | CreatePolicy | ListBlacklist | ListGuests | ListLinks _ => true
  | _ => false
  end.

Lemma atoms_simple s e u r :
  simple e = true → all_atoms (on_db (same_foreign u)) (serve_owner s e u r).
Proof.
  destruct e; simpl; try done; intros _;
  unfold handleMe, handleCreateTargetSite, handleListDevices, handleCreateDevice, handleListAPIKeys,
    handleCreateAPIKey, handleListSessions, handleGetSession, handleListPolicies, handleCreatePolicy,
    handleListBlacklist, handleListGuests, handleListLinks, written, expires_in, AuthService_CreateAPIKey;
  unfold_repos; atoms; try apply atoms_load_methods; new_row.
Qed.

(** *** Handlers that check ownership first *)

Lemma run_GetByID_policy id w :
  ∃ res, run (AccessPolicyRepo_GetByID id) w = (tick w, res) ∧
    ∀ p, res = inr p → access_policies (w_db w) !! id = Some p.
Proof.
  unfold AccessPolicyRepo_GetByID, scanAccessPolicy. rewrite run_wrap. read_row res.
  eexists. split; [done|]. intros p Hp. destruct res; simplify_eq.
  specialize (Hread _ eq_refl). unfold select_id in Hread. by invert_stmt.
Qed.

Lemma run_blockedMethods_tick id w : (run (BlacklistRepo_blockedMethods id) w).1 = tick w.
Proof. unfold BlacklistRepo_blockedMethods. rewrite run_wrap. by read_row res. Qed.

Lemma run_GetByID_endpoint id w :
  ∃ w' res, run (BlacklistRepo_GetByID id) w = (w', res) ∧ w_db w' = w_db w ∧
    ∀ e, res = inr e → ∃ e', blacklisted_endpoints (w_db w) !! id = Some e' ∧
      BlacklistedEndpoint_ID e = BlacklistedEndpoint_ID e' ∧
      BlacklistedEndpoint_UserID e = BlacklistedEndpoint_UserID e'.
Proof.
  unfold BlacklistRepo_GetByID, scanBlacklistedEndpoint. rewrite run_bind, run_wrap. read_row res.
  destruct res as [e|e']; [by do 2 eexists|]. specialize (Hread _ eq_refl).
  unfold select_id in Hread. invert_stmt. rewrite run_bind. pose proof (run_blockedMethods_tick (BlacklistedEndpoint_ID e') (tick w)) as Ht.
  destruct (run (BlacklistRepo_blockedMethods _) _) as [w1 [e|ms]]; cbn [fst snd] in *; subst w1.
  { by do 2 eexists. }
  do 2 eexists. split; [done|]. split; [done|]. intros ? [= <-]. by exists e'.
Qed.

(** Rows of blacklisted_endpoints are under their own key. *)
Definition endpoints_keyed (d : DB) : Prop :=
  ∀ id e, blacklisted_endpoints d !! id = Some e → BlacklistedEndpoint_ID e = id.

Lemma run_ownedBlacklistEndpoint param u w :
  endpoints_keyed (w_db w) →
  ∃ w' res, run (ownedBlacklistEndpoint param u) w = (w', res) ∧ w_db w' = w_db w ∧
    ∀ e, res = inr e → uuid_Parse param = Some (BlacklistedEndpoint_ID e) ∧
      endpoint_owner (w_db w) (BlacklistedEndpoint_ID e) = Some u.
Proof.
  intros Hk. unfold ownedBlacklistEndpoint. destruct (uuid_Parse param) as [id|]; [|by do 2 eexists].
  rewrite run_pbind. repo_links. destruct (run_GetByID_endpoint id w) as (w' & res & -> & Hdb & Hres).
  cbn [fst snd]. do 2 eexists. split; [done|]. split; [done|]. intros e He.
  destruct res as [err|e']; [done|]. destruct (Hres _ eq_refl) as (e0 & He0 & He1 & He2).
  case_decide as Hu; [done|]. simplify_eq. rewrite He1, (Hk _ _ He0).
  split; [done|]. unfold endpoint_owner. rewrite He0. simpl. by rewrite <-He2.
Qed.

Lemma atoms_set_methods u id methods :
  all_atoms (on_db (under (λ d, endpoint_owner d id = Some u) (same_foreign u)))
    (BlacklistRepo_SetBlockedMethods id methods).
Proof.
  unfold BlacklistRepo_SetBlockedMethods. atoms; invert_stmt; intros Ho; split; try done;
    apply (foreign_set_methods u d _ id Ho); intros e m Hne; simpl.
  - rewrite elem_of_filter. simpl. naive_solver.
  - rewrite elem_of_union, elem_of_singleton. naive_solver.
Qed.

Lemma frame_done_or_internal u (m : M unit) w d :
  same_foreign u d (w_db (run m w).1) → same_foreign u d (w_db (run (done_or_internal m) w).1).
Proof. unfold done_or_internal. rewrite run_pbind. done. Qed.

Lemma frame_set_methods u id methods w :
  endpoint_owner (w_db w) id = Some u →
  same_foreign u (w_db w) (w_db (run (BlacklistRepo_SetBlockedMethods id methods) w).1).
Proof. intros Ho. by apply (frame_under u _ _ w (atoms_set_methods u id methods) Ho). Qed.

Lemma frame_DeletePolicy param u w :
  same_foreign u (w_db w) (w_db (run (handleDeletePolicy param u) w).1).
Proof.
  unfold handleDeletePolicy. destruct (uuid_Parse param) as [id|]; [|done].
  rewrite run_pbind. repo_links. destruct (run_GetByID_policy id w) as (res & -> & Hres). cbn [fst snd].
  destruct res as [e|p]; [done|]. specialize (Hres _ eq_refl). case_decide as Hu; [done|].
  apply frame_done_or_internal. unfold AccessPolicyRepo_Delete.
  assert (policy_owner (w_db w) id = Some u) as Ho.
  { unfold policy_owner. rewrite Hres. simpl. congruence. }
  write_cases; [done|by apply foreign_delete_policy..].
Qed.

Lemma frame_DeleteBlacklistEndpoint param u w :
  endpoints_keyed (w_db w) →
  same_foreign u (w_db w) (w_db (run (handleDeleteBlacklistEndpoint param u) w).1).
Proof.
  intros Hk. unfold handleDeleteBlacklistEndpoint. rewrite run_pbind.
  destruct (run_ownedBlacklistEndpoint param u w Hk) as (w' & res & -> & Hdb & Hres). cbn [fst snd].
  destruct res as [rep|e]; [by rewrite <-Hdb|]. destruct (Hres _ eq_refl) as [_ Ho].
  apply frame_done_or_internal. repo_links. unfold BlacklistRepo_Delete.
  rewrite <-Hdb in *. write_cases; [done|by apply foreign_delete_endpoint..].
Qed.

Lemma frame_SetBlockedMethods param u r w :
  endpoints_keyed (w_db w) →
  same_foreign u (w_db w) (w_db (run (handleSetBlockedMethods param u r) w).1).
Proof.
  intros Hk. unfold handleSetBlockedMethods. rewrite run_pbind.
  destruct (run_ownedBlacklistEndpoint param u w Hk) as (w' & res & -> & Hdb & Hres). cbn [fst snd].
  destruct res as [rep|e]; [by rewrite <-Hdb|]. destruct (Hres _ eq_refl) as [_ Ho].
  destruct (decode_setBlockedMethods _) as [[] req]; [|by rewrite <-Hdb].
  apply frame_done_or_internal. rewrite <-Hdb in *. by apply frame_set_methods.
Qed.

Lemma frame_AttachBlacklistToSite param site u w :
  endpoints_keyed (w_db w) →
  same_foreign u (w_db w) (w_db (run (handleAttachBlacklistToSite param site u) w).1).
Proof.
  intros Hk. unfold handleAttachBlacklistToSite. rewrite run_pbind.
  destruct (run_ownedBlacklistEndpoint param u w Hk) as (w' & res & -> & Hdb & Hres). cbn [fst snd].
  destruct res as [rep|e]; [by rewrite <-Hdb|]. destruct (Hres _ eq_refl) as [_ Ho].
  destruct (uuid_Parse site) as [sid|]; [|by rewrite <-Hdb].
  apply frame_done_or_internal. repo_links. unfold BlacklistRepo_AttachToSite.
  rewrite <-Hdb in *. write_cases; [done|by apply foreign_attach_site..].
Qed.

Lemma frame_CreateBlacklistEndpoint u r w :
  same_foreign u (w_db w) (w_db (run (handleCreateBlacklistEndpoint u r) w).1).
Proof.
  unfold handleCreateBlacklistEndpoint. destruct (decode_createBlacklist _) as [ok req].
  repeat (case_match; [done|]). rewrite run_pbind. repo_links.
  unfold BlacklistRepo_Create, scanBlacklistedEndpoint. rewrite run_wrap. write_cases; [done| |].
  - set (row := mkBlacklistedEndpoint _ _ _ _ _ _ _). set (id := env_uuid _) in *.
    set (w1 := set_db _ _).
    assert (same_foreign u (w_db w) (w_db w1)) as Hs1.
    { apply foreign_new_endpoint; [by apply fresh_in_spec|done]. }
    destruct (decide (createBlacklistRequest_Methods req = [])); [exact Hs1|]. unfold written. rewrite run_pbind. cbn [run fst].
    etrans; [exact Hs1|]. apply frame_set_methods. unfold endpoint_owner. subst w1. simpl.
    by rewrite lookup_insert_eq.
  - apply foreign_new_endpoint; [by apply fresh_in_spec|done].
Qed.

Lemma link_owner_session d sid session l :
  original_sessions d !! sid = Some session → SharedLink_OriginalSessionID l = sid →
  link_owner d l = Some (OriginalSession_UserID session).
Proof. intros E <-. unfold link_owner. by rewrite E. Qed.

Lemma frame_CreateLink u r w : same_foreign u (w_db w) (w_db (run (handleCreateLink u r) w).1).
Proof.
  unfold handleCreateLink. destruct (decode_createLink _) as [ok req]. case_match; [done|].
  rewrite run_pbind. cbn [run fst]. unfold LinkService_CreateLink. rewrite run_pbind.
  pose proof (run_create_row u (link_input req) w) as Hrow.
  destruct (run (create_row _ _) w) as [w1 res]. cbn [fst snd].
  destruct Hrow as [[Hdb [e ->]]|(session & raw & expiry & id & now & Hs & Hu & _ & _ & _ & Hfresh & Hdb & Hres)];
    [by rewrite <-Hdb|].
  assert (same_foreign u (w_db w) (w_db w1)) as Hs1.
  { rewrite Hdb. apply foreign_new_link; [done|]. rewrite <-Hu. by eapply link_owner_session. }
  destruct Hres as [[e ->]| ->]; [exact Hs1|].
  destruct (run_attach_all id (CreateLinkInput_PolicyIDs (link_input req))
    (CreateLinkInput_EndpointIDs (link_input req)) w1) as (ps & es & _ & _ & Hadb & _).
  rewrite run_pbind. cbn [SharedLink_ID link_row]. set (ra := run (attach_all _ _ _) w1) in *. clearbody ra.
  destruct ra as [w2 ra]. cbn [fst snd] in *.
  assert (same_foreign u (w_db w) (w_db w2)) as Hs2.
  { etrans; [exact Hs1|]. rewrite Hadb. apply foreign_attach_all. rewrite Hdb. unfold owner_of_link.
    cbn [shared_links set_shared_links]. rewrite lookup_insert_eq. cbn [mbind option_bind].
    rewrite <-Hu. by eapply link_owner_session. }
  by destruct ra.
Qed.

Lemma owner_of_link_found d id l u :
  shared_links d !! id = Some l → link_owner d l = Some u → owner_of_link d id = Some u.
Proof. intros E Ho. by rewrite (owner_of_link_Some _ _ _ E). Qed.

Lemma frame_TerminateLink u id notes w :
  same_foreign u (w_db w) (w_db (run (LinkService_TerminateLink u id notes) w).1).
Proof.
  destruct (run_TerminateLink u id notes w) as [[-> _]|(l & Hl & Ho & _ & Hc)]; [done|].
  pose proof (owner_of_link_found _ _ _ _ Hl Ho) as Hol.
  destruct Hc as [[-> _]|[[-> _]|(tid & now & Hn & ->)]]; [done| |].
  - by apply foreign_link_status.
  - by apply foreign_terminated.
Qed.

Lemma atoms_link_reads u e id r :
  match e with TerminateLink | AttachEndpointToLink _ => False | _ => True end →
  all_atoms (on_db (same_foreign u)) (serve_link e id u r).
Proof.
  destruct e; simpl; try done; intros _;
  unfold handleGetLink, handleGetLinkStats, handleGetLinkLogs, handleGetLinkGuestSessions,
    handleGetLinkSecurityEvents, handleGetLinkTermination, written; unfold_repos; atoms.
Qed.

Lemma frame_link u e id r w :
  owner_of_link (w_db w) id = Some u →
  same_foreign u (w_db w) (w_db (run (serve_link e id u r) w).1).
Proof.
  intros Ho. destruct e; try by apply frame_atoms, atoms_link_reads.
  - simpl. unfold handleTerminateLink. destruct (decode_terminateLink _) as [_ req].
    rewrite run_pbind. apply frame_TerminateLink.
  - simpl. unfold handleAttachEndpointToLink. destruct (uuid_Parse endpointID) as [eid|]; [|done].
    apply frame_done_or_internal. repo_links. unfold BlacklistRepo_AttachToLink.
    write_cases; [done|by apply foreign_attach_link..].
Qed.

Lemma foreign_after_cookies u sid d l d' :
  session_owner d sid = Some u → after_cookies sid d l d' → same_foreign u d d'.
Proof.
  intros Ho (m & new & -> & _ & _ & Hother). split; try done.
  intros sid' Hf. apply Hother. intros ->. by eapply owned_foreign.
Qed.

Lemma foreign_after_tokens u sid d l d' :
  session_owner d sid = Some u → after_tokens sid d l d' → same_foreign u d d'.
Proof.
  intros Ho (m & new & -> & _ & _ & Hother). split; try done.
  intros sid' Hf. apply Hother. intros ->. by eapply owned_foreign.
Qed.

Lemma after_cookies_sessions sid d l d' :
  after_cookies sid d l d' → original_sessions d' = original_sessions d.
Proof. by intros (m & new & -> & _). Qed.

Lemma frame_Import `{!AEADLaws _} u cipher baseDomain siteName baseURL cs ts w :
  same_foreign u (w_db w)
    (w_db (run (SessionImportService_Import cipher u baseDomain siteName baseURL cs ts) w).1).
Proof.
  unfold SessionImportService_Import. repo_sessions. rewrite run_bind, run_wrap. cbn [fst snd].
  assert (Hsite : same_foreign u (w_db w)
    (w_db (run (TargetSiteRepo_GetOrCreateByDomain baseDomain siteName baseURL) w).1)).
  { apply frame_atoms. unfold_repos. atoms. }
  destruct (run (TargetSiteRepo_GetOrCreateByDomain _ _ _) w) as [w1 [e|site]]; cbn [fst snd] in *; [done|].
  etrans; [exact Hsite|]. rewrite run_bind, run_wrap. cbn [fst snd].
  destruct (run_import_session u (TargetSite_ID site) w1) as (sid & m & Hsid & Hdb & Hok).
  assert (Hsess : same_foreign u (w_db w1) (w_db (run (OriginalSessionRepo_Create
    (mkOriginalSession uuid_Nil u (TargetSite_ID site) None "" None 0 None)) w1).1)).
  { apply frame_atoms. unfold OriginalSessionRepo_Create, scanOriginalSession. atoms. new_row. }
  destruct (run (OriginalSessionRepo_Create _) w1) as [w2 [e|s]]; cbn [fst snd] in *; [done|].
  destruct (Hok _ eq_refl) as [-> [now ->]]. cbn [OriginalSession_ID].
  etrans; [exact Hsess|]. rewrite run_bind.
  assert (session_owner (w_db w2) sid = Some u) as Ho2.
  { unfold session_owner. rewrite Hdb. cbn [original_sessions set_original_sessions]. by rewrite lookup_insert_eq. }
  destruct (run_store_cookies cipher sid cs w2) as (lc & Hc & _).
  destruct (run (store_cookies cipher sid cs) w2) as [w3 [e|[]]]; cbn [fst snd] in *;
    [by eapply foreign_after_cookies|].
  etrans; [by eapply foreign_after_cookies|]. rewrite run_bind.
  assert (session_owner (w_db w3) sid = Some u) as Ho3.
  { unfold session_owner. by rewrite (after_cookies_sessions _ _ _ _ Hc). }
  destruct (run_store_tokens cipher sid ts w3) as (lt & Ht & _).
  destruct (run (store_tokens cipher sid ts) w3) as [w4 [e|[]]]; cbn [fst snd] in *;
    by eapply foreign_after_tokens.
Qed.

(** The routes whose handler does not check who owns the row it changes. *)
Definition unguarded (e : endpoint) : bool :=
  match e with Owner (DeleteDevice _) | Owner (RevokeAPIKey _) => true | _ => false end.

Lemma frame_owner `{!AEADLaws _} s e u r w :
  unguarded (Owner e) = false → endpoints_keyed (w_db w) →
  same_foreign u (w_db w) (w_db (run (serve_owner s e u r) w).1).
Proof.
  intros Hg Hk. destruct (simple e) eqn:Hsimple; [by apply frame_atoms, atoms_simple|].
  destruct e; try done; simpl.
  - unfold handleImportSession. destruct (decode_importSession _) as [ok req]. case_match; [done|].
    unfold written. rewrite run_pbind. apply frame_Import.
  - apply frame_DeletePolicy.
  - apply frame_CreateBlacklistEndpoint.
  - by apply frame_DeleteBlacklistEndpoint.
  - by apply frame_SetBlockedMethods.
  - by apply frame_AttachBlacklistToSite.
  - apply frame_CreateLink.
Qed.
End frames.

(** ** The routes *)

Definition is_public (e : endpoint) : bool := match e with Public _ => true | _ => false end.

(** The request's bearer token authenticates [u]: as an API key of the database,
    or as a JWT of the service, at a reading of the clock. *)
Definition authenticated {PL : Platform} `{SHA256} `{JWT} (s : AuthService) (r : Request) (w : World) (u : UUID) : Prop :=
  ∃ token n, bearerToken r = Some token ∧ w_tick w ≤ n ∧
    if HasPrefix token "spk_" then key_authenticates (w_db w) token (env_now n) u
    else jwt_authenticates s token (env_now n) u.

Definition device_owner (d : DB) (id : UUID) : option UUID := Device_UserID <$> devices d !! id.
Definition key_owner (d : DB) (id : UUID) : option UUID := APIKey_UserID <$> api_keys d !! id.

(** The rows that the path of a request names, among the rows that have an owner:
    the parameter, what the owner is, and the answer for a row of someone else;
    none where the handler does not ask whose row it is. *)
Definition path_resources (e : endpoint) : list (string * (DB → UUID → option UUID) * option Reply) :=
  match e with
  | Owner (GetSession p) => [(p, session_owner, Some (writeError StatusNotFound "session not found"))]
  | Owner (DeletePolicy p) => [(p, policy_owner, Some (writeError StatusNotFound "policy not found"))]
  | Owner (DeleteBlacklistEndpoint p) | Owner (SetBlockedMethods p) | Owner (AttachBlacklistToSite p _) =>
      [(p, endpoint_owner, Some (writeError StatusNotFound "blacklist endpoint not found"))]
  | Owner (DeleteDevice p) => [(p, device_owner, None)]
  | Owner (RevokeAPIKey p) => [(p, key_owner, None)]
  | Owner _ | Public _ => []
  | OnLink p l =>
      (p, owner_of_link, Some (reply_Error "not found" StatusNotFound)) ::
      match l with AttachEndpointToLink rule => [(rule, endpoint_owner, None)] | _ => [] end
  end.

Section routes.
Context {PL : Platform} `{Bcrypt} `{SHA256} `{JWT} `{AEAD} `{JSONDecoder}.

Lemma run_verify_inr `{!JWTLaws _} s token w w' u :
  run (verify_token (AuthService_Authenticator s) token) w = (w', inr u) →
  ∃ n, w_tick w ≤ n ∧
    if HasPrefix token "spk_" then key_authenticates (w_db w) token (env_now n) u
    else jwt_authenticates s token (env_now n) u.
Proof.
  unfold verify_token, AuthService_Authenticator. cbn [Authenticator_VerifyJWT Authenticator_VerifyAPIKey].
  destruct (HasPrefix token "spk_"); intros Hrun.
  - apply run_VerifyAPIKey_inr in Hrun as [_ ?]. exists (S (w_tick w)). split; [lia|done].
  - apply run_VerifyJWT_inr in Hrun as [_ ?]. by exists (w_tick w).
Qed.

(** RequireAuth refuses, or runs the handler as an authenticated user, on the
    same tables. *)
Lemma run_RequireAuth `{!JWTLaws _} s (next : UUID → Request → P Reply) r w :
  let res := run (RequireAuth (AuthService_Authenticator s) next r) w in
  (Reply_status res.2 = StatusUnauthorized ∧ w_db res.1 = w_db w) ∨
  ∃ u w1, authenticated s r w u ∧ w_db w1 = w_db w ∧ res = run (next u r) w1.
Proof.
  unfold RequireAuth. destruct (bearerToken r) as [token|] eqn:Eb; [|by left].
  rewrite run_pbind. pose proof (run_verify_db s token w) as Hdb.
  destruct (run (verify_token _ token) w) as [w1 [e|u]] eqn:E; cbn [fst snd] in *; [by left|].
  right. exists u, w1. split; [|done]. apply run_verify_inr in E as (n & ? & ?). by exists token, n.
Qed.

Lemma run_RequireLinkOwnership param (next : UUID → UUID → Request → P Reply) u r w :
  let res := run (RequireLinkOwnership param next u r) w in
  ((Reply_status res.2 = StatusBadRequest ∨ Reply_status res.2 = StatusNotFound) ∧ w_db res.1 = w_db w) ∨
  ∃ id, uuid_Parse param = Some id ∧ owner_of_link (w_db w) id = Some u ∧ res = run (next id u r) (tick w).
Proof.
  unfold RequireLinkOwnership. destruct (uuid_Parse param) as [id|]; [|left; split; [by left|done]].
  rewrite run_pbind. repo_links. destruct (run_OwnerUserID id w) as (res & -> & Hres & _). cbn [fst snd].
  destruct res as [e|o]; [left; split; [by right|done]|]. case_decide as Ho; [left; split; [by right|done]|].
  right. exists id. destruct (Hres _ eq_refl) as (l & Hl & Hlo). subst o. split_and!; [done| |done].
  by eapply owner_of_link_found.
Qed.
(** A handler behind ownedBlacklistEndpoint, given the rule of someone else. *)
Lemma run_owned_foreign param u id (k : BlacklistedEndpoint → P Reply) d w :
  uuid_Parse param = Some id → w_db w = d → endpoint_owner d id ≠ Some u →
  ∃ w', run (let* e := ownedBlacklistEndpoint param u in
             match e with inl rep => Ret rep | inr existing => k existing end) w =
    (w', writeError StatusNotFound "blacklist endpoint not found") ∧ w_db w' = d.
Proof.
  intros Hp <- Ho. unfold ownedBlacklistEndpoint. rewrite run_pbind, Hp, run_pbind. repo_links.
  destruct (run_GetByID_endpoint id w) as (w' & res & -> & Hdb & Hres). cbn [fst snd]. exists w'.
  split; [|done]. destruct res as [err|x]; [done|]. destruct (Hres _ eq_refl) as (x' & Hx & _ & Hu).
  cbn [run fst snd]. rewrite decide_True; [done|]. intros Hxu. apply Ho. unfold endpoint_owner. rewrite Hx.
  simpl. congruence.
Qed.
End routes.

(** ** Properties *)

(** C11: isolation of owners, whatever fails.  A request to a route that is not
    public either is answered 401 and changes nothing, or its bearer token
    authenticates a user, and then, but for the two routes that delete a device
    and revoke a key, nothing that belongs to another user changes: no device,
    key, session, credential, link, policy, rule, attachment or termination. *)
Theorem Routes_isolated {PL : Platform} `{Bcrypt} `{SHA256} `{JWT} `{!JWTLaws _} `{AEAD} `{!AEADLaws _} `{JSONDecoder}
  s e r w w' rep
  (Hpublic : is_public e = false) (Hguard : unguarded e = false) (Hkeyed : endpoints_keyed (w_db w))
  (Hrun : run (Server_Routes s e r) w = (w', rep)) :
  (Reply_status rep = StatusUnauthorized ∧ w_db w' = w_db w) ∨
  ∃ u, authenticated (Server_Auth s) r w u ∧ same_foreign u (w_db w) (w_db w') ∧
    match e with
    | OnLink p _ => w_db w' = w_db w ∨ ∃ id, uuid_Parse p = Some id ∧ owner_of_link (w_db w) id = Some u
    | _ => True
    end.
Proof.
  destruct e as [e|e|p e]; [done|..]; unfold Server_Routes in Hrun.
  - destruct (run_RequireAuth (Server_Auth s) (serve_owner s e) r w) as [Hu|(u & w1 & Hauth & Hdb & Hres)];
      rewrite Hrun in *; [by left|right; exists u]. split_and!; [done| |done].
    pose proof (frame_owner s e u r w1 Hguard) as Hf. rewrite Hdb, <-Hres in Hf. by apply Hf.
  - destruct (run_RequireAuth (Server_Auth s) (RequireLinkOwnership p (serve_link e)) r w)
      as [Hu|(u & w1 & Hauth & Hdb & Hres)]; rewrite Hrun in *; [by left|right; exists u].
    destruct (run_RequireLinkOwnership p (serve_link e) u r w1) as [[_ Hsame]|(id & Hid & Ho & Hres')];
      rewrite <-Hres in *; cbn [fst snd] in *.
    + rewrite Hsame, Hdb. by split_and!; [| |left].
    + pose proof (frame_link u e id r (tick w1) Ho) as Hf. rewrite <-Hres' in Hf.
      cbn [w_db tick fst] in Hf. rewrite Hdb in *. split_and!; [done..|]. right. by exists id.
Qed.

(** C17: another user's resource cannot be told from one that does not exist.
    Whatever fails, an authenticated request whose path names a link, session,
    policy or rule which is not the caller's gets the same 404, byte for byte,
    whether the row belongs to someone else or is not there, and changes nothing.
    The other rows a path can name are not checked at all ([path_resources] has
    them with [None]): the device and the key to delete or revoke, and the rule to
    attach to a link ([foreign_key_revoked], [foreign_device_deleted],
    [foreign_rule_attached]). *)
Theorem foreign_is_not_found {PL : Platform} `{Bcrypt} `{SHA256} `{JWT} `{AEAD} `{JSONDecoder}
  s e r token w w1 u p owner not_found id
  (Hnamed : (p, owner, Some not_found) ∈ path_resources e) (Hid : uuid_Parse p = Some id)
  (Htoken : bearerToken r = Some token)
  (Hverify : run (verify_token (AuthService_Authenticator (Server_Auth s)) token) w = (w1, inr u))
  (Howner : owner (w_db w) id ≠ Some u) :
  Reply_status not_found = StatusNotFound ∧
  ∃ w', run (Server_Routes s e r) w = (w', not_found) ∧ w_db w' = w_db w.
Proof.
  pose proof (run_verify_db (Server_Auth s) token w) as Hdb. rewrite Hverify in Hdb. cbn [fst] in Hdb.
  assert (Hgo : ∀ next : UUID → Request → P Reply,
    run (RequireAuth (AuthService_Authenticator (Server_Auth s)) next r) w = run (next u r) w1).
  { intros next. unfold RequireAuth. rewrite Htoken, run_pbind, Hverify. done. }
  destruct e as [e|e|q e]; [by apply not_elem_of_nil in Hnamed| |]; unfold Server_Routes; rewrite Hgo; cbn [path_resources] in Hnamed.
  - destruct e; try (by apply not_elem_of_nil in Hnamed); apply list_elem_of_singleton in Hnamed; simplify_eq; (split; [done|]); simpl.
    + unfold handleGetSession. rewrite Hid, run_pbind. repo_sessions.
      destruct (run_OriginalSession_GetByID id w1) as (res & -> & Hres & _). exists (tick w1).
      split; [|exact Hdb]. destruct res as [err|x]; [done|]. cbn [fst snd run]. specialize (Hres _ eq_refl).
      rewrite decide_True; [done|]. intros Hxu. apply Howner. unfold session_owner. rewrite <-Hdb, Hres. simpl. congruence.
    + unfold handleDeletePolicy. rewrite Hid, run_pbind. repo_links.
      destruct (run_GetByID_policy id w1) as (res & -> & Hres). cbn [fst snd]. exists (tick w1).
      split; [|exact Hdb]. destruct res as [err|x]; [done|]. specialize (Hres _ eq_refl).
      rewrite decide_True; [done|]. intros Hxu. apply Howner. unfold policy_owner. rewrite <-Hdb, Hres. simpl. congruence.
    + unfold handleDeleteBlacklistEndpoint. by eapply run_owned_foreign.
    + unfold handleSetBlockedMethods. by eapply run_owned_foreign.
    + unfold handleAttachBlacklistToSite. by eapply run_owned_foreign.
  - apply elem_of_cons in Hnamed as [Hnamed|Hnamed].
    2:{ exfalso. destruct e; try (by apply not_elem_of_nil in Hnamed). by apply list_elem_of_singleton in Hnamed. }
    simplify_eq. split; [done|]. unfold RequireLinkOwnership. rewrite Hid, run_pbind. repo_links.
    destruct (run_OwnerUserID id w1) as (res & -> & Hres & _). cbn [fst snd]. exists (tick w1).
    split; [|exact Hdb]. destruct res as [err|x]; [done|]. destruct (Hres _ eq_refl) as (l & Hl & Ho).
    rewrite decide_True; [done|]. intros ->. apply Howner. rewrite <-Hdb. by eapply owner_of_link_found.
Qed.

(** ** Witnesses *)

Definition demo_policy_reply : Z := Reply_status (demo_serve (Owner CreatePolicy) "spk_nine").2.
Lemma demo_policy_status : demo_policy_reply = 201%Z.
Proof. vm_compute. reflexivity. Qed.

Lemma demo_endpoints_keyed : endpoints_keyed demo_api_db.
Proof. intros id e. simpl. intros [<- <-]%lookup_singleton_Some. done. Qed.

Lemma Routes_isolated_witness :
  demo_policy_reply = 201%Z ∧
  ∃ u, @authenticated demo demo_sha256 demo_jwt demo_auth (demo_call "spk_nine") (demo_world demo_api_db) u ∧
    same_foreign u demo_api_db (w_db (demo_serve (Owner CreatePolicy) "spk_nine").1).
Proof.
  split; [exact demo_policy_status|].
  destruct (@Routes_isolated demo demo_bcrypt demo_sha256 demo_jwt demo_jwt_laws demo_aead demo_aead_laws demo_json
    demo_server (Owner CreatePolicy) (demo_call "spk_nine") (demo_world demo_api_db)
    (demo_serve (Owner CreatePolicy) "spk_nine").1 (demo_serve (Owner CreatePolicy) "spk_nine").2)
    as [[Hu _]|(u & Hu & Hf & _)].
  - reflexivity.
  - reflexivity.
  - exact demo_endpoints_keyed.
  - apply surjective_pairing.
  - exfalso. change (demo_policy_reply = 401%Z) in Hu. rewrite demo_policy_status in Hu. discriminate Hu.
  - by exists u.
Defined.

Definition demo_verify :=
  run (verify_token (@AuthService_Authenticator demo demo_sha256 demo_jwt _ demo_auth) "spk_nine")
    (demo_world demo_api_db).
Lemma demo_verify_result : demo_verify.2 = inr 9%N.
Proof. vm_compute. reflexivity. Qed.

Lemma demo_bearer_nine : bearerToken (demo_call "spk_nine") = Some "spk_nine".
Proof. vm_compute. reflexivity. Qed.

Lemma foreign_is_not_found_witness :
  policy_owner demo_api_db 7%N = Some 1%N ∧
  ∃ w', demo_serve (Owner (DeletePolicy (demo_uuid 7))) "spk_nine" =
    (w', writeError StatusNotFound "policy not found") ∧ w_db w' = demo_api_db.
Proof.
  split; [vm_compute; reflexivity|].
  apply (@foreign_is_not_found demo demo_bcrypt demo_sha256 demo_jwt demo_aead demo_json demo_server
    (Owner (DeletePolicy (demo_uuid 7))) (demo_call "spk_nine") "spk_nine" (demo_world demo_api_db) demo_verify.1 9%N
    (demo_uuid 7) policy_owner (writeError StatusNotFound "policy not found") 7%N).
  - apply list_elem_of_singleton. reflexivity.
  - vm_compute. reflexivity.
  - exact demo_bearer_nine.
  - rewrite <-demo_verify_result. apply surjective_pairing.
  - vm_compute. discriminate.
Defined.

(** *** What the routes do not guard *)

Definition demo_revoke := demo_serve (Owner (RevokeAPIKey (demo_uuid 29))) "spk_one".

(** User 1 revokes the key of user 9. *)
Lemma foreign_key_revoked :
  Reply_status demo_revoke.2 = StatusNoContent ∧
  APIKey_UserID <$> api_keys demo_api_db !! 29%N = Some 9%N ∧
  (api_keys demo_api_db !! 29%N ≫= APIKey_RevokedAt) = None ∧
  is_Some (api_keys (w_db demo_revoke.1) !! 29%N ≫= APIKey_RevokedAt).
Proof. split_and!; [by vm_compute..|]. eexists. vm_compute. reflexivity. Qed.

(** What user 9 gets for [e], on a database that also has a device of user 1. *)
Definition demo_nine (e : endpoint) (d : DB) : World (PL := demo) * Reply :=
  run (@Server_Routes demo demo_bcrypt demo_sha256 demo_jwt demo_aead demo_json _ _ _ _ _ _ _ _ _ _ _ _ _ _ _ _
         demo_server e (demo_call "spk_nine")) (demo_world d).

Definition demo_device_db : DB := set_devices (λ _, {[ 25%N := mkDevice 25 1 None None None 0 ]}) demo_api_db.

(** User 9 deletes the device of user 1. *)
Lemma foreign_device_deleted :
  let res := demo_nine (Owner (DeleteDevice (demo_uuid 25))) demo_device_db in
  Reply_status res.2 = StatusNoContent ∧ device_owner demo_device_db 25%N = Some 1%N ∧
  device_owner (w_db res.1) 25%N = None.
Proof. by vm_compute. Qed.

Definition demo_own_link_db : DB := set_original_sessions (λ _, {[ 2%N := mkOriginalSession 2 9 3 None "active" None 0 None ]}) demo_api_db.

(** A rule of another user, attached to a link of one's own. *)
Lemma foreign_rule_attached :
  let d := set_blacklisted_endpoints (λ _, {[ 8%N := mkBlacklistedEndpoint 8 1 "/pay" PatternTypePrefix None 0 [] ]}) demo_own_link_db in
  let res := demo_nine (OnLink (demo_uuid 5) (AttachEndpointToLink (demo_uuid 8))) d in
  Reply_status res.2 = StatusNoContent ∧ endpoint_owner d 8%N = Some 1%N ∧ owner_of_link d 5%N = Some 9%N ∧
  bool_decide ((5%N, 8%N) ∈ link_endpoint_rules (w_db res.1)) = true.
Proof. by vm_compute. Qed.

(** The session that the body of a new link names can be told: 404 when it is of
    another user, 500 when it does not exist. *)
Lemma create_link_tells_sessions :
  Reply_status (demo_nine (Owner CreateLink) demo_api_db).2 = StatusNotFound ∧
  session_owner demo_api_db 2%N = Some 1%N ∧
  Reply_status (demo_nine (Owner CreateLink) (set_original_sessions (λ _, ∅) demo_api_db)).2 = StatusInternalServerError.
Proof. by vm_compute. Qed.

Definition demo_attach :=
  demo_serve (Owner (AttachBlacklistToSite (demo_uuid 8) (demo_uuid 3))) "spk_nine".

Definition demo_rules (d : DB) : nat :=
  match (run (BlacklistRepo_RulesForLink (PL := demo) 5%N 3%N) (demo_world d)).2 with
  | inr l => length l
  | inl _ => 0
  end.

(** A rule that user 9 attaches to a site, which has no owner, applies to the
    link of user 1 for this site. *)
Lemma site_rule_hits_foreign_links :
  owner_of_link demo_api_db 5%N = Some 1%N ∧
  Reply_status demo_attach.2 = StatusNoContent ∧
  demo_rules demo_api_db = 0 ∧ demo_rules (w_db demo_attach.1) = 1.
Proof. by vm_compute. Qed.
