(* ===== verification/Confidentiality.v ===== *)
(** * What a request of one owner can read

    The value a REST reply gives to the encoder concerns the caller only: the
    rows in it are the caller's, or hang on a link of the caller. *)

From S2P Require Import Prelude GoStrings Domain Http Schema Platform Effects Interfaces RepoLinks RepoUsers RepoSessions RepoGuests RepoLogs Links Crypto Import Auth Middleware Rest Ownership.

Open Scope go_scope.

(** ** Specification *)

(** The email address in a map of scalars. *)
Fixpoint email_field (fields : list (string * json_scalar)) : option string :=
  match fields with
  | [] => None
  | (k, JString s) :: fields' => if decide (k = "email") then Some s else email_field fields'
  | _ :: fields' => email_field fields'
  end.

(** A guest of one of the links of [u]. *)
Definition guest_of (d : DB) (u : UUID) (g : Guest) : Prop :=
  ∃ id gs, guest_sessions d !! id = Some gs ∧ GuestSession_GuestID gs = Some (Guest_ID g) ∧
    owner_of_link d (GuestSession_SharedLinkID gs) = Some u.

(** The rows of a value that belong to somebody belong to [u], or to a link of
    [u].  Sites and revocation reasons belong to nobody. *)
Definition concerns (d : DB) (u : UUID) (v : json_value) : Prop :=
  let on_own_link id := owner_of_link d id = Some u in
  match v with
  | JDevice x => Device_UserID x = u
  | JDevices l => Forall (λ x, Device_UserID x = u) l
  | JAPIKeys l => Forall (λ x, APIKey_UserID x = u) l
  | JSession x => OriginalSession_UserID x = u
  | JSessions l => Forall (λ x, OriginalSession_UserID x = u) l
  | JPolicy x => AccessPolicy_UserID x = u
  | JPolicies l => Forall (λ x, AccessPolicy_UserID x = u) l
  | JEndpoint x => BlacklistedEndpoint_UserID x = u
  | JEndpoints l => Forall (λ x, BlacklistedEndpoint_UserID x = u) l
  | JLink x => link_owner d x = Some u
  | JLinks l => Forall (λ x, link_owner d x = Some u) l
  | JStats s => on_own_link (LinkStats_SharedLinkID s)
  | JLogs l => Forall (λ x, on_own_link (ProxyAccessLog_SharedLinkID x)) l
  | JGuestSessions l => Forall (λ x, on_own_link (GuestSession_SharedLinkID x)) l
  | JEvents l => Forall (λ x, on_own_link (SecurityEvent_SharedLinkID x)) l
  | JTermination t => on_own_link (LinkTermination_SharedLinkID t)
  | JGuests l => Forall (guest_of d u) l
  | JMap fields => match email_field fields with Some s => User_Email <$> users d !! u = Some s | None => True end
  | JSite _ | JSites _ | JReasons _ => True
  end.

Definition body_concerns (d : DB) (u : UUID) (b : reply_body) : Prop :=
  match b with Json v => concerns d u v | _ => True end.

(** ** Lemmas *)

Lemma Forall_order_desc {V} (P : V → Prop) key (l : list V) : Forall P l → Forall P (order_desc key l).
Proof. by rewrite order_desc_perm. Qed.

Lemma Forall_filter_self {V} (P Q : V → Prop) `{∀ x, Decision (P x)} (l : list V) :
  (∀ x, P x → Q x) → Forall Q (filter P l).
Proof. intros HPQ. rewrite Forall_forall. intros x [Hx _]%list_elem_of_filter. auto. Qed.

Lemma Forall_limit {V} (P : V → Prop) n (l : list V) : Forall P l → Forall P (limit n l).
Proof. apply Forall_take. Qed.

Lemma head_filter {V} (P : V → Prop) `{∀ x, Decision (P x)} (l : list V) x :
  head (filter P l) = Some x → P x.
Proof.
  intros E. assert (x ∈ filter P l) as Hx by (destruct (filter P l); simplify_eq/=; set_solver).
  by apply list_elem_of_filter in Hx as [? _].
Qed.

Lemma head_order_filter {V} (P : V → Prop) `{∀ x, Decision (P x)} key (l : list V) x :
  head (order_desc key (filter P l)) = Some x → P x.
Proof.
  intros E. pose proof (Forall_order_desc P key _ (Forall_filter_self P P l (λ x Hx, Hx))) as HF.
  destruct (order_desc _ _); simplify_eq/=. by inversion HF.
Qed.

Create HintDb listing.
#[export] Hint Resolve Forall_order_desc Forall_filter_self Forall_limit : listing.

Section confidential.
Context {PL : Platform} `{Bcrypt} `{SHA256} `{JWT} `{AEAD} `{JSONDecoder}.

Lemma body_written {A} d u status (json : A → json_value) (m : M A) w :
  (∀ w' a, run m w = (w', inr a) → concerns d u (json a)) →
  body_concerns d u (Reply_body (run (written status json m) w).2).
Proof.
  intros Hm. unfold written. rewrite run_pbind. destruct (run m w) as [w' [e|a]] eqn:E; [done|].
  by apply (Hm w' a).
Qed.

Lemma body_done_or_internal d u (m : M unit) w :
  body_concerns d u (Reply_body (run (done_or_internal m) w).2).
Proof. unfold done_or_internal. rewrite run_pbind. by destruct (run m w) as [w' [e|a]]. Qed.

(** A statement behind its error wrapping that returned [a]. *)
Lemma run_wrap_sql_inr {A} msg (stmt : UUID → GoTime → DB → sql_result A) w w' a :
  run (wrap msg (sql stmt)) w = (w', inr a) →
  ∃ d, stmt (env_uuid (w_tick w)) (timestamptz (env_now (w_tick w))) (w_db w) = inr (a, d).
Proof. intros (d & Hs & _)%run_wrap_inr%run_sql_inr. eauto. Qed.

(** The loaded methods leave the rest of the rows. *)
Lemma run_load_methods u l w w' out :
  Forall (λ x, BlacklistedEndpoint_UserID x = u) l →
  run (load_methods l) w = (w', inr out) → Forall (λ x, BlacklistedEndpoint_UserID x = u) out.
Proof.
  intros Hl. revert w out. induction Hl as [|e l He _ IH]; intros w out; cbn [load_methods].
  { rewrite run_ret. intros; simplify_eq. done. }
  rewrite run_bind_inr. intros (w1 & ms & _ & (w2 & rest & Hrest & Hr)%run_bind_inr).
  rewrite run_ret in Hr. simplify_eq. constructor; [done|eauto].
Qed.

Ltac read_stmt :=
  match goal with
  | Hr : run (wrap _ (sql _)) _ = (_, inr _) |- _ =>
      apply run_wrap_sql_inr in Hr as (? & Hr); cbv zeta in Hr; invert_stmt
  end.

(** A reply written from one statement. *)
Ltac from_stmt :=
  apply body_written; intros w' a; unfold_repos; intros Hr; read_stmt; simpl; auto with listing.

Lemma post_pbind {A} (Q : Reply → Prop) (m : P A) (k : A → Reply) w :
  (∀ w' a, run m w = (w', a) → Q (k a)) → Q (run (pbind m (λ a, Ret (k a))) w).2.
Proof. intros Hm. rewrite run_pbind. destruct (run m w) as [w' a] eqn:E. by apply (Hm w' a). Qed.

Lemma list_endpoints_confidential u w :
  body_concerns (w_db w) u (Reply_body (run (handleListBlacklist u) w).2).
Proof.
  apply body_written. repo_links. unfold BlacklistRepo_ListByUser.
  intros w' out (w1 & l & Hl & Hout)%run_bind_inr. read_stmt.
  eapply run_load_methods; [|exact Hout]. auto with listing.
Qed.

Lemma create_endpoint_confidential u r w :
  body_concerns (w_db w) u (Reply_body (run (handleCreateBlacklistEndpoint u r) w).2).
Proof.
  unfold handleCreateBlacklistEndpoint. destruct (decode_createBlacklist _) as [ok req].
  repeat (case_match; [done|]). rewrite run_pbind. repo_links.
  unfold BlacklistRepo_Create, scanBlacklistedEndpoint.
  destruct (run (wrap _ _) w) as [w1 [e|created]] eqn:Hr; cbn [fst snd]; [done|]. read_stmt.
  destruct (decide (createBlacklistRequest_Methods req = [])); [done|]. by apply body_written.
Qed.

Lemma run_CreateLink_owner u input w w' link :
  run (LinkService_CreateLink u input) w = (w', (link, None)) → link_owner (w_db w) link = Some u.
Proof.
  intros (session & raw & expiry & id & now & Hs & <- & _ & ->)%run_CreateLink_row.
  by eapply link_owner_session.
Qed.

Lemma create_link_confidential u r w :
  body_concerns (w_db w) u (Reply_body (run (handleCreateLink u r) w).2).
Proof.
  unfold handleCreateLink. destruct (decode_createLink _) as [ok req]. case_match; [done|].
  apply (post_pbind (λ rep, body_concerns (w_db w) u (Reply_body rep))).
  intros w' [link [err|]] Hr; [by repeat case_match|]. by eapply run_CreateLink_owner.
Qed.

Lemma run_Import_owner cipher u baseDomain siteName baseURL cs ts w w' s :
  run (SessionImportService_Import cipher u baseDomain siteName baseURL cs ts) w = (w', inr s) →
  OriginalSession_UserID s = u.
Proof.
  unfold SessionImportService_Import. repo_sessions.
  intros (w1 & site & _ & (w2 & sess & Hsess%run_wrap_inr & Hrest)%run_bind_inr)%run_bind_inr.
  apply run_bind_inr in Hrest as (w3 & [] & _ & (w4 & [] & _ & Hr)%run_bind_inr). rewrite run_ret in Hr.
  simplify_eq. destruct (run_import_session u (TargetSite_ID site) w1) as (sid & m & _ & _ & Hok).
  rewrite Hsess in Hok. by destruct (Hok _ eq_refl) as [_ [now ->]].
Qed.

Lemma owned_param_confidential u param (k : BlacklistedEndpoint → P Reply) d w :
  (∀ e w', body_concerns d u (Reply_body (run (k e) w').2)) →
  body_concerns d u (Reply_body (run (let* e := ownedBlacklistEndpoint param u in
    match e with inl rep => Ret rep | inr existing => k existing end) w).2).
Proof.
  intros Hk. rewrite run_pbind. unfold ownedBlacklistEndpoint.
  destruct (uuid_Parse param); [|done]. rewrite run_pbind. cbn [run snd fst].
  destruct (run (Blacklist_GetByID n) w) as [w' [e|x]]; cbn [fst snd]; [done|]. case_decide; [done|apply Hk].
Qed.

Lemma owner_confidential s e u r w :
  e ≠ ListGuests → body_concerns (w_db w) u (Reply_body (run (serve_owner s e u r) w).2).
Proof.
  intros Hguests. destruct e; cbn [serve_owner].
  - unfold handleMe. apply (post_pbind (λ rep, body_concerns (w_db w) u (Reply_body rep))).
    intros w' [e|x]; [done|]. unfold_repos. intros Hr. read_stmt. cbn.
    match goal with E : users _ !! _ = Some _ |- _ => by rewrite E end.
  - unfold handleCreateTargetSite. destruct (decode_createTargetSite _). case_match; [done|]. by apply body_written.
  - from_stmt.
  - unfold handleCreateDevice. destruct (decode_createDevice _) as [[] req]; [|done]. cbn [negb]. from_stmt.
  - unfold handleDeleteDevice. destruct (uuid_Parse _); [|done]. apply body_done_or_internal.
  - from_stmt.
  - unfold handleCreateAPIKey. destruct (decode_createAPIKey _) as [[] req]; [|done].
    cbn [negb]. rewrite run_pbind. by apply body_written.
  - unfold handleRevokeAPIKey. destruct (uuid_Parse _); [|done]. apply body_done_or_internal.
  - from_stmt.
  - unfold handleImportSession. destruct (decode_importSession _) as [ok req]. case_match; [done|].
    apply body_written. intros w' a Hr. by eapply run_Import_owner.
  - unfold handleGetSession. destruct (uuid_Parse _); [|done].
    apply (post_pbind (λ rep, body_concerns (w_db w) u (Reply_body rep))).
    intros w' [e|x] _; [done|]. by case_decide.
  - from_stmt.
  - unfold handleCreatePolicy. destruct (decode_createPolicy _) as [ok req]. case_match; [done|]. from_stmt.
  - unfold handleDeletePolicy. destruct (uuid_Parse _); [|done]. rewrite run_pbind.
    destruct (run (AccessPolicies_GetByID n) w) as [w' [e|x]]; cbn [fst snd]; [done|].
    case_decide; [done|apply body_done_or_internal].
  - apply list_endpoints_confidential.
  - apply create_endpoint_confidential.
  - apply owned_param_confidential. intros. apply body_done_or_internal.
  - apply owned_param_confidential. intros. destruct (decode_setBlockedMethods _) as [[] req]; [|done].
    apply body_done_or_internal.
  - apply owned_param_confidential. intros. destruct (uuid_Parse _); [|done]. apply body_done_or_internal.
  - done.
  - from_stmt. apply Forall_order_desc, Forall_filter_self. by intros l [].
  - apply create_link_confidential.
Qed.

Lemma own_link_row d id u l :
  owner_of_link d id = Some u → shared_links d !! id = Some l → link_owner d l = Some u.
Proof. intros Ho Hl. by rewrite (owner_of_link_Some _ _ _ Hl) in Ho. Qed.

Lemma link_confidential u e id r w :
  owner_of_link (w_db w) id = Some u →
  body_concerns (w_db w) u (Reply_body (run (serve_link e id u r) w).2).
Proof.
  intros Ho. destruct e; cbn [serve_link].
  - unfold handleGetLink. apply (post_pbind (λ rep, body_concerns (w_db w) u (Reply_body rep))).
    intros w' [e|l]; [done|]. unfold_repos. intros Hr. read_stmt. by eapply own_link_row.
  - unfold handleTerminateLink. destruct (decode_terminateLink _) as [ok req].
    apply (post_pbind (λ rep, body_concerns (w_db w) u (Reply_body rep))).
    intros w' [e|l] _; [by case_match|done].
  - apply body_written. intros w' a. unfold_repos. rewrite run_pbind. read_row res.
    destruct res as [e|st].
    + destruct (errors_Is e pgx_ErrNoRows); rewrite ?run_ret, ?run_fail; intros; by simplify_eq.
    + rewrite run_ret. intros; simplify_eq. specialize (Hread _ eq_refl). invert_stmt.
      match goal with E : head _ = Some _ |- _ => apply head_filter in E as <- end. done.
  - from_stmt. apply Forall_limit, Forall_order_desc, Forall_filter_self. by intros x ->.
  - from_stmt. apply Forall_order_desc, Forall_filter_self. by intros x ->.
  - from_stmt. apply Forall_limit, Forall_order_desc, Forall_filter_self. by intros x ->.
  - unfold handleGetLinkTermination. apply (post_pbind (λ rep, body_concerns (w_db w) u (Reply_body rep))).
    intros w' [e|[t|]]; [done| |done]. unfold_repos. rewrite run_pbind. read_row res.
    destruct res as [e|t'].
    + destruct (errors_Is e pgx_ErrNoRows); rewrite ?run_ret, ?run_fail; intros; by simplify_eq.
    + rewrite run_ret. intros; simplify_eq. specialize (Hread _ eq_refl). invert_stmt.
      match goal with E : head (order_desc _ _) = Some _ |- _ => apply head_order_filter in E as <- end. done.
  - unfold handleAttachEndpointToLink. destruct (uuid_Parse _); [|done]. apply body_done_or_internal.
Qed.
End confidential.

(** ** Properties *)

(** C12: confidentiality between owners, whatever fails.  A request to a route
    that is neither public nor the list of guests (which shows the guests of all
    owners: [guests_of_others_listed]) either is answered 401, or its bearer token
    authenticates a user, and every owned row in the reply is that user's: the
    user's email address, devices, keys, sessions, policies, rules and links, and
    logs, guest sessions, events, statistics and the termination of a link of the
    user.  Target sites, which all owners share, belong to nobody. *)
Theorem Routes_confidential {PL : Platform} `{Bcrypt} `{SHA256} `{JWT} `{!JWTLaws _} `{AEAD} `{JSONDecoder}
  s e r w w' rep
  (Hpublic : is_public e = false) (Hguests : e ≠ Owner ListGuests) (Hrun : run (Server_Routes s e r) w = (w', rep)) :
  Reply_status rep = StatusUnauthorized ∨
  ∃ u, authenticated (Server_Auth s) r w u ∧ body_concerns (w_db w) u (Reply_body rep).
Proof.
  destruct e as [e|e|p e]; [done|..]; unfold Server_Routes in Hrun.
  - destruct (run_RequireAuth (Server_Auth s) (serve_owner s e) r w) as [[Hu _]|(u & w1 & Hauth & Hdb & Hres)];
      rewrite Hrun in *; [by left|right; exists u]. split; [done|].
    pose proof (owner_confidential s e u r w1 ltac:(congruence)) as Hc. by rewrite <-Hres, Hdb in Hc.
  - destruct (run_RequireAuth (Server_Auth s) (RequireLinkOwnership p (serve_link e)) r w)
      as [[Hu _]|(u & w1 & Hauth & Hdb & Hres)]; rewrite Hrun in *; [by left|right; exists u].
    split; [done|]. unfold RequireLinkOwnership in Hres. cbn [snd] in *.
    destruct (uuid_Parse p) as [id|]; [|by injection Hres as _ ->]. rewrite run_pbind in Hres.
    revert Hres. repo_links. destruct (run_OwnerUserID id w1) as (res & -> & Ho & _). cbn [fst snd].
    destruct res as [err|o]; [by intros [= _ ->]|]. case_decide as Heq; [by intros [= _ ->]|].
    intros Hres. destruct (Ho _ eq_refl) as (l & Hl & Hlo). subst o.
    pose proof (link_confidential u e id r (tick w1) (owner_of_link_found _ _ _ _ Hl Hlo)) as Hc.
    rewrite <-Hres in Hc. cbn [w_db tick snd] in Hc. by rewrite Hdb in Hc.
Qed.

(** ** The list of guests *)

(** A guest of the link of user 1. *)
Definition demo_guest_row : Guest := mkGuest 31 (Some "203.0.113.7") (Some "curl") None 0 None.

Definition demo_guest_db : DB :=
  set_guest_sessions (λ _, {[ 32%N := mkGuestSession 32 5 (Some 31%N) "active" 0 None None ]})
  (set_guests (λ _, {[ 31%N := demo_guest_row ]}) demo_api_db).

(** User 9 is shown the address of a guest of user 1. *)
Lemma guests_of_others_listed :
  Reply_body (demo_nine (Owner ListGuests) demo_guest_db).2 = Json (JGuests [demo_guest_row]) ∧
  guest_of demo_guest_db 1%N demo_guest_row ∧ ¬ guest_of demo_guest_db 9%N demo_guest_row.
Proof.
  split; [vm_compute; reflexivity|]. split.
  - eexists 32%N, _. split; [apply lookup_singleton_eq|]. split; [reflexivity|]. vm_compute. reflexivity.
  - intros (id & gs & Hgs & _ & Ho). 
    change (guest_sessions demo_guest_db) with
      ({[ 32%N := mkGuestSession 32 5 (Some 31%N) "active" 0 None None ]} : gmap UUID GuestSession) in Hgs.
    apply lookup_singleton_Some in Hgs as [<- <-]. vm_compute in Ho. discriminate Ho.
Qed.

(** ** Witnesses *)

Definition demo_get_session := demo_serve (Owner (GetSession (demo_uuid 2))) "spk_one".
Lemma demo_get_session_status : Reply_status demo_get_session.2 = 200%Z.
Proof. vm_compute. reflexivity. Qed.

Lemma Routes_confidential_witness :
  Reply_status demo_get_session.2 = 200%Z ∧
  ∃ u, @authenticated demo demo_sha256 demo_jwt demo_auth (demo_call "spk_one") (demo_world demo_api_db) u ∧
    body_concerns demo_api_db u (Reply_body demo_get_session.2).
Proof.
  split; [exact demo_get_session_status|].
  destruct (@Routes_confidential demo demo_bcrypt demo_sha256 demo_jwt demo_jwt_laws demo_aead demo_json
    demo_server (Owner (GetSession (demo_uuid 2))) (demo_call "spk_one") (demo_world demo_api_db)
    demo_get_session.1 demo_get_session.2) as [Hu|H].
  - reflexivity.
  - discriminate.
  - apply surjective_pairing.
  - exfalso. rewrite demo_get_session_status in Hu. discriminate Hu.
  - exact H.
Defined.
