(* ===== verification/Feed.v ===== *)
(** * Live feeds: a subscription to the hub and its select loop

    The loop that AdminService.StreamLinkActivity (admin_service.go) and the
    dashboard's handleSecurityFeedSSE (webui/handlers.go) share: wait for the end
    of the request or an event, check the event, write it to the client.  Between
    two iterations anything can happen: other goroutines use the hub
    ([FeedHub]) and change the rest of the world ([FeedWorld]). *)

From S2P Require Import Prelude GoStrings Domain PubSub Schema Platform Effects Interfaces RepoLinks Links Crypto Import Auth Middleware Rest Ownership.

Import PubSub.

Open Scope go_scope.

(** ** Definitions *)

(** [hub.Subscribe()]: the channel. *)
Definition hub_Subscribe {PL : Platform} : P nat :=
  atom (λ w, let '(ch, h) := Subscribe (w_hub w) in (set_hub h w, ch)).

(** What happens next: the request's context is done; the channel is read, and
    a write to the client, if there is one, succeeds or not; others act. *)
Inductive feed_event {PL : Platform} : Type :=
| FeedDone
| FeedReceive (write_ok : bool)
| FeedHub (a : action)
| FeedWorld (w : World).

(** [err != nil || owner != userID], negated. *)
Definition owns {PL : Platform} `{!SharedLinkRepository} (userID linkID : UUID) : P bool :=
  let* o := SharedLinks_OwnerUserID linkID in
  Ret (match o with inl _ => false | inr owner => bool_decide (owner = userID) end).

(** The events written so far, and whether the loop still runs. *)
Record feed_state := mkFeed { feed_sent : list Event; feed_open : bool }.

Section feed.
Context {PL : Platform}.
(** The channel, and the check of an event. *)
Context (ch : nat) (wanted : Event → P bool).

(** [return], with the deferred [cancel()]. *)
Definition feed_return (sent : list Event) (w : World) : feed_state * World :=
  (mkFeed sent false, set_hub (default (w_hub w) (cancel ch (w_hub w))) w).

Definition feed_step (ev : feed_event) (s : feed_state) (w : World) : feed_state * World :=
  match ev with
  | FeedHub a =>
      (s, match hub_step a (w_hub w) with Some (h, _) => set_hub h w | None => w end)
  | FeedWorld w' => (s, set_hub (w_hub w) w')
  | _ =>
      if negb (feed_open s) then (s, w)
      else match ev with
      | FeedReceive write_ok =>
          match receive ch (w_hub w) with
          | Some (Received evt, h) =>
              let '(w1, b) := run (wanted evt) (set_hub h w) in
              if negb b then (s, w1)
              else if write_ok then (mkFeed (feed_sent s ++ [evt]) true, w1)
              else feed_return (feed_sent s) w1
          | Some (Closed, h) => feed_return (feed_sent s) (set_hub h w)
          | _ => (s, w)
          end
      | _ => feed_return (feed_sent s) w
      end
  end.

Fixpoint feed_steps (evs : list feed_event) (s : feed_state) (w : World) : feed_state * World :=
  match evs with
  | [] => (s, w)
  | ev :: evs' => let '(s', w') := feed_step ev s w in feed_steps evs' s' w'
  end.

(** ** Specification *)

(** The events read from the channel, each with the world at its check. *)
Definition feed_read (ev : feed_event) (s : feed_state) (w : World) : list (World * Event) :=
  match ev with
  | FeedReceive _ =>
      if negb (feed_open s) then []
      else match receive ch (w_hub w) with
           | Some (Received evt, h) => [(set_hub h w, evt)]
           | _ => []
           end
  | _ => []
  end.

Fixpoint feed_checks (evs : list feed_event) (s : feed_state) (w : World) : list (World * Event) :=
  match evs with
  | [] => []
  | ev :: evs' => feed_read ev s w ++ let '(s', w') := feed_step ev s w in feed_checks evs' s' w'
  end.

Definition passes (we : World * Event) : bool := (run (wanted we.2) we.1).2.

(** Others do not use this subscription. *)
Definition of_others (ev : feed_event) : Prop :=
  match ev with FeedHub (ACancel id) | FeedHub (AReceive id) => id ≠ ch | _ => True end.

(** The publications among what happens. *)
Definition feed_published (evs : list feed_event) : list Event :=
  omap (λ ev, match ev with FeedHub (APublish e) => Some e | _ => None end) evs.

(** ** Lemmas *)

Context (wanted_hub : ∀ e w, w_hub (run (wanted e) w).1 = w_hub w).

(** A feed on a well-formed hub, whose channel exists. *)
Record feed_wf (s : feed_state) (w : World) : Prop := {
  fw_hub : hub_wf (w_hub w);
  fw_ch : ch < hub_next (w_hub w);
  fw_closed : feed_open s = false → ch ∉ hub_subs (w_hub w) }.

Lemma feed_return_spec sent w s' w' :
  hub_wf (w_hub w) → ch < hub_next (w_hub w) → feed_return sent w = (s', w') →
  feed_wf s' w' ∧ s' = mkFeed sent false ∧ buffered (w_hub w') ch = buffered (w_hub w) ch.
Proof.
  intros Hwf Hch [= <- <-]. destruct (cancel_spec ch _ Hwf) as (h & -> & ? & ? & Hb & Hn).
  split; [|by split; [|apply Hb]]. split; simpl; [done|by rewrite Hn|done].
Qed.

Lemma hub_step_others a h h' o :
  hub_wf h → of_others (FeedHub a) → hub_step a h = Some (h', o) →
  (ch ∉ hub_subs h → ch < hub_next h → ch ∉ hub_subs h') ∧ hub_next h ≤ hub_next h' ∧
  (buffered h' ch = buffered h ch ∨ ∃ e, a = APublish e ∧ buffered h' ch = buffered h ch ++ [e]).
Proof.
  intros Hwf Ho. destruct a as [|id|e|id]; simpl in *.
  - intros [= <- <-]. split; [simpl; set_unfold; naive_solver lia|]. split; [simpl; lia|].
    left. by apply buffered_subscribe.
  - destruct (cancel_spec id h Hwf) as (h1 & Hc & _ & _ & Hb & Hn). rewrite Hc. intros; simplify_eq/=.
    split; [|split; [lia|by left]]. unfold cancel in Hc. case_decide; [|by simplify_eq].
    apply bind_Some in Hc as (c & _ & Hc). apply bind_Some in Hc as (c' & _ & Hc). simplify_eq. set_solver.
  - destruct (Publish_spec e h Hwf) as (h1 & HP & Hs & Hn & _). rewrite HP. intros; simplify_eq/=.
    rewrite Hs, Hn. split; [done|]. split; [done|].
    destruct (buffered_publish e h h' ch Hwf HP) as [Hb|Hb]; [by left|right; by exists e].
  - case_decide as Hid; [|by intros; simplify_eq; split_and!; [|lia|left]].
    destruct (receive_spec id h Hwf Hid) as (r & h1 & Hr & _ & Hs & Hn & Hb & _).
    rewrite Hr. intros; simplify_eq/=. rewrite Hs, Hn. split; [done|]. split; [done|]. left. by apply Hb.
Qed.

Definition passed (l : list (World * Event)) : list Event := (filter (λ we, passes we = true) l).*2.

Lemma passed_app l k : passed (l ++ k) = passed l ++ passed k.
Proof. unfold passed. by rewrite filter_app, fmap_app. Qed.

(** What one step writes, checks and leaves in the channel. *)
Record feed_progress (evs : list feed_event) (checks : list (World * Event))
    (s : feed_state) (w : World) (s' : feed_state) (w' : World) : Prop := {
  fp_wf : feed_wf s' w';
  fp_open : feed_open s' = true → feed_open s = true;
  fp_sent : ∃ new, feed_sent s' = feed_sent s ++ new ∧ new `prefix_of` passed checks ∧
    (feed_open s = false → new = []) ∧ (feed_open s' = true → new = passed checks);
  fp_order : sublist (checks.*2 ++ buffered (w_hub w') ch) (buffered (w_hub w) ch ++ feed_published evs) }.

Lemma progress_idle ev s w w' :
  feed_wf s w' → buffered (w_hub w') ch = buffered (w_hub w) ch ++ feed_published [ev] →
  feed_progress [ev] [] s w s w'.
Proof.
  intros Hwf Hb. split; [done|done| |].
  - exists []. rewrite app_nil_r. split; [done|split; [apply prefix_nil|by split]].
  - by rewrite Hb.
Qed.

Lemma progress_return ev s w w1 s' w' :
  feed_wf s w → w_hub w1 = w_hub w → feed_return (feed_sent s) w1 = (s', w') →
  feed_published [ev] = [] → feed_progress [ev] [] s w s' w'.
Proof.
  intros [Hhub Hch _] Hw Hret Hp. rewrite <-Hw in *.
  destruct (feed_return_spec _ _ _ _ Hhub Hch Hret) as (Hwf & -> & Hb).
  split; [done|done| |].
  - exists []. rewrite app_nil_r. split; [done|split; [apply prefix_nil|by split]].
  - rewrite Hp, app_nil_r. simpl. by rewrite Hb, <-Hw.
Qed.

Lemma progress_read ok s w evt h s' w' :
  feed_wf s w → feed_open s = true → receive ch (w_hub w) = Some (Received evt, h) →
  feed_step (FeedReceive ok) s w = (s', w') →
  feed_progress [FeedReceive ok] [(set_hub h w, evt)] s w s' w'.
Proof.
  intros [Hhub Hch Hcl] Ho Hr Hstep. unfold feed_step in Hstep. rewrite Ho, Hr in Hstep.
  destruct (receive_spec ch _ Hhub Hch) as (r & h' & Hr' & Hwf' & Hs & Hn & _ & Hb).
  rewrite Hr in Hr'. simplify_eq. pose proof (wanted_hub evt (set_hub h' w)) as Hh.
  destruct (run (wanted evt) (set_hub h' w)) as [w1 b] eqn:Eb. cbn [negb fst w_hub set_hub] in *.
  assert (passed [(set_hub h' w, evt)] = if b then [evt] else []) as Hp.
  { unfold passed, passes. cbn [filter list_filter]. cbn [fst snd]. rewrite Eb. simpl. by destruct b. }
  destruct b; cbn [negb] in Hstep; [destruct ok|].
  - injection Hstep as <- <-. split; [by split; simpl; rewrite ?Hh, ?Hn|done| |].
    + exists [evt]. rewrite Hp, Ho. by split_and!.
    + simpl. by rewrite Hh, Hb, app_nil_r.
  - destruct (feed_return_spec (feed_sent s) w1 s' w') as (Hwf & -> & Hb'); [by rewrite Hh|by rewrite Hh, Hn|done|].
    split; [done|done| |].
    + exists []. rewrite app_nil_r. split; [done|split; [apply prefix_nil|by split]].
    + simpl. by rewrite Hb', Hh, Hb, app_nil_r.
  - injection Hstep as <- <-. split; [split; rewrite ?Hh, ?Hn; [done..|congruence]|done| |].
    + exists []. rewrite app_nil_r, Hp. split; [done|split; [apply prefix_nil|by split]].
    + simpl. by rewrite Hh, Hb, app_nil_r.
Qed.

Lemma feed_step_progress ev s w s' w' :
  feed_wf s w → of_others ev → feed_step ev s w = (s', w') →
  feed_progress [ev] (feed_read ev s w) s w s' w'.
Proof.
  intros Hwf Ho Hstep. pose proof Hwf as [Hhub Hch Hcl]. destruct ev as [|ok|a|w0].
  - simpl in Hstep. destruct (feed_open s) eqn:Eo; cbn [negb] in Hstep.
    + by eapply (progress_return _ _ _ w).
    + simplify_eq. apply progress_idle; [done|]. by rewrite app_nil_r.
  - simpl. destruct (feed_open s) eqn:Eo; cbn [negb].
    + destruct (receive ch (w_hub w)) as [[r h]|] eqn:Er.
      * destruct (receive_spec ch _ Hhub Hch) as (r' & h' & Hr & Hwf' & Hs & Hn & _ & Hb).
        rewrite Er in Hr. simplify_eq. destruct r' as [evt| |]; [by eapply progress_read| |].
        -- simpl in Hstep. rewrite Eo, Er in Hstep. cbn [negb] in Hstep.
           assert (feed_wf s (set_hub h' w)) as Hwf1.
           { split; simpl; [done|by rewrite Hn|congruence]. }
           pose proof (progress_return (FeedReceive ok) s _ (set_hub h' w) s' w' Hwf1 eq_refl Hstep eq_refl) as [? ? ? Ho'].
           split; [done..|]. simpl in Ho'. by rewrite Hb.
        -- simpl in Hstep. rewrite Eo, Er in Hstep. cbn [negb] in Hstep. simplify_eq.
           apply progress_idle; [done|]. by rewrite app_nil_r.
      * destruct (receive_spec ch _ Hhub Hch) as (? & ? & Hr & _). by rewrite Er in Hr.
    + simpl in Hstep. rewrite Eo in Hstep. cbn [negb] in Hstep. simplify_eq. apply progress_idle; [done|]. by rewrite app_nil_r.
  - simpl in Hstep. destruct (hub_step_wf a (w_hub w) Hhub) as (h & o & Ha & Hwf'). rewrite Ha in Hstep.
    simplify_eq. destruct (hub_step_others _ _ _ _ Hhub Ho Ha) as (Hsub & Hnext & Hbuf).
    assert (feed_wf s' (set_hub h w)) as Hwf1 by (split; simpl; [done|lia|auto]).
    split; [done|done| |].
    + exists []. rewrite app_nil_r. split; [done|split; [apply prefix_nil|by split]].
    + simpl. destruct Hbuf as [->|(e & -> & ->)]; [|done]. by apply sublist_inserts_r.
  - simpl in Hstep. simplify_eq. apply progress_idle; [by split|]. by rewrite app_nil_r.
Qed.

Lemma feed_published_cons ev evs : feed_published (ev :: evs) = feed_published [ev] ++ feed_published evs.
Proof. unfold feed_published. simpl. by repeat case_match. Qed.

(** The loop, whatever happens in between. *)
Lemma feed_steps_progress evs s w s' w' :
  feed_wf s w → Forall of_others evs → feed_steps evs s w = (s', w') →
  feed_progress evs (feed_checks evs s w) s w s' w'.
Proof.
  intros Hwf Hall. revert s w Hwf. induction Hall as [|ev evs Hev Hevs IH]; intros s w Hwf Hrun; cbn [feed_steps feed_checks] in *.
  { simplify_eq. split; [done|done| |by rewrite app_nil_r].
    exists []. rewrite app_nil_r. split; [done|split; [apply prefix_nil|by split]]. }
  destruct (feed_step ev s w) as [s1 w1] eqn:E1.
  pose proof (feed_step_progress _ _ _ _ _ Hwf Hev E1) as [Hwf1 Ho1 (n1 & Hs1 & Hp1 & Hc1 & He1) Hl1].
  specialize (IH s1 w1 Hwf1 Hrun) as [Hwf2 Ho2 (n2 & Hs2 & Hp2 & Hc2 & He2) Hl2].
  split; [done|auto| |].
  - exists (n1 ++ n2). rewrite Hs2, Hs1, app_assoc, passed_app. split; [done|]. split_and!.
    + destruct (feed_open s1) eqn:Es.
      * rewrite (He1 eq_refl). by apply prefix_app.
      * rewrite (Hc2 eq_refl), app_nil_r. by apply prefix_app_r.
    + intros Hs. rewrite (Hc1 Hs). apply Hc2. destruct (feed_open s1) eqn:Es; [|done]. by rewrite Ho1 in Hs.
    + intros Hs. by rewrite (He1 (Ho2 Hs)), (He2 Hs).
  - rewrite fmap_app, feed_published_cons, <-app_assoc, (app_assoc (buffered _ _)).
    etrans; [by apply sublist_app, Hl2|]. rewrite app_assoc. by apply sublist_app.
Qed.
End feed.

(** Subscribing starts a feed. *)
Lemma run_hub_Subscribe {PL : Platform} w :
  hub_wf (w_hub w) →
  let res := run hub_Subscribe w in
  feed_wf res.2 (mkFeed [] true) res.1 ∧ buffered (w_hub res.1) res.2 = [] ∧
  w_db res.1 = w_db w.
Proof.
  intros Hwf. simpl. split; [split|split]; simpl; [by apply Subscribe_wf|lia|done| |done].
  unfold buffered. simpl. by rewrite lookup_insert_eq.
Qed.

(** *** The ownership check *)

Lemma run_owns {PL : Platform} u id w :
  ∃ b, run (owns u id) w = (tick w, b) ∧ (b = true → owner_of_link (w_db w) id = Some u) ∧
    (NoFaults PL → b = bool_decide (owner_of_link (w_db w) id = Some u)).
Proof.
  unfold owns. rewrite run_pbind. repo_links. destruct (run_OwnerUserID id w) as (res & -> & Hres & Hok).
  cbn [fst snd run]. eexists. split; [done|]. split.
  - destruct res as [e|o]; [done|]. intros <-%bool_decide_eq_true.
    destruct (Hres _ eq_refl) as (l & Hl & Ho). by eapply owner_of_link_found.
  - intros HNF. rewrite (Hok HNF). unfold owner_of_link. destruct (_ ≫= _) as [o|]; [|done].
    apply bool_decide_ext. naive_solver.
Qed.

Lemma owns_hub {PL : Platform} u id w : w_hub (run (owns u id) w).1 = w_hub w.
Proof. by destruct (run_owns u id w) as (b & -> & _). Qed.

(** What a feed of a channel that began empty sent. *)
Lemma feed_from_start {PL : Platform} ch wanted evs w s' w' :
  (∀ e w, w_hub (run (wanted e) w).1 = w_hub w) →
  feed_wf ch (mkFeed [] true) w → buffered (w_hub w) ch = [] → Forall (of_others ch) evs →
  feed_steps ch wanted evs (mkFeed [] true) w = (s', w') →
  let checks := feed_checks ch wanted evs (mkFeed [] true) w in
  sublist (feed_sent s') (feed_published evs) ∧
  (∀ e, e ∈ feed_sent s' → ∃ wr, (wr, e) ∈ checks ∧ (run (wanted e) wr).2 = true) ∧
  (feed_open s' = true → feed_sent s' = passed wanted checks) ∧
  (feed_open s' = false → ch ∉ hub_subs (w_hub w')).
Proof.
  intros Hhub Hwf Hb Hall Hrun.
  destruct (feed_steps_progress ch wanted Hhub evs _ _ _ _ Hwf Hall Hrun) as [[_ _ Hcl] _ (new & Hs & Hp & _ & He) Ho].
  simpl in Hs. subst new. split_and!; [| |done|done].
  - rewrite Hb in Ho. simpl in Ho. destruct Hp as [k Hk].
    etrans; [by apply (sublist_inserts_r k)|]. rewrite <-Hk. unfold passed.
    etrans; [apply sublist_fmap, sublist_filter|]. etrans; [|exact Ho]. by apply sublist_inserts_r.
  - intros e He'. destruct Hp as [k Hk].
    assert (e ∈ passed wanted (feed_checks ch wanted evs (mkFeed [] true) w)) as Hin.
    { rewrite Hk. apply elem_of_app. by left. }
    unfold passed in Hin. apply list_elem_of_fmap in Hin as ([wr e'] & -> & [Hw Hin]%list_elem_of_filter).
    by exists wr.
Qed.
