(* ===== verification/Grpc.v ===== *)
(** * internal/transport/grpc: the two gRPC services

    The interceptors (interceptors.go), ImportService (import_service.go) and
    AdminService (admin_service.go).  Messages of the generated package pb are
    records of the fields the services read and write; the incoming metadata of a
    call is [None], or its [Get] method.  A handler behind an interceptor takes
    the user id of the context as an argument. *)

From S2P Require Import Prelude GoStrings Domain Http PubSub Schema Platform Effects Interfaces RepoLinks RepoUsers RepoSessions Links Crypto Import Auth Middleware Rest Ownership Feed.

Import PubSub.

Open Scope go_scope.

(** ** Definitions *)

(** The codes of package codes that the services use; an error that is no status
    travels as Unknown. *)
Inductive code : Type := Unauthenticated | InvalidArgument | Internal | Unknown.

Record status := mkStatus { status_code : code; status_message : string }.

Record pbCookieInput := mkPbCookieInput {
  pbCookie_Name : string; pbCookie_Value : string; pbCookie_Domain : string; pbCookie_Path : string;
  pbCookie_Secure : bool; pbCookie_HttpOnly : bool; pbCookie_SameSite : string }.

Record pbTokenInput := mkPbTokenInput {
  pbToken_TokenType : string; pbToken_HeaderName : string; pbToken_Value : string }.

Record ImportSessionRequest := mkImportRequest {
  ImportRequest_BaseDomain : string;
  ImportRequest_SiteName : string;
  ImportRequest_BaseUrl : string;
  ImportRequest_Cookies : list pbCookieInput;
  ImportRequest_Tokens : list pbTokenInput }.

Record ImportSessionResponse := mkImportResponse {
  ImportResponse_OriginalSessionId : string;
  ImportResponse_TargetSiteId : string }.

Inductive LinkActivityEventType : Type := UNSPECIFIED | BLACKLIST_VIOLATION | LINK_TERMINATED.

Record LinkActivityEvent := mkLinkActivityEvent {
  LinkActivityEvent_Type : LinkActivityEventType;
  LinkActivityEvent_LinkId : string;
  LinkActivityEvent_Message : string;
  LinkActivityEvent_OccurredAt : GoTime }.

Section services.
Context {PL : Platform}.

(** *** interceptors.go *)

Definition authenticate (md : option (string → list string)) (verify : string → M UUID)
    : P (status + UUID) :=
  match md with
  | None => Ret (inl (mkStatus Unauthenticated "missing metadata"))
  | Some Get =>
      match Get "authorization" with
      | [] => Ret (inl (mkStatus Unauthenticated "missing authorization metadata"))
      | value :: _ =>
          let token := TrimPrefix value "Bearer " in
          let* v := verify token in
          Ret (match v with
               | inl _ => inl (mkStatus Unauthenticated "invalid api key")
               | inr userID => inr userID
               end)
      end
  end.

Definition AuthUnaryInterceptor {A} (verify : string → M UUID) (md : option (string → list string))
    (handler : UUID → P (status + A)) : P (status + A) :=
  let* r := authenticate md verify in
  match r with
  | inl err => Ret (inl err)
  | inr userID => handler userID
  end.

(** The handler of a stream returns its error, or goes on. *)
Definition AuthStreamInterceptor {A} (verify : string → M UUID) (md : option (string → list string))
    (handler : UUID → P (option status + A)) : P (option status + A) :=
  let* r := authenticate md verify in
  match r with
  | inl err => Ret (inl (Some err))
  | inr userID => handler userID
  end.

(** *** import_service.go *)

Definition pb_cookie_input (c : pbCookieInput) : CookieInput :=
  mkCookieInput (pbCookie_Name c) (pbCookie_Value c) (pbCookie_Domain c) (pbCookie_Path c)
    (pbCookie_Secure c) (pbCookie_HttpOnly c) (pbCookie_SameSite c).

Definition pb_token_input (t : pbTokenInput) : TokenInput :=
  mkTokenInput (pbToken_TokenType t) (pbToken_HeaderName t) (pbToken_Value t).

Definition ImportServer_ImportSession `{AEAD} `{!TargetSiteRepository} `{!OriginalSessionRepository}
    `{!SessionCookieRepository} `{!SessionTokenRepository}
    (cipher : Cipher) (userID : UUID) (req : ImportSessionRequest) : P (status + ImportSessionResponse) :=
  if bool_decide (ImportRequest_BaseDomain req = EmptyString)
     || bool_decide (ImportRequest_BaseUrl req = EmptyString)
  then Ret (inl (mkStatus InvalidArgument "base_domain and base_url are required"))
  else
    let siteName := if decide (ImportRequest_SiteName req = EmptyString)
                    then ImportRequest_BaseDomain req else ImportRequest_SiteName req in
    let* s := SessionImportService_Import cipher userID (ImportRequest_BaseDomain req) siteName
                (ImportRequest_BaseUrl req) (pb_cookie_input <$> ImportRequest_Cookies req)
                (pb_token_input <$> ImportRequest_Tokens req) in
    Ret (match s with
         | inl _ => inl (mkStatus Internal "import failed")
         | inr session => inr (mkImportResponse (uuid_String (OriginalSession_ID session))
                                 (uuid_String (OriginalSession_TargetSiteID session)))
         end).

(** *** admin_service.go *)

Definition toProto (evt : Event) : LinkActivityEvent :=
  let t := if decide (Event_Type evt = EventBlacklistViolation) then BLACKLIST_VIOLATION
           else if decide (Event_Type evt = EventLinkTerminated) then LINK_TERMINATED
           else UNSPECIFIED in
  mkLinkActivityEvent t (uuid_String (Event_LinkID evt)) (Event_Message evt) (Event_OccurredAt evt).

Context `{!SharedLinkRepository}.

(** Up to the loop: the error it returns, or the channel and the filter. *)
Definition StreamLinkActivity (callerID : UUID) (link_id : string) : P (option status + (nat * UUID)) :=
  let subscribe filter := let* ch := hub_Subscribe in Ret (inr (ch, filter)) in
  if decide (link_id = EmptyString) then subscribe uuid_Nil
  else
    match uuid_Parse link_id with
    | None => Ret (inl (Some (mkStatus Unknown "invalid UUID")))
    | Some id =>
        let* b := owns callerID id in
        if b then subscribe id else Ret (inl None)
    end.

(** The check of the loop. *)
Definition stream_wanted (callerID filterLinkID : UUID) (evt : Event) : P bool :=
  if bool_decide (filterLinkID ≠ uuid_Nil) then Ret (bool_decide (Event_LinkID evt = filterLinkID))
  else owns callerID (Event_LinkID evt).

(** The messages that were sent. *)
Definition stream_messages (s : feed_state) : list LinkActivityEvent := toProto <$> feed_sent s.

End services.

(** As main.go wires them. *)
Definition grpc_ImportSession {PL : Platform} `{SHA256} `{AEAD} (cipher : Cipher)
    (md : option (string → list string)) (req : ImportSessionRequest) : P (status + ImportSessionResponse) :=
  AuthUnaryInterceptor AuthService_VerifyAPIKey md (λ u, ImportServer_ImportSession cipher u req).

Definition grpc_StreamLinkActivity {PL : Platform} `{SHA256}
    (md : option (string → list string)) (link_id : string) : P (option status + (UUID * (nat * UUID))) :=
  AuthStreamInterceptor AuthService_VerifyAPIKey md (λ u,
    let* r := StreamLinkActivity u link_id in
    Ret (match r with inl e => inl e | inr s => inr (u, s) end)).

(** ** Specification *)

(** What the caller asked for: the events of the link of the request, or of all
    links that are the caller's when the event is checked. *)
Definition relevant {PL : Platform} (u filterID : UUID) (we : World * Event) : bool :=
  if decide (filterID = uuid_Nil)
  then bool_decide (owner_of_link (w_db we.1) (Event_LinkID we.2) = Some u)
  else bool_decide (Event_LinkID we.2 = filterID).

(** ** Lemmas *)

Lemma stream_wanted_hub {PL : Platform} u filterID e w :
  w_hub (run (stream_wanted u filterID e) w).1 = w_hub w.
Proof. unfold stream_wanted. case_bool_decide; [done|apply owns_hub]. Qed.

(** The interceptor refuses, or runs the handler as the user of a valid key, on
    the same tables and hub. *)
Lemma run_authenticate {PL : Platform} `{SHA256} md w :
  let res := run (authenticate md AuthService_VerifyAPIKey) w in
  w_db res.1 = w_db w ∧ w_hub res.1 = w_hub w ∧
  match res.2 with
  | inl err => status_code err = Unauthenticated
  | inr u => ∃ Get value rest, md = Some Get ∧ Get "authorization" = value :: rest ∧
      key_authenticates (w_db w) (TrimPrefix value "Bearer ") (env_now (S (w_tick w))) u
  end.
Proof.
  unfold authenticate. destruct md as [Get|]; [|done]. destruct (Get "authorization") as [|value rest] eqn:Eg; [done|].
  cbv zeta. rewrite run_pbind. cbn [run fst snd].
  pose proof (run_VerifyAPIKey_frame (TrimPrefix value "Bearer ") w) as [Hdb Hhub].
  destruct (run (AuthService_VerifyAPIKey _) w) as [w' [e|u]] eqn:E; cbn [fst snd] in *; split_and!; try done.
  apply run_VerifyAPIKey_inr in E as [_ Hk]. by exists Get, value, rest.
Qed.

(** A stream that reached its loop. *)
Lemma grpc_start {PL : Platform} `{SHA256} md link_id w w1 u ch filterID :
  hub_wf (w_hub w) → run (grpc_StreamLinkActivity md link_id) w = (w1, inr (u, (ch, filterID))) →
  feed_wf ch (mkFeed [] true) w1 ∧ buffered (w_hub w1) ch = [] ∧
  (filterID ≠ uuid_Nil → owner_of_link (w_db w) filterID = Some u).
Proof.
  intros Hwf. unfold grpc_StreamLinkActivity, AuthStreamInterceptor. rewrite run_pbind.
  pose proof (run_authenticate md w) as (Hdb & Hhub & _).
  destruct (run (authenticate _ _) w) as [w2 [err|u']]; cbn [fst snd] in *; [done|].
  rewrite run_pbind. unfold StreamLinkActivity. rewrite <-Hhub in Hwf.
  destruct (decide (link_id = EmptyString)).
  - rewrite run_pbind. pose proof (run_hub_Subscribe w2 Hwf) as (Hf & Hb & _).
    destruct (run hub_Subscribe w2) as [w3 ch']. intros [= <- <- <- <-]. by split_and!.
  - destruct (uuid_Parse link_id) as [id|]; [|done]. rewrite run_pbind.
    destruct (run_owns u' id w2) as (b & -> & Ho & _). cbn [fst snd]. destruct b; [|done].
    rewrite run_pbind. pose proof (run_hub_Subscribe (tick w2) Hwf) as (Hf & Hb & _).
    destruct (run hub_Subscribe (tick w2)) as [w3 ch']. intros [= <- <- <- <-]. split_and!; [done..|].
    intros _. rewrite <-Hdb. by apply Ho.
Qed.

(** ** Properties *)

(** C26: a client of the stream sees the events of the caller's links only.
    Whatever fails and whatever the rest of the program does meanwhile: the
    events sent were published after the subscription, come in the order of their
    publication, each at most once, and each concerns a link that belonged to the
    caller, at its check or when the stream began; while the stream is open and
    nothing fails, none of those that its channel delivered is left out - the
    hub drops what it publishes while the channel is full -; and a stream that
    ended is no longer subscribed. *)
Theorem stream_own_events {PL : Platform} `{SHA256} md link_id w w1 u ch filterID evs s' w'
  (Hwf : hub_wf (w_hub w))
  (Hstart : run (grpc_StreamLinkActivity md link_id) w = (w1, inr (u, (ch, filterID))))
  (Hothers : Forall (of_others ch) evs)
  (Hrun : feed_steps ch (stream_wanted u filterID) evs (mkFeed [] true) w1 = (s', w')) :
  let checks := feed_checks ch (stream_wanted u filterID) evs (mkFeed [] true) w1 in
  sublist (feed_sent s') (feed_published evs) ∧
  Forall (λ e, ∃ wr, (wr = w ∨ (wr, e) ∈ checks) ∧ owner_of_link (w_db wr) (Event_LinkID e) = Some u)
    (feed_sent s') ∧
  (NoFaults PL → feed_open s' = true → feed_sent s' =
     (filter (λ we, relevant u filterID we = true) checks).*2) ∧
  (feed_open s' = false → ch ∉ hub_subs (w_hub w')).
Proof.
  intros checks. destruct (grpc_start md link_id w w1 u ch filterID Hwf Hstart) as (Hfeed & Hb & Hfilter).
  destruct (feed_from_start _ _ _ _ _ _ (stream_wanted_hub u filterID) Hfeed Hb Hothers Hrun)
    as (Hsub & Hsent & Hall & Hclosed). fold checks in Hsent, Hall.
  split_and!; [done| | |done].
  - apply Forall_forall. intros e (wr & Hin & Hw)%Hsent. unfold stream_wanted in Hw.
    case_bool_decide as Hf.
    + simpl in Hw. exists w. split; [by left|]. apply bool_decide_eq_true in Hw. rewrite Hw. by apply Hfilter.
    + exists wr. split; [by right|]. destruct (run_owns u (Event_LinkID e) wr) as (b & E & Hb' & _).
      rewrite E in Hw. auto.
  - intros HNF Hopen. rewrite (Hall Hopen). unfold passed. f_equal. apply list_filter_iff.
    intros [wr e]. unfold passes, stream_wanted, relevant. cbn [fst snd].
    destruct (decide (filterID = uuid_Nil)) as [Hf|Hf].
    + rewrite bool_decide_eq_false_2 by naive_solver.
      destruct (run_owns u (Event_LinkID e) wr) as (b & -> & _ & Hok). cbn [snd]. by rewrite (Hok HNF).
    + by rewrite bool_decide_eq_true_2 by done.
Qed.

(** The JSON body with the fields of the message. *)
Definition rest_import (req : ImportSessionRequest) : importSessionRequest :=
  mkImportSessionRequest (ImportRequest_BaseDomain req) (ImportRequest_SiteName req) (ImportRequest_BaseUrl req)
    ((λ c, mkImportCookieRequest (pbCookie_Name c) (pbCookie_Value c) (pbCookie_Domain c) (pbCookie_Path c)
             (pbCookie_Secure c) (pbCookie_HttpOnly c) (pbCookie_SameSite c)) <$> ImportRequest_Cookies req)
    ((λ t, mkImportTokenRequest (pbToken_TokenType t) (pbToken_HeaderName t) (pbToken_Value t))
       <$> ImportRequest_Tokens req).

(** The two answers agree. *)
Definition same_answer {PL : Platform} (rep : Reply) (res : status + ImportSessionResponse) : Prop :=
  match res with
  | inr resp => ∃ session, Reply_body rep = Json (JSession session) ∧ Reply_status rep = StatusCreated ∧
      resp = mkImportResponse (uuid_String (OriginalSession_ID session))
               (uuid_String (OriginalSession_TargetSiteID session))
  | inl err =>
      match status_code err with
      | InvalidArgument => rep = writeError StatusBadRequest (status_message err)
      | Internal => rep = internalError
      | _ => False
      end
  end.

(** C27: the gRPC import is the REST import.  Given the same fields for the same
    user, on the same world and with the same failures, ImportSession and POST
    /sessions/import leave the same world, so the same rows with the same
    encrypted values, and give corresponding answers. *)
Theorem import_front_ends_agree {PL : Platform} `{AEAD} `{JSONDecoder} s u r req w
  (Hdecode : decode_importSession (Request_Body r) = (true, rest_import req)) :
  let rest := run (handleImportSession s u r) w in
  let grpc := run (ImportServer_ImportSession (Server_Cipher s) u req) w in
  grpc.1 = rest.1 ∧ same_answer rest.2 grpc.2.
Proof.
  intros rest grpc. subst rest grpc. unfold handleImportSession, ImportServer_ImportSession. rewrite Hdecode.
  cbn [negb orb rest_import importSessionRequest_BaseDomain importSessionRequest_BaseURL importSessionRequest_SiteName
    importSessionRequest_Cookies importSessionRequest_Tokens].
  destruct (bool_decide _ || bool_decide _); [done|]. unfold written. rewrite !run_pbind.
  rewrite <-!list_fmap_compose.
  change (cookie_input ∘ _) with pb_cookie_input. change (token_input ∘ _) with pb_token_input.
  destruct (run (SessionImportService_Import _ _ _ _ _ _ _) w) as [w' [e|session]]; cbn [run fst snd].
  - done.
  - split; [done|]. by exists session.
Qed.

(** isolation of the gRPC import.  Whatever fails, a call is refused as
    Unauthenticated and changes nothing, or its token is the raw key of a valid
    API key of a user, and nothing that belongs to another user changes. *)
Theorem grpc_import_isolated {PL : Platform} `{SHA256} `{AEAD} `{!AEADLaws _} cipher md req w w' res
  (Hrun : run (grpc_ImportSession cipher md req) w = (w', res)) :
  (∃ err, res = inl err ∧ status_code err = Unauthenticated ∧ w_db w' = w_db w) ∨
  ∃ Get value rest u, md = Some Get ∧ Get "authorization" = value :: rest ∧
    key_authenticates (w_db w) (TrimPrefix value "Bearer ") (env_now (S (w_tick w))) u ∧
    same_foreign u (w_db w) (w_db w').
Proof.
  unfold grpc_ImportSession, AuthUnaryInterceptor in Hrun. rewrite run_pbind in Hrun.
  destruct (run_authenticate md w) as (Hdb & _ & Hauth).
  destruct (run (authenticate _ _) w) as [w1 [err|u]]; cbn [fst snd run] in *.
  { simplify_eq. left. by exists err. }
  right. destruct Hauth as (Get & value & rest & -> & Hg & Hk). exists Get, value, rest, u.
  split_and!; [done..|]. rewrite <-Hdb. unfold ImportServer_ImportSession in Hrun.
  destruct (bool_decide _ || bool_decide _); [by simplify_eq/=|]. rewrite run_pbind in Hrun.
  pose proof (frame_Import u cipher (ImportRequest_BaseDomain req)
    (if decide (ImportRequest_SiteName req = EmptyString) then ImportRequest_BaseDomain req else ImportRequest_SiteName req)
    (ImportRequest_BaseUrl req) (pb_cookie_input <$> ImportRequest_Cookies req)
    (pb_token_input <$> ImportRequest_Tokens req) w1) as Hf.
  destruct (run (SessionImportService_Import _ _ _ _ _ _ _) w1) as [w2 [e|session]]; cbn [run fst snd] in *;
    by simplify_eq.
Qed.

(** ** Witnesses *)

Definition demo_md (token : string) : option (string → list string) :=
  Some (λ k, if decide (k = "authorization") then ["Bearer " +:+ token] else []).

Definition demo_import_request : ImportSessionRequest :=
  mkImportRequest "example.net" "" "https://example.net" [mkPbCookieInput "sid" "v1" "" "" true true ""] [].

Lemma import_front_ends_agree_witness :
  (run (ImportServer_ImportSession (PL := demo) (H := demo_aead) (mkCipher demo_key) 9%N demo_import_request)
     (demo_world demo_api_db)).1 =
  (run (@handleImportSession demo demo_aead demo_json _ _ _ _ demo_server 9%N (demo_call "spk_nine"))
     (demo_world demo_api_db)).1.
Proof.
  apply (@import_front_ends_agree demo demo_aead demo_json demo_server 9%N (demo_call "spk_nine")
    demo_import_request (demo_world demo_api_db)). reflexivity.
Defined.

Definition demo_grpc_import :=
  run (@grpc_ImportSession demo demo_sha256 demo_aead (mkCipher demo_key) (demo_md "spk_nine") demo_import_request)
    (demo_world demo_api_db).

Definition demo_grpc_ok : bool := match demo_grpc_import.2 with inr _ => true | inl _ => false end.
Lemma demo_grpc_import_ok : demo_grpc_ok = true.
Proof. vm_compute. reflexivity. Qed.

Lemma grpc_import_isolated_witness :
  ∃ u, same_foreign u demo_api_db (w_db demo_grpc_import.1).
Proof.
  destruct (@grpc_import_isolated demo demo_sha256 demo_aead demo_aead_laws (mkCipher demo_key) (demo_md "spk_nine")
    demo_import_request (demo_world demo_api_db) demo_grpc_import.1 demo_grpc_import.2)
    as [(err & He & _)|(Get & value & rest & u & _ & _ & _ & Hf)].
  - apply surjective_pairing.
  - exfalso. pose proof demo_grpc_import_ok as Hok. unfold demo_grpc_ok in Hok. rewrite He in Hok. discriminate Hok.
  - by exists u.
Defined.

(** A stream of user 1, while two events are published: one of link 5, and one
    of a link that does not exist. *)
Definition demo_stream :=
  run (@grpc_StreamLinkActivity demo demo_sha256 (demo_md "spk_one") EmptyString) (demo_world demo_api_db).

Lemma demo_stream_result : demo_stream.2 = inr (1%N, (0, uuid_Nil)).
Proof. vm_compute. reflexivity. Qed.

Definition demo_activity (link : UUID) (n : Z) : Event := mkEvent EventLinkTerminated link "ttl_expired" n.

Definition demo_feed : list (feed_event (PL := demo)) :=
  [FeedHub (APublish (demo_activity 5 1)); FeedHub (APublish (demo_activity 6 2)); FeedHub ASubscribe;
   FeedReceive true; FeedReceive true; FeedReceive true].

Definition demo_feed_end :=
  feed_steps 0 (stream_wanted (PL := demo) 1%N uuid_Nil) demo_feed (mkFeed [] true) demo_stream.1.

Lemma demo_feed_sent : feed_sent demo_feed_end.1 = [demo_activity 5 1].
Proof. vm_compute. reflexivity. Qed.

Lemma stream_own_events_witness :
  feed_sent demo_feed_end.1 = [demo_activity 5 1] ∧ sublist [demo_activity 5 1] (feed_published demo_feed).
Proof.
  split; [exact demo_feed_sent|]. rewrite <-demo_feed_sent.
  eapply (@stream_own_events demo demo_sha256 (demo_md "spk_one") EmptyString (demo_world demo_api_db) demo_stream.1
    1%N 0 uuid_Nil demo_feed demo_feed_end.1 demo_feed_end.2).
  - apply hub_wf_new.
  - rewrite <-demo_stream_result. apply surjective_pairing.
  - by repeat constructor.
  - apply surjective_pairing.
Defined.
