(* ===== verification/WebUI.v ===== *)
(** * internal/transport/webui: the owners' dashboard

    The handlers of handlers.go and their middleware; [Router] has the table of
    routes.  A form is its
    [FormValue] function, [tls] tells whether the request came over TLS, and
    [streaming] whether the response writer is a Flusher; a page is the template
    with its arguments. *)

From S2P Require Import Prelude GoStrings Domain Http PubSub Schema Platform Effects Interfaces RepoLinks RepoUsers RepoSessions RepoLogs Links Crypto Import Injector Cookies Auth Middleware Rest Ownership Confidentiality Feed.

Import PubSub.

Open Scope go_scope.

(** ** Definitions *)

(** The rows of the table of routes. *)
Inductive dashboard_public : Type :=
| LoginForm | LoginSubmit (FormValue : string → string) | Logout.

Inductive dashboard_owner : Type :=
| LinksList | TerminateRow (linkID : string)
| ImportForm | ImportSubmit (FormValue : string → string)
| SecurityFeed | SecurityFeedEvents (streaming : bool).

Inductive dashboard_route : Type :=
| DashPublic (e : dashboard_public)
| DashOwner (e : dashboard_owner).

(** A page with status 200. *)
Definition render (p : page) : Reply := reply StatusOK (Html p).

Section handlers.
Context {PL : Platform} `{Bcrypt} `{SHA256} `{JWT} `{AEAD}.
Context `{!UserRepository} `{!APIKeyRepository} `{!TargetSiteRepository} `{!OriginalSessionRepository}
  `{!SessionCookieRepository} `{!SessionTokenRepository} `{!SharedLinkRepository}
  `{!AccessPolicyRepository} `{!BlacklistRepository} `{!LinkTerminationRepository}.

Definition handleLoginPage : P Reply := Ret (render (LoginPage EmptyString)).

(** The session cookie holds the token, for an hour. *)
Definition session_cookie (token : string) (tls : bool) (expires : GoTime) : SetCookie :=
  mkSetCookie SessionCookieName token "/" true tls SameSiteLaxMode (Some expires) 0.

Definition handleLoginSubmit (auth : AuthService) (FormValue : string → string) (tls : bool) : P Reply :=
  let email := FormValue "email" in
  let password := FormValue "password" in
  let* l := AuthService_Login auth email password in
  match l with
  | inl _ => Ret (reply StatusUnauthorized (Html (LoginPage "invalid email or password")))
  | inr (token, _) =>
      let* now := time_Now in
      Ret (mkReply StatusSeeOther (Location "/dashboard/links")
             (Some (session_cookie token tls (now + 3600000000000)%Z)))
  end.

Definition handleLogout (tls : bool) : P Reply :=
  Ret (mkReply StatusSeeOther (Location "/dashboard/login")
         (Some (mkSetCookie SessionCookieName EmptyString "/" true tls SameSiteLaxMode None (-1)))).

Definition handleLinksList (userID : UUID) : P Reply :=
  let* l := SharedLinks_ListByUser userID EmptyString in
  Ret (match l with
       | inl _ => reply_Error "internal error" StatusInternalServerError
       | inr links => render (LinksPage links)
       end).

Definition handleTerminate (param : string) (userID : UUID) : P Reply :=
  match uuid_Parse param with
  | None => Ret (reply_Error "invalid link id" StatusBadRequest)
  | Some linkID =>
      let* t := LinkService_TerminateLink userID linkID "terminated via dashboard" in
      match t with
      | inl _ => Ret (reply_Error "could not terminate link" StatusInternalServerError)
      | inr _ =>
          let* l := SharedLinks_GetByID linkID in
          Ret (match l with
               | inl _ => reply_Error "internal error" StatusInternalServerError
               | inr link => render (LinkRow link)
               end)
      end
  end.

Definition handleImportPage : P Reply := Ret (render (ImportPage EmptyString)).

Definition handleImportSubmit (cipher : Cipher) (FormValue : string → string) (userID : UUID) : P Reply :=
  let baseDomain := FormValue "base_domain" in
  let baseURL := FormValue "base_url" in
  let cookieName := FormValue "cookie_name" in
  let cookieValue := FormValue "cookie_value" in
  let* s := SessionImportService_Import cipher userID baseDomain baseDomain baseURL
              [mkCookieInput cookieName cookieValue EmptyString "/" false false EmptyString] [] in
  Ret (match s with
       | inl _ => render (ImportPage "import failed - check server logs")
       | inr session => render (ImportPage ("Imported. original_session_id = " +:+
           uuid_String (OriginalSession_ID session) +:+
           " - create a shared link for it via POST /api/v1/links."))
       end).

Definition handleSecurityFeedPage : P Reply := Ret (render SecurityFeedPage).

(** Up to the loop, whose check is [owns userID]. *)
Definition handleSecurityFeedSSE (streaming : bool) : P Reply :=
  if negb streaming then Ret (reply_Error "streaming unsupported" StatusInternalServerError)
  else
    let* ch := hub_Subscribe in
    Ret (reply StatusOK (EventStream ch)).

(** What the loop writes for an event: the data of a server-sent event. *)
Definition sse_payload (evt : Event) : json_value :=
  JMap [("type", JString (Event_Type evt)); ("link_id", JUUID (Event_LinkID evt));
        ("message", JString (Event_Message evt)); ("occurred_at", JTime (Event_OccurredAt evt))].

Definition sse_messages (s : feed_state) : list json_value := sse_payload <$> feed_sent s.

Definition serve_dashboard (cipher : Cipher) (e : dashboard_owner) (userID : UUID) (r : Request) : P Reply :=
  match e with
  | LinksList => handleLinksList userID
  | TerminateRow linkID => handleTerminate linkID userID
  | ImportForm => handleImportPage
  | ImportSubmit form => handleImportSubmit cipher form userID
  | SecurityFeed => handleSecurityFeedPage
  | SecurityFeedEvents streaming => handleSecurityFeedSSE streaming
  end.

Definition Dashboard_Routes (auth : AuthService) (cipher : Cipher) (tls : bool) (e : dashboard_route)
    (r : Request) : P Reply :=
  match e with
  | DashPublic LoginForm => handleLoginPage
  | DashPublic (LoginSubmit form) => handleLoginSubmit auth form tls
  | DashPublic Logout => handleLogout tls
  | DashOwner e => RequireSessionCookie (AuthService_Authenticator auth) (serve_dashboard cipher e) r
  end.

End handlers.

(** ** Specification *)

(** The pages that show rows show the user's. *)
Definition page_concerns (d : DB) (u : UUID) (b : reply_body) : Prop :=
  match b with
  | Html (LinksPage links) => Forall (λ l, link_owner d l = Some u) links
  | Html (LinkRow link) => link_owner d link = Some u
  | Json _ => False
  | _ => True
  end.

(** The request's session cookie is a token of the service that names [u]. *)
Definition cookie_authenticates {PL : Platform} `{JWT} (s : AuthService) (r : Request) (w : World) (u : UUID) : Prop :=
  ∃ c, Request_Cookie r SessionCookieName = Some c ∧
    jwt_authenticates s (Cookie_Value c) (env_now (w_tick w)) u.

(** ** Lemmas *)

Section lemmas.
Context {PL : Platform} `{Bcrypt} `{SHA256} `{JWT} `{AEAD}.

Lemma run_VerifyJWT_tick s token w : (run (AuthService_VerifyJWT s token) w).1 = tick w.
Proof. unfold AuthService_VerifyJWT. rewrite run_pbind, run_time_Now. cbn [fst snd]. by repeat case_match. Qed.

(** RequireSessionCookie sends to the login page, or runs the handler as the
    user of the cookie, on the same tables and hub. *)
Lemma run_RequireSessionCookie `{!JWTLaws _} s (next : UUID → Request → P Reply) r w :
  let res := run (RequireSessionCookie (AuthService_Authenticator s) next r) w in
  (res.2 = reply_Redirect "/dashboard/login" StatusSeeOther ∧ w_db res.1 = w_db w) ∨
  ∃ u, cookie_authenticates s r w u ∧ res = run (next u r) (tick w).
Proof.
  unfold RequireSessionCookie. destruct (Request_Cookie r SessionCookieName) as [c|] eqn:Ec; [|by left].
  destruct (bool_decide _); [by left|]. cbn [AuthService_Authenticator Authenticator_VerifyJWT].
  rewrite run_pbind. pose proof (run_VerifyJWT_tick s (Cookie_Value c) w) as Ht.
  destruct (run (AuthService_VerifyJWT s _) w) as [w1 [e|u]] eqn:E; cbn [fst snd] in *; subst w1; [by left|].
  right. exists u. split; [|done]. exists c. split; [done|]. by apply run_VerifyJWT_inr in E as [_ ?].
Qed.

Lemma reads_only {A} u (p : P A) w :
  all_atoms (on_db (=)) p → same_foreign u (w_db w) (w_db (run p w).1).
Proof. intros Hp. by rewrite <-(all_atoms_run (on_db (=)) p w Hp). Qed.

Lemma dashboard_terminate param u w :
  let res := run (handleTerminate param u) w in
  same_foreign u (w_db w) (w_db res.1) ∧ page_concerns (w_db w) u (Reply_body res.2).
Proof.
  unfold handleTerminate. destruct (uuid_Parse param) as [id|]; [|done]. rewrite run_pbind.
  pose proof (frame_TerminateLink u id "terminated via dashboard" w) as Hf.
  pose proof (run_TerminateLink u id "terminated via dashboard" w) as Hc.
  destruct (run (LinkService_TerminateLink _ _ _) w) as [w1 res]. cbn [fst snd] in *.
  destruct res as [e|[]]; [done|]. rewrite run_pbind. repo_links.
  destruct (run_GetByID_link id w1) as (res & -> & Hrow & _). cbn [run fst snd].
  split; [exact Hf|]. destruct res as [e|row]; [done|]. specialize (Hrow _ eq_refl).
  destruct Hc as [[_ []]|(l & Hl & Ho & _ & [[_ []]|[[_ []]|(tid & now & _ & Hdb)]])]; [done..|].
  rewrite Hdb in Hrow. simpl in Hrow. rewrite lookup_alter_eq, Hl in Hrow. simplify_eq/=. exact Ho.
Qed.

(** A row is shown only when the link was terminated, and it is the row then. *)
Lemma run_handleTerminate_ok param u w w' rep :
  run (handleTerminate param u) w = (w', rep) → Reply_status rep = StatusOK →
  ∃ id l, uuid_Parse param = Some id ∧ shared_links (w_db w) !! id = Some l ∧ link_owner (w_db w) l = Some u ∧
    shared_links (w_db w') !! id = Some (SharedLink_with_status LinkStatusTerminated l) ∧
    rep = render (LinkRow (SharedLink_with_status LinkStatusTerminated l)).
Proof.
  unfold handleTerminate. destruct (uuid_Parse param) as [id|]; [|by intros [= <- <-]]. rewrite run_pbind.
  pose proof (run_TerminateLink u id "terminated via dashboard" w) as Hc.
  destruct (run (LinkService_TerminateLink _ _ _) w) as [w1 res]. cbn [fst snd] in *.
  destruct res as [e|[]]; [by intros [= <- <-]|]. rewrite run_pbind. repo_links.
  destruct (run_GetByID_link id w1) as (res & -> & Hrow & _). cbn [run fst snd].
  intros [= <- <-]. destruct res as [e|row]; [done|]. intros _. specialize (Hrow _ eq_refl).
  destruct Hc as [[_ []]|(l & Hl & Ho & _ & [[_ []]|[[_ []]|(tid & now & _ & Hdb)]])]; [done..|].
  exists id, l. rewrite Hdb in Hrow. simpl in Hrow. rewrite lookup_alter_eq, Hl in Hrow. injection Hrow as <-.
  split_and!; try done. change (w_db (tick w1)) with (w_db w1). rewrite Hdb. simpl. by rewrite lookup_alter_eq, Hl.
Qed.

Lemma serve_dashboard_own `{!AEADLaws _} cipher e u r w :
  let res := run (serve_dashboard cipher e u r) w in
  same_foreign u (w_db w) (w_db res.1) ∧ page_concerns (w_db w) u (Reply_body res.2).
Proof.
  destruct e as [|p| |form| |ok]; cbn [serve_dashboard]; try done.
  - unfold handleLinksList. split.
    + apply reads_only. repo_links. unfold SharedLinkRepo_ListByUser. atoms.
    + apply (post_pbind (λ rep, page_concerns (w_db w) u (Reply_body rep))).
      intros w' [e|links]; [done|]. repo_links. unfold SharedLinkRepo_ListByUser.
      intros Hr. apply run_wrap_sql_inr in Hr as (d & Hr). invert_stmt. simpl.
      apply Forall_order_desc, Forall_filter_self. by intros l [].
  - apply dashboard_terminate.
  - unfold handleImportSubmit. rewrite run_pbind. cbn [run fst snd]. split; [apply frame_Import|by case_match].
  - unfold handleSecurityFeedSSE. by destruct ok.
Qed.
End lemmas.

(** A request whose Cookie line ends with the session cookie, after cookies of
    other names, as a browser writes it. *)
Definition sends_cookie (r : Request) (others : list Cookie) (c : SetCookie) : Prop :=
  default [] (Request_Header r !! "Cookie") =
    cookie_values (others ++ [mkCookie (SetCookie_Name c) (SetCookie_Value c)]) ∧
  Forall sendable others ∧ Forall (λ o, Cookie_Name o ≠ SetCookie_Name c) others.

Lemma named_others name cs : Forall (λ o, Cookie_Name o ≠ name) cs → named name cs = [].
Proof. induction 1; [done|]. rewrite named_cons, decide_False by done. done. Qed.

Lemma sent_cookie_read r others c :
  sends_cookie r others c → isToken (SetCookie_Name c) = true →
  Forall (λ b, validCookieValueByte b = true) (bytes (SetCookie_Value c)) →
  Request_Cookie r (SetCookie_Name c) = Some (mkCookie (SetCookie_Name c) (SetCookie_Value c)).
Proof.
  intros (Hh & Hs & Ho) Hn Hv. unfold Request_Cookie. erewrite readCookies_values; [|shelve|exact Hh].
  unfold named. rewrite filter_app. fold (named (SetCookie_Name c) others). rewrite named_others by done.
  rewrite filter_cons_True by done. done.
  Unshelve. apply Forall_app. split; [done|]. by repeat constructor.
Qed.

(** ** Properties *)

(** C24: the dashboard shows and changes the caller's data only.  Whatever fails,
    a request to a page behind the session cookie is sent to the login page and
    changes nothing, or its cookie is a token that names a user, nothing that
    belongs to another user changes, and the links shown are the user's. *)
Theorem Dashboard_isolated {PL : Platform} `{Bcrypt} `{SHA256} `{JWT} `{!JWTLaws _} `{AEAD} `{!AEADLaws _}
  auth cipher tls e r w w' rep
  (Hrun : run (Dashboard_Routes auth cipher tls (DashOwner e) r) w = (w', rep)) :
  (rep = reply_Redirect "/dashboard/login" StatusSeeOther ∧ w_db w' = w_db w) ∨
  ∃ u, cookie_authenticates auth r w u ∧ same_foreign u (w_db w) (w_db w') ∧
    page_concerns (w_db w) u (Reply_body rep).
Proof.
  unfold Dashboard_Routes in Hrun.
  destruct (run_RequireSessionCookie auth (serve_dashboard cipher e) r w) as [Hl|(u & Hu & Hres)];
    rewrite Hrun in *; [by left|right; exists u].
  pose proof (serve_dashboard_own cipher e u r (tick w)) as Hown. by rewrite <-Hres in Hown.
Qed.

(** C25: logging in to the dashboard.  When the form is accepted, the account has
    the submitted email and its stored hash matches the password, and the cookie
    set, sent back by the browser, runs the pages as this account until the token
    expires, and leads to the login page after. *)
Theorem dashboard_login_roundtrip {PL : Platform} `{!PlatformLaws PL} `{Bcrypt} `{SHA256} `{JWT} `{!JWTLaws _} `{AEAD}
  auth cipher tls form r0 w w1 rep
  (Hlogin : run (Dashboard_Routes auth cipher tls (DashPublic (LoginSubmit form)) r0) w = (w1, rep))
  (Hok : Reply_status rep = StatusSeeOther) :
  ∃ c u, Reply_cookie rep = Some c ∧ SetCookie_HttpOnly c = true ∧ SetCookie_Secure c = tls ∧
    User_Email u = form "email" ∧ bcrypt_Compare (User_PasswordHash u) (form "password") = true ∧
    ∀ next r others w2, sends_cookie r others c → SetCookie_Value c ≠ EmptyString →
      Forall (λ b, validCookieValueByte b = true) (bytes (SetCookie_Value c)) →
      run (RequireSessionCookie (AuthService_Authenticator auth) next r) w2 =
        if decide (env_now (w_tick w2) < unix_seconds (env_now (S (w_tick w)) + AuthService_jwtTTL auth))%Z
        then run (next (User_ID u) r) (tick w2)
        else (tick w2, reply_Redirect "/dashboard/login" StatusSeeOther).
Proof.
  cbn [Dashboard_Routes] in Hlogin. unfold handleLoginSubmit in Hlogin. cbv zeta in Hlogin.
  rewrite run_pbind in Hlogin.
  destruct (run (AuthService_Login auth (form "email") (form "password")) w) as [w0 [e|[token u]]] eqn:El;
    cbn [fst snd run] in Hlogin; [by simplify_eq/=|].
  rewrite run_pbind, run_time_Now in Hlogin. cbn [fst snd run] in Hlogin. simplify_eq.
  apply run_Login_inr in El as (iat & Hs & _ & He & _ & Hc).
  eexists _, u. split_and!; [done|done|done|done|done|]. intros next r others w2 Hsent Hne Hv.
  pose proof (sent_cookie_read r others _ Hsent eq_refl Hv) as Hread.
  cbn [session_cookie SetCookie_Value SetCookie_Name] in *.
  unfold RequireSessionCookie. rewrite Hread. cbn [Cookie_Value].
  rewrite bool_decide_eq_false_2 by done. cbn [AuthService_Authenticator Authenticator_VerifyJWT].
  rewrite run_pbind. destruct (run_VerifyJWT_issued _ _ _ _ _ w2 Hs) as [Ht Hv2].
  destruct (run (AuthService_VerifyJWT auth token) w2) as [w3 res]. cbn [fst snd] in *. subst w3.
  case_decide; [by rewrite Hv2|by destruct Hv2 as [e ->]].
Qed.

(** the dashboard's live feed shows the events of the user's links only, in
    the order of their publication, each at most once, whatever fails and
    whatever the rest of the program does; none is left out while the feed is open
    and nothing fails; and when it ends it is no longer subscribed. *)
Theorem dashboard_feed_own_events {PL : Platform} u w w1 ch evs s' w'
  (Hwf : hub_wf (w_hub w))
  (Hstart : run (handleSecurityFeedSSE true) w = (w1, reply StatusOK (EventStream ch)))
  (Hothers : Forall (of_others ch) evs)
  (Hrun : feed_steps ch (λ e, owns u (Event_LinkID e)) evs (mkFeed [] true) w1 = (s', w')) :
  let checks := feed_checks ch (λ e, owns u (Event_LinkID e)) evs (mkFeed [] true) w1 in
  let own (we : World * Event) := owner_of_link (w_db we.1) (Event_LinkID we.2) = Some u in
  sublist (feed_sent s') (feed_published evs) ∧
  Forall (λ e, ∃ wr, (wr, e) ∈ checks ∧ own (wr, e)) (feed_sent s') ∧
  (NoFaults PL → feed_open s' = true → feed_sent s' = (filter (λ we, bool_decide (own we) = true) checks).*2) ∧
  (feed_open s' = false → ch ∉ hub_subs (w_hub w')).
Proof.
  intros checks own. unfold handleSecurityFeedSSE in Hstart. cbn [negb] in Hstart. rewrite run_pbind in Hstart.
  pose proof (run_hub_Subscribe w Hwf) as (Hf & Hb & _).
  destruct (run hub_Subscribe w) as [w0 ch0]. cbn [fst snd run] in *. simplify_eq.
  destruct (feed_from_start _ _ _ _ _ _ (λ e, owns_hub u (Event_LinkID e)) Hf Hb Hothers Hrun)
    as (Hsub & Hsent & Hall & Hclosed). fold checks in Hsent, Hall.
  split_and!; [done| | |done].
  - apply Forall_forall. intros e (wr & Hin & Hw)%Hsent. exists wr. split; [done|].
    destruct (run_owns u (Event_LinkID e) wr) as (b & E & Hb' & _). rewrite E in Hw. by apply Hb'.
  - intros HNF Hopen. rewrite (Hall Hopen). unfold passed. f_equal. apply list_filter_iff.
    intros [wr e]. unfold passes, own. cbn [fst snd].
    destruct (run_owns u (Event_LinkID e) wr) as (b & -> & _ & Hok). cbn [snd]. by rewrite (Hok HNF).
Qed.

(** ** Witnesses *)

Definition demo_form (k : string) : string :=
  if decide (k = "email") then "owner@example.org" else if decide (k = "password") then "hunter2" else EmptyString.

Definition demo_dashboard_login :=
  run (@Dashboard_Routes demo demo_bcrypt demo_sha256 demo_jwt demo_aead _ _ _ _ _ _ _ _ demo_auth (mkCipher demo_key) false
         (DashPublic (LoginSubmit demo_form)) (demo_call "")) demo_registered.1.

Lemma demo_dashboard_status : Reply_status demo_dashboard_login.2 = 303%Z.
Proof. vm_compute. reflexivity. Qed.

Lemma demo_dashboard_cookie :
  SetCookie_Value <$> Reply_cookie demo_dashboard_login.2 = Some demo_token.
Proof. vm_compute. reflexivity. Qed.

Lemma demo_dashboard_name :
  SetCookie_Name <$> Reply_cookie demo_dashboard_login.2 = Some SessionCookieName.
Proof. vm_compute. reflexivity. Qed.

Lemma demo_token_sendable : forallb validCookieValueByte (bytes demo_token) = true.
Proof. vm_compute. reflexivity. Qed.

Lemma demo_token_nonempty : bool_decide (demo_token = EmptyString) = false.
Proof. vm_compute. reflexivity. Qed.

(** The browser's next request, with a cookie of its own before. *)
Definition demo_browser : Request :=
  mkRequest "GET" (mkURL "https" "example.org" "/dashboard/links" "")
    {[ "Cookie" := [cookie_line [mkCookie "theme" "dark"; mkCookie SessionCookieName demo_token]] ]}
    "example.org" "198.51.100.7:4000" EmptyString.

Definition demo_page : UUID → Request → P (PL := demo) Reply :=
  λ u _, Ret (render (ImportPage (demo_uuid_String u))).

Lemma dashboard_login_roundtrip_witness :
  ∃ u, User_Email u = "owner@example.org" ∧
    run (RequireSessionCookie (@AuthService_Authenticator demo demo_sha256 demo_jwt _ demo_auth) demo_page demo_browser)
      (demo_world empty_DB) = (tick (demo_world empty_DB), render (ImportPage (demo_uuid_String (User_ID u)))).
Proof.
  destruct (@dashboard_login_roundtrip demo _ demo_bcrypt demo_sha256 demo_jwt demo_jwt_laws demo_aead demo_auth
    (mkCipher demo_key) false demo_form (demo_call "") demo_registered.1 demo_dashboard_login.1 demo_dashboard_login.2)
    as (c & u & Hc & _ & _ & He & _ & Hnext).
  - apply surjective_pairing.
  - exact demo_dashboard_status.
  - exists u. split; [exact He|].
    assert (SetCookie_Value c = demo_token ∧ SetCookie_Name c = SessionCookieName) as [Hv Hn].
    { split; [pose proof demo_dashboard_cookie as Hd; rewrite Hc in Hd; by injection Hd|].
      pose proof demo_dashboard_name as Hd. rewrite Hc in Hd. by injection Hd. }
    rewrite (Hnext demo_page demo_browser [mkCookie "theme" "dark"] (demo_world empty_DB)).
    + rewrite decide_True by (vm_compute; reflexivity). reflexivity.
    + unfold sends_cookie. rewrite Hv, Hn. split; [reflexivity|].
      split; [apply sendable_all; reflexivity|]. repeat constructor. discriminate.
    + rewrite Hv. exact (bool_decide_eq_false_1 _ demo_token_nonempty).
    + rewrite Hv. apply Forall_forall. intros b Hb. pose proof demo_token_sendable as Hall.
      rewrite forallb_forall in Hall. apply Hall, list_elem_of_In, Hb.
Defined.


(** User 1 terminates link 5 from the dashboard. *)
Definition demo_token_1 : string :=
  match jwt_SignedString (JWT := demo_jwt)
          (mkMapClaims (Some (demo_uuid_String 1)) (Some 3600000000000%Z) None) "k3y" with
  | inr t => t
  | inl _ => EmptyString
  end.

Definition demo_session_request : Request :=
  mkRequest "POST" (mkURL "https" "example.org" "/dashboard/links/101/terminate" "")
    {[ "Cookie" := [cookie_line [mkCookie SessionCookieName demo_token_1]] ]}
    "example.org" "198.51.100.7:4000" EmptyString.

Definition demo_dashboard_terminate :=
  run (@Dashboard_Routes demo demo_bcrypt demo_sha256 demo_jwt demo_aead _ _ _ _ _ _ _ _ demo_auth (mkCipher demo_key) false
         (DashOwner (TerminateRow (demo_uuid 5))) demo_session_request) (demo_world demo_api_db).

Lemma demo_terminate_status : Reply_status demo_dashboard_terminate.2 = 200%Z.
Proof. vm_compute. reflexivity. Qed.

Lemma Dashboard_isolated_witness :
  ∃ u, same_foreign u demo_api_db (w_db demo_dashboard_terminate.1) ∧
    page_concerns demo_api_db u (Reply_body demo_dashboard_terminate.2).
Proof.
  destruct (@Dashboard_isolated demo demo_bcrypt demo_sha256 demo_jwt demo_jwt_laws demo_aead demo_aead_laws demo_auth
    (mkCipher demo_key) false (TerminateRow (demo_uuid 5)) demo_session_request (demo_world demo_api_db)
    demo_dashboard_terminate.1 demo_dashboard_terminate.2) as [[Hl _]|(u & _ & Hf & Hp)].
  - apply surjective_pairing.
  - exfalso. pose proof demo_terminate_status as Hs. rewrite Hl in Hs. discriminate Hs.
  - by exists u.
Defined.

Definition demo_sse := run (handleSecurityFeedSSE (PL := demo) true) (demo_world demo_api_db).

Definition demo_sse_events : list (feed_event (PL := demo)) :=
  [FeedHub (APublish (mkEvent EventLinkTerminated 6 "not yours" 1)); FeedReceive true;
   FeedHub (APublish (mkEvent EventLinkTerminated 5 "ttl_expired" 2)); FeedReceive true; FeedDone].

Definition demo_sse_end :=
  feed_steps 0 (λ e, owns (PL := demo) 1%N (Event_LinkID e)) demo_sse_events (mkFeed [] true) demo_sse.1.

Lemma demo_sse_sent : feed_sent demo_sse_end.1 = [mkEvent EventLinkTerminated 5 "ttl_expired" 2].
Proof. vm_compute. reflexivity. Qed.

Lemma dashboard_feed_own_events_witness :
  sublist [mkEvent EventLinkTerminated 5 "ttl_expired" 2] (feed_published demo_sse_events).
Proof.
  rewrite <-demo_sse_sent.
  apply (@dashboard_feed_own_events demo 1%N (demo_world demo_api_db) demo_sse.1 0 demo_sse_events
    demo_sse_end.1 demo_sse_end.2).
  - apply hub_wf_new.
  - reflexivity.
  - by repeat constructor.
  - apply surjective_pairing.
Defined.
