(* ===== verification/EventSource.v ===== *)
(** * The event feed as a browser reads it

    What handleSecurityFeedSSE (transport/webui/handlers.go) writes for an event -
    [json.Marshal] of a map in a frame of server-sent events -, and what the
    EventSource of the page makes of the stream.  No text of an event, whatever
    its bytes, can end its frame or start another ([feed_in_browser]). *)

From Stdlib Require Import Ascii.
From Stdlib Require String.
From stdpp Require Import sorting.
From S2P Require Import Prelude GoStrings Domain Http Json PubSub Schema Platform Effects Interfaces RepoLinks Auth Middleware Templates Rest Ownership Feed WebUI.

Import PubSub.

Open Scope go_scope.

(** ** Definitions *)

(** [t.Format(time.RFC3339)] for a time whose location is [offset] seconds east
    of UTC. *)
Definition Format_RFC3339 (offset : Z) (t : GoTime) : string :=
  let secs := (t / 1000000000 + offset)%Z in
  let '(year, month, day) := civil (secs / 86400 + 719468) in
  let sod := (secs mod 86400)%Z in
  let zone := Z.quot offset 60 in
  appendInt year 4 +:+ "-" +:+ appendInt month 2 +:+ "-" +:+ appendInt day 2 +:+ "T" +:+
  appendInt (sod / 3600) 2 +:+ ":" +:+ appendInt (sod mod 3600 / 60) 2 +:+ ":" +:+ appendInt (sod mod 60) 2 +:+
  (if (zone =? 0)%Z then "Z"
   else (if (zone <? 0)%Z then "-" else "+") +:+ appendInt (Z.abs zone / 60) 2 +:+ ":" +:+ appendInt (Z.abs zone mod 60) 2).

(** [json.Marshal] of a map: its keys are sorted. *)
Definition json_scalar_value {PL : Platform} (offset : GoTime → Z) (v : json_scalar) : json :=
  match v with
  | JString s => JsStr s
  | JOptString o => from_option JsStr JsNull o
  | JUUID u => JsStr (uuid_String u)
  | JTime t => JsStr (Format_RFC3339 (offset t) t)
  end.

Definition key_le (a b : string * json) : Prop := String.leb a.1 b.1 = true.
#[export] Instance key_le_dec a b : Decision (key_le a b).
Proof. unfold key_le. apply _. Defined.

Definition json_map {PL : Platform} (offset : GoTime → Z) (fields : list (string * json_scalar)) : json :=
  JsObj (merge_sort key_le ((λ f, (f.1, json_scalar_value offset f.2)) <$> fields)).

Definition payload_json {PL : Platform} (offset : GoTime → Z) (evt : Event) : json :=
  match sse_payload evt with JMap fields => json_map offset fields | _ => JsNull end.

(** [fmt.Fprintf(w, "data: %s\n\n", payload)] *)
Definition sse_frame {PL : Platform} (offset : GoTime → Z) (evt : Event) : list ascii :=
  bytes "data: " ++ write (payload_json offset evt) ++ ["010"; "010"]%char.

Definition sse_stream {PL : Platform} (offset : GoTime → Z) (s : feed_state) : list ascii :=
  feed_sent s ≫= sse_frame offset.

(** ** Specification *)

(** The data of a line that is a data field, one space after the colon left out. *)
Definition data_field (line : list ascii) : option (list ascii) :=
  match line with
  | "d" :: "a" :: "t" :: "a" :: ":" :: " " :: v => Some v
  | "d" :: "a" :: "t" :: "a" :: ":" :: v => Some v
  | "d" :: "a" :: "t" :: "a" :: [] => Some []
  | _ => None
  end%char.

(** The end of a line: an empty one dispatches the data there is; a data field
    is added to it, after a line feed if there was some; other fields are not
    used. *)
Definition end_line (line : list ascii) (data : option (list ascii)) : list (list ascii) * option (list ascii) :=
  match line with
  | [] => (option_list data, None)
  | _ => ([], match data_field line with
              | Some v => Some (from_option (λ d, d ++ "010"%char :: v) v data)
              | None => data
              end)
  end.

(** The messages that EventSource dispatches for a stream; lines end with CR, LF
    or both, and what is incomplete at the end is dropped. *)
Fixpoint sse_read (l line : list ascii) (data : option (list ascii)) : list (list ascii) :=
  match l with
  | [] => []
  | "013"%char :: "010"%char :: l' => let '(out, data') := end_line line data in out ++ sse_read l' [] data'
  | c :: l' =>
      if decide (c = "010"%char ∨ c = "013"%char)
      then let '(out, data') := end_line line data in out ++ sse_read l' [] data'
      else sse_read l' (line ++ [c]) data
  end.

(** The messages of a stream from its start. *)
Definition sse_messages_read (l : list ascii) : list (list ascii) := sse_read l [] None.

(** ** Lemmas *)

(** *** JSON texts have no control bytes *)

Definition printable (c : ascii) : Prop := in_range 0 31 c = false.

Lemma not_low c n : (32 <= n)%N → (n <= N_of_ascii c)%N → printable c.
Proof. intros Hn Hc. apply in_range_false. lia. Qed.

Lemma rune_bytes l n : rune_size l = Some n → 1 < n → Forall (λ c, 128 <= N_of_ascii c)%N (take n l).
Proof.
  destruct l as [|c0 [|c1 [|c2 [|c3 l]]]]; cbn [rune_size]; intros Hs Hn; try done;
    repeat (case_match; simplify_eq; try done; try lia);
    rewrite ?andb_true_iff, ?in_range_spec, ?in_range_false in *; cbn [take];
    repeat (apply Forall_cons_2; [repeat case_match; rewrite ?in_range_spec in *; lia|]); apply Forall_nil_2.
Qed.

Lemma escape_ascii_printable c : Forall printable (escape_ascii c).
Proof.
  unfold printable. apply (Forall_impl (λ x, negb (in_range 0 31 x) = true)); [|by intros x ?%negb_true_iff].
  apply Forall_forall. intros x Hx. assert (forallb (λ x, negb (in_range 0 31 x)) (escape_ascii c) = true) as Hall.
  { by destruct c as [[] [] [] [] [] [] [] []]. }
  rewrite forallb_forall in Hall. by apply Hall, list_elem_of_In.
Qed.

Lemma escape_printable l : Forall printable (escape l).
Proof.
  remember (length l) as n eqn:En. revert l En. induction n as [n IH] using lt_wf_ind. intros l ->.
  assert (∀ k, length k < length l → Forall printable (escape k)) as Hrec by (intros k Hk; by eapply IH).
  assert (Forall printable (bytes "\ufffd") ∧ Forall printable (bytes "\u2028") ∧ Forall printable (bytes "\u2029"))
    as (Hf & H8 & H9) by (split_and!; repeat constructor).
  destruct l as [|c l1]; [constructor|]. cbn [escape]. destruct (rune_size (c :: l1)) as [k|] eqn:E.
  2:{ apply Forall_app. split; [done|]. apply Hrec. simpl. lia. }
  pose proof (rune_bytes _ _ E) as Hb.
  assert (∀ x, (128 <= N_of_ascii x)%N → printable x) as Hhigh by (intros x Hx; by apply (not_low x 128)).
  destruct k as [|[|[|[|[|k]]]]].
  - apply Forall_app. split; [done|]. apply Hrec. simpl. lia.
  - apply Forall_app. split; [apply escape_ascii_printable|]. apply Hrec. simpl. lia.
  - destruct l1 as [|c1 l2]; [by apply Forall_app; split; [|apply Hrec; simpl; lia]|].
    specialize (Hb ltac:(lia)). cbn [take] in Hb. repeat apply Forall_cons in Hb as [? Hb].
    repeat (apply Forall_cons_2; [by apply Hhigh|]). apply Hrec. simpl. lia.
  - destruct l1 as [|c1 [|c2 l3]]; [by apply Forall_app; split; [|apply Hrec; simpl; lia]..|].
    specialize (Hb ltac:(lia)). cbn [take] in Hb. repeat apply Forall_cons in Hb as [? Hb].
    apply Forall_app. split; [|apply Hrec; simpl; lia]. repeat case_decide; [done..|].
    repeat (apply Forall_cons_2; [by apply Hhigh|]). constructor.
  - destruct l1 as [|c1 [|c2 [|c3 l4]]]; [by apply Forall_app; split; [|apply Hrec; simpl; lia]..|].
    specialize (Hb ltac:(lia)). cbn [take] in Hb. repeat apply Forall_cons in Hb as [? Hb].
    repeat (apply Forall_cons_2; [by apply Hhigh|]). apply Hrec. simpl. lia.
  - apply Forall_app. split; [done|]. apply Hrec. simpl. lia.
Qed.

Lemma commas_printable ls : Forall (Forall printable) ls → Forall printable (commas ls).
Proof.
  induction 1 as [|x ls Hx Hls IH]; [constructor|]. destruct ls as [|y ls]; [done|].
  rewrite commas_cons. apply Forall_app. split; [done|]. by constructor.
Qed.

Lemma quote_printable s : Forall printable (quote s).
Proof.
  unfold quote. constructor; [done|]. apply Forall_app. split; [apply escape_printable|by repeat constructor].
Qed.

(** An object of texts is written on one line. *)
Lemma write_texts_printable l : Forall printable (write (JsObj ((λ f : string * string, (f.1, JsStr f.2)) <$> l))).
Proof.
  cbn [write]. constructor; [done|]. apply Forall_app. split; [|by repeat constructor].
  apply commas_printable, Forall_fmap, Forall_fmap, Forall_true. intros [k v]. cbn [compose fst snd write].
  apply Forall_app. split; [apply quote_printable|]. constructor; [done|]. apply quote_printable.
Qed.

(** *** The reader of the stream *)

Lemma sse_read_char c l line data : printable c → sse_read (c :: l) line data = sse_read l (line ++ [c]) data.
Proof.
  intros Hc. destruct c as [[] [] [] [] [] [] [] []]; try discriminate Hc; reflexivity.
Qed.

Lemma sse_read_line k l line data : Forall printable k → sse_read (k ++ l) line data = sse_read l (line ++ k) data.
Proof.
  intros Hk. revert line. induction Hk as [|c k Hc Hk IH]; intros line; [by rewrite app_nil_r|].
  rewrite <-app_comm_cons, sse_read_char, IH by done. by rewrite <-app_assoc.
Qed.

(** A frame is one message, and leaves the reader where it was. *)
Lemma sse_read_frame k l : Forall printable k →
  sse_read (bytes "data: " ++ k ++ ["010"; "010"]%char ++ l) [] None = k :: sse_read l [] None.
Proof.
  intros Hk. rewrite app_assoc, sse_read_line by (apply Forall_app; split; [by repeat constructor|done]).
  rewrite app_nil_l. reflexivity.
Qed.

Section feed.
Context {PL : Platform} (offset : GoTime → Z).

Lemma payload_texts evt :
  payload_json offset evt = JsObj ((λ f : string * string, (f.1, JsStr f.2)) <$>
    [("link_id", uuid_String (Event_LinkID evt)); ("message", Event_Message evt);
     ("occurred_at", Format_RFC3339 (offset (Event_OccurredAt evt)) (Event_OccurredAt evt)); ("type", Event_Type evt)]).
Proof. reflexivity. Qed.

Lemma stream_messages s : sse_messages_read (sse_stream offset s) = (λ e, write (payload_json offset e)) <$> feed_sent s.
Proof.
  unfold sse_messages_read, sse_stream. induction (feed_sent s) as [|e es IH]; [done|].
  rewrite bind_cons. unfold sse_frame at 1. rewrite <-!app_assoc, sse_read_frame, IH; [done|].
  rewrite payload_texts. apply write_texts_printable.
Qed.

(** The texts of an event: valid UTF-8. *)
Definition event_texts (e : Event) : Prop :=
  utf8 (bytes (Event_Message e)) ∧ utf8 (bytes (Event_Type e)) ∧ utf8 (bytes (uuid_String (Event_LinkID e))) ∧
  utf8 (bytes (Format_RFC3339 (offset (Event_OccurredAt e)) (Event_OccurredAt e))).

Lemma payload_read e : event_texts e → read_json (of_bytes (write (payload_json offset e))) = Some (payload_json offset e).
Proof.
  intros (Hm & Ht & Hu & Hf). apply (read_written 1); [|done]. rewrite payload_texts. apply (writable_obj 0). cbn [fmap list_fmap]. repeat (apply Forall_cons_2; [split; [|by constructor]|]); [..|apply Forall_nil_2];
    apply ascii_utf8, (bool_decide_unpack _); vm_compute; exact I.
Qed.
End feed.

(** ** Properties *)

(** C33: the feed of the dashboard, in the browser.  Whatever the events and their
    texts are, and whatever fails: the messages that EventSource dispatches for
    the bytes the handler wrote are, one for one and in order, the JSON texts of
    the events it sent, each of which was of a link of the user when it was
    checked; no text of an event ends its frame or forges another.  Where the
    texts are UTF-8, what [JSON.parse] makes of a message is the event. *)
Theorem feed_in_browser {PL : Platform} offset u w w1 ch evs s' w'
  (Hwf : hub_wf (w_hub w))
  (Hstart : run (handleSecurityFeedSSE true) w = (w1, reply StatusOK (EventStream ch)))
  (Hothers : Forall (of_others ch) evs)
  (Hrun : feed_steps ch (λ e, owns u (Event_LinkID e)) evs (mkFeed [] true) w1 = (s', w')) :
  let checks := feed_checks ch (λ e, owns u (Event_LinkID e)) evs (mkFeed [] true) w1 in
  Forall2 (λ text e, text = write (payload_json offset e) ∧
      (event_texts offset e → read_json (of_bytes text) = Some (payload_json offset e)) ∧
      ∃ wr, (wr, e) ∈ checks ∧ owner_of_link (w_db wr) (Event_LinkID e) = Some u)
    (sse_messages_read (sse_stream offset s')) (feed_sent s') ∧
  sublist (feed_sent s') (feed_published evs).
Proof.
  intros checks. destruct (dashboard_feed_own_events u w w1 ch evs s' w' Hwf Hstart Hothers Hrun) as (Hsub & Hown & _).
  split; [|done]. rewrite stream_messages. apply Forall2_fmap_l, Forall_Forall2_diag.
  eapply Forall_impl; [exact Hown|]. intros e He. split_and!; [done|apply payload_read|done].
Qed.

(** ** Witnesses *)

(** An event whose text looks like the end of its frame and another frame. *)
Definition demo_forged : string := of_bytes (bytes "x" ++ ["010"; "010"]%char ++ bytes "data: {}" ++ ["010"; "010"]%char).

Definition demo_forged_events : list (feed_event (PL := demo)) :=
  [FeedHub (APublish (mkEvent EventLinkTerminated 6 "not yours" 1)); FeedReceive true;
   FeedHub (APublish (mkEvent EventLinkTerminated 5 demo_forged 2)); FeedReceive true; FeedDone].

Definition demo_forged_end :=
  feed_steps 0 (λ e, owns (PL := demo) 1%N (Event_LinkID e)) demo_forged_events (mkFeed [] true) demo_sse.1.

Lemma demo_forged_sent : feed_sent demo_forged_end.1 = [mkEvent EventLinkTerminated 5 demo_forged 2].
Proof. vm_compute. reflexivity. Qed.

Lemma feed_in_browser_witness :
  length (sse_messages_read (sse_stream (PL := demo) (λ _, 3600%Z) demo_forged_end.1)) = 1.
Proof.
  destruct (@feed_in_browser demo (λ _, 3600%Z) 1%N (demo_world demo_api_db) demo_sse.1 0 demo_forged_events
    demo_forged_end.1 demo_forged_end.2) as [Hmessages _].
  - apply hub_wf_new.
  - reflexivity.
  - by repeat constructor.
  - apply surjective_pairing.
  - apply Forall2_length in Hmessages. rewrite Hmessages, demo_forged_sent. reflexivity.
Defined.

Example demo_rfc3339 : Format_RFC3339 (-12600) 1700000000000000000 = "2023-11-14T18:43:20-03:30".
Proof. vm_compute. reflexivity. Qed.
