(* ===== verification/Router.v ===== *)
(** * The tables of routes, and the dispatch of a request

    The patterns of cmd/server/main.go, the table of transport/http/server.go and
    the one of transport/webui/handlers.go, and the way of a request through
    ServeMux, StripPrefix and chi to the row that serves it. *)

From Stdlib Require Import Ascii.
From Stdlib Require String.
From S2P Require Import Prelude GoStrings Domain Http Url Mux Markup Schema Platform Effects Interfaces RepoLinks RepoUsers RepoSessions RepoGuests RepoLogs Crypto Import Auth Blacklist Director Proxy Middleware Templates Rest WebUI.

(** ** Definitions *)

(** *** cmd/server/main.go *)

Inductive destination : Type := ToProxy | ToDashboard | ToControlPlane | ToHealthz.

Definition server_mux : list (mux_pattern * destination) :=
  [(parsePattern RoutePrefix, ToProxy);
   (parsePattern "/dashboard/", ToDashboard);
   (parsePattern "/", ToControlPlane);
   (parsePattern "/healthz", ToHealthz)].

(** *** Forms *)

(** The media type of the Content-Type header. *)
Definition media_type (r : Request) : string :=
  of_bytes (to_lower <$> bytes (TrimString (Cut (Header_Get (Request_Header r) "Content-Type") ";").1)).

(** [maxFormSize] *)
Definition max_form_size : Z := 10485760.

(** [Request.FormValue]: the values of an encoded body, those of the query, and
    those that package mime/multipart finds. *)
Definition FormValue (multipart : Request → list (string * string)) (r : Request) (key : string) : string :=
  let body :=
    if bool_decide (Request_Method r ∈ ["POST"; "PUT"; "PATCH"]) &&
       bool_decide (media_type r = "application/x-www-form-urlencoded") &&
       (Z.of_nat (String.length (Request_Body r)) <=? max_form_size)%Z
    then ParseQuery (Request_Body r) else [] in
  Values_Get (body ++ ParseQuery (URL_RawQuery (Request_URL r)) ++ multipart r) key.

(** *** chi routers *)

(** A row: its handler gets the parameters of the path and the request. *)
Record row (E : Type) := mkRow {
  row_method : string;
  row_pattern : string;
  row_endpoint : (string → string) → Request → E }.
Arguments mkRow {E} _ _ _.
Arguments row_method {E} _.
Arguments row_pattern {E} _.
Arguments row_endpoint {E} _ _ _.

Section router.
Context {E : Type}.

Definition Get (p : string) (h : (string → string) → Request → E) : list (row E) := [mkRow "GET" p h].
Definition Post (p : string) (h : (string → string) → Request → E) : list (row E) := [mkRow "POST" p h].
Definition Put (p : string) (h : (string → string) → Request → E) : list (row E) := [mkRow "PUT" p h].
Definition Delete (p : string) (h : (string → string) → Request → E) : list (row E) := [mkRow "DELETE" p h].

(** [r.Route(prefix, ...)]: the root of the mounted router answers with and
    without its slash. *)
Definition Route (prefix : string) (rows : list (row E)) : list (row E) :=
  rows ≫= λ r,
    if decide (row_pattern r = "/")
    then [mkRow (row_method r) prefix (row_endpoint r); mkRow (row_method r) (prefix +:+ "/") (row_endpoint r)]
    else [mkRow (row_method r) (prefix +:+ row_pattern r) (row_endpoint r)].

Definition chi_key (r : row E) : chi_row := (row_method r, row_pattern r).

(** What a router does with a request. *)
Inductive routed : Type :=
| Routed (e : E)
| MethodNotAllowed
| NotFound.

Definition chi_route `{Chi} (rows : list (row E)) (u : Target) (r : Request) : routed :=
  match chi_Match (chi_key <$> rows) (Request_Method r) (routePath u) with
  | ChiMatched i params =>
      match rows !! i with
      | Some row => Routed (row_endpoint row (URLParam params) r)
      | None => NotFound
      end
  | ChiMethodNotAllowed => MethodNotAllowed
  | ChiNotFound => NotFound
  end.

End router.

Arguments routed : clear implicits.

(** *** transport/http/server.go *)

Definition on_link (param : string → string) (e : link_endpoint) : endpoint := OnLink (param "linkID") e.

Definition rest_routes : list (row endpoint) :=
  Route "/api/v1" (
    Post "/auth/register" (λ _ _, Public Register) ++
    Post "/auth/login" (λ _ _, Public Login) ++
    Get "/target-sites" (λ _ _, Public ListTargetSites) ++
    Get "/revocation-reasons" (λ _ _, Public ListRevocationReasons) ++
    Get "/me" (λ _ _, Owner Me) ++
    Post "/target-sites" (λ _ _, Owner CreateTargetSite) ++
    Route "/devices" (
      Get "/" (λ _ _, Owner ListDevices) ++
      Post "/" (λ _ _, Owner CreateDevice) ++
      Delete "/{deviceID}" (λ p _, Owner (DeleteDevice (p "deviceID")))) ++
    Route "/api-keys" (
      Get "/" (λ _ _, Owner ListAPIKeys) ++
      Post "/" (λ _ _, Owner CreateAPIKey) ++
      Post "/{keyID}/revoke" (λ p _, Owner (RevokeAPIKey (p "keyID")))) ++
    Route "/sessions" (
      Get "/" (λ _ _, Owner ListSessions) ++
      Post "/import" (λ _ _, Owner ImportSession) ++
      Get "/{sessionID}" (λ p _, Owner (GetSession (p "sessionID")))) ++
    Route "/policies" (
      Get "/" (λ _ _, Owner ListPolicies) ++
      Post "/" (λ _ _, Owner CreatePolicy) ++
      Delete "/{policyID}" (λ p _, Owner (DeletePolicy (p "policyID")))) ++
    Route "/blacklist" (
      Get "/" (λ _ _, Owner ListBlacklist) ++
      Post "/" (λ _ _, Owner CreateBlacklistEndpoint) ++
      Delete "/{endpointID}" (λ p _, Owner (DeleteBlacklistEndpoint (p "endpointID"))) ++
      Put "/{endpointID}/methods" (λ p _, Owner (SetBlockedMethods (p "endpointID"))) ++
      Post "/{endpointID}/attach-site/{siteID}"
        (λ p _, Owner (AttachBlacklistToSite (p "endpointID") (p "siteID")))) ++
    Route "/guests" (
      Get "/" (λ _ _, Owner ListGuests)) ++
    Route "/links" (
      Get "/" (λ _ r, Owner (ListLinks (Values_Get (ParseQuery (URL_RawQuery (Request_URL r))) "status"))) ++
      Post "/" (λ _ _, Owner CreateLink) ++
      Get "/{linkID}" (λ p _, on_link p GetLink) ++
      Post "/{linkID}/terminate" (λ p _, on_link p TerminateLink) ++
      Get "/{linkID}/stats" (λ p _, on_link p GetLinkStats) ++
      Get "/{linkID}/logs" (λ p _, on_link p GetLinkLogs) ++
      Get "/{linkID}/guest-sessions" (λ p _, on_link p GetLinkGuestSessions) ++
      Get "/{linkID}/security-events" (λ p _, on_link p GetLinkSecurityEvents) ++
      Get "/{linkID}/termination" (λ p _, on_link p GetLinkTermination) ++
      Post "/{linkID}/attach-endpoint/{endpointID}" (λ p _, on_link p (AttachEndpointToLink (p "endpointID"))))).

(** *** transport/webui/handlers.go *)

(** [form] is [Request.FormValue]; [streaming]: the response writer is a
    Flusher. *)
Definition dashboard_routes (form : Request → string → string) (streaming : bool)
    : list (row dashboard_route) :=
  Get "/login" (λ _ _, DashPublic LoginForm) ++
  Post "/login" (λ _ r, DashPublic (LoginSubmit (form r))) ++
  Get "/logout" (λ _ _, DashPublic Logout) ++
  Get "/" (λ _ _, DashOwner LinksList) ++
  Get "/links" (λ _ _, DashOwner LinksList) ++
  Post "/links/{linkID}/terminate" (λ p _, DashOwner (TerminateRow (p "linkID"))) ++
  Get "/import" (λ _ _, DashOwner ImportForm) ++
  Post "/import" (λ _ r, DashOwner (ImportSubmit (form r))) ++
  Get "/security-feed" (λ _ _, DashOwner SecurityFeed) ++
  Get "/events" (λ _ _, DashOwner (SecurityFeedEvents streaming)).

(** *** The way of a request *)

(** The request that the server hands to the multiplexer. *)
Definition with_target (u : Target) (r : Request) : Request :=
  mkRequest (Request_Method r) (mkURL EmptyString EmptyString (Target_Path u) (Target_RawQuery u))
    (Request_Header r) (Request_Host r) (Request_RemoteAddr r) (Request_Body r).

Inductive dispatched : Type :=
| DispatchProxy (r : Request)
| DispatchRest (e : routed endpoint) (r : Request)
| DispatchDashboard (e : routed dashboard_route) (r : Request)
| DispatchHealthz
| DispatchRedirect (url : string)
| DispatchNotFound.

(** The multiplexer of main.go on the request [r] with the target [u]. *)
Definition dispatch `{Chi} (form : Request → string → string) (streaming : bool)
    (u : Target) (r : Request) : dispatched :=
  match findHandler server_mux (Request_Method r) u with
  | MuxHandler ToProxy => DispatchProxy (with_target u r)
  | MuxHandler ToDashboard =>
      match StripPrefix "/dashboard" u with
      | None => DispatchNotFound
      | Some u' => DispatchDashboard (chi_route (dashboard_routes form streaming) u' (with_target u' r)) (with_target u' r)
      end
  | MuxHandler ToControlPlane => DispatchRest (chi_route rest_routes u (with_target u r)) (with_target u r)
  | MuxHandler ToHealthz => DispatchHealthz
  | MuxRedirect url => DispatchRedirect url
  | MuxNotFound => DispatchNotFound
  end.

(** ** Specification: the address of an endpoint *)

(** A method, a pattern and the texts of its parameters. *)
Definition address : Type := string * string * list string.

Definition endpoint_address (e : endpoint) : address :=
  match e with
  | Public Register => ("POST", "/api/v1/auth/register", [])
  | Public Login => ("POST", "/api/v1/auth/login", [])
  | Public ListTargetSites => ("GET", "/api/v1/target-sites", [])
  | Public ListRevocationReasons => ("GET", "/api/v1/revocation-reasons", [])
  | Owner Me => ("GET", "/api/v1/me", [])
  | Owner CreateTargetSite => ("POST", "/api/v1/target-sites", [])
  | Owner ListDevices => ("GET", "/api/v1/devices", [])
  | Owner CreateDevice => ("POST", "/api/v1/devices", [])
  | Owner (DeleteDevice id) => ("DELETE", "/api/v1/devices/{deviceID}", [id])
  | Owner ListAPIKeys => ("GET", "/api/v1/api-keys", [])
  | Owner CreateAPIKey => ("POST", "/api/v1/api-keys", [])
  | Owner (RevokeAPIKey id) => ("POST", "/api/v1/api-keys/{keyID}/revoke", [id])
  | Owner ListSessions => ("GET", "/api/v1/sessions", [])
  | Owner ImportSession => ("POST", "/api/v1/sessions/import", [])
  | Owner (GetSession id) => ("GET", "/api/v1/sessions/{sessionID}", [id])
  | Owner ListPolicies => ("GET", "/api/v1/policies", [])
  | Owner CreatePolicy => ("POST", "/api/v1/policies", [])
  | Owner (DeletePolicy id) => ("DELETE", "/api/v1/policies/{policyID}", [id])
  | Owner ListBlacklist => ("GET", "/api/v1/blacklist", [])
  | Owner CreateBlacklistEndpoint => ("POST", "/api/v1/blacklist", [])
  | Owner (DeleteBlacklistEndpoint id) => ("DELETE", "/api/v1/blacklist/{endpointID}", [id])
  | Owner (SetBlockedMethods id) => ("PUT", "/api/v1/blacklist/{endpointID}/methods", [id])
  | Owner (AttachBlacklistToSite id site) =>
      ("POST", "/api/v1/blacklist/{endpointID}/attach-site/{siteID}", [id; site])
  | Owner ListGuests => ("GET", "/api/v1/guests", [])
  | Owner (ListLinks _) => ("GET", "/api/v1/links", [])
  | Owner CreateLink => ("POST", "/api/v1/links", [])
  | OnLink id GetLink => ("GET", "/api/v1/links/{linkID}", [id])
  | OnLink id TerminateLink => ("POST", "/api/v1/links/{linkID}/terminate", [id])
  | OnLink id GetLinkStats => ("GET", "/api/v1/links/{linkID}/stats", [id])
  | OnLink id GetLinkLogs => ("GET", "/api/v1/links/{linkID}/logs", [id])
  | OnLink id GetLinkGuestSessions => ("GET", "/api/v1/links/{linkID}/guest-sessions", [id])
  | OnLink id GetLinkSecurityEvents => ("GET", "/api/v1/links/{linkID}/security-events", [id])
  | OnLink id GetLinkTermination => ("GET", "/api/v1/links/{linkID}/termination", [id])
  | OnLink id (AttachEndpointToLink eid) =>
      ("POST", "/api/v1/links/{linkID}/attach-endpoint/{endpointID}", [id; eid])
  end.

(** The query of the list of links. *)
Definition endpoint_query (e : endpoint) : string :=
  match e with
  | Owner (ListLinks status) =>
      if decide (status = EmptyString) then EmptyString else encode_values [("status", status)]
  | _ => EmptyString
  end.

(** The segments of a pattern, its parameters replaced by the texts in order. *)
Fixpoint fill (pattern values : list string) : list string :=
  match pattern with
  | [] => []
  | p :: pattern' =>
      match param_name p, values with
      | Some _, v :: values' => v :: fill pattern' values'
      | _, _ => p :: fill pattern' values
      end
  end.

Definition address_segments (a : address) : list string := fill (path_segments a.1.2) a.2.

(** What a client sends: the escaped path and the query. *)
Definition clean_target (segs : list string) (query : string) : Target :=
  mkTarget ("/" +:+ join "/" segs) EmptyString query.
Definition request_target (segs : list string) (query : string) : string :=
  escape encodePath ("/" +:+ join "/" segs) +:+ query_part (mkTarget EmptyString EmptyString query).

(** The texts that can be the segment of a path. *)
Definition segment_text (s : string) : Prop := proper s ∧ "/"%char ∉ bytes s.

#[export] Instance segment_text_dec s : Decision (segment_text s).
Proof. unfold segment_text. apply _. Defined.

(** Two patterns that some path without empty segments matches. *)
Fixpoint overlap (p q : list string) : bool :=
  match p, q with
  | [], [] => true
  | a :: p', b :: q' =>
      match param_name a, param_name b with
      | None, None => bool_decide (a = b)
      | Some _, None => bool_decide (b ≠ EmptyString)
      | None, Some _ => bool_decide (a ≠ EmptyString)
      | Some _, Some _ => true
      end && overlap p' q'
  | _, _ => false
  end.

(** No two rows of one method overlap. *)
Definition row_overlap {E} (r s : row E) : bool :=
  bool_decide (row_method r = row_method s) && overlap (split_on "/" (row_pattern r)) (split_on "/" (row_pattern s)).

Fixpoint unambiguous {E} (rows : list (row E)) : bool :=
  match rows with
  | [] => true
  | r :: rows' => forallb (λ s, negb (row_overlap r s)) rows' && unambiguous rows'
  end.

(** ** Lemmas *)

Lemma rest_unambiguous : unambiguous rest_routes = true.
Proof. vm_compute. reflexivity. Qed.

Lemma dashboard_unambiguous form streaming : unambiguous (dashboard_routes form streaming) = true.
Proof. vm_compute. reflexivity. Qed.

Definition rooted {E} (rows : list (row E)) : bool := forallb (λ r, HasPrefix (row_pattern r) "/") rows.

Lemma rest_rooted : rooted rest_routes = true.
Proof. vm_compute. reflexivity. Qed.

Lemma dashboard_rooted form streaming : rooted (dashboard_routes form streaming) = true.
Proof. vm_compute. reflexivity. Qed.

Lemma overlap_match p q path a b :
  Forall (λ s, s ≠ EmptyString) path → chi_segments p path = Some a → chi_segments q path = Some b → overlap p q = true.
Proof.
  intros Hpath. revert p q a b. induction Hpath as [|s path Hs Hpath IH]; intros [|x p] [|y q] a b Ha Hb;
    cbn [chi_segments] in Ha, Hb; try discriminate; [done|].
  cbn [overlap].
  destruct (param_name x), (param_name y); try apply fmap_Some in Ha as (a' & Ha & _);
    try apply fmap_Some in Hb as (b' & Hb & _); repeat (case_decide; [subst|discriminate]);
    rewrite ?bool_decide_eq_true_2 by done; cbn [andb]; by eapply IH.
Qed.

(** The parameters are segments of the path. *)
Lemma chi_segments_params p path params :
  Forall (λ s, s ≠ EmptyString) path → chi_segments p path = Some params → Forall (λ a, a.2 ≠ EmptyString) params.
Proof.
  intros Hpath. revert p params. induction Hpath as [|s path Hs Hpath IH]; intros [|x p] params; cbn [chi_segments]; try done.
  - intros [= <-]. constructor.
  - destruct (param_name x).
    + intros (ps & Hps & ->)%fmap_Some. constructor; [done|by eapply IH].
    + case_decide; [|done]. apply IH.
Qed.

Lemma unambiguous_lookup {E} (rows : list (row E)) i j r s :
  unambiguous rows = true → rows !! i = Some r → rows !! j = Some s → i ≠ j → row_overlap r s = false.
Proof.
  assert (∀ r s : row E, row_overlap r s = row_overlap s r) as Hsym.
  { intros r' s'. unfold row_overlap. f_equal; [by apply bool_decide_ext|].
    generalize (split_on "/" (row_pattern r')) (split_on "/" (row_pattern s')).
    induction l as [|x l IH]; intros [|y l']; try done. cbn [overlap]. rewrite IH.
    f_equal. destruct (param_name x), (param_name y); try done. by apply bool_decide_ext. }
  revert i j. induction rows as [|x rows IH]; intros i j Hu; [done|]. cbn [unambiguous] in Hu.
  apply andb_prop in Hu as [Hx Hu]. rewrite forallb_forall in Hx.
  assert (∀ k t, rows !! k = Some t → row_overlap x t = false) as Hx'.
  { intros k t Ht. apply negb_true_iff, Hx, list_elem_of_In. by eapply list_elem_of_lookup_2. }
  destruct i as [|i], j as [|j]; cbn [lookup list_lookup]; intros Hi Hj Hne; try done.
  - injection Hi as <-. by eapply Hx'.
  - injection Hj as <-. rewrite Hsym. by eapply Hx'.
  - eapply IH; [done|exact Hi|exact Hj|]. by intros ->.
Qed.

Section chi.
Context `{!Chi} `{!ChiLaws _}.

(** In a table without overlaps, a path without empty segments goes to the row
    that it matches. *)
Lemma chi_unique {E} (rows : list (row E)) i row path params :
  unambiguous rows = true → rooted rows = true → rows !! i = Some row →
  Forall (λ s, s ≠ EmptyString) (path_segments path) → HasPrefix path "/" = true →
  chi_matches (row_pattern row) path = Some params →
  chi_Match (chi_key <$> rows) (row_method row) path = ChiMatched i params.
Proof.
  intros Hu Hr Hrow Hpath Hpre Hm.
  assert (∀ j r ps, rows !! j = Some r → chi_matches (row_pattern r) path = Some ps →
    chi_segments (path_segments (row_pattern r)) (path_segments path) = Some ps) as Hseg.
  { intros j r ps Hj. unfold rooted in Hr. rewrite forallb_forall in Hr.
    assert (HasPrefix (row_pattern r) "/" = true) as Hrp by (apply Hr, list_elem_of_In; by eapply list_elem_of_lookup_2).
    apply HasPrefix_spec in Hrp as [t ->]. apply HasPrefix_spec in Hpre as [t' ->]. unfold chi_matches, path_segments.
    by rewrite !split_rooted. }
  pose proof (Hseg _ _ _ Hrow Hm) as Hm'.
  assert ((chi_key <$> rows) !! i = Some (row_method row, row_pattern row)) as Hk by by rewrite list_lookup_fmap, Hrow.
  destruct (chi_complete _ _ _ _ _ _ Hk Hm (chi_segments_params _ _ _ Hpath Hm')) as (j & ps & Hj).
  rewrite Hj. destruct (chi_sound _ _ _ _ _ Hj) as (pattern & Hlk & Hps).
  rewrite list_lookup_fmap in Hlk. apply fmap_Some in Hlk as (r & Hr' & [= Hmr ->]).
  destruct (decide (i = j)) as [<-|Hne]; [congruence|]. exfalso.
  pose proof (unambiguous_lookup _ _ _ _ _ Hu Hrow Hr' Hne) as Hno. unfold row_overlap in Hno.
  rewrite bool_decide_eq_true_2 in Hno by done. cbn [andb] in Hno.
  pose proof (overlap_match _ _ _ _ _ Hpath Hm' (Hseg _ _ _ Hr' Hps)) as Ho.
  unfold rooted in Hr. rewrite forallb_forall in Hr.
  assert (∀ j r, rows !! j = Some r → split_on "/" (row_pattern r) = EmptyString :: path_segments (row_pattern r)) as Hsp.
  { intros j' r' Hj'. assert (HasPrefix (row_pattern r') "/" = true) as [t ->]%HasPrefix_spec; [|done].
    apply Hr, list_elem_of_In. by eapply list_elem_of_lookup_2. }
  rewrite (Hsp _ _ Hrow), (Hsp _ _ Hr') in Hno. cbn [overlap] in Hno. rewrite Ho in Hno. done.
Qed.

Lemma chi_route_unique {E} (rows : list (row E)) row method pattern u r path params :
  unambiguous rows = true → rooted rows = true → routePath u = path → Request_Method r = method →
  find_first (λ x, bool_decide (chi_key x = (method, pattern))) rows = Some row →
  Forall (λ s, s ≠ EmptyString) (path_segments path) → HasPrefix path "/" = true →
  chi_matches pattern path = Some params →
  chi_route rows u r = Routed (row_endpoint row (URLParam params) r).
Proof.
  intros Hu Hr <- Hmethod Hfind Hpath Hpre Hm. apply find_first_Some in Hfind as [Hin Hk].
  apply bool_decide_eq_true in Hk. injection Hk as Hkm Hkp. subst.
  apply list_elem_of_lookup_1 in Hin as [i Hi]. unfold chi_route. rewrite <-Hkm.
  by rewrite (chi_unique rows i row _ params), Hi.
Qed.
End chi.

(** *** Clean targets *)

Lemma clean_target_path segs : Forall segment_text segs → clean_path ("/" +:+ join "/" segs).
Proof.
  intros Hs. exists segs. split_and!; [| |by left]; eapply Forall_impl; try exact Hs; by intros s [].
Qed.

Lemma path_segments_join segs : segs ≠ [] → Forall segment_text segs → path_segments ("/" +:+ join "/" segs) = segs.
Proof.
  intros Hne Hs. unfold path_segments. rewrite split_rooted. cbn [tail]. apply split_join; [done|].
  eapply Forall_impl; [exact Hs|]. by intros s [].
Qed.

Lemma segments_not_empty segs : Forall segment_text segs → Forall (λ s, s ≠ EmptyString) segs.
Proof. intros Hs. eapply Forall_impl; [exact Hs|]. by intros s [[? _] _]. Qed.

(** The server reads what the client sends. *)
Lemma parse_request_target segs q : good_query q → ParseRequestURI (request_target segs q) = Some (clean_target segs q).
Proof. intros Hq. apply ParseRequestURI_escaped; [apply HasPrefix_app|done]. Qed.

(** The patterns of a subtree take a path of one more segment at least. *)
Lemma findHandler_clean method segs q n :
  segs ≠ [] → Forall segment_text segs → method ≠ "CONNECT" → tree_match server_mux segs = n →
  match tree_match server_mux (segs ++ [EmptyString]) with
  | Some (p, _) => pattern_multi p && negb (length (pattern_segments p) =? length segs)
  | None => true
  end = true →
  findHandler server_mux method (clean_target segs q) = found n.
Proof.
  intros Hne Hs Hm <- Hsub. unfold clean_target. rewrite findHandler_escaped; [|done|by apply clean_target_path|].
  { by rewrite path_segments_join. }
  intros u. unfold matchOrRedirect. cbv zeta. destruct (_ && _); [|done].
  destruct (exactMatch _ _) eqn:Ex in |- *; [exfalso|done]. revert Ex.
  assert (∀ t, escape encodePath t +:+ "/" = escape encodePath (t +:+ "/")) as -> by (intros; by rewrite escape_app).
  rewrite exactMatch_escape, mux_match_escape.
  rewrite path_segments_slash, path_segments_join by (done || apply HasPrefix_app). unfold exactMatch.
  destruct (tree_match server_mux (segs ++ [EmptyString])) as [[p h]|]; [|done].
  apply andb_prop in Hsub as [-> Hlen]. cbn [negb orb]. rewrite path_segments_slash, path_segments_join by (done || apply HasPrefix_app).
  rewrite length_app. cbn [length]. intros [_ Hx%bool_decide_eq_true]%andb_prop.
  apply negb_true_iff, Nat.eqb_neq in Hlen. lia.
Qed.

Lemma server_mux_segments s rest :
  tree_match server_mux (s :: rest) =
  Some (if decide (s = "healthz" ∧ rest = []) then (parsePattern "/healthz", ToHealthz)
        else if decide (s = "dashboard" ∧ rest ≠ []) then (parsePattern "/dashboard/", ToDashboard)
        else if decide (s = "r" ∧ rest ≠ []) then (parsePattern "/r/", ToProxy)
        else (parsePattern "/", ToControlPlane)).
Proof.
  assert (∀ t, pattern_matches (mkPattern [t] true) (s :: rest) = bool_decide (s = t ∧ rest ≠ [])) as Hmulti.
  { intros t. unfold pattern_matches. cbn [pattern_multi pattern_segments length take].
    destruct rest as [|x rest]; cbn [length Nat.ltb Nat.leb].
    - rewrite andb_false_r. symmetry. apply bool_decide_eq_false. naive_solver.
    - rewrite andb_true_r. apply bool_decide_ext. naive_solver. }
  assert (pattern_matches (mkPattern ["healthz"] false) (s :: rest) = bool_decide (s = "healthz" ∧ rest = [])) as Hexact.
  { unfold pattern_matches. cbn [pattern_multi pattern_segments]. apply bool_decide_ext. naive_solver. }
  change (parsePattern "/healthz") with (mkPattern ["healthz"] false).
  change (parsePattern "/dashboard/") with (mkPattern ["dashboard"] true).
  change (parsePattern "/r/") with (mkPattern ["r"] true). change (parsePattern "/") with (mkPattern [] true).
  change server_mux with [(mkPattern ["r"] true, ToProxy); (mkPattern ["dashboard"] true, ToDashboard);
    (mkPattern [] true, ToControlPlane); (mkPattern ["healthz"] false, ToHealthz)].
  cbn [tree_match]. rewrite !Hmulti, Hexact.
  change (pattern_matches (mkPattern [] true) (s :: rest)) with true.
  repeat case_bool_decide; repeat case_decide; try done; naive_solver.
Qed.

Lemma good_query_escape s : good_query (escape encodeQueryComponent s).
Proof.
  unfold good_query. assert (Forall (λ c, is_ctl c = false) (bytes (escape encodeQueryComponent s))) as HF.
  { apply escape_bytes; [intros [[] [] [] [] [] [] [] []]; done|done|done|repeat constructor]. }
  induction HF as [|c l Hc HF IH]; [done|]. cbn [existsb]. by rewrite Hc.
Qed.

Lemma good_query_endpoint e : good_query (endpoint_query e).
Proof.
  destruct e as [|[]|]; try done. cbn [endpoint_query]. case_decide; [done|].
  unfold encode_values. cbn [fmap list_fmap join]. unfold good_query, encode_pair. cbn [fst snd].
  rewrite !bytes_app, !existsb_app. change (existsb is_ctl (bytes "=")) with false. by rewrite !good_query_escape.
Qed.

Lemma endpoint_status status :
  Values_Get (ParseQuery (endpoint_query (Owner (ListLinks status)))) "status" = status.
Proof. cbn [endpoint_query]. case_decide as Hs; [by subst|]. by rewrite ParseQuery_encode. Qed.

Lemma routePath_clean segs q : routePath (clean_target segs q) = "/" +:+ join "/" segs.
Proof. reflexivity. Qed.

(** Evaluation of the segments of an address whose texts are variables. *)
Ltac eval_address :=
  match goal with
  | |- context [address_segments ?a] =>
      let x := eval vm_compute in (address_segments a) in
      replace (address_segments a) with x by (vm_compute; reflexivity)
  end.

Ltac segment_texts :=
  repeat (apply Forall_cons; split; [first [assumption|apply (bool_decide_unpack _); vm_compute; exact I]|]);
  constructor.

Section dispatch.
Context `{!Chi} `{!ChiLaws _} (form : Request → string → string) (streaming : bool).

Lemma dispatch_rest segs q r : segs ≠ [] → Forall segment_text segs → Request_Method r ≠ "CONNECT" →
  head segs = Some "api" →
  let u := clean_target segs q in
  dispatch form streaming u r = DispatchRest (chi_route rest_routes u (with_target u r)) (with_target u r).
Proof.
  intros Hne Hs Hm Hh u. unfold dispatch, u. destruct segs as [|s rest]; [done|]. injection Hh as ->.
  erewrite findHandler_clean; [|done|done|done|apply server_mux_segments|].
  - by rewrite !decide_False by naive_solver.
  - cbn [app]. rewrite server_mux_segments. rewrite !decide_False by naive_solver. done.
Qed.

Lemma chi_route_clean {E} (rows : list (row E)) row method pattern segs q r params :
  unambiguous rows = true → rooted rows = true → Request_Method r = method →
  find_first (λ x, bool_decide (chi_key x = (method, pattern))) rows = Some row →
  segs ≠ [] → Forall segment_text segs →
  HasPrefix pattern "/" = true → chi_segments (path_segments pattern) segs = Some params →
  chi_route rows (clean_target segs q) r = Routed (row_endpoint row (URLParam params) r).
Proof.
  intros Hu Hr Hm Hfind Hne Hs Hp Hseg.
  eapply chi_route_unique; [done|done|apply routePath_clean|done|done| |apply HasPrefix_app|].
  - rewrite path_segments_join by done. by apply segments_not_empty.
  - unfold chi_matches. rewrite split_rooted. apply HasPrefix_spec in Hp as [t ->]. rewrite split_rooted.
    change (chi_segments (split_on "/" t) (split_on "/" (join "/" segs)) = Some params).
    rewrite split_join; [|done|eapply Forall_impl; [exact Hs|by intros s []]].
    unfold path_segments in Hseg. by rewrite split_rooted in Hseg.
Qed.

(** The conclusion of [chi_route_clean], its premises evaluated. *)
Ltac chi_evaluated Hu Hr Hm pattern :=
  etransitivity;
  [eapply (chi_route_clean _ _ _ pattern);
    [exact Hu|exact Hr|exact Hm|vm_compute; reflexivity|discriminate|segment_texts|reflexivity|vm_compute; reflexivity]|].

Lemma rest_endpoint_dispatched e r :
  Forall segment_text (endpoint_address e).2 → Request_Method r = (endpoint_address e).1.1 →
  let u := clean_target (address_segments (endpoint_address e)) (endpoint_query e) in
  dispatch form streaming u r = DispatchRest (Routed e) (with_target u r).
Proof.
  intros Hparams Hm u. unfold u. clear u. set (pattern := (endpoint_address e).1.2).
  destruct e as [[]|[]|id []]; cbn [endpoint_address fst snd] in *; eval_address;
    rewrite ?Forall_cons in Hparams; destruct_and?;
    (rewrite dispatch_rest; [|discriminate|segment_texts|by rewrite Hm|reflexivity]; do 2 f_equal).
  all: chi_evaluated rest_unambiguous rest_rooted Hm pattern.
  all: try reflexivity.
  exact (f_equal (λ s, Routed (Owner (ListLinks s))) (endpoint_status status)).
Qed.

Lemma dispatch_dashboard rest q r : rest ≠ [] → Forall segment_text rest → Request_Method r ≠ "CONNECT" →
  dispatch form streaming (clean_target ("dashboard" :: rest) q) r =
  let r' := with_target (clean_target rest q) r in
  DispatchDashboard (chi_route (dashboard_routes form streaming) (clean_target rest q) r') r'.
Proof.
  intros Hne Hs Hm. unfold dispatch.
  assert (segment_text "dashboard") as Hd by (apply (bool_decide_unpack _); vm_compute; exact I).
  erewrite findHandler_clean; [|done|by constructor|done|apply server_mux_segments|].
  2:{ cbn [app]. rewrite server_mux_segments. rewrite decide_False by naive_solver.
      rewrite decide_True by (split; [done|by destruct rest]). destruct rest; done. }
  rewrite decide_False by naive_solver. rewrite decide_True by done. cbn [found].
  assert (StripPrefix "/dashboard" (clean_target ("dashboard" :: rest) q) = Some (clean_target rest q)) as ->; [|done].
  unfold StripPrefix, clean_target. cbn [Target_Path Target_RawPath Target_RawQuery]. rewrite join_cons by done.
  change ("/" +:+ "dashboard" +:+ String "/" (join "/" rest)) with ("/dashboard" +:+ ("/" +:+ join "/" rest)).
  rewrite TrimPrefix_app, bool_decide_eq_true_2 by done. rewrite (string_length_app "/dashboard").
  destruct (_ <? _) eqn:E; [done|]. apply Nat.ltb_ge in E. simpl in E. lia.
Qed.

End dispatch.

(** *** Texts of identifiers *)

(** Documented behaviour of google/uuid: hexadecimal digits and hyphens. *)
Class UuidText (PL : Platform) : Prop :=
  uuid_text u : uuid_String u ≠ EmptyString ∧ Forall (λ c, is_alnum c || bool_decide (c = "-"%char) = true) (bytes (uuid_String u)).

Lemma escape_plain s :
  Forall (λ c, is_alnum c || bool_decide (c = "-"%char) = true) (bytes s) → escape encodePath s = s.
Proof.
  induction s as [|c s IH]; [done|]. cbn [bytes escape]. intros [Hc Hs]%Forall_cons.
  rewrite IH by done. unfold escape_byte, shouldEscape. rewrite bool_decide_eq_false_2 by (by intros []).
  apply orb_prop in Hc as [->|Hc]; [done|]. apply bool_decide_eq_true in Hc. subst c. done.
Qed.

Lemma uuid_segment {PL : Platform} `{!UuidText PL} u : segment_text (uuid_String u).
Proof.
  destruct (uuid_text u) as [Hne HF]. rewrite Forall_forall in HF.
  assert (∀ c, is_alnum c || bool_decide (c = "-"%char) = false → c ∉ bytes (uuid_String u)) as Hn.
  { intros c Hc Hin. by rewrite (HF c Hin) in Hc. }
  assert ("."%char ∉ bytes (uuid_String u)) as Hdot by by apply Hn.
  split; [split_and!; [done| |]|by apply Hn]; intros E; apply Hdot; rewrite E; left.
Qed.

(** *** What the pages of the dashboard lead to *)

Section pages.
Context {PL : Platform} (form : Request → string → string) (streaming : bool).

(** An action of a page: its method, the segments of its path under /dashboard,
    and the row meant to serve it. *)
Record page_target := mkPageTarget {
  target_method : string;
  target_segments : list string;
  target_row : Request → dashboard_route }.

Definition target_action (t : page_target) : string * string :=
  (target_method t, "/dashboard/" +:+ join "/" (target_segments t)).

Definition nav_targets : list page_target :=
  [mkPageTarget "GET" ["links"] (λ _, DashOwner LinksList);
   mkPageTarget "GET" ["import"] (λ _, DashOwner ImportForm);
   mkPageTarget "GET" ["security-feed"] (λ _, DashOwner SecurityFeed);
   mkPageTarget "GET" ["logout"] (λ _, DashPublic Logout)].

Definition button_target (l : SharedLink) : page_target :=
  let id := uuid_String (SharedLink_ID l) in
  mkPageTarget "POST" ["links"; id; "terminate"] (λ _, DashOwner (TerminateRow id)).

Definition login_target : page_target :=
  mkPageTarget "POST" ["login"] (λ r, DashPublic (LoginSubmit (form r))).
Definition import_target : page_target :=
  mkPageTarget "POST" ["import"] (λ r, DashOwner (ImportSubmit (form r))).

Definition page_targets (p : page) : list page_target :=
  match p with
  | LoginPage _ => [login_target]
  | LinksPage links => nav_targets ++ (button_target <$> active_links links)
  | LinkRow link => button_target <$> active_links [link]
  | ImportPage _ => nav_targets ++ [import_target]
  | SecurityFeedPage => nav_targets
  end.

Definition form_fields (p : page) : list string :=
  match p with
  | LoginPage _ => ["email"; "password"]
  | ImportPage _ => ["base_domain"; "base_url"; "cookie_name"; "cookie_value"]
  | _ => []
  end.

Lemma page_targets_actions `{!Templ} p :
  tokens (page_document p) ≫= token_actions = target_action <$> page_targets p.
Proof.
  rewrite page_actions.
  assert (∀ links, button_actions links = target_action <$> (button_target <$> active_links links)) as Hb.
  { intros links. unfold button_actions. rewrite <-list_fmap_compose. done. }
  destruct p; cbn [page_targets]; rewrite ?fmap_app, ?Hb; reflexivity.
Qed.

(** The request that a browser makes for an action reaches its row. *)
Definition reaches `{Chi} (t : page_target) (r : Request) : Prop :=
  let r' := with_target (clean_target (target_segments t) EmptyString) r in
  ∃ u, ParseRequestURI (target_action t).2 = Some u ∧
    dispatch form streaming u r = DispatchDashboard (Routed (target_row t r')) r'.

Lemma target_reached `{!Chi} `{!ChiLaws _} row pattern params t r :
  find_first (λ x, bool_decide (chi_key x = (target_method t, pattern))) (dashboard_routes form streaming) = Some row →
  target_segments t ≠ [] → Forall segment_text (target_segments t) →
  escape encodePath ("/dashboard/" +:+ join "/" (target_segments t)) = "/dashboard/" +:+ join "/" (target_segments t) →
  target_method t ≠ "CONNECT" → HasPrefix pattern "/" = true →
  chi_segments (path_segments pattern) (target_segments t) = Some params →
  (∀ r', row_endpoint row (URLParam params) r' = target_row t r') →
  Request_Method r = target_method t → reaches t r.
Proof.
  intros Hf Hne Hs He Hc Hp Hseg Hrow Hm. unfold reaches.
  exists (clean_target ("dashboard" :: target_segments t) EmptyString). split.
  - pose proof (parse_request_target ("dashboard" :: target_segments t) EmptyString eq_refl) as Hparse.
    unfold request_target in Hparse. rewrite join_cons in Hparse by done.
    change ("/" +:+ "dashboard" +:+ String "/" (join "/" (target_segments t)))
      with ("/dashboard/" +:+ join "/" (target_segments t)) in Hparse.
    rewrite He in Hparse. rewrite <-Hparse. cbn [target_action snd]. f_equal. apply bytes_inj.
    rewrite !bytes_app. unfold query_part. cbn [Target_RawQuery]. rewrite decide_True by done. by rewrite app_nil_r.
  - rewrite dispatch_dashboard by (try done; congruence). cbv zeta. f_equal.
    erewrite (chi_route_clean _ _ _ pattern); [by rewrite Hrow|apply dashboard_unambiguous|apply dashboard_rooted|exact Hm|exact Hf|done..].
Qed.

(** One action, from the general case and the pattern of its row. *)
Ltac target_case pattern :=
  eapply (target_reached _ pattern); [vm_compute; reflexivity|discriminate|segment_texts| |discriminate|reflexivity|
    vm_compute; reflexivity|reflexivity].

Lemma page_targets_reached `{!Chi} `{!ChiLaws _} `{!UuidText PL} p t r :
  t ∈ page_targets p → Request_Method r = target_method t → reaches t r.
Proof.
  assert (t ∈ nav_targets → Request_Method r = target_method t → reaches t r) as Hnav.
  { intros Hin. unfold nav_targets in Hin.
    apply elem_of_cons in Hin as [->|Hin]; [target_case "/links"; reflexivity|].
    apply elem_of_cons in Hin as [->|Hin]; [target_case "/import"; reflexivity|].
    apply elem_of_cons in Hin as [->|Hin]; [target_case "/security-feed"; reflexivity|].
    apply elem_of_cons in Hin as [->|Hin]; [target_case "/logout"; reflexivity|]. by apply not_elem_of_nil in Hin. }
  assert (∀ links, t ∈ button_target <$> active_links links → Request_Method r = target_method t → reaches t r) as Hbutton.
  { intros links (l & -> & _)%list_elem_of_fmap. pose proof (uuid_segment (SharedLink_ID l)) as Hid.
    destruct (uuid_text (SharedLink_ID l)) as [_ HF]. unfold button_target. cbv zeta.
    revert Hid HF. generalize (uuid_String (SharedLink_ID l)) as id. intros id Hid HF.
    target_case "/links/{linkID}/terminate". cbn [target_segments join].
    change ("/dashboard/" +:+ "links" +:+ String "/" (id +:+ String "/" "terminate"))
      with ("/dashboard/links/" +:+ (id +:+ "/terminate")).
    rewrite !escape_app, (escape_plain id) by done. reflexivity. }
  destruct p as [message|links|link|message|]; cbn [page_targets]; intros Hin.
  - apply list_elem_of_singleton in Hin as ->. target_case "/login". reflexivity.
  - apply elem_of_app in Hin as [Hin|Hin]; [exact (Hnav Hin)|exact (Hbutton _ Hin)].
  - exact (Hbutton _ Hin).
  - apply elem_of_app in Hin as [Hin|Hin]; [exact (Hnav Hin)|]. apply list_elem_of_singleton in Hin as ->.
    target_case "/import". reflexivity.
  - exact (Hnav Hin).
Qed.
End pages.

(** *** Queries of targets *)

Lemma drop_string_S i s : drop_string (S i) s = drop_string 1 (drop_string i s).
Proof. revert s. induction i as [|i IH]; intros [|c s]; try done. apply IH. Qed.

Lemma Cut_suffix s c : ∃ t, s = (Cut s c).1 +:+ t ∧ (t = EmptyString ∧ (Cut s c).2 = EmptyString ∨ t = String c (Cut s c).2).
Proof.
  unfold Cut. destruct (IndexByte s c) as [i|] eqn:E; cbn [fst snd].
  - apply IndexByte_Some in E as (_ & _ & t & Ht). exists (String c t). rewrite drop_string_S, Ht.
    split; [by rewrite <-Ht, take_drop_string|by right].
  - exists EmptyString. split; [|by left]. apply bytes_inj. by rewrite bytes_app, app_nil_r.
Qed.

Lemma ParseRequestURI_query target u : ParseRequestURI target = Some u → good_query (Target_RawQuery u).
Proof.
  unfold ParseRequestURI. destruct (existsb is_ctl (bytes target)) eqn:E; [done|]. destruct (negb _); [done|].
  cbn [orb]. destruct (Cut_suffix target "?") as (t & Ht & Hq). destruct (Cut target "?") as [p q]. cbn [fst snd] in *.
  unfold setPath. intros (path & _ & [= <-])%bind_Some. cbn [Target_RawQuery]. subst target.
  rewrite bytes_app, existsb_app in E. apply orb_false_iff in E as [_ E]. unfold good_query.
  destruct Hq as [[_ ->]| ->]; [done|]. cbn [bytes existsb] in E. by apply orb_false_iff in E as [_ ?].
Qed.

(** *** Redirects of the multiplexer *)

Lemma server_mux_plain : plain_patterns server_mux.
Proof. repeat constructor. Qed.

Lemma dispatch_redirect `{!Chi} form streaming u r loc :
  dispatch form streaming u r = DispatchRedirect loc ↔ findHandler server_mux (Request_Method r) u = MuxRedirect loc.
Proof. unfold dispatch. destruct (findHandler _ _ _) as [[]| |]; try destruct (StripPrefix _ _); naive_solver. Qed.

(** A path that is dispatched is clean. *)
Lemma findHandler_path {H} (mux : list (mux_pattern * H)) method u h :
  method ≠ "CONNECT" → findHandler mux method u = MuxHandler h → clean_path (EscapedPath u).
Proof.
  intros Hm. unfold findHandler. cbv zeta. rewrite decide_False by done.
  destruct (matchOrRedirect _ _ _) as [n [u'|]]; [done|]. case_decide as Hne; [done|]. intros _.
  assert (cleanPath (EscapedPath u) = EscapedPath u) as <-; [|apply cleanPath_clean].
  by destruct (decide (cleanPath (EscapedPath u) = EscapedPath u)).
Qed.

Lemma tree_match_server segs : segs ≠ [] → is_Some (tree_match server_mux segs).
Proof. destruct segs as [|s rest]; [done|]. intros _. rewrite server_mux_segments. by eexists. Qed.

Lemma path_segments_nil p : HasPrefix p "/" = true → path_segments p ≠ [].
Proof. intros [t ->]%HasPrefix_spec. unfold path_segments. rewrite split_rooted. apply split_on_not_nil. Qed.

(** The multiplexer has a pattern for every path. *)
Lemma findHandler_found method u : method ≠ "CONNECT" → findHandler server_mux method u ≠ MuxNotFound.
Proof.
  intros Hm. unfold findHandler. cbv zeta. rewrite decide_False by done.
  pose proof (clean_path_rooted _ (cleanPath_clean (EscapedPath u))) as HP.
  destruct (matchOrRedirect _ _ _) as [n [u'|]] eqn:E; [done|]. case_decide; [done|].
  assert (n = mux_match server_mux (cleanPath (EscapedPath u))) as ->.
  { unfold matchOrRedirect in E. cbv zeta in E. by repeat case_match; simplify_eq. }
  destruct (tree_match_server (pathUnescape <$> path_segments (cleanPath (EscapedPath u)))) as [[q h] Hn].
  { pose proof (path_segments_nil _ HP). by destruct (path_segments _). }
  unfold mux_match. by rewrite Hn.
Qed.

(** A clean path begins with one slash only, also escaped and with a query. *)
Lemma clean_path_one_slash p t q : clean_path p → t = query_part q → HasPrefix (escape encodePath p +:+ t) "//" = false.
Proof.
  intros (segs & Hp & Hs & Hor) ->.
  assert (∀ x, HasPrefix ("/" +:+ x) "//" = HasPrefix x "/") as Hx by done.
  assert (HasPrefix (query_part q) "/" = false) as Hq by (unfold query_part; by case_decide).
  destruct segs as [|[|c s] segs]; [by destruct Hor as [->|[? _]]| |].
  { apply Forall_inv in Hp as [? _]. done. }
  assert (c ≠ "/"%char) as Hc by (apply Forall_inv in Hs; cbn [bytes] in Hs; set_solver).
  assert (∃ x, p = "/" +:+ String c x) as [x ->].
  { destruct Hor as [->|[_ ->]]; destruct segs as [|s' segs]; cbn [join]; by eexists. }
  rewrite escape_app. change (escape encodePath "/") with "/". rewrite string_app_assoc, Hx.
  cbn [escape]. unfold escape_byte. rewrite bool_decide_eq_false_2 by (by intros []).
  destruct (shouldEscape c encodePath); [done|]. rewrite !string_app_cons. cbn [HasPrefix]. by rewrite decide_False.
Qed.

(** *** Inversion of the dispatch *)

Lemma dispatch_rest_inv `{!Chi} form streaming u r e r' : dispatch form streaming u r = DispatchRest e r' →
  r' = with_target u r ∧ chi_route rest_routes u r' = e.
Proof.
  unfold dispatch. destruct (findHandler _ _ _) as [[]| |]; try destruct (StripPrefix _ _); try done.
  by intros [= <- <-].
Qed.

Lemma dispatch_dashboard_inv `{!Chi} form streaming u r e r' : dispatch form streaming u r = DispatchDashboard e r' →
  Request_Cookie r' SessionCookieName = Request_Cookie r SessionCookieName.
Proof.
  unfold dispatch. destruct (findHandler _ _ _) as [[]| |]; try destruct (StripPrefix _ _); try done.
  by intros [= _ <-].
Qed.

Lemma chi_route_row `{!Chi} `{!ChiLaws _} {E} (rows : list (row E)) u r e : chi_route rows u r = Routed e →
  ∃ row params, row ∈ rows ∧ row_method row = Request_Method r ∧
    chi_matches (row_pattern row) (routePath u) = Some params ∧ e = row_endpoint row (URLParam params) r.
Proof.
  unfold chi_route. destruct (chi_Match _ _ _) as [i params| |] eqn:E0; [|done..].
  apply chi_sound in E0 as (pattern & Hi & Hm). rewrite list_lookup_fmap in Hi.
  apply fmap_Some in Hi as (row & Hrow & [= -> ->]). rewrite Hrow. intros [= <-].
  exists row, params. split_and!; [by eapply list_elem_of_lookup_2|done..].
Qed.

(** Only one row leads to the registration. *)
Definition is_register (e : endpoint) : bool := match e with Public Register => true | _ => false end.

Lemma chi_segments_literal p path params :
  Forall (λ s, param_name s = None) p → chi_segments p path = Some params → path = p.
Proof.
  intros Hp. revert path. induction Hp as [|s p Hs Hp IH]; intros [|t path]; cbn [chi_segments]; try done.
  rewrite Hs. case_decide; [|done]. intros Hrest. subst. f_equal. by apply IH.
Qed.

Lemma chi_matches_literal pattern path params :
  Forall (λ s, param_name s = None) (split_on "/" pattern) → chi_matches pattern path = Some params → path = pattern.
Proof. intros Hp Hm. eapply split_on_inj, chi_segments_literal; [exact Hp|exact Hm]. Qed.

Lemma register_rows param r :
  forallb (λ row, negb (is_register (row_endpoint row param r)) ||
    bool_decide (chi_key row = ("POST", "/api/v1/auth/register"))) rest_routes = true.
Proof. reflexivity. Qed.

Lemma register_segments : forallb (λ s, negb (HasPrefix s "{")) (split_on "/" "/api/v1/auth/register") = true.
Proof. vm_compute. reflexivity. Qed.

Lemma register_literal : Forall (λ s, param_name s = None) (split_on "/" "/api/v1/auth/register").
Proof.
  apply Forall_forall. intros s Hs. pose proof register_segments as HF. rewrite forallb_forall in HF.
  specialize (HF s (proj1 (list_elem_of_In _ _) Hs)). apply negb_true_iff in HF. unfold param_name. by rewrite HF.
Qed.

Lemma register_row `{!Chi} `{!ChiLaws _} u r : chi_route rest_routes u r = Routed (Public Register) →
  Request_Method r = "POST" ∧ routePath u = "/api/v1/auth/register".
Proof.
  intros (row & params & Hin & Hmeth & Hm & He)%chi_route_row.
  pose proof (register_rows (URLParam params) r) as HF. rewrite forallb_forall in HF.
  specialize (HF row (proj1 (list_elem_of_In _ _) Hin)). rewrite <-He in HF.
  apply bool_decide_eq_true in HF. unfold chi_key in HF.
  assert (row_method row = "POST" ∧ row_pattern row = "/api/v1/auth/register") as [E1 E2] by (split; congruence).
  split; [congruence|]. rewrite E2 in Hm. exact (chi_matches_literal _ _ _ register_literal Hm).
Qed.

(** *** Submitted forms *)

(** The texts typed into the inputs of a form. *)
Definition typed (names values : list string) : string → string := Values_Get (zip names values).

(** The request by which a browser submits them. *)
Definition submits (r : Request) (names values : list string) : Prop :=
  Request_Method r = "POST" ∧ Header_Get (Request_Header r) "Content-Type" = "application/x-www-form-urlencoded" ∧
  Request_Body r = encode_values (zip names values) ∧ (Z.of_nat (String.length (Request_Body r)) <= max_form_size)%Z.

(** The handler of a form reads the inputs named [names], each as what it means:
    logging in depends on an address and a password, importing on a domain (which
    is the site's name too), an address, and the name and value of a cookie.  The
    other pages have no inputs. *)
Definition inputs_read `{!UuidText PL} `{!Bcrypt} `{!SHA256} `{!JWT} `{!AEAD} (auth : AuthService) (cipher : Cipher)
    (tls : bool) (userID : UUID) (p : page) (names : list string) : Prop :=
  match p with
  | LoginPage _ => ∀ email password w,
      let '(w1, login) := run (AuthService_Login auth email password) w in
      let '(w2, rep) := run (handleLoginSubmit auth (typed names [email; password]) tls) w in
      match login with
      | inl _ => w2 = w1 ∧ Reply_status rep = StatusUnauthorized ∧ Reply_cookie rep = None
      | inr (token, _) => w_db w2 = w_db w1 ∧ Reply_status rep = StatusSeeOther ∧
          ∃ expires, Reply_cookie rep = Some (session_cookie token tls expires)
      end
  | ImportPage _ => ∀ domain url name value w,
      let '(w1, imported) := run (SessionImportService_Import cipher userID domain domain url
        [mkCookieInput name value EmptyString "/" false false EmptyString] []) w in
      let '(w2, rep) := run (handleImportSubmit cipher (typed names [domain; url; name; value]) userID) w in
      w2 = w1 ∧ match imported with
                | inl _ => Reply_body rep = Html (ImportPage "import failed - check server logs")
                | inr _ => Reply_body rep ≠ Html (ImportPage "import failed - check server logs")
                end
  | _ => names = []
  end.

Lemma find_first_app {A} (P : A → bool) l k :
  find_first P (l ++ k) = match find_first P l with Some x => Some x | None => find_first P k end.
Proof. induction l as [|x l IH]; [done|]. cbn [app find_first]. by destruct (P x). Qed.

Lemma Values_Get_app vs ws key : key ∈ vs.*1 → Values_Get (vs ++ ws) key = Values_Get vs key.
Proof.
  intros Hin. unfold Values_Get. rewrite find_first_app. destruct (find_first _ vs) eqn:E; [done|].
  rewrite find_first_None in E. apply list_elem_of_fmap in Hin as (x & -> & Hx). specialize (E x Hx).
  by apply bool_decide_eq_false in E.
Qed.

Lemma FormValue_submitted multipart r names values key :
  submits r names values → length names = length values → key ∈ names →
  FormValue multipart r key = typed names values key.
Proof.
  intros (Hm & Hct & Hb & Hlen) Hl Hk. unfold FormValue, typed, media_type. rewrite Hm, Hct.
  assert ((zip names values).*1 = names) as Hfst by (apply fst_zip; lia).
  rewrite bool_decide_eq_true_2 by set_solver.
  change (bool_decide (_ = "application/x-www-form-urlencoded")) with true.
  rewrite (proj2 (Z.leb_le _ _) Hlen). cbn [andb]. rewrite Hb, ParseQuery_encode. apply Values_Get_app. by rewrite Hfst.
Qed.

Lemma form_fields_read {PL : Platform} `{!UuidText PL} `{!Bcrypt} `{!SHA256} `{!JWT} `{!AEAD} auth cipher tls userID p :
  inputs_read auth cipher tls userID p (form_fields p).
Proof.
  destruct p; try done; cbn [inputs_read form_fields].
  - intros email password w. unfold handleLoginSubmit.
    change (typed _ [email; password] "email") with email. change (typed _ [email; password] "password") with password.
    cbv zeta. rewrite run_pbind. destruct (run (AuthService_Login auth email password) w) as [w1 [e|[token id]]];
      cbn [fst snd]; [done|]. rewrite run_pbind. unfold time_Now. rewrite run_atom. cbn [fst snd run]. split_and!; [done..|by eexists].
  - intros domain url name value w. unfold handleImportSubmit.
    change (typed _ _ "base_domain") with domain. change (typed _ _ "base_url") with url.
    change (typed _ _ "cookie_name") with name. change (typed _ _ "cookie_value") with value.
    cbv zeta. rewrite run_pbind.
    destruct (run (SessionImportService_Import _ _ _ _ _ _ _) w) as [w1 [e|s]]; cbn [fst snd run]; split; done.
Qed.

(** ** Properties *)

Section properties.
Context `{!Chi} `{!ChiLaws _} {PL : Platform} (multipart : Request → list (string * string)) (streaming : bool).
Local Abbreviation form := (FormValue multipart).

(** C30: every endpoint of the REST interface is reached by its address.  For any
    texts of its parameters that can be segments of a path, what a client sends -
    the method, the escaped path and the query - is read, passed by the
    multiplexer to the control plane, and routed by chi to that endpoint with
    those texts. *)
Theorem rest_endpoint_served e r
  (Hparams : Forall segment_text (endpoint_address e).2)
  (Hmethod : Request_Method r = (endpoint_address e).1.1) :
  ∃ u, ParseRequestURI (request_target (address_segments (endpoint_address e)) (endpoint_query e)) = Some u ∧
    dispatch form streaming u r = DispatchRest (Routed e) (with_target u r).
Proof.
  eexists. split; [apply parse_request_target, good_query_endpoint|]. by apply rest_endpoint_dispatched.
Qed.

(** C29: no link, form or button of the dashboard is dead, and none leads
    elsewhere.  From the bytes of a page, rendered without failures and read by a
    browser, the actions are those of [page_targets] - the terminate button for
    the active links only - and the request for any of them is parsed, passed to
    the dashboard and routed by chi to the row meant; and the handlers of its
    forms read its inputs by their names ([inputs_read]): submitting the login
    form with two texts logs in with them as address and password, and submitting
    the import form imports what was typed. *)
Theorem page_actions_served `{!UuidText PL} `{!Templ} `{!TemplLaws _} `{!Bcrypt} `{!SHA256} `{!JWT} `{!AEAD}
    auth cipher tls userID p :
  ∃ pieces ts, read (concat_strings pieces) = Some ts ∧
    (∀ sink, no_faults sink → Component_Render sink (page_component sink p) = (pieces, None)) ∧
    ts ≫= token_actions = target_action <$> page_targets form p ∧
    inputs_read auth cipher tls userID p (ts ≫= token_fields) ∧
    ∀ t r, t ∈ page_targets form p → Request_Method r = target_method t → reaches form streaming t r.
Proof.
  destruct (renders_page p) as (pieces & He & Hs). exists pieces, (tokens (page_document p)). split_and!.
  - unfold read. rewrite Hs. by rewrite app_nil_r.
  - intros sink Hf. destruct (He sink []) as (l & _ & Hl & Hall & Hok). unfold Component_Render.
    destruct (page_component sink p NopComponent []) as [buf err]. cbn [fst snd] in *.
    rewrite (Hok Hf) in *. rewrite (Hall eq_refl), app_nil_l in Hl. subst buf. by destruct Hf as (_ & _ & ->).
  - apply page_targets_actions.
  - rewrite page_fields. apply form_fields_read.
  - intros t r Ht Hm. by apply (page_targets_reached _ _ p).
Qed.

(** what an owner types is what the services get.  When a browser submits the
    login form or the import form of a page with some texts, the request reaches
    the form's row, and the dashboard behaves as the handler on exactly these
    texts, whatever bytes they hold. *)
Theorem submitted_form_served `{!UuidText PL} `{!Bcrypt} `{!SHA256} `{!JWT} `{!AEAD}
  auth cipher tls p t values r
  (Hform : t ∈ page_targets form p) (Hfields : form_fields p ≠ []) (Hpost : target_method t = "POST")
  (Hlen : length (form_fields p) = length values) (Hr : submits r (form_fields p) values) :
  reaches form streaming t r ∧
  let r' := with_target (clean_target (target_segments t) EmptyString) r in
  let text := typed (form_fields p) values in
  Dashboard_Routes auth cipher tls (target_row t r') r' =
  match p with
  | LoginPage _ => handleLoginSubmit auth text tls
  | _ => RequireSessionCookie (AuthService_Authenticator auth) (λ userID _, handleImportSubmit cipher text userID) r'
  end.
Proof.
  assert (Request_Method r = "POST") as Hm by apply Hr. split; [apply (page_targets_reached _ _ p); [exact Hform|congruence]|].
  intros r' text.
  assert (∀ key, key ∈ form_fields p → form r' key = text key) as Htext.
  { intros key Hkey. apply FormValue_submitted; [exact Hr|done|done]. }
  clearbody text. destruct p as [message|links|link|message|]; try done; cbn [page_targets form_fields] in *.
  - apply list_elem_of_singleton in Hform as ->. cbn [target_row login_target Dashboard_Routes].
    unfold handleLoginSubmit. by rewrite !Htext by set_solver.
  - apply elem_of_app in Hform as [Hnav|Hform]; [|apply list_elem_of_singleton in Hform as ->].
    { unfold nav_targets in Hnav. repeat (apply elem_of_cons in Hnav as [->|Hnav]; [discriminate Hpost|]).
      by apply not_elem_of_nil in Hnav. }
    cbn [target_row import_target Dashboard_Routes]. unfold RequireSessionCookie, serve_dashboard, handleImportSubmit.
    by rewrite !Htext by set_solver.
Qed.

(** a request is served or redirected once, within the server.  Whatever
    target a client sends, with any method but CONNECT: the path that reaches a
    handler has no empty, dot or dot-dot segment as the client wrote it; and the
    address of a redirect begins with one slash only - it names no other host -
    and is itself read and served without another redirect. *)
Theorem redirects_once target u r
  (Hparse : ParseRequestURI target = Some u) (Hmethod : Request_Method r ≠ "CONNECT") :
  match dispatch form streaming u r with
  | DispatchRedirect loc =>
      ∃ p u', clean_path p ∧ HasPrefix loc "/" = true ∧ HasPrefix loc "//" = false ∧
        ParseRequestURI loc = Some u' ∧ Target_Path u' = p ∧
        ∀ loc', dispatch form streaming u' r ≠ DispatchRedirect loc'
  | _ => clean_path (EscapedPath u)
  end.
Proof.
  destruct (dispatch form streaming u r) as [| | | |loc|] eqn:E.
  5: { apply dispatch_redirect in E. apply follow_redirect in E as (p & Hp & -> & Hloc & Hf);
         [|exact server_mux_plain|done|by eapply ParseRequestURI_query].
       exists p, (mkTarget p EmptyString (Target_RawQuery u)). split_and!; try done.
       - pose proof (clean_path_rooted _ Hp) as [t ->]%HasPrefix_spec.
         rewrite escape_app, string_app_assoc. apply HasPrefix_app.
       - by eapply clean_path_one_slash.
       - intros loc' Hd%dispatch_redirect. rewrite Hf in Hd. by apply found_no_redirect in Hd. }
  all: assert (∃ h, findHandler server_mux (Request_Method r) u = MuxHandler h) as [h Hh];
    [|by eapply findHandler_path]; unfold dispatch in E;
    destruct (findHandler server_mux (Request_Method r) u) as [h| |] eqn:Eh; try done; try by exists h.
  by apply findHandler_found in Eh.
Qed.
End properties.

(** *** Behaviour of encoded segments *)

(** Only the path as written is cleaned: encoded dot segments reach the proxy,
    which sees them decoded, and a prefix rule does not. *)
Lemma encoded_dots_reach_proxy `{!Chi} `{RegexpLib} form streaming r :
  Request_Method r = "GET" →
  let rules := [mkBlacklistedEndpoint 1 1 "/admin" PatternTypePrefix None 0 []] in
  is_Some (MatchRules rules "GET" "/admin") ∧
  ∃ u r', ParseRequestURI "/r/tok/x/%2e%2e/admin" = Some u ∧ dispatch form streaming u r = DispatchProxy r' ∧
    parseTokenAndPath (URL_Path (Request_URL r')) = Some ("tok", "/x/../admin") ∧
    MatchRules rules "GET" "/x/../admin" = None.
Proof.
  intros Hm rules. split; [by eexists|].
  exists (mkTarget "/r/tok/x/../admin" "/r/tok/x/%2e%2e/admin" EmptyString). eexists. split_and!.
  - vm_compute. reflexivity.
  - unfold dispatch. rewrite Hm. reflexivity.
  - vm_compute. reflexivity.
  - done.
Qed.

(** An encoded slash in a segment is a slash in the path that the proxy forwards. *)
Lemma encoded_slash_decoded `{!Chi} form streaming r :
  Request_Method r = "GET" →
  ∃ u r', ParseRequestURI "/r/tok/a%2Fb" = Some u ∧ dispatch form streaming u r = DispatchProxy r' ∧
    parseTokenAndPath (URL_Path (Request_URL r')) = Some ("tok", "/a/b").
Proof.
  intros Hm. exists (mkTarget "/r/tok/a/b" "/r/tok/a%2Fb" EmptyString). eexists. split_and!.
  - vm_compute. reflexivity.
  - unfold dispatch. rewrite Hm. reflexivity.
  - vm_compute. reflexivity.
Qed.

(** ** Witnesses *)

(** The first row with the method that matches. *)
Definition chi_hit (m p : string) (row : chi_row) : option (list (string * string)) :=
  params ← chi_matches row.2 p;
  if bool_decide (row.1 = m ∧ Forall (λ a, a.2 ≠ EmptyString) params) then Some params else None.

Fixpoint demo_chi_from (i : nat) (t : list chi_row) (m p : string) : chi_result :=
  match t with
  | [] => ChiNotFound
  | row :: t' => match chi_hit m p row with Some params => ChiMatched i params | None => demo_chi_from (S i) t' m p end
  end.

Definition demo_chi : Chi := demo_chi_from 0.

Lemma chi_hit_Some m p row params : chi_hit m p row = Some params → row.1 = m ∧ chi_matches row.2 p = Some params.
Proof. unfold chi_hit. intros (ps & Hps & H)%bind_Some. case_bool_decide as Hb; [|done]. naive_solver. Qed.

#[export] Instance demo_chi_laws : ChiLaws demo_chi.
Proof.
  assert (∀ t k m p i params, demo_chi_from k t m p = ChiMatched i params →
    ∃ j pattern, i = k + j ∧ t !! j = Some (m, pattern) ∧ chi_matches pattern p = Some params) as Hsound.
  { induction t as [|[m' pat] t IH]; intros k m p i params; cbn [demo_chi_from]; [done|].
    destruct (chi_hit m p (m', pat)) as [ps|] eqn:E.
    - intros [= <- <-]. apply chi_hit_Some in E as [Hm Hp]. cbn in Hm, Hp. subst. exists 0, pat. split_and!; [lia|done..].
    - intros (j & pattern & -> & Hj & Hp)%IH. exists (S j), pattern. split_and!; [lia|done..]. }
  split.
  - intros t m p i params (j & pattern & -> & Hj & Hp)%Hsound. eauto.
  - intros t m p i pattern params Hi Hp Hne. unfold chi_Match, demo_chi. revert Hi. generalize 0 as k. revert i.
    induction t as [|[m' pat] t IH]; intros i k; [done|]. cbn [demo_chi_from].
    destruct (chi_hit m p (m', pat)) as [ps|] eqn:E; [eauto|]. destruct i as [|i]; [|intros Hi; by eapply IH].
    intros [= -> ->]. exfalso. unfold chi_hit in E. cbn [fst snd] in E. rewrite Hp in E. cbn [mbind option_bind] in E.
    by rewrite bool_decide_eq_true_2 in E.
Qed.

#[export] Instance demo_uuid_text now fault rand : UuidText (demo_with now fault rand).
Proof.
  intros u. change (uuid_String u) with (demo_uuid_String u). unfold demo_uuid_String.
  destruct u as [|p]; [split; [done|by repeat constructor]|]. split.
  - intros E. apply (f_equal bytes) in E. rewrite bytes_of_bytes in E. by destruct p.
  - rewrite bytes_of_bytes. induction p; cbn [pos_digits]; constructor; done.
Qed.

Definition demo_multipart (r : Request) : list (string * string) := [].

Definition demo_http (method contentType body : string) : Request :=
  mkRequest method (mkURL EmptyString EmptyString EmptyString EmptyString) {["Content-Type" := [contentType]]} "proxy" "10.0.0.7:4711" body.

Lemma rest_endpoint_served_witness :
  ∃ u, ParseRequestURI (request_target ["api"; "v1"; "links"; "a b"; "terminate"] EmptyString) = Some u ∧
    @dispatch demo_chi (FormValue demo_multipart) true u (demo_http "POST" "application/json" EmptyString) =
    DispatchRest (Routed (OnLink "a b" TerminateLink)) (with_target u (demo_http "POST" "application/json" EmptyString)).
Proof.
  apply (@rest_endpoint_served demo_chi demo_chi_laws demo_multipart true (OnLink "a b" TerminateLink)); [|reflexivity].
  cbn [endpoint_address snd]. apply (bool_decide_unpack _). vm_compute. exact I.
Defined.

Lemma page_actions_served_witness :
  ∃ pieces ts, read (concat_strings pieces) = Some ts ∧
    (∀ sink, no_faults sink →
      Component_Render sink (@page_component demo_templ demo sink (LinkRow demo_row)) = (pieces, None)) ∧
    ts ≫= token_actions = [("POST", "/dashboard/links/101/terminate")].
Proof.
  destruct (@page_actions_served demo_chi demo_chi_laws demo demo_multipart true (demo_uuid_text _ _ _) demo_templ
    demo_templ_laws demo_bcrypt demo_sha256 demo_jwt demo_aead demo_auth (mkCipher demo_key) false 1%N (LinkRow demo_row))
    as (pieces & ts & Hr & Hw & Ha & _).
  exists pieces, ts. split; [exact Hr|]. split; [exact Hw|]. rewrite Ha. reflexivity.
Defined.

Definition demo_typed : list string := ["owner@example.org"; "p&ss=w+rd %41"].
Definition demo_login_form : Request :=
  demo_http "POST" "application/x-www-form-urlencoded" (encode_values (zip ["email"; "password"] demo_typed)).

Lemma demo_login_submits : submits demo_login_form ["email"; "password"] demo_typed.
Proof. split_and!; [reflexivity..|]. by apply (proj1 (Z.leb_le _ _)). Qed.

Lemma demo_login_target :
  login_target (FormValue demo_multipart) ∈ @page_targets demo (FormValue demo_multipart) (LoginPage EmptyString).
Proof. left. Qed.

Lemma demo_login_fields : form_fields (LoginPage EmptyString) ≠ [].
Proof. done. Qed.

Lemma submitted_form_served_witness :
  let t := login_target (FormValue demo_multipart) in
  let r' := with_target (clean_target (target_segments t) EmptyString) demo_login_form in
  Dashboard_Routes (PL := demo) (H := demo_bcrypt) (H0 := demo_sha256) (H1 := demo_jwt) (H2 := demo_aead)
    demo_auth (mkCipher demo_key) false (target_row t r') r' =
  handleLoginSubmit (PL := demo) (H := demo_bcrypt) (H1 := demo_jwt) demo_auth (typed ["email"; "password"] demo_typed) false.
Proof.
  exact (proj2 (@submitted_form_served demo_chi demo_chi_laws demo demo_multipart true (demo_uuid_text _ _ _)
    demo_bcrypt demo_sha256 demo_jwt demo_aead demo_auth (mkCipher demo_key) false (LoginPage EmptyString)
    (login_target (FormValue demo_multipart)) demo_typed demo_login_form
    demo_login_target demo_login_fields
    eq_refl eq_refl demo_login_submits)).
Defined.

Lemma redirects_once_witness :
  ∃ loc, @dispatch demo_chi (FormValue demo_multipart) true (mkTarget "//r/./tok/x" EmptyString "q=1")
    (demo_http "GET" EmptyString EmptyString) = DispatchRedirect loc ∧ HasPrefix loc "//" = false.
Proof.
  pose proof (@redirects_once demo_chi demo_multipart true "//r/./tok/x?q=1"
    (mkTarget "//r/./tok/x" EmptyString "q=1") (demo_http "GET" EmptyString EmptyString)) as Hr.
  assert (@dispatch demo_chi (FormValue demo_multipart) true (mkTarget "//r/./tok/x" EmptyString "q=1")
    (demo_http "GET" EmptyString EmptyString) = DispatchRedirect "/r/tok/x?q=1") as E by (vm_compute; reflexivity).
  rewrite E in Hr. exists "/r/tok/x?q=1". split; [exact E|].
  destruct Hr as (p & u' & _ & _ & Hs & _); [vm_compute; reflexivity|discriminate|exact Hs].
Defined.
