(* ===== verification/Config.v ===== *)
(** * internal/config: settings from the environment (config.go)

    The environment is [os.Getenv], a function from names to values.
    [time.ParseDuration] is a parameter: it computes fractions in floating
    point. *)

From Stdlib Require Import Ascii.
From stdpp Require Import pretty.
From S2P Require Import Prelude GoStrings Encoding Http Schema Platform Effects Interfaces RepoLinks RepoGuests RepoLogs Limiter Crypto Auth LogWriter.

Open Scope go_scope.

(** ** Definitions *)

Record Config := mkConfig {
  Config_DatabaseURL : string;
  Config_RedisURL : string;
  Config_HTTPPort : string;
  Config_GRPCPort : string;
  Config_DebugPort : string;
  Config_EncryptionKey : string;
  Config_JWTSecret : string;
  Config_AccessTokenTTL : Z;
  Config_LimiterSyncInterval : Z;
  Config_ProxyLogBatchSize : Z;
  Config_ProxyLogFlushInterval : Z }.

(** A function that may panic. *)
Inductive go_result (A : Type) : Type :=
| Panic (msg : string)
| Returns (a : A).
Arguments Panic {A} msg.
Arguments Returns {A} a.

Class Durations := ParseDuration : string → option Z.

Section load.
Context `{Durations} (Getenv : string → string).

Definition mustEnv (key : string) : go_result string :=
  let v := Getenv key in
  if decide (v = EmptyString) then Panic ("config: required env var " +:+ key +:+ " is not set") else Returns v.

Definition envOr (key fallback : string) : string :=
  let v := Getenv key in if decide (v ≠ EmptyString) then v else fallback.

Definition intOr (key : string) (fallback : Z) : Z :=
  let v := Getenv key in
  if decide (v ≠ EmptyString) then default fallback (Atoi v) else fallback.

Definition durationOr (key : string) (fallback : Z) : Z :=
  let v := Getenv key in
  if decide (v ≠ EmptyString) then default fallback (ParseDuration v) else fallback.

Definition decodeKey (envVar : string) (wantLen : nat) : go_error + string :=
  let raw := Getenv envVar in
  let len (n : nat) := pretty (N.of_nat n) in
  if decide (raw = EmptyString)
  then inl (ErrNew ("config: " +:+ envVar +:+ " is required (base64, " +:+ len wantLen +:+ " raw bytes)"))
  else
    match StdEncoding_DecodeString raw with
    | None => inl (Wrap ("config: " +:+ envVar +:+ " is not valid base64") (ErrNew "illegal base64 data"))
    | Some key =>
        if decide (String.length key ≠ wantLen)
        then inl (ErrNew ("config: " +:+ envVar +:+ " must decode to " +:+ len wantLen +:+ " bytes, got "
                          +:+ len (String.length key)))
        else inr key
    end.

(** The literal is evaluated first, and in it [mustEnv]. *)
Definition Load : go_result (go_error + Config) :=
  match mustEnv "DATABASE_URL" with
  | Panic msg => Panic msg
  | Returns url =>
      Returns (
        match decodeKey "ENCRYPTION_KEY" 32 with
        | inl err => inl err
        | inr key =>
            let secret := Getenv "JWT_SECRET" in
            if decide (secret = EmptyString) then inl (ErrNew "config: JWT_SECRET is required")
            else inr {|
              Config_DatabaseURL := url;
              Config_RedisURL := envOr "REDIS_URL" "redis://redis:6379/0";
              Config_HTTPPort := envOr "HTTP_PORT" "8080";
              Config_GRPCPort := envOr "GRPC_PORT" "9090";
              Config_DebugPort := envOr "DEBUG_PORT" "6060";
              Config_EncryptionKey := key;
              Config_JWTSecret := secret;
              Config_AccessTokenTTL := durationOr "ACCESS_TOKEN_TTL" 3600000000000;
              Config_LimiterSyncInterval := durationOr "LIMITER_SYNC_INTERVAL" 3000000000;
              Config_ProxyLogBatchSize := intOr "PROXY_LOG_BATCH_SIZE" 50;
              Config_ProxyLogFlushInterval := durationOr "PROXY_LOG_FLUSH_INTERVAL" 500000000 |}
        end)
  end.

End load.

(** ** Lemmas *)

Lemma decodeKey_inr Getenv envVar n key :
  decodeKey Getenv envVar n = inr key ↔
  Getenv envVar ≠ EmptyString ∧ StdEncoding_DecodeString (Getenv envVar) = Some key ∧ String.length key = n.
Proof.
  unfold decodeKey. cbv zeta. case_decide; [naive_solver|].
  destruct (StdEncoding_DecodeString _) as [k|]; [|naive_solver]. case_decide; naive_solver.
Qed.

Lemma intOr_spec Getenv key fallback : intOr Getenv key fallback = default fallback (Atoi (Getenv key)).
Proof. unfold intOr. cbv zeta. case_decide as He; [done|by rewrite He]. Qed.

(** ** Properties *)

(** the configuration is complete or the program does not start.  Load
    panics without DATABASE_URL; it returns a configuration exactly when the
    encryption key is the base64 text of 32 bytes and the JWT secret is set, and
    then crypto.New accepts the key; every other setting is the one of the
    environment if it is set and can be parsed, and its default otherwise. *)
Theorem Load_correct `{Durations} Getenv :
  match Load Getenv with
  | Panic _ => Getenv "DATABASE_URL" = EmptyString
  | Returns (inl _) => Getenv "DATABASE_URL" ≠ EmptyString ∧
      (Getenv "JWT_SECRET" = EmptyString ∨
       ∀ key, StdEncoding_DecodeString (Getenv "ENCRYPTION_KEY") = Some key → String.length key ≠ 32)
  | Returns (inr cfg) =>
      Getenv "DATABASE_URL" ≠ EmptyString ∧ Config_DatabaseURL cfg = Getenv "DATABASE_URL" ∧
      StdEncoding_DecodeString (Getenv "ENCRYPTION_KEY") = Some (Config_EncryptionKey cfg) ∧
      Crypto_New (Config_EncryptionKey cfg) = inr (mkCipher (Config_EncryptionKey cfg)) ∧
      Config_JWTSecret cfg = Getenv "JWT_SECRET" ∧ Config_JWTSecret cfg ≠ EmptyString ∧
      Config_ProxyLogBatchSize cfg = default 50%Z (Atoi (Getenv "PROXY_LOG_BATCH_SIZE")) ∧
      in_int64 (Config_ProxyLogBatchSize cfg) ∧
      Forall (λ '(name, set, fallback),
          set = if decide (Getenv name = EmptyString) then fallback else default fallback (ParseDuration (Getenv name)))
        [("ACCESS_TOKEN_TTL", Config_AccessTokenTTL cfg, 3600000000000%Z);
         ("LIMITER_SYNC_INTERVAL", Config_LimiterSyncInterval cfg, 3000000000%Z);
         ("PROXY_LOG_FLUSH_INTERVAL", Config_ProxyLogFlushInterval cfg, 500000000%Z)]
  end.
Proof.
  unfold Load, mustEnv. cbv zeta. case_decide as Hurl; [done|].
  destruct (decodeKey Getenv "ENCRYPTION_KEY" 32) as [e|key] eqn:Ek.
  - split; [done|]. right. intros key Hd Hlen.
    assert (decodeKey Getenv "ENCRYPTION_KEY" 32 = inr key) as Hk; [|by rewrite Hk in Ek].
    apply decodeKey_inr. split_and!; [|done|done]. intros He. rewrite He in Hd.
    change (Some EmptyString = Some key) in Hd. by simplify_eq.
  - apply decodeKey_inr in Ek as (_ & Hd & Hlen). case_decide as Hs; [split; [done|by left]|].
    cbn [Config_DatabaseURL Config_EncryptionKey Config_JWTSecret Config_ProxyLogBatchSize Config_AccessTokenTTL
      Config_LimiterSyncInterval Config_ProxyLogFlushInterval].
    split_and!; try done.
    + unfold Crypto_New. by rewrite decide_False by naive_solver.
    + apply intOr_spec.
    + rewrite intOr_spec. destruct (Atoi _) as [n|] eqn:En; [by eapply Atoi_int64|done].
    + repeat constructor; unfold durationOr; repeat case_decide; done || naive_solver.
Qed.

(** ** Witnesses and behaviour *)

Definition demo_durations : Durations := λ s, if decide (s = "0s") then Some 0%Z else None.

(** The environment of .env.example, with the interval [flush]. *)
Definition demo_env (flush : string) (k : string) : string :=
  if decide (k = "DATABASE_URL") then "postgres://app" else
  if decide (k = "ENCRYPTION_KEY") then "MDEyMzQ1Njc4OWFiY2RlZjAxMjM0NTY3ODlhYmNkZWY=" else
  if decide (k = "JWT_SECRET") then "secret" else
  if decide (k = "PROXY_LOG_FLUSH_INTERVAL") then flush else
  if decide (k = "PROXY_LOG_BATCH_SIZE") then "-7" else EmptyString.

Definition demo_config (flush : string) : option Config :=
  match Load (H := demo_durations) (demo_env flush) with Returns (inr cfg) => Some cfg | _ => None end.

Lemma demo_config_result :
  (λ c, (Config_EncryptionKey c, Config_ProxyLogBatchSize c, Config_ProxyLogFlushInterval c)) <$> demo_config "" =
  Some (demo_key, -7, 500000000)%Z.
Proof. vm_compute. reflexivity. Qed.

(** A zero interval is accepted by Load, and its worker panics when it starts. *)
Definition demo_log_writer (flush : string) : option (run_state * World (PL := demo)) :=
  cfg ← demo_config flush;
  AsyncAccessLogger_Run (PL := demo)
    (NewAsyncAccessLogger (Config_ProxyLogBatchSize cfg) (Config_ProxyLogFlushInterval cfg)) [] (demo_world empty_DB).

Definition demo_starts (flush : string) : bool * bool :=
  (bool_decide (is_Some (demo_config flush)), bool_decide (is_Some (demo_log_writer flush))).

Lemma zero_interval_panics : demo_starts "" = (true, true) ∧ demo_starts "0s" = (true, false).
Proof. split; vm_compute; reflexivity. Qed.
