(* ===== verification/System.v ===== *)
(** * cmd/server: the program as a whole (main.go)

    [deploy] wires the components as [run] does; [operation] lists the programs
    that the servers and the workers start.  Any number of them run
    concurrently, interaction by interaction, with any failures.  Every one of
    them writes through the statements of [Tables] only; what [Tables] proves of
    the statements holds of the running program. *)

From S2P Require Import Prelude GoStrings Encoding Domain Http Url Mux Markup PubSub Schema Platform Effects Pool Interfaces RepoLinks RepoUsers RepoSessions RepoGuests RepoLogs Policy Blacklist Limiter Links Enforcement Crypto Import Injector Auth Tables Director Proxy LogWriter Middleware Templates Rest Ownership Feed Grpc WebUI Router Config.

Open Scope go_scope.

(** ** Definitions *)

(** What [run] builds from the configuration, apart from the connections. *)
Record Deployment := mkDeployment {
  dep_cipher : Cipher;
  dep_auth : AuthService;
  dep_log : AsyncAccessLogger }.

Definition deploy (cfg : Config) : go_error + Deployment :=
  match Crypto_New (Config_EncryptionKey cfg) with
  | inl err => inl err
  | inr cipher =>
      inr (mkDeployment cipher (mkAuthService (Config_JWTSecret cfg) (Config_AccessTokenTTL cfg))
             (NewAsyncAccessLogger (Config_ProxyLogBatchSize cfg) (Config_ProxyLogFlushInterval cfg)))
  end.

(** What the libraries answer while [run] starts: [pgxpool.New], [redis.ParseURL],
    the Ping of the Redis client and [net.Listen]. *)
Record Outside := mkOutside {
  pgxpool_New : string → go_error + unit;
  redis_ParseURL : string → go_error + unit;
  redis_Ping : go_error + unit;
  net_Listen : string → go_error + unit }.

(** [run] up to the start of the servers; a missing DATABASE_URL panics. *)
Definition startup {PL : Platform} `{Durations} (Getenv : string → string) (o : Outside) : go_result (M Deployment) :=
  match Load Getenv with
  | Panic msg => Panic msg
  | Returns loaded => Returns (
      bind (lift loaded) (λ cfg,
      bind (lift (deploy cfg)) (λ dep,
      bind (NewPool (pgxpool_New o (Config_DatabaseURL cfg))) (λ _,
      bind (lift (redis_ParseURL o (Config_RedisURL cfg))) (λ _,
      bind (lift (redis_Ping o)) (λ _,
      bind (lift (net_Listen o (":" +:+ Config_GRPCPort cfg))) (λ _, ret dep)))))))
  end.

Section system.
Context {PL : Platform} `{Bcrypt} `{SHA256} `{JWT} `{AEAD} `{JSONDecoder} `{RegexpLib} `{Transport} `{URLLib} `{Chi}.
Context (dep : Deployment).

Definition proxyHandler : Handler :=
  mkHandler (dep_cipher dep) (Some (EnforcementService true)) (Some (AsyncLogger (dep_log dep))).

Definition controlPlane : Server := mkServer (dep_auth dep) (dep_cipher dep).

(** The handler of /healthz. *)
Definition healthz : P Reply :=
  let* p := pool_Ping in
  Ret (match p with
       | inl err => reply StatusServiceUnavailable (Text ("db unreachable: " +:+ Error_text err))
       | inr _ => reply StatusOK (Text "ok")
       end).

(** The answers of a router to what has no row. *)
Definition not_found : Reply := reply_Error "404 page not found" StatusNotFound.

Definition serve_routed {E} (serve : E → Request → P Reply) (e : routed E) (r : Request) : P Reply :=
  match e with
  | Routed e => serve e r
  | MethodNotAllowed => Ret (reply StatusMethodNotAllowed Empty)
  | NotFound => Ret not_found
  end.

(** What the client gets: the proxy writes itself. *)
Inductive answer : Type :=
| Proxied (o : outcome)
| Replied (rep : Reply).

Definition replied (p : P Reply) : P answer := let* rep := p in Ret (Replied rep).

(** The handler [mux] of [srv]: the request [r] with the target [u]; [form] is
    [Request.FormValue], [tls] and [streaming] tell about the connection. *)
Definition serve_http (form : Request → string → string) (streaming tls : bool) (u : Target)
    (rw : ResponseWriter) (r : Request) : P answer :=
  match dispatch form streaming u r with
  | DispatchProxy r' => let* o := Handler_ServeHTTP proxyHandler rw r' in Ret (Proxied o)
  | DispatchRest e r' => replied (serve_routed (Server_Routes controlPlane) e r')
  | DispatchDashboard e r' => replied (serve_routed (Dashboard_Routes (dep_auth dep) (dep_cipher dep) tls) e r')
  | DispatchHealthz => replied healthz
  | DispatchRedirect url => Ret (Replied (reply_Redirect url StatusMovedPermanently))
  | DispatchNotFound => Ret (Replied not_found)
  end.

(** The program of a goroutine, its result dropped. *)
Definition ignoring {A} (p : P A) : P unit := let* _ := p in Ret tt.

(** One HTTP request to the server, or to the proxy, the control plane or the
    dashboard directly, one gRPC call, one check of an event by an open feed, one turn of a worker. *)
Inductive operation : P unit → Prop :=
| op_http form streaming tls u rw r : operation (ignoring (serve_http form streaming tls u rw r))
| op_guest rw r : operation (ignoring (Handler_ServeHTTP proxyHandler rw r))
| op_rest e r : operation (ignoring (Server_Routes controlPlane e r))
| op_dashboard tls e r : operation (ignoring (Dashboard_Routes (dep_auth dep) (dep_cipher dep) tls e r))
| op_grpc_import md req : operation (ignoring (grpc_ImportSession (dep_cipher dep) md req))
| op_grpc_stream md link : operation (ignoring (grpc_StreamLinkActivity md link))
| op_stream_event u filterID evt : operation (ignoring (stream_wanted u filterID evt))
| op_sse_event u link : operation (ignoring (owns u link))
| op_sync : operation (ignoring SyncWorker_flushOnce)
| op_log_flush batch : operation (ignoring (flush batch)).

(** ** Specification *)

(** The text [Encrypt] returns under the program's key. *)
Definition sealed_by (c : Cipher) (s : string) : Prop :=
  ∃ nonce p, String.length nonce = NonceSize ∧ s = stored_form c nonce p.

End system.

(** ** Lemmas *)

Section writes.
Context {PL : Platform} `{Bcrypt} `{SHA256} `{JWT} `{AEAD} `{JSONDecoder} `{RegexpLib} `{Transport} `{URLLib}.
Context (sealed : string → Prop).
Local Abbreviation writes p := (all_atoms (on_db (statements sealed)) p).

Lemma writes_db_eq {A} (p : P A) : all_atoms (on_db eq) p → writes p.
Proof. apply all_atoms_mono. unfold on_db. by intros w w' ->. Qed.

Lemma writes_load_methods l : writes (load_methods l).
Proof.
  induction l as [|e l IH]; [done|]. cbn [load_methods]. unfold BlacklistRepo_blockedMethods. atoms; exact IH.
Qed.

Lemma writes_AutoTerminate id reason : writes (LinkService_AutoTerminate id reason).
Proof. apply atoms_AutoTerminate_step; apply _. Qed.

Lemma writes_TerminateLink u id notes : writes (LinkService_TerminateLink u id notes).
Proof.
  unfold LinkService_TerminateLink. repo_links.
  unfold SharedLinkRepo_OwnerUserID, SharedLinkRepo_GetByID, scanSharedLink, select_id.
  atoms; apply writes_terminate.
Qed.

Lemma writes_CreateLink u input : writes (LinkService_CreateLink u input).
Proof.
  unfold LinkService_CreateLink, create_row, generateLinkToken, link_expiry, attach_all. repo_links. repo_sessions.
  unfold OriginalSessionRepo_GetByID, scanOriginalSession, select_id.
  atoms; first [apply writes_Link | apply writes_Policy_Attach | apply writes_AttachToLink].
Qed.

Lemma writes_flushOnce : writes SyncWorker_flushOnce.
Proof.
  unfold SyncWorker_flushOnce, CounterStore_DirtyLinkIDs, flush_link, CounterStore_ClearDirty, CounterStore_Get.
  repo_guests. atoms; apply writes_Usage.
Qed.

Lemma writes_flush batch : writes (flush batch).
Proof. unfold flush. repo_logs. atoms; apply writes_Logs. Qed.

Lemma writes_bcrypt password : writes (bcrypt_GenerateFromPassword password).
Proof. split; [|done]. intros w. unfold on_db. simpl. reflexivity. Qed.

Lemma writes_owns u link : writes (owns u link).
Proof. unfold owns. repo_links. unfold SharedLinkRepo_OwnerUserID. atoms. Qed.
End writes.

Create HintDb writes.
#[export] Hint Resolve writes_bcrypt writes_load_methods writes_TerminateLink writes_CreateLink writes_flushOnce writes_flush
  writes_owns writes_User writes_Device writes_Device_Delete writes_APIKey writes_Revoke writes_Site writes_Session
  writes_Policy writes_Policy_Delete writes_Endpoint writes_Endpoint_Delete writes_AttachToSite writes_AttachToLink
  writes_Methods : writes.

(** A configuration that loads can be wired. *)
Lemma deploy_loaded `{Durations} Getenv cfg : Load Getenv = Returns (inr cfg) → ∃ dep, deploy cfg = inr dep.
Proof.
  unfold Load. destruct (mustEnv _ _) as [msg|url]; [done|]. intros Hl. injection Hl as Hl.
  destruct (decodeKey _ _ _) as [e|key] eqn:Ek; [done|]. apply decodeKey_inr in Ek as (_ & _ & Hlen).
  cbv zeta in Hl. case_decide; [done|]. injection Hl as <-. unfold deploy, Crypto_New.
  cbn [Config_EncryptionKey]. rewrite decide_False by lia. by eexists.
Qed.

(** The servers start only on a complete configuration, a database that
    answered and a Redis server that did. *)
Lemma startup_inr {PL : Platform} `{Durations} Getenv o m w w' dep :
  startup Getenv o = Returns m → run m w = (w', inr dep) →
  ∃ cfg, Load Getenv = Returns (inr cfg) ∧ deploy cfg = inr dep ∧ w_db w' = w_db w ∧
    pgxpool_New o (Config_DatabaseURL cfg) = inr tt ∧ env_fault (w_tick w) = None ∧
    redis_ParseURL o (Config_RedisURL cfg) = inr tt ∧ redis_Ping o = inr tt ∧
    net_Listen o (":" +:+ Config_GRPCPort cfg) = inr tt.
Proof.
  unfold startup. destruct (Load Getenv) as [msg|loaded]; [done|]. intros [= <-].
  intros (w1 & cfg & E & Hr)%run_bind_inr. injection E as <- ->.
  apply run_bind_inr in Hr as (w2 & d & E & Hr). injection E as <- Hd.
  apply run_bind_inr in Hr as (w3 & [] & E & Hr). unfold NewPool, lift in E. rewrite run_pbind in E. cbn [run fst snd] in E.
  destruct (pgxpool_New _ _) as [err|[]] eqn:Epool; [done|].
  apply run_wrap_inr in E. unfold pool_Ping, sql in E. rewrite run_atom in E.
  apply run_bind_inr in Hr as (w4 & [] & E4 & Hr). injection E4 as <- Hredis.
  apply run_bind_inr in Hr as (w5 & [] & E5 & Hr). injection E5 as <- Hping.
  apply run_bind_inr in Hr as (w6 & [] & E6 & Hr). injection E6 as <- Hlisten. injection Hr as <- <-.
  destruct (env_fault (w_tick w)) as [[[|n] k]|] eqn:Ef; injection E as <-; try done.
  exists cfg. split_and!; done.
Qed.

(** *** Importing stores what Encrypt returned *)

Section import.
Context {PL : Platform} `{AEAD} (cipher : Cipher).
Local Abbreviation R := (on_db (statements (sealed_by cipher))).

Lemma outcomes_rand n : outcomes R (succeeds (λ s, String.length s = n)) (rand_Read n).
Proof.
  intros w _. split; [unfold on_db; simpl; reflexivity|]. cbn [snd].
  destruct (env_random (w_tick w) n) as [s|] eqn:E; [|done]. by apply env_random_length in E.
Qed.

Lemma outcomes_Encrypt p : outcomes R (succeeds (sealed_by cipher)) (Cipher_Encrypt cipher p).
Proof.
  unfold Cipher_Encrypt. eapply guarded_bind; [apply guarded_wrap, outcomes_rand|].
  intros nonce Hn. simpl. by exists nonce, p.
Qed.

Lemma outcomes_encrypt_cookies sid cs :
  outcomes R (succeeds (Forall (λ c, sealed_by cipher (SessionCookie_ValueEncrypted c)))) (encrypt_cookies cipher sid cs).
Proof.
  apply guarded_for_map. intros c. eapply guarded_bind; [apply guarded_wrap, outcomes_Encrypt|]. done.
Qed.

Lemma outcomes_encrypt_tokens sid ts :
  outcomes R (succeeds (Forall (λ t, sealed_by cipher (SessionToken_ValueEncrypted t)))) (encrypt_tokens cipher sid ts).
Proof.
  apply guarded_for_map. intros c. eapply guarded_bind; [apply guarded_wrap, outcomes_Encrypt|]. done.
Qed.

Lemma writes_cookie_batch cs :
  Forall (λ c, sealed_by cipher (SessionCookie_ValueEncrypted c)) cs → all_atoms R (SessionCookieRepo_CreateBatch cs).
Proof.
  intros Hcs. unfold SessionCookieRepo_CreateBatch. induction Hcs as [|c cs Hc Hcs IH]; [done|].
  cbn [for_each]. apply all_atoms_bind; [|intros _; exact IH]. write_step.
Qed.

Lemma writes_token_batch ts :
  Forall (λ t, sealed_by cipher (SessionToken_ValueEncrypted t)) ts → all_atoms R (SessionTokenRepo_CreateBatch ts).
Proof.
  intros Hts. unfold SessionTokenRepo_CreateBatch. induction Hts as [|t ts Ht Hts IH]; [done|].
  cbn [for_each]. apply all_atoms_bind; [|intros _; exact IH]. write_step.
Qed.

Lemma outcomes_Import u domain name url cs ts :
  outcomes R (λ _, True) (SessionImportService_Import cipher u domain name url cs ts).
Proof.
  assert (∀ sid, outcomes R (succeeds (λ _, True)) (store_cookies cipher sid cs)) as Hcs.
  { intros sid. unfold store_cookies. repo_sessions. destruct (0 <? length cs); [|done].
    eapply guarded_bind; [apply outcomes_encrypt_cookies|]. intros rows Hrows.
    apply all_atoms_succeed, all_atoms_wrap, writes_cookie_batch, Hrows. }
  assert (∀ sid, outcomes R (succeeds (λ _, True)) (store_tokens cipher sid ts)) as Hts.
  { intros sid. unfold store_tokens. repo_sessions. destruct (0 <? length ts); [|done].
    eapply guarded_bind; [apply outcomes_encrypt_tokens|]. intros rows Hrows.
    apply all_atoms_succeed, all_atoms_wrap, writes_token_batch, Hrows. }
  apply (guarded_mono _ _ (succeeds (λ _, True))); [done|].
  unfold SessionImportService_Import. repo_sessions.
  eapply guarded_bind; [apply guarded_wrap, all_atoms_succeed, writes_Site|]. intros site _.
  eapply guarded_bind; [apply guarded_wrap, all_atoms_succeed, writes_Session|]. intros session _.
  eapply guarded_bind; [apply Hcs|]. intros [] _. eapply guarded_bind; [apply Hts|]. done.
Qed.
End import.

(** *** The operations *)

Section operations.
Context {PL : Platform} `{Bcrypt} `{SHA256} `{JWT} `{AEAD} `{JSONDecoder} `{RegexpLib} `{Transport} `{URLLib} `{Chi}.
Context (dep : Deployment).

#[export] Instance proxyHandler_laws : HandlerLaws (proxyHandler dep).
Proof. split; intros x [= <-]; apply _. Qed.

Lemma db_verify_JWT token : all_atoms (on_db eq) (AuthService_VerifyJWT (dep_auth dep) token).
Proof. unfold AuthService_VerifyJWT. atoms. Qed.
Lemma db_verify_APIKey token : all_atoms (on_db eq) (AuthService_VerifyAPIKey token).
Proof.
  unfold AuthService_VerifyAPIKey. repo_users. unfold APIKeyRepo_GetByHash, scanAPIKey, select_row. atoms.
Qed.

Lemma writes_verify sealed token :
  all_atoms (on_db (statements sealed)) (verify_token (AuthService_Authenticator (dep_auth dep)) token).
Proof.
  apply writes_db_eq. unfold verify_token, AuthService_Authenticator.
  cbn [Authenticator_VerifyJWT Authenticator_VerifyAPIKey].
  destruct (HasPrefix _ _); [apply db_verify_APIKey|apply db_verify_JWT].
Qed.

(** Every handler of the control plane, but the import. *)
Ltac handler_writes :=
  unfold written, done_or_internal, ownedBlacklistEndpoint, expires_in;
  repo_users; repo_sessions; repo_links; repo_guests; repo_logs;
  unfold UserRepo_GetByID, UserRepo_GetByEmail, scanUser, DeviceRepo_ListByUser,
    APIKeyRepo_ListByUser, TargetSiteRepo_List, OriginalSessionRepo_ListByUser, OriginalSessionRepo_GetByID,
    scanOriginalSession, AccessPolicyRepo_GetByID, AccessPolicyRepo_ListByUser, scanAccessPolicy,
    BlacklistRepo_ListByUser, BlacklistRepo_GetByID, BlacklistRepo_blockedMethods, scanBlacklistedEndpoint,
    SharedLinkRepo_ListByUser, SharedLinkRepo_GetByID, SharedLinkRepo_OwnerUserID, scanSharedLink, GuestRepo_List,
    GuestSessionRepo_ListByLink, ProxyAccessLogRepo_ListByLink, SecurityEventRepo_ListByLink,
    LinkTerminationRepo_GetByLink, LinkTerminationRepo_ListReasons, StatsRepo_GetLinkStats, select_id, select_row;
  atoms; auto with writes.

Lemma writes_serve_public sealed e r : all_atoms (on_db (statements sealed)) (serve_public (controlPlane dep) e r).
Proof.
  destruct e; simpl;
  unfold handleRegister, handleLogin, handleListTargetSites, handleListRevocationReasons, AuthService_Register,
    AuthService_Login, AuthService_issueJWT; handler_writes.
Qed.

Definition imports (e : owner_endpoint) : bool := match e with ImportSession => true | _ => false end.

Lemma writes_serve_owner sealed e u r :
  imports e = false → all_atoms (on_db (statements sealed)) (serve_owner (controlPlane dep) e u r).
Proof.
  destruct e; simpl; try done; intros _;
  unfold handleMe, handleCreateTargetSite, handleListDevices, handleCreateDevice, handleDeleteDevice,
    handleListAPIKeys, handleCreateAPIKey, handleRevokeAPIKey, handleListSessions, handleGetSession,
    handleListPolicies, handleCreatePolicy, handleDeletePolicy, handleListBlacklist, handleCreateBlacklistEndpoint,
    handleDeleteBlacklistEndpoint, handleSetBlockedMethods, handleAttachBlacklistToSite, handleListGuests,
    handleListLinks, handleCreateLink, AuthService_CreateAPIKey; handler_writes.
Qed.

Lemma writes_serve_link sealed e id u r : all_atoms (on_db (statements sealed)) (serve_link e id u r).
Proof.
  destruct e; simpl;
  unfold handleGetLink, handleTerminateLink, handleGetLinkStats, handleGetLinkLogs, handleGetLinkGuestSessions,
    handleGetLinkSecurityEvents, handleGetLinkTermination, handleAttachEndpointToLink; handler_writes.
Qed.

(** The operations satisfy what imports do and statements that store no
    credentials. *)
Section guarded.
Context (I : World → Prop) (R : World → World → Prop).
Context (Hstatements : ∀ w w', on_db (statements (λ _, False)) w w' → R w w').
Context (Himport : ∀ u domain name url cs ts,
  guarded I R (λ _, True) (SessionImportService_Import (dep_cipher dep) u domain name url cs ts)).

Lemma guarded_writes {A} (p : P A) : all_atoms (on_db (statements (λ _, False))) p → guarded I R (λ _, True) p.
Proof. intros Hp. by eapply all_atoms_guarded, all_atoms_mono. Qed.

Lemma guarded_ignoring {A} Q (p : P A) : guarded I R Q p → guarded I R (λ _, True) (ignoring p).
Proof. intros Hp. by eapply guarded_pbind. Qed.

(** A program whose last step maps the result. *)
Lemma guarded_Ret {A B} (p : P A) (f : A → B) :
  guarded I R (λ _, True) p → guarded I R (λ _, True) (let* x := p in Ret (f x)).
Proof. intros Hp. by eapply guarded_pbind. Qed.

Lemma guarded_import {A} u domain name url cs ts (f : go_error + OriginalSession → A) :
  guarded I R (λ _, True)
    (let* s := SessionImportService_Import (dep_cipher dep) u domain name url cs ts in Ret (f s)).
Proof. apply guarded_Ret, Himport. Qed.

Lemma guarded_serve_owner e u r : guarded I R (λ _, True) (serve_owner (controlPlane dep) e u r).
Proof.
  destruct (imports e) eqn:E; [|by apply guarded_writes, writes_serve_owner].
  destruct e; try done. cbn [serve_owner]. unfold handleImportSession, written, controlPlane. cbn [Server_Cipher].
  destruct (decode_importSession _) as [ok req]. destruct (_ || _); [done|]. apply guarded_import.
Qed.

Lemma guarded_RequireAuth next r :
  (∀ u r, guarded I R (λ _, True) (next u r)) →
  guarded I R (λ _, True) (RequireAuth (AuthService_Authenticator (dep_auth dep)) next r).
Proof.
  intros Hn. unfold RequireAuth. destruct (bearerToken r) as [token|]; [|done].
  eapply guarded_pbind; [apply guarded_writes, writes_verify|]. intros [e|u] _; [done|apply Hn].
Qed.

Lemma guarded_Routes e r : guarded I R (λ _, True) (Server_Routes (controlPlane dep) e r).
Proof.
  destruct e as [e|e|link e]; simpl.
  - apply guarded_writes, writes_serve_public.
  - apply guarded_RequireAuth. intros. apply guarded_serve_owner.
  - apply guarded_RequireAuth. intros u r'. apply guarded_writes. unfold RequireLinkOwnership.
    destruct (uuid_Parse link) as [id|]; [|done]. repo_links. unfold SharedLinkRepo_OwnerUserID.
    atoms. apply writes_serve_link.
Qed.

Lemma guarded_serve_dashboard e u r : guarded I R (λ _, True) (serve_dashboard (dep_cipher dep) e u r).
Proof.
  destruct e; cbn [serve_dashboard]; try done.
  - apply guarded_writes. unfold handleLinksList. handler_writes.
  - apply guarded_writes. unfold handleTerminate. handler_writes.
  - unfold handleImportSubmit. apply guarded_import.
  - unfold handleSecurityFeedSSE. destruct (negb _); [done|]. intros w _. split; [apply Hstatements|done].
    unfold on_db. destruct (PubSub.Subscribe _). simpl. reflexivity.
Qed.

Lemma guarded_Dashboard tls e r :
  guarded I R (λ _, True) (Dashboard_Routes (dep_auth dep) (dep_cipher dep) tls e r).
Proof.
  destruct e as [[|form|]|e]; cbn [Dashboard_Routes]; try done.
  - apply guarded_writes. unfold handleLoginSubmit, AuthService_Login, AuthService_issueJWT. handler_writes.
  - unfold RequireSessionCookie. destruct (Request_Cookie _ _) as [c|]; [|done].
    destruct (bool_decide _); [done|].
    eapply guarded_pbind; [apply guarded_writes, writes_db_eq, db_verify_JWT|].
    intros [err|u] _; [done|apply guarded_serve_dashboard].
Qed.

Lemma guarded_authenticate md : guarded I R (λ _, True) (authenticate md AuthService_VerifyAPIKey).
Proof.
  apply guarded_writes, writes_db_eq. unfold authenticate. atoms. apply db_verify_APIKey.
Qed.

Lemma guarded_grpc_import md req : guarded I R (λ _, True) (grpc_ImportSession (dep_cipher dep) md req).
Proof.
  eapply guarded_pbind; [apply guarded_authenticate|]. intros [err|u] _; [done|].
  unfold ImportServer_ImportSession. destruct (_ || _); [done|]. apply guarded_import.
Qed.

Lemma guarded_grpc_stream md link : guarded I R (λ _, True) (grpc_StreamLinkActivity md link).
Proof.
  eapply guarded_pbind; [apply guarded_authenticate|]. intros [err|u] _; [done|].
  assert (∀ filterID : UUID, guarded I R (λ _, True)
    (let* ch := hub_Subscribe in Ret (@inr (option status) (nat * UUID) (ch, filterID)))) as Hsub.
  { intros filterID w _. split; [apply Hstatements|done]. unfold on_db. destruct (PubSub.Subscribe _). simpl. reflexivity. }
  apply guarded_Ret. unfold StreamLinkActivity. destruct (decide _); [apply Hsub|].
  destruct (uuid_Parse link) as [id|]; [|done].
  eapply guarded_pbind; [apply guarded_writes, writes_owns|]. intros [] _; [apply Hsub|done].
Qed.

Lemma guarded_routed {E} (serve : E → Request → P Reply) e r :
  (∀ e r, guarded I R (λ _, True) (serve e r)) → guarded I R (λ _, True) (replied (serve_routed serve e r)).
Proof. intros Hs. apply guarded_Ret. destruct e; cbn [serve_routed]; [apply Hs|done|done]. Qed.

Lemma guarded_healthz : guarded I R (λ _, True) healthz.
Proof. apply guarded_writes, writes_db_eq. unfold healthz, pool_Ping. atoms. Qed.

Lemma guarded_http form streaming tls u rw r :
  guarded I R (λ _, True) (serve_http dep form streaming tls u rw r).
Proof.
  unfold serve_http. destruct (dispatch form streaming u r) as [r'|e r'|e r'| |url|]; try done.
  - apply guarded_Ret, guarded_writes, writes_ServeHTTP; apply _.
  - apply guarded_routed, guarded_Routes.
  - apply guarded_routed. intros. apply guarded_Dashboard.
  - apply guarded_Ret, guarded_healthz.
Qed.

Lemma operation_guarded p : operation dep p → guarded I R (λ _, True) p.
Proof.
  destruct 1; eapply guarded_ignoring.
  - apply guarded_http.
  - apply guarded_writes, writes_ServeHTTP; apply _.
  - apply guarded_Routes.
  - apply guarded_Dashboard.
  - apply guarded_grpc_import.
  - apply guarded_grpc_stream.
  - apply guarded_writes. unfold stream_wanted. destruct (bool_decide _); [done|apply writes_owns].
  - apply guarded_writes, writes_owns.
  - apply guarded_writes, writes_flushOnce.
  - apply guarded_writes, writes_flush.
Qed.
End guarded.

Local Abbreviation R := (on_db (statements (sealed_by (dep_cipher dep)))).

(** Every operation performs statements only, whatever fails. *)
Lemma operation_statements p : operation dep p → outcomes R (λ _, True) p.
Proof.
  apply operation_guarded; [|intros; apply outcomes_Import]. intros w w'. apply statements_mono. done.
Qed.

(** What needs no credentials reads only, but for the registration. *)
Lemma reads_serve_public e r : e ≠ Register → all_atoms (on_db eq) (serve_public (controlPlane dep) e r).
Proof.
  destruct e; intros He; [done|..]; simpl;
  unfold handleLogin, handleListTargetSites, handleListRevocationReasons, AuthService_Login, AuthService_issueJWT; repo_logs;
  handler_writes.
Qed.

Lemma reads_dashboard_public tls e r :
  all_atoms (on_db eq) (Dashboard_Routes (dep_auth dep) (dep_cipher dep) tls (DashPublic e) r).
Proof.
  destruct e; cbn [Dashboard_Routes]; try done.
  unfold handleLoginSubmit, AuthService_Login, AuthService_issueJWT. handler_writes.
Qed.

Lemma run_replied p w : run (replied p) w = ((run p w).1, Replied (run p w).2).
Proof. unfold replied. rewrite run_pbind. by destruct (run p w). Qed.

Lemma replied_reads p w : all_atoms (on_db eq) p → w_db (run (replied p) w).1 = w_db w.
Proof. intros Hp. rewrite run_replied. cbn [fst]. symmetry. by apply (all_atoms_run (on_db eq) p w). Qed.

(** Without a token or a cookie the guarded rows answer at once. *)
Lemma Routes_anonymous e r w : is_public e = false → bearerToken r = None →
  run (Server_Routes (controlPlane dep) e r) w =
  (w, reply_Error "missing or malformed Authorization header" StatusUnauthorized).
Proof. intros He Hr. destruct e; [done|..]; cbn [Server_Routes]; unfold RequireAuth; by rewrite Hr. Qed.

Lemma Dashboard_anonymous tls e r w : Request_Cookie r SessionCookieName = None →
  run (Dashboard_Routes (dep_auth dep) (dep_cipher dep) tls (DashOwner e) r) w =
  (w, reply_Redirect "/dashboard/login" StatusSeeOther).
Proof. intros Hr. cbn [Dashboard_Routes]. unfold RequireSessionCookie. by rewrite Hr. Qed.

(** What the whole program does to the database, under any interleaving. *)
Lemma pool_statements ts ts' w w' :
  Forall (operation dep) ts → rtc pool_step (ts, w) (ts', w') →
  statements (sealed_by (dep_cipher dep)) (w_db w) (w_db w').
Proof.
  intros Hops Hsteps. destruct (outcomes_pool R (λ _, True) _ _ Hsteps) as [Hr _]; [|exact Hr].
  eapply Forall_impl; [exact Hops|]. apply operation_statements.
Qed.
(** A guest's request with the token of a terminated link reaches no target. *)
Lemma closed_link_sends_nothing id l w rw r path :
  db_wf (sealed_by (dep_cipher dep)) (w_db w) → shared_links (w_db w) !! id = Some l →
  SharedLink_Status l = LinkStatusTerminated →
  parseTokenAndPath (URL_Path (Request_URL r)) = Some (SharedLink_Token l, path) →
  w_sent (run (Handler_ServeHTTP (proxyHandler dep) rw r) w).1 = w_sent w.
Proof.
  intros Hwf Hl Hterm Hparse. pose proof (run_ServeHTTP (proxyHandler dep) rw r w) as Hc.
  destruct (run (Handler_ServeHTTP (proxyHandler dep) rw r) w) as [w2 o].
  destruct Hc as [[Hsent _]|(token' & path' & link & gs & plan & url & w1 & w3 & w4 & Hp & Hopen & _)]; [done|].
  exfalso. rewrite Hparse in Hp. simplify_eq. destruct Hopen as ([i Hi] & Ht & _ & Hactive & _).
  assert (i = id) as -> by (eapply (wf_tokens_unique _ _ Hwf); [exact Hi|exact Hl|done]).
  rewrite Hl in Hi. injection Hi as Hi. rewrite <-Hi in Hactive. by rewrite Hterm in Hactive.
Qed.

(** A request alone is one of the interleavings. *)
Lemma run_statements {A} (p : P A) w : operation dep (ignoring p) →
  statements (sealed_by (dep_cipher dep)) (w_db w) (w_db (run p w).1).
Proof.
  intros Hop. pose proof (operation_statements _ Hop) as Ho. apply (outcomes_run _ _ _ w) in Ho as [Hr _].
  unfold ignoring in Hr. rewrite run_pbind in Hr. exact Hr.
Qed.
End operations.

(** ** Properties *)

Section properties.
Context {PL : Platform} `{Bcrypt} `{SHA256} `{JWT} `{AEAD} `{JSONDecoder} `{RegexpLib} `{Transport} `{URLLib} `{Chi}.
Context (dep : Deployment).

(** C6: the database stays well formed.  While any number of guests' requests,
    owners' requests to the REST interface, the dashboard and gRPC, feeds, counter
    flushes and log flushes run concurrently, interaction by interaction and with
    any failures, every table keeps its keys, every reference between the tables
    leads to a row, emails and link tokens stay unique, and every stored
    credential is one that the program's cipher sealed. *)
Theorem system_wf ts ts' w w'
  (Hops : Forall (operation dep) ts) (Hsteps : rtc pool_step (ts, w) (ts', w'))
  (Hwf : db_wf (sealed_by (dep_cipher dep)) (w_db w)) :
  db_wf (sealed_by (dep_cipher dep)) (w_db w').
Proof. eapply statements_wf; [by eapply pool_statements|done]. Qed.

(** C10: credentials at rest.  In a database that the running program wrote to,
    from a well-formed one, the value of every stored cookie and token is the
    sealed form of some plaintext under a nonce of the size GCM wants, and the
    program can decrypt it. *)
Theorem credentials_at_rest `{!AEADLaws _} ts ts' w w'
  (Hops : Forall (operation dep) ts) (Hsteps : rtc pool_step (ts, w) (ts', w'))
  (Hwf : db_wf (sealed_by (dep_cipher dep)) (w_db w)) v
  (Hv : (∃ id c, session_cookies (w_db w') !! id = Some c ∧ SessionCookie_ValueEncrypted c = v) ∨
        (∃ id t, session_tokens (w_db w') !! id = Some t ∧ SessionToken_ValueEncrypted t = v)) :
  ∃ nonce p, String.length nonce = NonceSize ∧ v = stored_form (dep_cipher dep) nonce p ∧
    Cipher_Decrypt (dep_cipher dep) v = inr p.
Proof.
  assert (db_wf (sealed_by (dep_cipher dep)) (w_db w')) as [] by (eapply statements_wf; [by eapply pool_statements|done]).
  assert (sealed_by (dep_cipher dep) v) as (nonce & p & Hn & ->).
  { destruct Hv as [(id & c & Hc & <-)|(id & t & Ht & <-)];
      [exact (wf_sealed_cookies id c Hc)|exact (wf_sealed_tokens id t Ht)]. }
  exists nonce, p. split_and!; [done..|]. by apply Decrypt_stored_form.
Qed.

(** C7: a terminated link stays closed.  Whatever the rest of the program does
    concurrently and whatever fails, a guest who asks with the link's token
    after that is answered without a request to any target site. *)
Theorem terminated_link_stays_closed ts ts' w w' id l
  (Hops : Forall (operation dep) ts) (Hsteps : rtc pool_step (ts, w) (ts', w'))
  (Hwf : db_wf (sealed_by (dep_cipher dep)) (w_db w))
  (Hl : shared_links (w_db w) !! id = Some l) (Hterm : SharedLink_Status l = LinkStatusTerminated) :
  terminated (w_db w') id ∧
  ∀ rw r path, parseTokenAndPath (URL_Path (Request_URL r)) = Some (SharedLink_Token l, path) →
    w_sent (run (Handler_ServeHTTP (proxyHandler dep) rw r) w').1 = w_sent w'.
Proof.
  pose proof (pool_statements dep ts ts' w w' Hops Hsteps) as Hst.
  destruct (hi_links _ _ (statements_history _ _ _ Hst) id l Hl) as (s & Hl' & Hs). specialize (Hs Hterm). subst s.
  split; [by eexists|]. intros rw r path Hparse.
  exact (closed_link_sends_nothing dep id _ w' rw r path (statements_wf _ _ _ Hst Hwf) Hl' eq_refl Hparse).
Qed.

(** C16: a revoked key stays revoked.  Whatever the rest of the program does
    concurrently and whatever fails, its row stays revoked, and a key that
    authenticates afterwards does so by another row, that is not revoked. *)
Theorem revoked_key_stays_revoked ts ts' w w' id k
  (Hops : Forall (operation dep) ts) (Hsteps : rtc pool_step (ts, w) (ts', w'))
  (Hk : api_keys (w_db w) !! id = Some k) (Hrev : is_Some (APIKey_RevokedAt k)) :
  (∃ k', api_keys (w_db w') !! id = Some k' ∧ APIKey_KeyHash k' = APIKey_KeyHash k ∧
     is_Some (APIKey_RevokedAt k')) ∧
  ∀ raw w2 u, run (AuthService_VerifyAPIKey raw) w' = (w2, inr u) →
    ∃ id' k', id' ≠ id ∧ api_keys (w_db w') !! id' = Some k' ∧ APIKey_KeyHash k' = hashAPIKey raw ∧
      APIKey_UserID k' = u ∧ APIKey_RevokedAt k' = None.
Proof.
  pose proof (statements_history _ _ _ (pool_statements dep ts ts' w w' Hops Hsteps)) as Hh.
  destruct (hi_keys _ _ Hh id k Hk) as (k' & Hk' & _ & Hhash & _ & Hrev'). specialize (Hrev' Hrev).
  split; [by exists k'|]. intros raw w2 u [_ (id' & k2 & Hk2 & Hh2 & Hu & Hvalid & _)]%run_VerifyAPIKey_inr.
  exists id', k2. split_and!; try done. intros ->. rewrite Hk' in Hk2. simplify_eq.
  rewrite Hvalid in Hrev'. by destruct Hrev'.
Qed.

(** the audit trail is append-only.  Whatever runs concurrently and whatever
    fails, the access log and the security events only grow at their end, and
    termination records and accounts are neither changed nor removed. *)
Theorem audit_append_only ts ts' w w'
  (Hops : Forall (operation dep) ts) (Hsteps : rtc pool_step (ts, w) (ts', w')) :
  proxy_access_logs (w_db w) `prefix_of` proxy_access_logs (w_db w') ∧
  security_events (w_db w) `prefix_of` security_events (w_db w') ∧
  link_terminations (w_db w) ⊆ link_terminations (w_db w') ∧ users (w_db w) ⊆ users (w_db w').
Proof. by destruct (statements_history _ _ _ (pool_statements dep ts ts' w w' Hops Hsteps)). Qed.

(** the statistics of links are never refreshed: no operation of the program
    does, so that on a database whose view was never filled, the statistics of
    every link are "no data yet" forever, whatever its traffic. *)
Theorem link_stats_stay_empty ts ts' w w' id
  (Hops : Forall (operation dep) ts) (Hsteps : rtc pool_step (ts, w) (ts', w'))
  (Hempty : mv_link_stats (w_db w) = []) :
  let rep := (run (handleGetLinkStats id) w').2 in
  rep = writeJSON StatusOK no_stats ∨ rep = internalError.
Proof.
  pose proof (statements_history _ _ _ (pool_statements dep ts ts' w w' Hops Hsteps)) as Hh.
  unfold handleGetLinkStats, written. rewrite !run_pbind. repo_logs. unfold StatsRepo_GetLinkStats.
  rewrite !run_pbind. read_row res. rewrite (hi_stats _ _ Hh), Hempty in *. cbn [filter] in *.
  destruct res as [e|s]; [|by specialize (Hread s eq_refl)]. cbn [fst snd].
  destruct (errors_Is e pgx_ErrNoRows); cbn [run fst snd]; [by left|by right].
Qed.

(** C9: requests without credentials, over the whole HTTP surface.  Whatever
    target and method: a request with no bearer token and no session cookie, that
    is not a guest's, is answered 401 or sent to the login page on every row
    behind the middlewares, leaving the world as it was; on every other row it
    leaves the database as it was, but for the registration of an account, which
    only POST to its path reaches. *)
Theorem anonymous_requests `{!ChiLaws _} form streaming tls u rw r w
  (Hbearer : bearerToken r = None) (Hcookie : Request_Cookie r SessionCookieName = None) :
  let res := run (serve_http dep form streaming tls u rw r) w in
  match dispatch form streaming u r with
  | DispatchProxy _ => True
  | DispatchRest (Routed (Public Register)) _ => Request_Method r = "POST" ∧ routePath u = "/api/v1/auth/register"
  | DispatchRest (Routed (Owner _)) _ | DispatchRest (Routed (OnLink _ _)) _ =>
      res = (w, Replied (reply_Error "missing or malformed Authorization header" StatusUnauthorized))
  | DispatchDashboard (Routed (DashOwner _)) _ =>
      res = (w, Replied (reply_Redirect "/dashboard/login" StatusSeeOther))
  | _ => w_db res.1 = w_db w
  end.
Proof.
  unfold serve_http. destruct (dispatch form streaming u r) as [r'|e r'|e r'| |url|] eqn:E; cbv zeta; try done.
  - pose proof (dispatch_rest_inv _ _ _ _ _ _ E) as (-> & He). destruct e as [[e|e|p e]| |]; try done.
    + destruct e; [by apply register_row in He|..]; by apply replied_reads, reads_serve_public.
    + cbn [serve_routed]. by rewrite run_replied, Routes_anonymous.
    + cbn [serve_routed]. by rewrite run_replied, Routes_anonymous.
  - pose proof (dispatch_dashboard_inv _ _ _ _ _ _ E) as Hr'. destruct e as [[e|e]| |]; try done.
    + apply replied_reads, reads_dashboard_public.
    + cbn [serve_routed]. rewrite run_replied, Dashboard_anonymous; [done|]. by rewrite Hr'.
  - apply replied_reads. unfold healthz, pool_Ping. atoms.
Qed.

(** C8: the terminate button does what its page says.  When the owner of a page
    clicks the button of a link, the request goes through the server's mux, and
    the answer is a row: the browser's cookie names the owner of the link, the row
    shows the link as terminated and without a button, and from then on, whatever
    the rest of the program does concurrently and whatever fails, no guest's HTTP
    request with the token of this link reaches a target site. *)
Theorem terminate_click_closes `{!ChiLaws _} `{!UuidText PL} `{!PlatformLaws PL} `{!JWTLaws _} `{!Templ}
  form streaming tls p link u rw r w w1 rep
  (Hshown : button_target link ∈ page_targets form p) (Hmethod : Request_Method r = "POST")
  (Htarget : ParseRequestURI (target_action (button_target link)).2 = Some u)
  (Hwf : db_wf (sealed_by (dep_cipher dep)) (w_db w))
  (Hrun : run (serve_http dep form streaming tls u rw r) w = (w1, Replied rep)) (Hok : Reply_status rep = StatusOK) :
  ∃ user l, cookie_authenticates (dep_auth dep) r w user ∧
    shared_links (w_db w) !! SharedLink_ID link = Some l ∧ link_owner (w_db w) l = Some user ∧
    (∃ l', rep = render (LinkRow l') ∧ SharedLink_Status l' = LinkStatusTerminated ∧
       SharedLink_Token l' = SharedLink_Token l ∧ tokens (page_document (LinkRow l')) ≫= token_actions = []) ∧
    ∀ ts ts' w2, Forall (operation dep) ts → rtc pool_step (ts, w1) (ts', w2) →
      ∀ u' rw' r' guest path, dispatch form streaming u' r' = DispatchProxy guest →
        parseTokenAndPath (URL_Path (Request_URL guest)) = Some (SharedLink_Token l, path) →
        w_sent (run (serve_http dep form streaming tls u' rw' r') w2).1 = w_sent w2.
Proof.
  destruct (page_targets_reached form streaming p (button_target link) r Hshown Hmethod) as (u0 & Hu0 & Hd).
  rewrite Htarget in Hu0. injection Hu0 as <-.
  pose proof (run_statements dep (serve_http dep form streaming tls u rw r) w (op_http dep _ _ _ _ _ _)) as Hst.
  rewrite Hrun in Hst. cbn [fst] in Hst. unfold serve_http in Hrun. rewrite Hd, run_replied in Hrun.
  cbn [serve_routed target_row button_target Dashboard_Routes] in Hrun. set (r0 := with_target _ r) in Hrun.
  destruct (run_RequireSessionCookie (dep_auth dep)
    (serve_dashboard (dep_cipher dep) (TerminateRow (uuid_String (SharedLink_ID link)))) r0 w) as [[Hlogin _]|(user & Hauth & Hres)].
  { rewrite Hlogin in Hrun. injection Hrun as _ <-. done. }
  rewrite Hres in Hrun. cbn [serve_dashboard] in Hrun.
  destruct (run (handleTerminate _ user) (tick w)) as [w1' rep'] eqn:Eh. injection Hrun as <- <-.
  destruct (run_handleTerminate_ok _ _ _ _ _ Eh Hok) as (id & l & Hid & Hl & Ho & Hl' & ->).
  rewrite uuid_Parse_String in Hid. injection Hid as <-. exists user, l. split_and!; [done..| |].
  - eexists. split_and!; [done|done|done|]. by rewrite page_actions.
  - intros ts ts' w2 Hops Hsteps u' rw' r' guest path Hguest Hparse.
    pose proof (pool_statements dep ts ts' w1' w2 Hops Hsteps) as Hst2.
    destruct (hi_links _ _ (statements_history _ _ _ Hst2) _ _ Hl') as (s & Hl2 & Hs). specialize (Hs eq_refl). subst s.
    unfold serve_http. rewrite Hguest, run_pbind.
    pose proof (closed_link_sends_nothing dep _ _ w2 rw' guest path
      (statements_wf _ _ _ Hst2 (statements_wf _ _ _ Hst Hwf)) Hl2 eq_refl Hparse) as Hsent.
    by destruct (run (Handler_ServeHTTP _ rw' guest) w2).
Qed.

End properties.

(** ** Witnesses *)

Definition demo_dep : Deployment := mkDeployment (mkCipher demo_key) demo_auth (NewAsyncAccessLogger 2 500000000).

(** Link 5 of user 1 is terminated; key 21 of user 1 is valid, key 22 revoked. *)
Definition demo_sys_db : DB :=
  set_api_keys <[22%N := mkAPIKey 22 1 None (@hashAPIKey demo_sha256 "spk_old") None (Some 5%Z) None 0]>
  (set_api_keys <[21%N := demo_api_key 21 1 "spk_one"]>
  (set_shared_links <[5%N := SharedLink_with_status LinkStatusTerminated demo_shared_link]>
  (set_original_sessions <[2%N := Links.demo_session]>
  (set_target_sites <[3%N := demo_site]>
  (set_users <[1%N := Links.demo_user 1]> empty_DB))))).

Lemma demo_sys_statements sealed : statements sealed empty_DB demo_sys_db.
Proof.
  unfold demo_sys_db. do 6 (eapply rtc_r; [|econstructor; try done; try (by eexists)]); reflexivity.
Qed.

Definition demo_sys_world : World (PL := demo) := demo_world demo_sys_db.

Lemma demo_sys_wf : db_wf (@sealed_by demo_aead (dep_cipher demo_dep)) (w_db demo_sys_world).
Proof. eapply statements_wf; [apply demo_sys_statements|apply db_wf_empty]. Qed.

(** A guest of link 5, an import and a revocation by the owner, and a flush. *)
Definition demo_rest (e : endpoint) (bearer : string) : prog (World (PL := demo)) unit :=
  ignoring (PL := demo)
    (@Server_Routes demo demo_bcrypt demo_sha256 demo_jwt demo_aead demo_json _ _ _ _ _ _ _ _ _ _ _ _ _ _ _ _
       (controlPlane demo_dep) e (demo_call bearer)).

Definition demo_ops : list (prog (World (PL := demo)) unit) :=
  [ignoring (PL := demo) (Handler_ServeHTTP (PL := demo) (H := demo_aead) (H0 := constant_site (Some demo_response))
     (H1 := demo_urls) (proxyHandler (PL := demo) (H4 := demo_regexp) demo_dep) (newRW None) (guest_request "/r/tok/home"));
   demo_rest (Owner ImportSession) "spk_one";
   demo_rest (Owner (RevokeAPIKey (demo_uuid 21))) "spk_one";
   ignoring (PL := demo) (SyncWorker_flushOnce (PL := demo))].

(** The operations in turn, until they are done. *)
Definition demo_turns : list nat := concat (replicate 30 [0; 1; 2; 3]).
Definition demo_end := schedule demo_turns demo_ops demo_sys_world.

Lemma demo_end_finished : forallb finished demo_end.1 = true.
Proof. vm_compute. reflexivity. Qed.

Lemma demo_end_key : APIKey_RevokedAt <$> api_keys (w_db demo_end.2) !! 21%N = Some (Some 6000000000%Z).
Proof. vm_compute. reflexivity. Qed.
Lemma demo_end_cookie : is_Some (session_cookies (w_db demo_end.2) !! 1010%N).
Proof. apply (bool_decide_unpack _). vm_compute. exact I. Qed.

Local Abbreviation demo_uses thm :=
  (thm demo demo_bcrypt demo_sha256 demo_jwt demo_aead demo_json demo_regexp (constant_site (Some demo_response))
     demo_urls demo_chi demo_dep) (only parsing).

Lemma demo_ops_operations : Forall (demo_uses (@operation)) demo_ops.
Proof.
  constructor; [apply op_guest|]. constructor; [apply op_rest|]. constructor; [apply op_rest|].
  constructor; [apply op_sync|constructor].
Qed.

Lemma demo_end_steps : rtc pool_step (demo_ops, demo_sys_world) (demo_end.1, demo_end.2).
Proof. unfold demo_end. rewrite <-surjective_pairing. apply schedule_pool. Qed.

Lemma system_wf_witness : db_wf (@sealed_by demo_aead (dep_cipher demo_dep)) (w_db demo_end.2).
Proof.
  exact (demo_uses (@system_wf) demo_ops demo_end.1 demo_sys_world demo_end.2 demo_ops_operations demo_end_steps demo_sys_wf).
Defined.

Lemma credentials_at_rest_witness :
  ∃ c nonce p, session_cookies (w_db demo_end.2) !! 1010%N = Some c ∧
    SessionCookie_ValueEncrypted c = @stored_form demo_aead (mkCipher demo_key) nonce p.
Proof.
  destruct demo_end_cookie as [c Hc].
  destruct (demo_uses (@credentials_at_rest) demo_ops demo_end.1 demo_sys_world demo_end.2 demo_ops_operations
    demo_end_steps demo_sys_wf (SessionCookie_ValueEncrypted c)) as (nonce & p & _ & Hv & _).
  - left. exists 1010%N, c. exact (conj Hc eq_refl).
  - exists c, nonce, p. exact (conj Hc Hv).
Defined.

Lemma terminated_link_stays_closed_witness :
  w_sent (run (@Handler_ServeHTTP demo demo_aead (constant_site (Some demo_response)) demo_urls _ _ _ _ _
    (@proxyHandler demo demo_regexp demo_dep) (newRW None) (guest_request "/r/tok/home")) demo_end.2).1 = w_sent demo_end.2.
Proof.
  apply (proj2 (demo_uses (@terminated_link_stays_closed) demo_ops demo_end.1 demo_sys_world demo_end.2 5%N
    (SharedLink_with_status LinkStatusTerminated demo_shared_link) demo_ops_operations demo_end_steps demo_sys_wf
    eq_refl eq_refl) (newRW None) (guest_request "/r/tok/home") "/home"). reflexivity.
Defined.

Lemma revoked_key_stays_revoked_witness :
  ∃ k, api_keys (w_db demo_end.2) !! 22%N = Some k ∧ is_Some (APIKey_RevokedAt k).
Proof.
  destruct (proj1 (demo_uses (@revoked_key_stays_revoked) demo_ops demo_end.1 demo_sys_world demo_end.2 22%N
    (mkAPIKey 22 1 None (@hashAPIKey demo_sha256 "spk_old") None (Some 5%Z) None 0) demo_ops_operations demo_end_steps
    eq_refl (ex_intro _ 5%Z eq_refl))) as (k & Hk & _ & Hr).
  exact (ex_intro _ k (conj Hk Hr)).
Defined.

Lemma audit_append_only_witness : users demo_sys_db ⊆ users (w_db demo_end.2).
Proof.
  apply (demo_uses (@audit_append_only) demo_ops demo_end.1 demo_sys_world demo_end.2 demo_ops_operations demo_end_steps).
Defined.

Lemma link_stats_stay_empty_witness :
  (run (@handleGetLinkStats demo _ 5%N) demo_end.2).2 = writeJSON StatusOK no_stats ∨
  (run (@handleGetLinkStats demo _ 5%N) demo_end.2).2 = internalError.
Proof.
  apply (demo_uses (@link_stats_stay_empty) demo_ops demo_end.1 demo_sys_world demo_end.2 5%N demo_ops_operations
    demo_end_steps). reflexivity.
Defined.

Lemma anonymous_requests_witness :
  let r := demo_http "GET" EmptyString EmptyString in
  run (@serve_http demo demo_bcrypt demo_sha256 demo_jwt demo_aead demo_json demo_regexp (constant_site (Some demo_response))
    demo_urls demo_chi demo_dep (FormValue demo_multipart) true true (mkTarget "/api/v1/links" EmptyString EmptyString)
    (newRW None) r) demo_sys_world =
  (demo_sys_world, Replied (reply_Error "missing or malformed Authorization header" StatusUnauthorized)).
Proof.
  pose proof (demo_uses (@anonymous_requests) (FormValue demo_multipart) true true
    (mkTarget "/api/v1/links" EmptyString EmptyString) (newRW None) (demo_http "GET" EmptyString EmptyString)
    demo_sys_world eq_refl eq_refl) as Hr.
  assert (∃ r', @dispatch demo_chi (FormValue demo_multipart) true (mkTarget "/api/v1/links" EmptyString EmptyString)
    (demo_http "GET" EmptyString EmptyString) = DispatchRest (Routed (Owner (ListLinks EmptyString))) r') as [r' E].
  { eexists. vm_compute. reflexivity. }
  cbv zeta in Hr. rewrite E in Hr. exact Hr.
Defined.

(** User 1 clicks the button of link 5, which was active; a guest comes after. *)
Definition demo_click_db : DB :=
  set_shared_links <[5%N := demo_shared_link]>
  (set_original_sessions <[2%N := Links.demo_session]>
  (set_target_sites <[3%N := demo_site]> (set_users <[1%N := Links.demo_user 1]> empty_DB))).

Definition demo_serve_http (u : Target) (r : Request) (w : World (PL := demo)) : World (PL := demo) * answer :=
  run (@serve_http demo demo_bcrypt demo_sha256 demo_jwt demo_aead demo_json demo_regexp (constant_site (Some demo_response))
    demo_urls demo_chi demo_dep (FormValue demo_multipart) true true u (newRW None) r) w.

Definition demo_click := demo_serve_http (mkTarget "/dashboard/links/101/terminate" EmptyString EmptyString)
  demo_session_request (demo_world demo_click_db).

Definition demo_guest (w : World (PL := demo)) : list Request :=
  w_sent (demo_serve_http (mkTarget "/r/tok/home" EmptyString EmptyString) (demo_http "GET" EmptyString EmptyString) w).1.

Lemma demo_click_wf : db_wf (@sealed_by demo_aead (dep_cipher demo_dep)) demo_click_db.
Proof.
  eapply (statements_wf _ empty_DB); [|apply db_wf_empty]. unfold demo_click_db.
  do 4 (eapply rtc_r; [|econstructor; try done; try (by eexists)]); reflexivity.
Qed.

Lemma demo_click_status :
  match demo_click.2 with Replied rep => Reply_status rep = StatusOK | _ => False end.
Proof. vm_compute. reflexivity. Qed.

(** Before the click the guest reaches the site. *)
Lemma demo_guest_before : length (demo_guest (demo_world demo_click_db)) = 1.
Proof. vm_compute. reflexivity. Qed.

Lemma terminate_click_closes_witness : demo_guest demo_click.1 = w_sent demo_click.1.
Proof.
  pose proof demo_click_status as Hstatus. destruct demo_click as [w1 ans] eqn:E. cbn [fst snd] in *.
  destruct ans as [rep|]; try done. unfold demo_click, demo_serve_http in E.
  pose (T := demo_templ). destruct (demo_uses (@terminate_click_closes) (FormValue demo_multipart) true true (LinkRow demo_shared_link) demo_shared_link
    (mkTarget "/dashboard/links/101/terminate" EmptyString EmptyString) (newRW None) demo_session_request
    (demo_world demo_click_db) w1 rep) as (user & l & _ & Hl & _ & _ & Hclosed).
  - left.
  - reflexivity.
  - vm_compute. reflexivity.
  - exact demo_click_wf.
  - exact E.
  - exact Hstatus.
  - assert (l = demo_shared_link) as -> by (vm_compute in Hl; by injection Hl).
    eapply (Hclosed [] [] w1); [constructor|apply rtc_refl|vm_compute; reflexivity|vm_compute; reflexivity].
Defined.
