(* ===== verification/EndToEnd.v ===== *)
(** * From the owner's import to the target site

    The way of imported credentials through the whole program: the JSON text of
    a POST to the REST interface, encoding/json, the handler, the encryption, the
    tables, whatever runs in between, and a guest's request through a link of the
    session, up to the headers the target site receives. *)

From S2P Require Import Prelude GoStrings Domain Http Url Mux Json PubSub Schema Platform Effects Interfaces RepoLinks RepoUsers RepoSessions RepoGuests RepoLogs Policy Blacklist Limiter Links Enforcement Crypto Import Injector Auth Tables Director Cookies Proxy LogWriter Middleware Templates Rest Bodies Ownership Grpc WebUI Router Config System.

Open Scope go_scope.

(** ** Specification *)

(** What becomes of the credentials of a session: nothing. *)
Record credentials_kept (sid : UUID) (d d' : DB) : Prop := {
  ck_sites : target_sites d ⊆ target_sites d';
  ck_session s : original_sessions d !! sid = Some s →
    ∃ s', original_sessions d' !! sid = Some s' ∧ OriginalSession_TargetSiteID s' = OriginalSession_TargetSiteID s;
  ck_cookies : is_Some (original_sessions d !! sid) → cookies_of sid d' ≡ₚ cookies_of sid d;
  ck_tokens : is_Some (original_sessions d !! sid) → tokens_of sid d' ≡ₚ tokens_of sid d }.

(** The headers net/http writes itself, not from the header of a request. *)
Definition net_http_headers : list string := ["Host"; "User-Agent"; "Content-Length"; "Transfer-Encoding"; "Trailer"].

(** What the request [out] that is given to the transport carries for the request
    of a guest.  Its Cookie header has the posted cookies, in some order, as
    [AddCookie] writes them, then the tokens posted for this header, and nothing
    of the guest's; every other header but those of net/http has the tokens
    posted for it after the guest's own values, of which Authorization has none.
    Cookies whose names are tokens and whose values are cookie bytes are read
    back as they were posted, when no token uses the Cookie header. *)
Definition delivers (cs : list CookieInput) (ts : list TokenInput) (guest out : Request) : Prop :=
  let sent := (λ c, mkCookie (CookieInput_Name c) (CookieInput_Value c)) <$> cs in
  (∃ sent' toks, sent' ≡ₚ sent ∧ toks ≡ₚ token_input_values "Cookie" ts ∧
     default [] (Request_Header out !! "Cookie") = cookie_values sent' ++ toks) ∧
  (∀ k, k ∉ "Cookie" :: net_http_headers → ∃ toks, toks ≡ₚ token_input_values k ts ∧
     default [] (Request_Header out !! k) = guest_values (Request_Header guest) k ++ toks) ∧
  (Forall sendable sent → token_input_values "Cookie" ts = [] →
   ∀ name, readCookies (Request_Header out) name ≡ₚ named name sent).

(** ** Lemmas *)

Lemma guarded_sql {PL : Platform} (I : World → Prop) (R : DB → DB → Prop) `{!Reflexive R} {A} (Q : A → Prop)
  (stmt : UUID → GoTime → DB → sql_result A) :
  (∀ w u t a d, I w → stmt u t (w_db w) = inr (a, d) → R (w_db w) d ∧ Q a) →
  guarded I (on_db R) (succeeds Q) (sql stmt).
Proof.
  intros Hs w Hw. unfold on_db.
  destruct (env_fault (w_tick w)) as [[[|k] j]|]; simpl; [done| |];
    (destruct (stmt _ _ (w_db w)) as [e|[a d]] eqn:E; [done|]; by destruct (Hs _ _ _ _ _ Hw E)).
Qed.

#[export] Instance credentials_kept_preorder sid : PreOrder (credentials_kept sid).
Proof.
  split; [by split; eauto|]. intros d1 d2 d3 [Hs Ho Hc Ht] [Hs' Ho' Hc' Ht'].
  assert (is_Some (original_sessions d1 !! sid) → is_Some (original_sessions d2 !! sid)) as Hsome.
  { intros [s E]. destruct (Ho s E) as (s' & -> & _). by eexists. }
  split.
  - by etrans.
  - intros s E. destruct (Ho s E) as (s1 & E1 & T1). destruct (Ho' s1 E1) as (s2 & E2 & T2). exists s2. split; congruence.
  - intros E. rewrite Hc' by auto. auto.
  - intros E. rewrite Ht' by auto. auto.
Qed.

(** Tables other than the four of sessions do not matter. *)
Lemma credentials_kept_same sid d d' :
  target_sites d' = target_sites d → original_sessions d' = original_sessions d →
  session_cookies d' = session_cookies d → session_tokens d' = session_tokens d → credentials_kept sid d d'.
Proof.
  intros Hs Ho Hc Ht. unfold cookies_of, tokens_of. split; unfold cookies_of, tokens_of; rewrite ?Hs, ?Ho, ?Hc, ?Ht; eauto.
Qed.

(** A statement that stores no credentials. *)
Lemma credentials_kept_statement sid d d' : statement (λ _, False) d d' → credentials_kept sid d d'.
Proof.
  destruct 1; try done; try (by apply credentials_kept_same); split; try done; simpl; eauto.
  - intros s E. rewrite lookup_fmap, E. exists (OriginalSession_clear_device id s).
    split; [done|]. unfold OriginalSession_clear_device. by case_decide.
  - by apply insert_subseteq.
  - intros s E. rewrite lookup_insert_ne; [by exists s|congruence].
Qed.

Section import.
Context {PL : Platform} `{AEAD} (cipher : Cipher) (sid : UUID).
Local Abbreviation R := (on_db (credentials_kept sid)).

Definition has_session (w : World) : Prop := is_Some (original_sessions (w_db w) !! sid).

Lemma has_session_kept w w' : has_session w → R w w' → has_session w'.
Proof. intros [s E] [_ Ho _ _]. destruct (Ho s E) as (s' & E' & _). by exists s'. Qed.

Lemma kept_writes w w' : on_db (statements (λ _, False)) w w' → R w w'.
Proof. apply (statements_relation _ (credentials_kept sid)). apply credentials_kept_statement. Qed.

Lemma kept_all_writes {A} (p : P A) : all_atoms (on_db (statements (λ _, False))) p → all_atoms R p.
Proof. apply all_atoms_mono, kept_writes. Qed.

(** The session an import creates is another one. *)
Lemma kept_Create s :
  guarded has_session R (succeeds (λ s', OriginalSession_ID s' ≠ sid)) (OriginalSessionRepo_Create s).
Proof.
  unfold OriginalSessionRepo_Create, scanOriginalSession. apply guarded_wrap, guarded_sql; [apply _|].
  intros w u t a d [s0 E] Hs. cbv zeta in Hs. invert_stmt.
  match goal with Hf : fresh_in _ _ = true |- _ => apply fresh_in_spec in Hf end.
  assert (u ≠ sid) as Hne by congruence. split; [|done].
  split; try done. intros s' E'. simpl. rewrite lookup_insert_ne by done. by exists s'.
Qed.

Lemma kept_cookie_batch cs :
  Forall (λ c, SessionCookie_OriginalSessionID c ≠ sid) cs → all_atoms R (SessionCookieRepo_CreateBatch cs).
Proof.
  intros Hcs. unfold SessionCookieRepo_CreateBatch. induction Hcs as [|c cs Hc Hcs IH]; [done|].
  cbn [for_each]. apply all_atoms_bind; [|intros _; exact IH]. atoms. cbv zeta in *. invert_stmt.
  match goal with Hf : fresh_in _ _ = true |- _ => apply fresh_in_spec in Hf end.
  split; try done; eauto. intros _. unfold cookies_of. simpl. by rewrite filter_rows_insert, decide_False.
Qed.

Lemma kept_token_batch ts :
  Forall (λ t, SessionToken_OriginalSessionID t ≠ sid) ts → all_atoms R (SessionTokenRepo_CreateBatch ts).
Proof.
  intros Hts. unfold SessionTokenRepo_CreateBatch. induction Hts as [|t ts Ht Hts IH]; [done|].
  cbn [for_each]. apply all_atoms_bind; [|intros _; exact IH]. atoms. cbv zeta in *. invert_stmt.
  match goal with Hf : fresh_in _ _ = true |- _ => apply fresh_in_spec in Hf end.
  split; try done; eauto. intros _. unfold tokens_of. simpl. by rewrite filter_rows_insert, decide_False.
Qed.

Lemma kept_Encrypt p : all_atoms R (Cipher_Encrypt cipher p).
Proof. unfold Cipher_Encrypt. atoms. Qed.

Lemma kept_Import u domain name url cs ts :
  guarded has_session R (λ _, True) (SessionImportService_Import cipher u domain name url cs ts).
Proof.
  apply (guarded_mono _ _ (succeeds (λ _, True))); [done|]. unfold SessionImportService_Import. repo_sessions.
  eapply guarded_bind; [apply guarded_wrap, all_atoms_succeed, kept_all_writes, writes_Site|]. intros site _.
  eapply guarded_bind; [apply guarded_wrap, kept_Create|]. intros s Hs. cbv beta in Hs.
  eapply (guarded_bind _ _ (λ _, True)).
  { unfold store_cookies. destruct (0 <? length cs); [|done].
    eapply guarded_bind; [|intros rows Hrows; apply all_atoms_succeed, all_atoms_wrap, kept_cookie_batch, Hrows].
    apply guarded_for_map. intros c. eapply guarded_bind; [apply guarded_wrap, all_atoms_succeed, kept_Encrypt|]. done. }
  intros [] _. eapply (guarded_bind _ _ (λ _, True)); [|done].
  unfold store_tokens. destruct (0 <? length ts); [|done].
  eapply guarded_bind; [|intros rows Hrows; apply all_atoms_succeed, all_atoms_wrap, kept_token_batch, Hrows].
  apply guarded_for_map. intros t. eapply guarded_bind; [apply guarded_wrap, all_atoms_succeed, kept_Encrypt|]. done.
Qed.
End import.

(** The rows of an import, as they are found later. *)
Record imported `{AEAD} (cipher : Cipher) (cs : list CookieInput) (ts : list TokenInput) (site : TargetSite)
    (sid : UUID) (d : DB) : Prop := {
  im_session : ∃ s, original_sessions d !! sid = Some s ∧ target_sites d !! OriginalSession_TargetSiteID s = Some site;
  im_cookies : ∃ rows, cookies_of sid d ≡ₚ rows ∧ Forall2 (cookie_stored cipher) cs rows;
  im_tokens : ∃ rows, tokens_of sid d ≡ₚ rows ∧ Forall2 (token_stored cipher) ts rows }.

Lemma imported_kept `{AEAD} cipher cs ts site sid d d' :
  credentials_kept sid d d' → imported cipher cs ts site sid d → imported cipher cs ts site sid d'.
Proof.
  intros [Hs Ho Hc Ht] [(s & E & Hsite) (rc & Pc & Fc) (rt & Pt & Ft)].
  destruct (Ho s E) as (s' & E' & Hid). split.
  - exists s'. split; [done|]. rewrite Hid. by eapply lookup_weaken.
  - exists rc. split; [|done]. by rewrite Hc by eauto.
  - exists rt. split; [|done]. by rewrite Ht by eauto.
Qed.

(** What an outgoing request delivers, from the plan of the imported rows. *)
Lemma outgoing_delivers {PL : Platform} `{AEAD} cipher cs ts site sid url path guest w w' plan :
  imported cipher cs ts site sid (w_db w) → run (BuildInjectionPlan cipher sid) w = (w', inr plan) →
  delivers cs ts guest (outgoing_request (mkForwardTarget url path plan) guest).
Proof.
  intros [_ (rc & Pc & Fc) (rt & Pt & Ft)] Hb.
  destruct (stored_plan _ _ _ _ _ _ _ _ _ Fc Ft Pc Pt Hb) as (Hcookies & Htokens & Hcan).
  assert (∀ k, k ≠ "User-Agent" → _) as Hout by exact (λ k, outgoing_values (mkForwardTarget url path plan) guest k Hcan).
  cbn [ft_Plan] in Hout. unfold owner_values in Hout. unfold delivers. split_and!.
  - exists (InjectionPlan_Cookies plan), (default [] (InjectionPlan_Headers plan !! "Cookie")).
    split_and!; [done..|]. by rewrite Hout, decide_True.
  - intros k Hk. exists (default [] (InjectionPlan_Headers plan !! k)). split; [done|].
    rewrite Hout by set_solver. by rewrite (decide_False (P := k = "Cookie")) by set_solver.
  - set (sent := _ <$> cs) in *. intros Hsend Hnone name.
    rewrite (readCookies_values _ name (InjectionPlan_Cookies plan)).
    + unfold named. by rewrite Hcookies.
    + by rewrite Hcookies.
    + rewrite Hout, decide_True by done. change (guest_values _ _) with (@nil string). specialize (Htokens "Cookie"). rewrite Hnone in Htokens.
      apply Permutation_nil_r in Htokens. by rewrite Htokens, app_nil_r.
Qed.

Section program.
Context {PL : Platform} `{Bcrypt} `{SHA256} `{JWT} `{AEAD} `{JSONDecoder} `{RegexpLib} `{Transport} `{URLLib} `{Chi}.
Context (dep : Deployment).

(** No operation of the program, whatever runs with it and whatever fails,
    changes the credentials of a session. *)
Lemma pool_keeps_credentials sid ts ts' w w' :
  Forall (operation dep) ts → rtc pool_step (ts, w) (ts', w') → is_Some (original_sessions (w_db w) !! sid) →
  credentials_kept sid (w_db w) (w_db w').
Proof.
  intros Hops Hsteps Hw.
  refine (proj1 (guarded_pool (on_db (credentials_kept sid)) (has_session sid) (has_session_kept sid) (λ _, True) _ _ Hsteps Hw _)).
  eapply Forall_impl; [exact Hops|]. intros p. apply operation_guarded; [apply kept_writes|]. intros. apply kept_Import.
Qed.

(** A guest's request through a link of the imported session. *)
Lemma guest_delivers cs ts site sid id l rw r path w :
  db_wf (sealed_by (dep_cipher dep)) (w_db w) → imported (dep_cipher dep) cs ts site sid (w_db w) →
  shared_links (w_db w) !! id = Some l → SharedLink_OriginalSessionID l = sid →
  parseTokenAndPath (URL_Path (Request_URL r)) = Some (SharedLink_Token l, path) →
  let w' := (run (Handler_ServeHTTP (proxyHandler dep) rw r) w).1 in
  w_sent w' = w_sent w ∨
  ∃ url out, w_sent w' = w_sent w ++ [out] ∧ url_Parse (TargetSite_BaseURL site) = Some url ∧
    Request_Host out = URL_Host url ∧ delivers cs ts r out.
Proof.
  intros Hwf Him Hl Hsid Hparse w'. subst w'. pose proof (run_ServeHTTP (proxyHandler dep) rw r w) as Hc.
  destruct (run (Handler_ServeHTTP (proxyHandler dep) rw r) w) as [w' o]. cbn [fst].
  destruct Hc as [[Hs _]|(token & path' & link & gs & plan & url & w1 & w2 & w3 & Hp & Hopen & Hg & Ha & Hb & Hu & Hs & _ & _ & Hrest)];
    [by left|].
  rewrite Hparse in Hp. injection Hp as <- <-. destruct Hopen as ([i Hi] & Ht & Hj & _).
  assert (i = id) as -> by (eapply (wf_tokens_unique _ _ Hwf); [exact Hi|exact Hl|done]).
  rewrite Hl in Hi. injection Hi as Hi. rewrite <-Hi in Hj.
  destruct (im_session _ _ _ _ _ _ Him) as (s & Es & Esite). unfold join_link in Hj. rewrite Hsid, Es in Hj. cbn in Hj.
  rewrite Esite in Hj. cbn in Hj. injection Hj as <-.
  cbn [LinkWithSession_TargetSite LinkWithSession_OriginalSession] in *. rewrite (wf_sessions _ _ Hwf _ _ Es) in Hb.
  assert (credentials_kept sid (w_db w) (w_db w2)) as Hkept.
  { destruct Hg as ((g & gss & Edb) & _). transitivity (w_db w1); [rewrite Edb; by apply credentials_kept_same|].
    cbn [proxyHandler Handler_Enforcer] in Ha. destruct Ha as (a & Ha & _).
    match type of Ha with run ?p _ = _ => pose proof (all_atoms_run (on_db (credentials_kept sid)) p w1
      (kept_all_writes sid _ (before_writes (λ _, False) _ _ _ _))) as Hk end.
    by rewrite Ha in Hk. }
  pose proof (outgoing_delivers _ _ _ _ _ url path r _ _ _ (imported_kept _ _ _ _ _ _ _ Hkept Him) Hb) as Hd.
  apply served_sent in Hrest; [|apply _]. rewrite Hs in Hrest. destruct Hrest as [Hsent|Hsent]; [by left|right].
  by exists url, (outgoing_request (mkForwardTarget url path plan) r).
Qed.
End program.

(** What the posted credentials are. *)
Definition posted_cookies (b : importSessionRequest) : list CookieInput := cookie_input <$> importSessionRequest_Cookies b.
Definition posted_tokens (b : importSessionRequest) : list TokenInput := token_input <$> importSessionRequest_Tokens b.

Section posting.
Context {PL : Platform} `{Bcrypt} `{SHA256} `{JWT} `{!JWTLaws _} `{AEAD} `{!AEADLaws _}
  `{RegexpLib} `{Transport} `{URLLib} `{Chi} `{!ChiLaws _}.
Context (dep : Deployment).

Lemma import_body_decoded b depth rest :
  writable depth (JsObj (body_members (ImportBody b))) → (depth <= max_depth)%N →
  decode_importSession (body_text (ImportBody b) +:+ rest) = (true, b).
Proof.
  intros Hbody Hdepth. unfold body_text. assert (Forall in_int64 []) as Hints by constructor.
  destruct b. cbn [body_members] in *. decode_body Hints.
Qed.

Lemma db_sessions_wf sealed d : db_wf sealed d → sessions_wf d.
Proof.
  intros Hwf. split.
  - exact (wf_cookie_session _ _ Hwf).
  - exact (wf_token_session _ _ Hwf).
  - exact (wf_sites _ _ Hwf).
  - intros id s Hs. split; [by eapply wf_sessions|by eapply wf_session_site].
Qed.

Lemma import_dispatched form streaming u r :
  ParseRequestURI "/api/v1/sessions/import" = Some u → Request_Method r = "POST" →
  dispatch form streaming u r = DispatchRest (Routed (Owner ImportSession)) (with_target u r).
Proof.
  change (ParseRequestURI _) with (Some (clean_target (address_segments (endpoint_address (Owner ImportSession)))
    (endpoint_query (Owner ImportSession)))).
  intros [= <-] Hm. exact (rest_endpoint_dispatched form streaming (Owner ImportSession) r (Forall_nil_2 _) Hm).
Qed.

(** What the answer 201 says. *)
Lemma import_replied b u r w w1 rep :
  db_wf (sealed_by (dep_cipher dep)) (w_db w) → decode_importSession (Request_Body r) = (true, b) →
  run (handleImportSession (controlPlane dep) u r) w = (w1, rep) → Reply_status rep = StatusCreated →
  ∃ s site, rep = writeJSON StatusCreated (JSession s) ∧ OriginalSession_UserID s = u ∧
    TargetSite_BaseDomain site = importSessionRequest_BaseDomain b ∧
    imported (dep_cipher dep) (posted_cookies b) (posted_tokens b) site (OriginalSession_ID s) (w_db w1).
Proof.
  intros Hwf Hdec Hrun Hok. unfold handleImportSession in Hrun. rewrite Hdec in Hrun.
  destruct (_ || _); [by injection Hrun as _ <-|]. unfold written in Hrun. rewrite run_pbind in Hrun.
  match type of Hrun with context [SessionImportService_Import _ _ ?d ?n ?url ?cs ?ts] =>
    pose proof (run_Import (dep_cipher dep) u d n url cs ts w (db_sessions_wf _ _ Hwf)) as (sid & _ & _ & Hres) end.
  cbn [controlPlane Server_Cipher] in Hrun.
  destruct (run (SessionImportService_Import _ _ _ _ _ _ _) w) as [w2 [e|s]]; cbn [fst snd run] in *;
    injection Hrun as <- <-; [done|].
  destruct Hres as (<- & Hs & Hu & _ & (site & Hsite & Hd) & Hc & Ht). exists s, site. split_and!; [done..|].
  split; [|exact Hc|exact Ht]. exists s. by rewrite Hs, lookup_insert_eq.
Qed.

(** ** Properties *)

(** C5: the credentials an owner posts are the ones the target site receives.  A
    POST of the JSON text of an import to its address, followed by anything, that
    is answered 201 came from an authenticated user, and made a session of that
    user on the site of the posted domain.  From then on, whatever the rest of the
    program does concurrently and whatever fails, a guest's HTTP request through a
    link of that session reaches no target, or the one request given to the
    transport goes to the host of that site with the posted tokens under their
    headers and a Cookie header of exactly the posted cookies, as [AddCookie]
    writes them, and the tokens for it: it [delivers] them. *)
Theorem posted_credentials_delivered form streaming tls b depth rest u rw r w w1 rep
  (Htarget : ParseRequestURI "/api/v1/sessions/import" = Some u) (Hmethod : Request_Method r = "POST")
  (Hbody : Request_Body r = body_text (ImportBody b) +:+ rest)
  (Hwritable : writable depth (JsObj (body_members (ImportBody b)))) (Hdepth : (depth <= max_depth)%N)
  (Hwf : db_wf (sealed_by (dep_cipher dep)) (w_db w))
  (Hrun : run (serve_http dep form streaming tls u rw r) w = (w1, Replied rep)) (Hok : Reply_status rep = StatusCreated) :
  ∃ user s site, authenticated (dep_auth dep) r w user ∧ rep = writeJSON StatusCreated (JSession s) ∧
    OriginalSession_UserID s = user ∧ TargetSite_BaseDomain site = importSessionRequest_BaseDomain b ∧
    ∀ ts ts' w2, Forall (operation dep) ts → rtc pool_step (ts, w1) (ts', w2) →
      ∀ id l u' rw' r' guest path,
        shared_links (w_db w2) !! id = Some l → SharedLink_OriginalSessionID l = OriginalSession_ID s →
        dispatch form streaming u' r' = DispatchProxy guest →
        parseTokenAndPath (URL_Path (Request_URL guest)) = Some (SharedLink_Token l, path) →
        let w3 := (run (serve_http dep form streaming tls u' rw' r') w2).1 in
        w_sent w3 = w_sent w2 ∨
        ∃ url out, w_sent w3 = w_sent w2 ++ [out] ∧ url_Parse (TargetSite_BaseURL site) = Some url ∧
          Request_Host out = URL_Host url ∧ delivers (posted_cookies b) (posted_tokens b) guest out.
Proof.
  pose proof (import_dispatched form streaming u r Htarget Hmethod) as Hd.
  pose proof (run_statements dep (serve_http dep form streaming tls u rw r) w (op_http dep _ _ _ _ _ _)) as Hst.
  rewrite Hrun in Hst. cbn [fst] in Hst. unfold serve_http in Hrun. rewrite Hd, run_replied in Hrun.
  cbn [serve_routed Server_Routes] in Hrun. set (r0 := with_target _ r) in Hrun.
  assert (decode_importSession (Request_Body r0) = (true, b)) as Hdec.
  { cbn [r0 with_target Request_Body]. rewrite Hbody. by eapply import_body_decoded. }
  destruct (run_RequireAuth (dep_auth dep) (serve_owner (controlPlane dep) ImportSession) r0 w) as [[Hno _]|(user & w0 & Hauth & Hdb & Hres)].
  { injection Hrun as _ <-. rewrite Hok in Hno. done. }
  cbn [controlPlane Server_Auth] in Hrun. rewrite Hres in Hrun. cbn [serve_owner] in Hrun.
  destruct (run (handleImportSession _ user r0) w0) as [w1' rep'] eqn:Eh. injection Hrun as <- <-.
  rewrite <-Hdb in Hwf.
  destruct (import_replied b user r0 w0 w1' rep' Hwf Hdec Eh Hok) as (s & site & Hrep & Hu & Hdom & Him).
  rewrite Hdb in Hwf. exists user, s, site. split_and!; [done..|].
  intros ts ts' w2 Hops Hsteps id l u' rw' r' guest path Hl Hlink Hguest Hparse w3. subst w3.
  destruct (im_session _ _ _ _ _ _ Him) as (s1 & Es1 & _).
  pose proof (pool_keeps_credentials dep _ _ _ _ _ Hops Hsteps (mk_is_Some _ _ Es1)) as Hkept.
  pose proof (statements_wf _ _ _ (pool_statements dep ts ts' w1' w2 Hops Hsteps) (statements_wf _ _ _ Hst Hwf)) as Hwf2.
  unfold serve_http. rewrite Hguest, run_pbind.
  pose proof (guest_delivers dep _ _ _ _ id l rw' guest path w2 Hwf2 (imported_kept _ _ _ _ _ _ _ Hkept Him) Hl Hlink Hparse) as Hg.
  by destruct (run (Handler_ServeHTTP _ rw' guest) w2).
Qed.
End posting.

(** ** Witnesses *)

(** User 1 posts an import and creates a link for the new session; a guest uses
    the link. *)
Definition demo_program (u : Target) (rw : ResponseWriter) (r : Request) : prog (World (PL := demo)) answer :=
  @serve_http demo demo_bcrypt demo_sha256 demo_jwt demo_aead (encoding_json (PL := demo)) demo_regexp
    (constant_site (Some demo_response)) demo_urls demo_chi demo_dep (FormValue demo_multipart) true true u rw r.

Definition demo_post (body : string) : Request :=
  mkRequest "POST" (mkURL EmptyString EmptyString EmptyString EmptyString) {[ "Authorization" := ["Bearer spk_one"] ]}
    "api.example.org" "198.51.100.7:4000" body.

Definition demo_import_post : Request := demo_post (body_text (PL := demo) (ImportBody demo_import_body) +:+ " x").
Definition demo_import_target : Target := mkTarget "/api/v1/sessions/import" EmptyString EmptyString.
Definition demo_posted := run (demo_program demo_import_target (newRW None) demo_import_post) demo_sys_world.

Definition demo_link_body : createLinkRequest := mkCreateLinkRequest 1003 "guests" 3600 [] [].
Definition demo_linking : list (prog (World (PL := demo)) unit) :=
  [ignoring (PL := demo) (demo_program (mkTarget "/api/v1/links" EmptyString EmptyString) (newRW None)
     (demo_post (body_text (PL := demo) (LinkBody demo_link_body))));
   ignoring (PL := demo) (demo_program demo_import_target (newRW None) demo_import_post)].
Definition demo_linked := schedule (concat (replicate 30 [0; 1])) demo_linking demo_posted.1.

Lemma demo_posted_status :
  match demo_posted.2 with Replied rep => Reply_status rep = StatusCreated | _ => False end.
Proof. vm_compute. reflexivity. Qed.

Lemma demo_posted_session :
  match demo_posted.2 with Replied (mkReply _ (Json (JSession s)) _) => OriginalSession_ID s | _ => 0%N end = 1003%N.
Proof. vm_compute. reflexivity. Qed.

Definition demo_new_link : SharedLink :=
  mkSharedLink 1018 1003 "c3Nzc3Nzc3Nzc3Nzc3Nzc3Nzc3Nzc3Nz" LinkStatusActive (Some "guests") 18000000000 (Some 3616000000000%Z).

Definition demo_guest_target : Target := mkTarget "/r/c3Nzc3Nzc3Nzc3Nzc3Nzc3Nzc3Nzc3Nz/home" EmptyString EmptyString.
Definition demo_visitor : Request := demo_http "GET" EmptyString EmptyString.
Definition demo_visit := run (demo_program demo_guest_target (newRW None) demo_visitor) demo_linked.2.

Lemma demo_visit_sends : w_sent demo_visit.1 ≠ w_sent demo_linked.2.
Proof. intros E. apply (f_equal length) in E. vm_compute in E. discriminate. Qed.

Local Abbreviation demo_uses thm :=
  (thm demo demo_bcrypt demo_sha256 demo_jwt demo_aead (encoding_json (PL := demo)) demo_regexp
     (constant_site (Some demo_response)) demo_urls demo_chi demo_dep) (only parsing).

Lemma demo_linking_operations : Forall (demo_uses (@operation)) demo_linking.
Proof. constructor; [apply op_http|]. constructor; [apply op_http|constructor]. Qed.

Lemma posted_credentials_delivered_witness :
  ∃ out, w_sent demo_visit.1 = w_sent demo_linked.2 ++ [out] ∧ Request_Host out = "example.org" ∧
    delivers (posted_cookies demo_import_body) (posted_tokens demo_import_body) (with_target demo_guest_target demo_visitor) out.
Proof.
  pose proof demo_posted_status as Hstatus. destruct demo_posted.2 as [|rep] eqn:E; [destruct Hstatus|].
  destruct (@posted_credentials_delivered demo demo_bcrypt demo_sha256 demo_jwt demo_jwt_laws demo_aead demo_aead_laws
    demo_regexp (constant_site (Some demo_response)) demo_urls demo_chi demo_chi_laws demo_dep (FormValue demo_multipart) true true
    demo_import_body 3 " x" demo_import_target (newRW None) demo_import_post demo_sys_world demo_posted.1 rep)
    as (user & s & site & _ & Hrep & _ & _ & Hlater).
  - vm_compute. reflexivity.
  - reflexivity.
  - reflexivity.
  - exact demo_import_writable.
  - vm_compute. discriminate.
  - exact demo_sys_wf.
  - rewrite <-E. apply surjective_pairing.
  - exact Hstatus.
  - pose proof demo_posted_session as Hid. rewrite E, Hrep in Hid. change (OriginalSession_ID s = 1003%N) in Hid.
    destruct (Hlater demo_linking demo_linked.1 demo_linked.2 demo_linking_operations) with (id := 1018%N) (l := demo_new_link)
      (u' := demo_guest_target) (rw' := newRW None) (r' := demo_visitor) (guest := with_target demo_guest_target demo_visitor)
      (path := "/home") as [Hnone|(url & out & Hsent & Hurl & Hhost & Hd)].
    + unfold demo_linked. rewrite <-surjective_pairing. apply schedule_pool.
    + vm_compute. reflexivity.
    + rewrite Hid. reflexivity.
    + vm_compute. reflexivity.
    + vm_compute. reflexivity.
    + destruct (demo_visit_sends Hnone).
    + exists out. split; [exact Hsent|]. split; [|exact Hd]. injection Hurl as <-. exact Hhost.
Defined.
