(* ===== verification/Lifecycle.v ===== *)
(** * cmd/server: the life of the process (main.go)

    [step] is the process from the moment [run] has started its goroutines to
    the exit of [main]: the three servers with the requests in progress, the two
    workers, the signal, the [select] of [run] and its shutdown sequence.
    [http.Server.Shutdown] of the standard library is modelled; GracefulStop of
    grpc-go is a parameter with its documented behaviour.  The intervals of the
    workers are positive (Config.v tells what happens otherwise). *)

From S2P Require Import Prelude GoStrings Encoding Domain Http Url Mux Markup PubSub Schema Platform Effects Pool Interfaces RepoLinks RepoUsers RepoSessions RepoGuests RepoLogs Policy Blacklist Limiter Links Enforcement Crypto Import Injector Auth Tables Director Proxy LogWriter Middleware Templates Rest Ownership Feed Grpc WebUI Router Config System.

Open Scope go_scope.

(** ** Definitions *)

(** [srv], [grpcServer] and [debugSrv]. *)
Inductive server := HttpServer | GrpcServer | DebugServer.

#[export] Instance server_eq_dec : EqDecision server.
Proof. solve_decision. Defined.

(** Does the handler return by itself?  A feed returns when its client leaves
    (or a write fails).  The connection of a proxied request may be upgraded; it
    is then no longer the server's. *)
Inductive manner := Returning | Proxying | Feeding | Hijacked.

#[export] Instance manner_eq_dec : EqDecision manner.
Proof. solve_decision. Defined.

(** GracefulStop: has it returned, with so many calls in progress? *)
Class Graceful := GracefulStop_returned : nat → bool.

Class GracefulLaws (G : Graceful) : Prop := {
  GracefulStop_waits n : GracefulStop_returned n = true → n = 0;
  GracefulStop_returns : GracefulStop_returned 0 = true }.

Section process.
Context {PL : Platform} `{Bcrypt} `{SHA256} `{JWT} `{AEAD} `{JSONDecoder} `{RegexpLib} `{Transport} `{URLLib} `{Chi}
  `{Graceful}.
Context (dep : Deployment).

(** A request in progress: its server, and what is left of its program. *)
Record call := mkCall { call_server : server; call_manner : manner; call_prog : P unit }.

(** Where [run] is, and what it returned. *)
Inductive main_state :=
| Selecting
| Stopping
| Closing (s : server)
| Returned (err : option go_error)
| Exited (code : Z).

(** [up]: the servers whose goroutine accepts; [deadline]: shutdownCtx is over;
    [syncing]: the worker's turn in progress, [None] when it has returned. *)
Record process := mkProcess {
  main : main_state;
  ctx_done : bool;
  deadline : bool;
  up : list server;
  errCh : list go_error;
  calls : list call;
  syncing : option (P unit);
  logging : run_state;
  world : World }.

Definition set_main m p := mkProcess m (ctx_done p) (deadline p) (up p) (errCh p) (calls p) (syncing p) (logging p) (world p).
Definition set_ctx_done p := mkProcess (main p) true (deadline p) (up p) (errCh p) (calls p) (syncing p) (logging p) (world p).
Definition set_deadline p := mkProcess (main p) (ctx_done p) true (up p) (errCh p) (calls p) (syncing p) (logging p) (world p).
Definition set_up u p := mkProcess (main p) (ctx_done p) (deadline p) u (errCh p) (calls p) (syncing p) (logging p) (world p).
Definition set_errCh e p := mkProcess (main p) (ctx_done p) (deadline p) (up p) e (calls p) (syncing p) (logging p) (world p).
Definition set_calls cs p := mkProcess (main p) (ctx_done p) (deadline p) (up p) (errCh p) cs (syncing p) (logging p) (world p).
Definition set_syncing s p := mkProcess (main p) (ctx_done p) (deadline p) (up p) (errCh p) (calls p) s (logging p) (world p).
Definition set_logging l p := mkProcess (main p) (ctx_done p) (deadline p) (up p) (errCh p) (calls p) (syncing p) l (world p).
Definition set_world w p := mkProcess (main p) (ctx_done p) (deadline p) (up p) (errCh p) (calls p) (syncing p) (logging p) w.

(** The capacity of [errCh]. *)
Definition errCh_cap : nat := 3.

(** The process when [run] reaches its [select]. *)
Definition start (w : World) : process :=
  mkProcess Selecting false false [HttpServer; GrpcServer; DebugServer] [] [] (Some (Ret tt)) (mkRun [] false) w.

(** What a request starts.  The handlers of the debug server are not the
    program's: they leave its state alone. *)
Inductive handles : call → Prop :=
| handles_http form streaming tls u rw r :
    handles (mkCall HttpServer Returning (ignoring (serve_http dep form streaming tls u rw r)))
| handles_feed form tls u rw r r' :
    dispatch form true u r = DispatchDashboard (Routed (DashOwner (SecurityFeedEvents true))) r' →
    handles (mkCall HttpServer Feeding (ignoring (serve_http dep form true tls u rw r)))
| handles_proxy form streaming tls u rw r r' :
    dispatch form streaming u r = DispatchProxy r' →
    handles (mkCall HttpServer Proxying (ignoring (serve_http dep form streaming tls u rw r)))
| handles_import md req : handles (mkCall GrpcServer Returning (ignoring (grpc_ImportSession (dep_cipher dep) md req)))
| handles_stream md link : handles (mkCall GrpcServer Feeding (ignoring (grpc_StreamLinkActivity md link)))
| handles_debug m : handles (mkCall DebugServer m (Ret tt)).

(** The check that an open feed makes of an event. *)
Inductive checks : server → P unit → Prop :=
| checks_sse u link : checks HttpServer (ignoring (owns u link))
| checks_stream u filterID evt : checks GrpcServer (ignoring (stream_wanted u filterID evt)).

(** The calls that the Shutdown or the GracefulStop of a server waits for. *)
Definition awaited (s : server) (c : call) : Prop := call_server c = s ∧ call_manner c ≠ Hijacked.
#[export] Instance awaited_dec s c : Decision (awaited s c).
Proof. apply _. Defined.

Definition waiting (s : server) (p : process) : list call := filter (awaited s) (calls p).

Definition close_server (s : server) (p : process) : process := set_up (filter (.≠ s) (up p)) p.

Definition context_DeadlineExceeded : go_error := ErrNew "context deadline exceeded".

Inductive moves_to : process → process → Prop :=
(** The environment: a signal, the end of shutdownCtx, a server that fails. *)
| step_signal p : moves_to p (set_ctx_done p)
| step_deadline p s : main p = Closing s → moves_to p (set_deadline p)
| step_fail p s err : s ∈ up p → length (errCh p) < errCh_cap →
    moves_to p (set_errCh (errCh p ++ [err]) (close_server s p))
(** The requests: accepted, one interaction, an event for a feed, the end. *)
| step_accept p c : call_server c ∈ up p → handles c → moves_to p (set_calls (calls p ++ [c]) p)
| step_call p i s m R (act : World → World * R) (k : R → P unit) : calls p !! i = Some (mkCall s m (Atom act k)) →
    moves_to p (set_calls (<[i := mkCall s m (k (act (world p)).2)]> (calls p)) (set_world (act (world p)).1 p))
| step_event p i s q : calls p !! i = Some (mkCall s Feeding (Ret tt)) → checks s q →
    moves_to p (set_calls (<[i := mkCall s Feeding q]> (calls p)) p)
| step_hub p a h r : PubSub.hub_step a (w_hub (world p)) = Some (h, r) → moves_to p (set_world (set_hub h (world p)) p)
| step_end p cs1 cs2 s m : calls p = cs1 ++ mkCall s m (Ret tt) :: cs2 → moves_to p (set_calls (cs1 ++ cs2) p)
| step_upgrade p i q : calls p !! i = Some (mkCall HttpServer Proxying q) →
    moves_to p (set_calls (<[i := mkCall HttpServer Hijacked q]> (calls p)) p)
(** The counter worker. *)
| step_sync_tick p : syncing p = Some (Ret tt) → moves_to p (set_syncing (Some (ignoring SyncWorker_flushOnce)) p)
| step_sync p R (act : World → World * R) (k : R → P unit) : syncing p = Some (Atom act k) →
    moves_to p (set_syncing (Some (k (act (world p)).2)) (set_world (act (world p)).1 p))
| step_sync_done p : syncing p = Some (Ret tt) → ctx_done p = true → moves_to p (set_syncing None p)
(** The access log writer. *)
| step_log p ev l w : (ev = EvReceive ∨ ev = EvTick ∨ (ev = EvDone ∧ ctx_done p = true)) →
    log_step (dep_log dep) ev (logging p) (world p) = (l, w) → moves_to p (set_logging l (set_world w p))
(** [run] and [main]. *)
| step_select_err p err rest : main p = Selecting → errCh p = err :: rest →
    moves_to p (set_main (Returned (Some err)) (set_errCh rest p))
| step_select_ctx p : main p = Selecting → ctx_done p = true → moves_to p (set_main Stopping (close_server GrpcServer p))
| step_stopped p : main p = Stopping → GracefulStop_returned (length (waiting GrpcServer p)) = true →
    moves_to p (set_main (Closing DebugServer) (close_server DebugServer p))
| step_debug_closed p : main p = Closing DebugServer → (waiting DebugServer p = [] ∨ deadline p = true) →
    moves_to p (set_main (Closing HttpServer) (close_server HttpServer p))
| step_http_closed p lnerr : main p = Closing HttpServer → waiting HttpServer p = [] → moves_to p (set_main (Returned lnerr) p)
| step_http_deadline p : main p = Closing HttpServer → deadline p = true → waiting HttpServer p ≠ [] →
    moves_to p (set_main (Returned (Some context_DeadlineExceeded)) p)
| step_exit p err : main p = Returned err → moves_to p (set_main (Exited (if err then 1 else 0)) p).

(** Nothing runs after [os.Exit] or the return of [main]. *)
Definition exited (p : process) : Prop := match main p with Exited _ => True | _ => False end.
Definition step (p q : process) : Prop := ¬ exited p ∧ moves_to p q.

End process.

(** ** Specification *)

(** Nothing in progress holds the server. *)
Definition idle {PL : Platform} (s : server) (p : process) : Prop := Forall (λ c, ¬ awaited s c) (calls p).

(** The debug server has been shut down: it is idle or its time was up. *)
Definition debug_closed {PL : Platform} (p : process) : Prop :=
  DebugServer ∉ up p ∧ (idle DebugServer p ∨ deadline p = true).

(** What is known of the servers at each stage of the shutdown. *)
Definition stage {PL : Platform} (p : process) : Prop :=
  match main p with
  | Selecting | Returned (Some _) | Exited 1 => True
  | Stopping => ctx_done p = true ∧ GrpcServer ∉ up p
  | Closing DebugServer => ctx_done p = true ∧ GrpcServer ∉ up p ∧ idle GrpcServer p ∧ DebugServer ∉ up p
  | Closing HttpServer =>
      ctx_done p = true ∧ GrpcServer ∉ up p ∧ idle GrpcServer p ∧ debug_closed p ∧ HttpServer ∉ up p
  | Returned None | Exited 0 =>
      ctx_done p = true ∧ GrpcServer ∉ up p ∧ idle GrpcServer p ∧ debug_closed p ∧ HttpServer ∉ up p ∧ idle HttpServer p
  | _ => False
  end.

(** ** Lemmas *)

Section lemmas.
Context {PL : Platform} `{Bcrypt} `{SHA256} `{JWT} `{AEAD} `{JSONDecoder} `{RegexpLib} `{Transport} `{URLLib} `{Chi}
  `{Graceful} `{!GracefulLaws _}.
Context (dep : Deployment).
Local Abbreviation moves_to := (moves_to dep).
Local Abbreviation step := (step dep).
Local Abbreviation R := (on_db (statements (sealed_by (dep_cipher dep)))).

Lemma waiting_idle s p : waiting s p = [] ↔ idle s p.
Proof.
  unfold waiting, idle. induction (calls p) as [|c cs IH]; [by split|]. rewrite filter_cons, Forall_cons.
  case_decide; [by split; [done|intros [? _]]|]. rewrite IH. tauto.
Qed.

Lemma up_shrinks p q : moves_to p q → up q ⊆ up p.
Proof. destruct 1; cbn; try done; intros s'; rewrite list_elem_of_filter; tauto. Qed.

(** A server that accepts no more has no new calls. *)
Lemma idle_step s p q : moves_to p q → s ∉ up p → idle s p → idle s q.
Proof.
  intros Hstep Hup Hidle. unfold idle in *. destruct Hstep; cbn in *; try done.
  - apply Forall_app. split; [done|]. constructor; [|done]. intros [<- _]. done.
  - apply Forall_insert; [done|]. exact (proj1 (Forall_lookup _ _) Hidle _ _ ltac:(eassumption)).
  - apply Forall_insert; [done|]. exact (proj1 (Forall_lookup _ _) Hidle _ _ ltac:(eassumption)).
  - match goal with E : calls _ = _ |- _ => rewrite E in Hidle end.
    apply Forall_app in Hidle as [? [? ?]%Forall_cons]. by apply Forall_app.
  - apply Forall_insert; [done|]. intros [_ Hm]. by apply Hm.
Qed.

Lemma closed_not_up s p : s ∉ up (close_server s p).
Proof. unfold close_server. cbn. rewrite list_elem_of_filter. by intros [? _]. Qed.

Lemma close_shrinks s s' p : s' ∉ up p → s' ∉ up (close_server s p).
Proof. unfold close_server. cbn. rewrite list_elem_of_filter. tauto. Qed.

(** A step that leaves [main] where it is keeps what is known there. *)
Lemma stage_same p q : moves_to p q → main q = main p → stage p → stage q.
Proof.
  intros Hq Hm. pose proof (up_shrinks _ _ Hq) as Hup.
  assert (∀ s, s ∉ up p → s ∉ up q) as Hnot by set_solver.
  assert (ctx_done p = true → ctx_done q = true) as Hctx by (by destruct Hq).
  assert (deadline p = true → deadline q = true) as Hdl by (by destruct Hq).
  pose proof (λ s, idle_step s _ _ Hq) as Hidle.
  assert (debug_closed p → debug_closed q) as Hdebug by (unfold debug_closed; naive_solver).
  unfold stage. rewrite Hm.
  destruct (main p) as [| |[]|[|]|[|[]|]]; naive_solver.
Qed.

(** The steps of [main] go from stage to stage. *)
Lemma stage_step p q : stage p → step p q → stage q.
Proof.
  intros Hp [Hlive Hq]. pose proof (stage_same _ _ Hq) as Hsame. pose proof (closed_not_up) as Hclosed.
  pose proof close_shrinks as Hshrink. unfold exited in Hlive.
  destruct Hq as [| | | | | | | | | | | | |p err rest E _|p E Hctx|p E Hg|p E Hg|p lnerr E Hw|p E _ _|p err E];
    try (by apply Hsame); clear Hsame; unfold stage in *; rewrite E in Hp; cbn [main set_main] in *.
  - done.
  - split; [done|apply Hclosed].
  - destruct Hp as [Hctx Hup]. split_and!; [done|by apply Hshrink| |apply Hclosed].
    apply GracefulStop_waits, nil_length_inv in Hg. by apply waiting_idle in Hg.
  - destruct Hp as (Hctx & Hup & Hi & Hd). rewrite waiting_idle in Hg.
    split_and!; [done|by apply Hshrink|done|by split; [apply Hshrink|]|apply Hclosed].
  - destruct lnerr; [done|]. apply waiting_idle in Hw. unfold debug_closed in *. cbn in *. tauto.
  - done.
  - by destruct err.
Qed.

(** Every server has room for its error. *)
Lemma room_step p q :
  length (errCh p) + length (up p) <= errCh_cap → step p q → length (errCh q) + length (up q) <= errCh_cap.
Proof.
  intros Hp [_ Hq]. destruct Hq as [| |p s err Hs _| | | | | | | | | | |p err rest _ E|p _ _|p _ _|p _ _| | |]; cbn in *; try done.
  - pose proof (length_filter_lt (.≠ s) (up p) s Hs ltac:(by intros [])). rewrite length_app. simpl. lia.
  - rewrite E in Hp. simpl in Hp. lia.
  - pose proof (length_filter (.≠ GrpcServer) (up p)). lia.
  - pose proof (length_filter (.≠ DebugServer) (up p)). lia.
  - pose proof (length_filter (.≠ HttpServer) (up p)). lia.
Qed.

Lemma reached_stage w p : rtc step (start w) p → stage p ∧ length (errCh p) + length (up p) <= errCh_cap.
Proof.
  intros Hr. refine (rtc_ind_r (λ p, stage p ∧ length (errCh p) + length (up p) <= errCh_cap) (start w) _ _ p Hr).
  - split; [done|]. unfold errCh_cap. simpl. lia.
  - intros q q' _ Hs [Hst Hl]. split; [by eapply stage_step|by eapply room_step].
Qed.

(** *** What the process does to the database *)

Definition runs_statements (q : P unit) : Prop := outcomes R (λ _, True) q.

(** Everything in progress performs statements of the program. *)
Record writes_only (w0 : World) (p : process) : Prop := {
  wo_calls : Forall (λ c, runs_statements (call_prog c)) (calls p);
  wo_sync : ∀ q, syncing p = Some q → runs_statements q;
  wo_world : statements (sealed_by (dep_cipher dep)) (w_db w0) (w_db (world p)) }.

Lemma handles_statements c : handles dep c → runs_statements (call_prog c).
Proof.
  destruct 1; cbn [call_prog]; try done; apply operation_statements;
    first [apply op_http|apply op_grpc_import|apply op_grpc_stream].
Qed.

Lemma checks_statements s q : checks s q → runs_statements q.
Proof. destruct 1; apply (operation_statements dep); [apply op_sse_event|apply op_stream_event]. Qed.

Lemma log_step_statements ev s w s' w' :
  log_step (dep_log dep) ev s w = (s', w') → statements (sealed_by (dep_cipher dep)) (w_db w) (w_db w').
Proof.
  assert (∀ batch w, statements (sealed_by (dep_cipher dep)) (w_db w) (w_db (run (flush batch) w).1)) as Hflush.
  { intros batch w0. apply (all_atoms_run R), writes_flush. }
  unfold log_step. destruct ev as [e| | |].
  - intros [= _ <-]. cbn [run AsyncAccessLogger_Log atom fst]. unfold try_send. by case_decide.
  - destruct (run_stopped s); [by intros [= _ <-]|]. destruct (w_alog w) as [|e rest]; [by intros [= _ <-]|].
    case_match; [|by intros [= _ <-]]. pose proof (Hflush (run_batch s ++ [e]) (set_alog rest w)) as Hf.
    destruct (run _ _). by intros [= _ <-].
  - destruct (run_stopped s); [by intros [= _ <-]|]. pose proof (Hflush (run_batch s) w) as Hf.
    destruct (run _ _). by intros [= _ <-].
  - destruct (run_stopped s); [by intros [= _ <-]|]. pose proof (Hflush (run_batch s) w) as Hf.
    destruct (run _ _). by intros [= _ <-].
Qed.

(** One interaction of a program that performs statements. *)
Lemma atom_statements {T} (act : World → World * T) (k : T → P unit) w0 w :
  runs_statements (Atom act k) → statements (sealed_by (dep_cipher dep)) (w_db w0) (w_db w) →
  runs_statements (k (act w).2) ∧ statements (sealed_by (dep_cipher dep)) (w_db w0) (w_db (act w).1).
Proof. intros Hp Hw. destruct (Hp w I) as [Ha Hk]. split; [exact Hk|]. by etrans. Qed.

Lemma writes_only_step w0 p q : writes_only w0 p → step p q → writes_only w0 q.
Proof.
  intros [Hc Hs Hw] [_ Hq].
  destruct Hq as [| | |p c _ Hh|p i s m T act k E|p i s q E Hk| |p cs1 cs2 s m E|p i q E|p E|p T act k E| |p ev l w _ E| | | | | | |];
    split; cbn in *; try done.
  - apply Forall_app. split; [done|]. constructor; [by apply handles_statements|done].
  - apply Forall_insert; [done|]. pose proof (proj1 (Forall_lookup _ _) Hc _ _ E) as Hp.
    exact (proj1 (atom_statements _ _ _ _ Hp Hw)).
  - pose proof (proj1 (Forall_lookup _ _) Hc _ _ E) as Hp. exact (proj2 (atom_statements _ _ _ _ Hp Hw)).
  - apply Forall_insert; [done|]. by eapply checks_statements.
  - rewrite E in Hc. apply Forall_app in Hc as [? [? ?]%Forall_cons]. by apply Forall_app.
  - apply Forall_insert; [done|]. exact (proj1 (Forall_lookup _ _) Hc _ _ E).
  - intros q [= <-]. apply (operation_statements dep), op_sync.
  - intros q [= <-]. exact (proj1 (atom_statements _ _ _ _ (Hs _ E) Hw)).
  - exact (proj2 (atom_statements _ _ _ _ (Hs _ E) Hw)).
  - etrans; [exact Hw|]. by eapply log_step_statements.
Qed.

Lemma reached_writes w p : rtc step (start w) p → writes_only w p.
Proof.
  intros Hr. refine (rtc_ind_r (writes_only w) (start w) _ _ p Hr).
  - split; cbn; [done| |done]. by intros q [= <-].
  - intros q q' _ Hs Hq. by eapply writes_only_step.
Qed.

(** *** The calls can be ended *)

Lemma call_runs p i s m q : ¬ exited p → calls p !! i = Some (mkCall s m q) →
  rtc step p (set_calls (<[i := mkCall s m (Ret tt)]> (calls p)) (set_world (run q (world p)).1 p)).
Proof.
  revert p. induction q as [[]|T act k IH]; intros p Hlive Hi.
  - rewrite list_insert_id by done. by destruct p.
  - eapply rtc_l; [by split; [|eapply step_call]|].
    pose proof (IH (act (world p)).2 (set_calls (<[i := mkCall s m (k (act (world p)).2)]> (calls p))
      (set_world (act (world p)).1 p)) Hlive) as Hw. cbn in Hw. rewrite list_insert_insert_eq in Hw.
    apply Hw, list_lookup_insert_eq, (lookup_lt_Some _ _ _ Hi).
Qed.

(** A call runs on alone and ends. *)
Lemma call_ends p cs1 s m q cs2 : ¬ exited p → calls p = cs1 ++ mkCall s m q :: cs2 →
  rtc step p (set_calls (cs1 ++ cs2) (set_world (run q (world p)).1 p)).
Proof.
  intros Hlive E. etrans.
  { apply (call_runs p (length cs1) s m q Hlive). rewrite E. by apply list_lookup_middle. }
  apply rtc_once. split; [done|].
  assert (<[length cs1 := mkCall s m (Ret tt)]> (calls p) = cs1 ++ mkCall s m (Ret tt) :: cs2) as ->.
  { rewrite E, <-(Nat.add_0_r (length cs1)). apply (insert_app_r cs1 (mkCall s m q :: cs2) 0). }
  exact (step_end dep (set_calls (cs1 ++ mkCall s m (Ret tt) :: cs2) (set_world (run q (world p)).1 p)) cs1 cs2 s m eq_refl).
Qed.

Lemma calls_end p : ¬ exited p →
  ∃ w, rtc step p (set_calls [] (set_world w p)).
Proof.
  remember (length (calls p)) as n eqn:En. revert p En. induction n as [|n IH]; intros p En Hlive.
  - exists (world p). symmetry in En. apply nil_length_inv in En. rewrite <-En. by destruct p.
  - destruct (calls p) as [|[s m q] cs] eqn:E; [done|]. injection En as ->.
    destruct (IH (set_calls cs (set_world (run q (world p)).1 p)) eq_refl Hlive) as [w Hw]. exists w.
    etrans; [by apply (call_ends p [] s m q cs)|exact Hw].
Qed.

(** *** The shutdown sequence *)

Definition exits_with (code : Z) (p : process) : Prop := ∃ q, rtc step p q ∧ main q = Exited code.

Lemma exits_step code p q : step p q → exits_with code q → exits_with code p.
Proof. intros Hs (q' & Hr & Hm). exists q'. split; [by eapply rtc_l|done]. Qed.

(** To exit it is enough to exit once the calls have ended. *)
Lemma exits_idle code p : ¬ exited p → (∀ w, exits_with code (set_calls [] (set_world w p))) → exits_with code p.
Proof.
  intros Hlive Hq. destruct (calls_end p Hlive) as [w Hr]. destruct (Hq w) as (q & Hr' & Hm).
  exists q. split; [by etrans|done].
Qed.

Lemma exits_returned p err : main p = Returned err → exits_with (if err then 1 else 0) p.
Proof.
  intros E. exists (set_main (Exited (if err then 1 else 0)) p). split; [|done].
  apply rtc_once. split; [unfold exited; rewrite E; tauto|]. by apply step_exit.
Qed.

Local Ltac main_moves E :=
  first [unfold exited; rewrite E; tauto | split; [unfold exited; cbn; rewrite E; tauto|]].

Lemma exits_closing_http p : main p = Closing HttpServer → exits_with 0 p.
Proof.
  intros E. apply exits_idle; [main_moves E|]. intros w. eapply exits_step; [main_moves E|].
  - by apply (step_http_closed dep _ None).
  - by apply (exits_returned _ None).
Qed.

Lemma exits_closing_debug p : main p = Closing DebugServer → exits_with 0 p.
Proof.
  intros E. apply exits_idle; [main_moves E|]. intros w. eapply exits_step; [main_moves E|].
  - apply (step_debug_closed dep); [done|by left].
  - by apply exits_closing_http.
Qed.

Lemma exits_stopping p : main p = Stopping → exits_with 0 p.
Proof.
  intros E. apply exits_idle; [main_moves E|]. intros w. eapply exits_step; [main_moves E|].
  - apply (step_stopped dep); [done|]. apply GracefulStop_returns.
  - by apply exits_closing_debug.
Qed.

Lemma exits_signalled p : main p = Selecting → ctx_done p = true → exits_with 0 p.
Proof.
  intros E Hctx. eapply exits_step; [main_moves E|].
  - by apply (step_select_ctx dep).
  - by apply exits_stopping.
Qed.

End lemmas.

(** ** Properties *)

Section properties.
Context {PL : Platform} `{Bcrypt} `{SHA256} `{JWT} `{AEAD} `{JSONDecoder} `{RegexpLib} `{Transport} `{URLLib} `{Chi}
  `{Graceful} `{!GracefulLaws _}.
Context (dep : Deployment).
Local Abbreviation reaches := (rtc (step dep)).

(** C34: the exit of the server.  Until the exit every server that runs can report
    its failure without blocking: there is room for it in the channel of the
    errors.  The process exits with status 0 only after a signal, when none of
    the three servers accepts any more and every request that the public HTTP
    server and the gRPC server accepted has been answered - but for the
    connections the proxy upgraded -; a dashboard page that stays open therefore
    makes the exit status 1, and a gRPC stream that stays open keeps [run]
    waiting.  A request to the debug server may be left unanswered at exit 0,
    only when the time of the shutdown is over: [run] drops that error. *)
Theorem exit_status w p (Hreach : reaches (start w) p) :
  (∀ s err, s ∈ up p → ¬ exited p → ∃ q, step dep p q ∧ errCh q = errCh p ++ [err] ∧ s ∉ up q) ∧
  (∀ code, main p = Exited code →
     code = 1%Z ∨ (code = 0%Z ∧ ctx_done p = true ∧ (∀ s, s ∉ up p) ∧
       waiting HttpServer p = [] ∧ waiting GrpcServer p = [] ∧
       (waiting DebugServer p = [] ∨ deadline p = true))) ∧
  (∀ c, c ∈ calls p → awaited HttpServer c → ∀ code, main p = Exited code → code = 1%Z) ∧
  (∀ c, c ∈ calls p → awaited GrpcServer c →
     main p = Selecting ∨ main p = Stopping ∨ (∃ err, main p = Returned (Some err)) ∨ main p = Exited 1).
Proof.
  destruct (reached_stage dep w p Hreach) as [Hst Hroom]. unfold stage in Hst. split_and!.
  - intros s err Hs Hlive. exists (set_errCh (errCh p ++ [err]) (close_server s p)).
    split_and!; [split; [done|]|done|apply closed_not_up]. apply step_fail; [done|].
    destruct (up p); [by apply not_elem_of_nil in Hs|]. simpl in Hroom. lia.
  - intros code E. rewrite E in Hst. rewrite !waiting_idle. destruct code as [|[]|]; [right|done|done|by left|done].
    destruct Hst as (? & ? & ? & [? ?] & ? & ?). split_and!; try done. by intros [].
  - intros c Hc Ha code E. rewrite E in Hst. destruct code as [|[]|]; try done.
    destruct Hst as (_ & _ & _ & _ & _ & Hi). by destruct (proj1 (Forall_forall _ _) Hi c Hc).
  - intros c Hc Ha. assert (¬ idle GrpcServer p) as Hi.
    { intros Hi. by destruct (proj1 (Forall_forall _ _) Hi c Hc). }
    destruct (main p) as [| |[]|[|]|[|[]|]]; naive_solver.
Qed.

(** the running process keeps the database well formed.  However the requests
    of the three servers, the open feeds and the two workers interleave, before
    the signal and during the shutdown, whatever is sent and whatever fails: what
    happens to the tables are statements of the program, so a well-formed
    database stays well formed until the exit. *)
Theorem process_wf w p (Hreach : reaches (start w) p) :
  statements (sealed_by (dep_cipher dep)) (w_db w) (w_db (world p)) ∧
  (db_wf (sealed_by (dep_cipher dep)) (w_db w) → db_wf (sealed_by (dep_cipher dep)) (w_db (world p))).
Proof.
  pose proof (wo_world _ _ _ (reached_writes dep w p Hreach)) as Hst. split; [exact Hst|]. by apply statements_wf.
Qed.

(** C35: the shutdown never gets stuck.  From any moment after the signal, whatever
    was in progress, the process can go on to its exit, and with status 0 if
    [run] had not returned yet: it suffices that the handlers run on and the
    clients of the feeds leave. *)
Theorem shutdown_completes w p (Hreach : reaches (start w) p) (Hsignal : ctx_done p = true) :
  match main p with
  | Returned (Some _) | Exited 1 => exits_with dep 1 p
  | _ => exits_with dep 0 p
  end.
Proof.
  destruct (reached_stage dep w p Hreach) as [Hst _]. unfold stage in Hst.
  destruct (main p) as [| |[]|err|[|[]|]] eqn:E; try done.
  - by apply exits_signalled.
  - by apply exits_stopping.
  - by apply exits_closing_http.
  - by apply exits_closing_debug.
  - pose proof (exits_returned dep p err E) as Hr. by destruct err.
  - by exists p.
  - by exists p.
Qed.

End properties.

(** ** Witnesses *)

Definition demo_graceful : Graceful := λ n, bool_decide (n = 0).
#[export] Instance demo_graceful_laws : GracefulLaws demo_graceful.
Proof. split; [intros n Hn; exact (bool_decide_eq_true_1 _ Hn)|reflexivity]. Qed.

Local Abbreviation demo_process := (process (PL := demo)).
Local Abbreviation demo_step := (@step demo demo_bcrypt demo_sha256 demo_jwt demo_aead demo_json demo_regexp
  (constant_site (Some demo_response)) demo_urls demo_chi demo_graceful demo_dep).
Local Abbreviation demo_lemma thm := (thm demo demo_bcrypt demo_sha256 demo_jwt demo_aead demo_json demo_regexp
  (constant_site (Some demo_response)) demo_urls demo_chi demo_graceful) (only parsing).

(** A gRPC stream is open when the signal comes; while GracefulStop waits for it,
    a guest's request is accepted and answered; then the client of the stream
    leaves. *)
Definition demo_stream : call (PL := demo) :=
  mkCall GrpcServer Feeding (ignoring (PL := demo) (grpc_StreamLinkActivity (PL := demo) (H := demo_sha256) None EmptyString)).

Definition demo_late : call (PL := demo) :=
  mkCall HttpServer Proxying (ignoring (PL := demo)
    (@serve_http demo demo_bcrypt demo_sha256 demo_jwt demo_aead demo_json demo_regexp (constant_site (Some demo_response))
      demo_urls demo_chi demo_dep (FormValue demo_multipart) true true (mkTarget "/r/tok/home" EmptyString EmptyString)
      (newRW None) (demo_http "GET" EmptyString EmptyString))).

Definition demo_signalled : demo_process :=
  set_main Stopping (close_server GrpcServer (set_ctx_done (set_calls [demo_stream] (start (demo_world demo_click_db))))).

Lemma demo_signalled_reached : rtc demo_step (start (demo_world demo_click_db)) demo_signalled.
Proof.
  eapply rtc_l; [split; [exact (λ F, F)|apply (demo_lemma (@step_accept) demo_dep _ demo_stream)]|].
  { right. left. }
  { apply handles_stream. }
  eapply rtc_l; [split; [exact (λ F, F)|apply (demo_lemma (@step_signal) demo_dep)]|].
  eapply rtc_l; [split; [exact (λ F, F)|apply (demo_lemma (@step_select_ctx) demo_dep); reflexivity]|].
  apply rtc_refl.
Qed.

Local Tactic Notation "demo_goes" uconstr(law) :=
  eapply rtc_l; [split; [exact (λ F, F)|apply law; reflexivity]|].

(** The guest's request reached the target and was answered, the exit status is 0
    and nothing failed; but both workers had returned at the signal, so that the
    entry of the access log stays in the channel. *)
Lemma late_request_unlogged :
  ∃ p, rtc demo_step (start (demo_world demo_click_db)) p ∧ main p = Exited 0%Z ∧
    length (w_sent (world p)) = 1 ∧ length (w_alog (world p)) = 1 ∧ proxy_access_logs (w_db (world p)) = [].
Proof.
  eexists. split; [etrans; [apply demo_signalled_reached|]|].
  - eapply rtc_l; [split; [exact (λ F, F)|]|].
    { eapply (demo_lemma (@step_log) demo_dep demo_signalled EvDone); [tauto|apply surjective_pairing]. }
    demo_goes (demo_lemma (@step_sync_done) demo_dep).
    eapply rtc_l; [split; [exact (λ F, F)|apply (demo_lemma (@step_accept) demo_dep _ demo_late)]|].
    { left. }
    { eapply handles_proxy. vm_compute. reflexivity. }
    etrans; [eapply (demo_lemma (@call_ends) demo_dep _ [demo_stream]); [exact (λ F, F)|reflexivity]|].
    etrans; [eapply (demo_lemma (@call_ends) demo_dep _ []); [exact (λ F, F)|reflexivity]|].
    demo_goes (demo_lemma (@step_stopped) demo_dep).
    eapply rtc_l; [split; [exact (λ F, F)|apply (demo_lemma (@step_debug_closed) demo_dep); [reflexivity|by left]]|].
    demo_goes (demo_lemma (@step_http_closed) demo_dep _ None).
    demo_goes (demo_lemma (@step_exit) demo_dep).
    apply rtc_refl.
  - split_and!; vm_compute; reflexivity.
Qed.

(** While the stream is open the public server can still fail; a process that has
    answered the guest's request exits with 0, and nothing is left of it. *)
Lemma exit_status_witness :
  (∃ q, demo_step demo_signalled q ∧ errCh q = [context_DeadlineExceeded] ∧ HttpServer ∉ up q) ∧
  ∃ p, rtc demo_step (start (demo_world demo_click_db)) p ∧ main p = Exited 0 ∧ length (w_sent (world p)) = 1 ∧
    ctx_done p = true ∧ (∀ s, s ∉ up p) ∧ waiting HttpServer p = [].
Proof.
  split.
  - destruct (demo_lemma (@exit_status) demo_dep _ _ demo_signalled_reached) as (Hroom & _).
    exact (Hroom HttpServer context_DeadlineExceeded ltac:(left) (λ F, F)).
  - destruct late_request_unlogged as (p & Hr & Hm & Hsent & _). exists p.
    destruct (demo_lemma (@exit_status) demo_dep _ _ Hr) as (_ & Hexit & _).
    destruct (Hexit _ Hm) as [[=]|(_ & Hctx & Hup & Hw & _)]. by split_and!.
Defined.

Lemma process_wf_witness : db_wf (@sealed_by demo_aead (dep_cipher demo_dep)) (w_db (world demo_signalled)).
Proof.
  exact (proj2 (demo_lemma (@process_wf) demo_dep _ _ demo_signalled_reached) demo_click_wf).
Defined.

Lemma shutdown_completes_witness :
  ∃ q, rtc demo_step demo_signalled q ∧ main q = Exited 0.
Proof.
  exact (demo_lemma (@shutdown_completes) demo_dep _ _ demo_signalled_reached eq_refl).
Defined.
